(* ===== verification/_CoqProject ===== *)
-Q . S2P
Prelude.v
JsValue.v
Engine.v
Walks.v
RunOptions.v
Messages.v
Host.v
Tools.v
Stubs.v
GraphAgent.v
CreateAgent.v
FunctionalAgent.v
GraphTrace.v
Trace.v
Regex.v
WikiStubs.v
McpClient.v
DocumentAnalysis.v
AnalysisScript.v
McpProtocol.v
Transparency.v
Connections.v
FanOut.v
Schedule.v
AgentTasks.v
ComplexTools.v
ComplexGraph.v
ComplexScript.v
Enrichment.v
TracedRuns.v
ToolEvents.v
Documentation.v
Config.v
