(* ===== verification/Prelude.v ===== *)
(** * Verification of the lang-sandbox agent programs

    The repository is a set of TypeScript scripts that build agents on a
    chat model with the LangGraph and LangChain libraries. Each script
    declares tools, nodes and routing functions, wires them into a graph
    (or a loop), runs it on an example and prints the result. The
    libraries, the model provider, the MCP server and the tracing service
    are not in the repository; the scripts are. This development models
    every script from its source, the libraries from their contract in
    spec.md, and proves what the runs of the scripts do.

    ** The programs and the files that model them

    - src/graph.ts (lines 1 to 128): the graph agent, two nodes [llmCall]
      and [toolNode] and the conditional edge [shouldContinue] over the
      message channel. File [GraphAgent], module [Graph]; the three
      arithmetic tools and [toolsByName] are module [Calculator] of
      [Tools].
    - graph-trace.ts (second document of src/unnamed/part_001): the same
      agent with console tracing. File [GraphTrace], module [GraphTrace].
    - functional.ts in its three versions (first document of
      src/unnamed/part_001, src/functional.ts,
      src/src/functional/functional-trace.ts): the agent as a
      [while (true)] loop. File [FunctionalAgent], modules
      [FunctionalPlain], [Functional] and [FunctionalTrace], with the
      tool calls of an answer run one after the other; file [AgentTasks],
      modules [PlainTasks], [Tasks] and [TraceTasks], with the tool calls
      as the tasks [Promise.all] gathers, under any timing.
    - src/devin-mcp-graph.ts: the trace utilities (file [Trace]), the class
      [MCPClient], [initMCPClient], the three DeepWiki calls and
      [parseTopicList] (file [McpClient], module [Mcp], with the regular
      expression of the parser on the matcher of file [Regex]), the five
      nodes, the two routing functions, the graph, [runDocumentAnalysis]
      and [main] (file [DocumentAnalysis], module [Devin]). File
      [AnalysisScript] holds what a run of [main] can end with; the files
      [McpProtocol], [Transparency] and [Connections] hold the protocol of
      the connection to the server and the proofs about the requests of
      the script.
    - complex-graph-auto-trace.ts (second document of
      src/unnamed/part_000): the tools [analyzeData], [processText] and
      [calculate] (file [ComplexTools]), the fan-out of [enrichDataNode]
      with [Promise.all] and [Object.assign] (file [FanOut]), the six
      nodes, [routeByCategory], the graph, [runComplexGraph] and the three
      examples of the script (file [ComplexGraph], module [Complex]). File
      [Enrichment] runs the sub-tasks of [enrichDataNode] behind latencies;
      file [ComplexScript] holds what [runComplexGraph] and the whole
      script leave behind.
    - src/real-world.ts and basic.ts (src/unnamed/part_002): two agents
      configured with [createAgent]. File [CreateAgent], modules [Weather]
      and [Basic], on the prebuilt agent of module [Prebuilt].
    - graphs.md (after graph.ts in src/graph.ts) and the README (head of
      src/unnamed/part_000): the drawings of five graphs, the table that
      sums them up and the output example. File [Documentation], module
      [Documented], with the layout [drawMermaid] draws a graph in.
    - The head of every script: the fields given to [new AzureChatOpenAI]
      and to [new CallbackHandler], read from [process.env], and the
      [.env] file of the README. File [Config], modules [Config] and
      [Readme].
    - The options of [graph.invoke] in [runComplexGraph] and
      [runDocumentAnalysis] ([callbacks: [langfuseHandler]]). File
      [TracedRuns], module [Traced], on the executor of [RunOptions]. File
      [ToolEvents], module [Observed], is the complex graph with the calls
      of its tools under the handlers, as the comment above its
      [graph.invoke] says they are.

    ** The libraries, modelled from their contract

    - File [Engine]: the state graph, and the schema of a state declared
      with [Annotation.Root], the channels with their types
      ([StateSchema], [conforms]). A builder records nodes and edges in
      declaration order ([addNode], [addEdge], [addConditionalEdges]);
      [compile] checks names, edge endpoints, the outgoing edge of every
      node and reachability; [walk] executes one node at a time, merges its
      update with the reducer of the [Annotation], resolves the next node
      and stops at [END], on an error, or with [StepLimitExceeded] when its
      fuel, the recursion limit of the run, is used up.
    - File [RunOptions]: the walk under the options of a call, the
      callbacks and the abort signal. The handlers are told when a node is
      entered, when it is left and which edge is taken, and by a tool that
      it is invoked and that it has returned ([invoke_observed]); the
      signal is read between two nodes, and a call that ends with it
      raised ends with [CancellationError]. [recorder] is the handler that
      keeps what it is told, in a record beside the state the nodes run
      on; [logs] is a computation that writes to that record and does
      otherwise what a computation of the script does, and [Log] the
      languages of events such computations can be sequenced in.
    - File [Schedule]: promises of async functions that await. A promise
      is settled or awaits with the rest of its body; [start] calls the
      functions in the order of the array, [resume] runs one piece of one
      sub-task, and [await_all] is [await Promise.all] under a schedule,
      the order in which the runtime resumes the sub-tasks. [then_await]
      is a function that awaits one call, and [await_promise_all] the
      function that goes on with the values of the stage.
    - File [Messages]: the four message classes and the appending reducer
      of [MessagesAnnotation]. File [Tools]: schemas, [parse] and
      [tool_invoke]. File [JsValue]: the values of the language and the
      operators the scripts use.
    - File [Host]: what is outside the process, as type classes. [Runtime]
      holds the pure functions of the runtime ([JSON.stringify],
      [JSON.parse], [String]); [Host] is the model provider, [Clock] the
      clock and the random generator, [McpServer] the MCP server,
      [Langfuse] the tracing handler, each a function of a world the
      program cannot inspect. [Evaluator] (file [ComplexTools]) is the
      [Function] constructor. A theorem proved in a section over these
      classes holds for every runtime and every collaborator; the files
      [Stubs] and [WikiStubs] and the modules [ComplexStub] and
      [WeatherStub] instantiate them for the witnesses.
    - Module [Prebuilt] of [CreateAgent]: the agent [createAgent] returns,
      after the Tool-Calling Loop of the specification (a tool call that
      fails is answered with an error message), with the [Checkpointer]
      interface of the memory, read before the walk and written after it.

    ** State and effects

    A function of the sources that awaits, prints, throws or assigns a
    module-level variable is a computation of the monad [M Σ A], a function
    from the state [Σ] to an outcome [Res A] ([Ok] or [Err]) and a state:
    the state survives an exception. The state of a script is a [Process]:
    the world of the host, the console as the list of the lines printed,
    and the module-level variables of the script ([traceDepth],
    [mcpClient], the store of the [MemorySaver]). [try], [catch] and
    [finally] are [try_catch] and [try_finally]. Outside [Promise.all]
    the scripts are sequential: every [await] is resolved where it stands.
    [Promise.all] gathers sub-tasks in two places. The sub-tasks of
    [enrichDataNode] await nothing: each runs to its end where the array
    is built, in the order of the array, and no other interleaving exists
    ([enrichment_unscheduled]). The tasks [callTool] of the functional
    agents await [tool.invoke] between two lines they print: the order of
    their pieces is the runtime's, and [AgentTasks] runs them under every
    timing. Interleavings are those of [Schedule]: the pieces of sub-tasks
    that await, each run to its end, in any order that respects the order
    of the pieces of each sub-task.

    ** What the theorems show

    - [Walks]: for every graph whose nodes and routing functions keep an
      invariant, the walk keeps it ([walk_safe], [walk_guarded_limit]); on
      a graph without cycle a walk with more fuel than the rank of its
      entry ends at [END] after a path of the graph, or with the error of a
      node ([walk_guarded], [walk_total]); two graphs whose nodes simulate
      each other have walks that simulate each other ([walk_sim],
      [invoke_sim]); what every node and routing function keeps, whether
      it returns or throws, a walk keeps ([walk_stable]); whatever the
      nodes do, the nodes a walk executes follow one another along the
      edges of the graph ([walk_chain]); an invariant of the state that
      the update of every node keeps can be added to the invariant of a
      guarded graph ([guarded_graph_and]).
    - [GraphAgent]: the walk of the compiled graph refines the tool-calling
      loop [ToolLoop] and conversely; the shape of the transcript; the
      number of node executions against the recursion limit; the errors of
      the model and of the tools end the run; with a model that answers
      from what it is sent only, two runs on the same transcript end the
      same ([run_idempotent]).
    - [FunctionalAgent]: the loop computes the transcript of [ToolLoop]
      without its last message; the logging and the tracing versions
      differ from the plain one in the console only; a model that never
      stops asking for tools keeps the loop running for every fuel; with
      a model that answers from what it is sent only, two runs on the
      same transcript end the same ([functional_idempotent]).
    - [AgentTasks]: run as tasks under any timing that resumes each task
      as often as it awaits, the tool calls of an answer give the agent
      the results the sequential round gives, so the three agents return
      the transcript of the sequential agent and fail when it fails
      ([tool_calls_any_timing]); what depends on the timing is the order
      of the lines of several calls and, when several calls fail, which
      error the agent throws; when the model asks for one tool at a time
      nothing does, and the sequential agent is exact, console included
      ([one_call_rounds_exact]); with a model that answers from what it
      is sent only, two runs under two timings end the same, up to which
      error is thrown ([tasks_idempotent]).
    - [GraphTrace]: the traced graph and the graph agent simulate each
      other up to the console.
    - [Trace], [McpClient]: the counter of the trace utilities and when
      [repeat] throws; the singleton of [initMCPClient]; the language of
      the regular expression of [parseTopicList] and the equivalence of
      the parser with its specification by lines.
    - [DocumentAnalysis]: no node throws, the routing functions answer
      with declared labels, every run returns along one of three paths and
      restores the counter; what a failed first fetch does; the state a
      run returns has the channels of [GraphState] only, each with a value
      of the type it is declared with, but for [answer], which holds the
      text of the server whatever its type ([analysis_state_typed]).
    - [AnalysisScript]: the examples of the script throw only what the
      shutdown of the tracing handler throws, because the nodes catch
      what they call and the report of the first example takes its
      preview from contents that the schema keeps a string; the [finally]
      throws only what [close] throws; [main] returns with the features
      of the graph printed or throws one of the two, and the script
      returns ([analysis_main_outcome]).
    - [McpProtocol], [Transparency], [Connections]: the requests the
      document analysis script makes to the MCP server, in order. The
      server, the clock, the model and the tracing service are wrapped
      into collaborators whose world carries the list of the requests made
      so far ([logged]); [Transparency] proves that the script run with
      them simulates the script, so the list is ghost state. The list of a
      run is a run of the protocol of a connection, the automaton [links]:
      a listing, a tool call and a close are asked only while a connection
      the script opened is open ([requests_on_open_connection]). The
      connections still open when the script ends are as many as the
      listings that failed ([open_connections_are_failed_listings]):
      [initMCPClient] forgets a connected client whose listing fails
      without closing it.
    - [ComplexTools], [FanOut], [ComplexGraph]: the behaviour of each tool
      through [tool_invoke], schema errors included; what the fan-out
      stage runs, returns and throws, and which sub-task wins a key; the
      outcome of a run of the complex graph and its effect on the counter;
      the state a run returns keeps the types of [GraphState], but for
      [category] and [confidence], which the model writes
      ([complex_state_typed]).
    - [ComplexScript]: [runComplexGraph] has no [finally]: a run whose
      graph throws skips the exit of the trace and the shutdown of the
      handler, and the first example that fails ends the script. The
      script returns with the counter where it found it and its closing
      lines printed, or throws with the counter two higher when a node
      threw ([complex_script_outcome]).
    - [Schedule], [Enrichment]: sub-tasks that await nothing give the
      sequential stage under every schedule; what every piece of every
      sub-task keeps holds after every interleaving, and a schedule that
      resumes every sub-task as often as it awaits settles the stage; the
      sub-tasks of [enrichDataNode], behind any latencies and under any
      such schedule, return the enrichment the script computes
      ([enrichment_any_schedule]), while the error of a stage in which
      several sub-tasks fail depends on the schedule.
    - [RunOptions], [TracedRuns]: the executor under options with no
      handler and no signal is the executor of [Engine]; handlers whose
      state no node reads change nothing of a run
      ([callbacks_change_nothing]); the record of a run is a function of
      the nodes that completed and of the way the run ended, so the list
      [invoke_trace] returns beside the outcome tells what a sink is told
      ([recorded_walk], [analysis_record], [complex_record]); a run under
      a signal is the run without it or a cancelled prefix of it, and a
      call that ends with the signal raised returns no state
      ([cancelled_agent_run]). A graph whose nodes write to the record
      has the walks of the graph without the writes, and its record is
      the record of the nodes with the log of each node between its entry
      and its exit ([logged_walk]); when every log answers each
      invocation, so does the record ([recorded_answered]).
    - [ToolEvents]: a tool validates its arguments before the handlers
      hear of the call, and the tools of the complex graph return on every
      validated input. A run of the complex graph with its tool calls
      traced ends as the run without options and leaves the same process;
      only the three processing nodes report tools, every invocation is
      followed by its result, also in a run that fails, and a call the
      schema rejects or whose tool is not registered leaves no event
      ([tool_calls_are_traced]).
    - [Config]: the models of the eight scripts are built from the four
      variables the README documents and from nothing else; the README
      sets none of the variables of the tracing handlers; the two traced
      agents list their handler twice for every call of the model.
    - [CreateAgent]: the answers of the two weather tools; a call of the
      agent saves the transcript it returns and fails only by the model
      or the step limit; a second call on the thread continues the first;
      the two questions of real-world.ts leave a transcript that extends
      the first answer, and its script returns whatever [main] throws
      ([weather_main_outcome]); the agent of basic.ts returns a
      transcript that starts with its input ([basic_invoke_outcome]).
    - [Documentation]: the arrows of a drawing are the ways a walk can
      take, and the nodes every run executes follow them
      ([runs_follow_drawings]); the documented drawings are, line by
      line, the drawings of the graphs of the scripts; the rows of the
      table are those the graphs give; the result the README shows is not
      the one src/functional.ts prints, the rest of its example is an
      excerpt of what that script prints, and the agents of src/graph.ts
      and of the plain functional.ts print none of the debugging lines
      the README promises of every agent; the tools, the commands and the
      features the README lists for its four samples are those of the
      scripts ([samples_conform]); the categories of graphs.md are those
      [routeByCategory] knows, while the tool it gives each path is one of
      the three every path is bound to ([categories_conform],
      [any_tool_on_any_path]).
    - Layering: a theorem about a whole script is proved from the Hoare
      triples of its functions, and those from the lemmas of [Walks] and
      of the prelude; a lemma two theorems need ([agent_like],
      [analysis_walk_total], [complex_walk_outcome]) is stated once,
      below both.

    ** Bounds and fuel

    - The recursion limit of a run is the fuel of [walk]; a run that does
      not set one has [default_recursion_limit], 25, the default of the
      library. A walk of [k] rounds of the graph agent executes [2k + 1]
      nodes. The document analysis graph has rank 4 at its entry, so every
      limit from 5 on is enough; the complex graph has rank 3, so every
      limit from 4 on is enough. The theorems are stated for every limit
      above these bounds, not for the default only.
    - The [while (true)] loop of the functional agents takes fuel, the
      number of iterations allowed, and answers [None] when it is used up;
      the theorems that say the loop returns give the fuel that is enough
      (the number of rounds of the loop), and [functional_never_stops]
      says no fuel is enough for a model that always asks for tools.
    - [reach], the reachability check of [compile], iterates once more
      than the graph has nodes, which is enough for a breadth-first search
      to saturate.
    - A connection counts as open from a [connect] that succeeds to the
      next [close], whether the [close] succeeds or fails. The account of
      the connections is proved for runs that start with a trace counter
      of zero or more, the value the script starts with: below zero
      [trace] throws, also between a [connect] and the listing.
    - A schedule is a finite list of positions; a position whose promise
      is settled, or that is outside the array, resumes nothing. A stage
      whose schedule ends before every promise is settled is still
      waiting: its outcome is [None]. [covers] says a schedule resumes
      each sub-task at least as often as [within] bounds its awaits, and
      that is enough for the stage to settle ([await_all_settles]).
    - The timing of the rounds of a functional agent is a function from
      the number of the round to the latencies of the tasks, by position,
      and the order of the resumptions; a task the timing says nothing of
      awaits no turn. A round whose timing does not keep up leaves the
      agent waiting, which is the answer [None] of a loop out of fuel.
    - The abort signal is a predicate of the state, read at the start of
      the walk and after each node: a signal raised while a node runs
      takes effect when the node has returned or thrown.
    - The types of the channels are those of the declarations, read as
      sets of values: [string], [number], [boolean], an object, a union
      of string literals, and [any]. The fields of an object type are not
      checked.
    - Numbers are binary64 floats, the primitive floats of the kernel;
      [traceDepth] is an integer of [Z], a counter that the sources only
      increment and decrement by one. Strings are sequences of code units
      below 256 (a text outside ASCII is the sequence of its UTF-8 bytes):
      [length], [split("")], [reverse] and the case mappings are exact on
      ASCII texts.

    ** Not modelled

    - What the tracing service does with what it is told: in the scripts
      the handler is its trace id and its shutdown, in [RunOptions] a
      function of the events of the nodes, of the edges and of the tools.
      The events of the calls of the model, which the specification does
      not list, the trace the service builds and the delivery of the
      events over the network are not modelled.
    - What the constructors of the model and of the handler do with their
      fields, and the network: the model and the MCP server answer or fail
      as functions of the world. The transport of the MCP SDK (the SSE
      stream, its reconnection and its timeouts) is behind the four
      requests of [McpServer].
    - The interruption of a node in flight by the abort signal, and what
      the runtime runs of the sub-tasks that are still pending when a
      fan-out stage has failed. No script passes a signal to a call: the
      signal is modelled where the executor reads it, between two nodes,
      and a node is one computation; what a request of the model or of
      the MCP server does when its signal is raised while it waits is the
      library's and the network's, and nothing in the sources tells it.
    - Streaming, middleware and the checkpoints the library writes between
      the steps of a walk; the durable execution of [task] and
      [entrypoint] (the results of the tasks the library saves and
      replays).
    - The replacement of a message of the channel by a later message with
      the same id: no script gives its messages an id.
    - The rendering of objects by [console.log]: where a script prints an
      [Error] or an object, the line is its message or its text by
      [String].
    - The prose of graphs.md and of the README around the drawings, the
      table, the samples and the lists of features (installation, build
      commands, links). hello-world.ts, whose drawing graphs.md shows, is
      not among the sources.

    ** This file

    The prelude: the error type of the JavaScript programs, the monad [M]
    in which every effectful function of the sources is written, its
    notations in [js_scope], the generic list traversals the sources use
    ([for ... of] with [await]), simulations and Hoare triples of total
    correctness on [M], and the lemmas and tactics every component
    shares. *)

From stdpp Require Import base option list strings.

Declare Scope js_scope.
Delimit Scope js_scope with js.

(** ** Errors *)

(** The kinds of failure: the five of the engine's taxonomy, and the two
    kinds the sources raise themselves ([TypeError] when a method is read
    off [undefined], [GenericError] for [throw new Error(msg)]). *)
Inductive ErrorKind : Type :=
| ConfigurationError
| ExecutionError
| ValidationError
| StepLimitExceeded
| CancellationError
| TypeError
| RangeError
| SyntaxError
| GenericError.

#[export] Instance ErrorKind_eq_dec : EqDecision ErrorKind.
Proof. solve_decision. Defined.

Record JsError : Type := mkError {
  err_kind : ErrorKind;
  err_message : string;
}.

#[export] Instance JsError_eq_dec : EqDecision JsError.
Proof. solve_decision. Defined.

(** ** Results *)

Inductive Res (A : Type) : Type :=
| Ok (a : A)
| Err (e : JsError).
Arguments Ok {A} a.
Arguments Err {A} e.

#[export] Instance Res_eq_dec `{EqDecision A} : EqDecision (Res A).
Proof. solve_decision. Defined.

Definition is_ok {A} (r : Res A) : bool :=
  match r with Ok _ => true | Err _ => false end.

(** Sequencing of fallible expressions, with the notations of stdpp:
    [x ← e; k] is [k] on the value of [e], or the error of [e]. *)
#[export] Instance Res_ret : MRet Res := λ A, Ok.
#[export] Instance Res_bind : MBind Res :=
  λ A B f r, match r with Ok a => f a | Err e => Err e end.

Definition res_map {A B} (f : A → B) (r : Res A) : Res B :=
  match r with Ok a => Ok (f a) | Err e => Err e end.

#[export] Instance Res_fmap : FMap Res := @res_map.

(** ** The monad of effectful code *)

(** A computation over a process state [Σ]: it returns a value or throws,
    and in both cases leaves a state behind. *)
Definition M (Σ A : Type) : Type := Σ → Res A * Σ.

Section monad.
Context {Σ : Type}.

Definition ret {A} (a : A) : M Σ A := λ σ, (Ok a, σ).

Definition bind {A B} (m : M Σ A) (f : A → M Σ B) : M Σ B :=
  λ σ, match m σ with
       | (Ok a, σ') => f a σ'
       | (Err e, σ') => (Err e, σ')
       end.

Definition throw {A} (e : JsError) : M Σ A := λ σ, (Err e, σ).

(** [try { m } catch (e) { h e }]. *)
Definition try_catch {A} (m : M Σ A) (h : JsError → M Σ A) : M Σ A :=
  λ σ, match m σ with
       | (Ok a, σ') => (Ok a, σ')
       | (Err e, σ') => h e σ'
       end.

(** [try { m } finally { fin }]: [fin] runs on both paths and the outcome
    of [m] is kept unless [fin] throws. *)
Definition try_finally {A} (m : M Σ A) (fin : M Σ unit) : M Σ A :=
  λ σ, match m σ with
       | (r, σ') =>
           match fin σ' with
           | (Ok _, σ'') => (r, σ'')
           | (Err e, σ'') => (Err e, σ'')
           end
       end.

Definition get : M Σ Σ := λ σ, (Ok σ, σ).
Definition put (σ' : Σ) : M Σ unit := λ _, (Ok tt, σ').
Definition modify (f : Σ → Σ) : M Σ unit := λ σ, (Ok tt, f σ).
Definition gets {A} (f : Σ → A) : M Σ A := λ σ, (Ok (f σ), σ).

(** A pure result lifted into the monad. *)
Definition lift_res {A} (r : Res A) : M Σ A := λ σ, (r, σ).

End monad.

Notation "x <- c1 ;; c2" := (bind c1 (λ x, c2))
  (at level 20, c1 at level 99, c2 at level 200, right associativity,
   format "'[v' x  <-  c1  ;;  '/' c2 ']'") : js_scope.
Notation "' pat <- c1 ;; c2" := (bind c1 (λ x, match x with pat => c2 end))
  (at level 20, pat pattern, c1 at level 99, c2 at level 200,
   right associativity, only parsing) : js_scope.
Notation "c1 ;; c2" := (bind c1 (λ _, c2))
  (at level 100, c2 at level 200, right associativity) : js_scope.

Open Scope js_scope.

Section traversals.
Context {Σ : Type}.

(** [for (const x of l) { ys.push(await f(x)) }]: sequential, and the first
    throw ends the loop. [Promise.all(l.map(f))] over tasks that do not
    suspend is the same traversal. *)
Fixpoint mmap {A B} (f : A → M Σ B) (l : list A) : M Σ (list B) :=
  match l with
  | [] => ret []
  | x :: xs => y <- f x ;; ys <- mmap f xs ;; ret (y :: ys)
  end.

(** [for (const x of l) { acc = await f(acc, x) }]. *)
Fixpoint mfold {A B} (f : B → A → M Σ B) (acc : B) (l : list A) : M Σ B :=
  match l with
  | [] => ret acc
  | x :: xs => acc' <- f acc x ;; mfold f acc' xs
  end.

(** [l.forEach(f)]. *)
Fixpoint mfor {A} (f : A → M Σ unit) (l : list A) : M Σ unit :=
  match l with
  | [] => ret tt
  | x :: xs => f x ;; mfor f xs
  end.

End traversals.

(** ** Pointwise equality of computations *)

Definition meq {Σ A} (m1 m2 : M Σ A) : Prop := ∀ σ, m1 σ = m2 σ.
Infix "≃" := meq (at level 70) : js_scope.

#[export] Instance meq_equiv {Σ A} : Equivalence (@meq Σ A).
Proof.
  split; [by intros ? ?| by intros ? ? H σ | intros ? ? ? H1 H2 σ].
  by rewrite H1.
Qed.

#[export] Instance bind_proper {Σ A B} :
  Proper (meq ==> pointwise_relation A meq ==> meq) (@bind Σ A B).
Proof.
  intros m1 m2 Hm f1 f2 Hf σ. unfold bind. rewrite Hm.
  destruct (m2 σ) as [[a|e] σ']; [apply Hf | done].
Qed.

#[export] Instance try_catch_proper {Σ A} :
  Proper (meq ==> pointwise_relation JsError meq ==> meq) (@try_catch Σ A).
Proof.
  intros m1 m2 Hm h1 h2 Hh σ. unfold try_catch. rewrite Hm.
  destruct (m2 σ) as [[a|e] σ']; [done | apply Hh].
Qed.

(** ** Simulation of computations *)

(** [msim R m1 m2]: run from states related by [R], the two computations
    have the same outcome and leave states related by [R]. With [R] the
    equality of processes up to what they printed, it says that [m1] and
    [m2] differ in their console output only. *)
Definition msim {Σ1 Σ2 A} (R : Σ1 → Σ2 → Prop) (m1 : M Σ1 A) (m2 : M Σ2 A) : Prop :=
  ∀ σ1 σ2, R σ1 σ2 → (m1 σ1).1 = (m2 σ2).1 ∧ R (m1 σ1).2 (m2 σ2).2.

(** Two outcomes that are the same value, or two errors. *)
Definition same_outcome {A} (r1 r2 : Res A) : Prop :=
  match r1, r2 with
  | Ok a, Ok b => a = b
  | Err _, Err _ => True
  | _, _ => False
  end.

(** [mlike R m1 m2]: as [msim], but of two runs that fail only that both
    fail is asked, not that the errors are the same. It relates a
    computation whose parts run in an order the runtime chooses with the
    computation that runs them in the order of the text, where the error
    is that of the part that fails first in time. *)
Definition mlike {Σ1 Σ2 A} (R : Σ1 → Σ2 → Prop) (m1 : M Σ1 A) (m2 : M Σ2 A) : Prop :=
  ∀ σ1 σ2, R σ1 σ2 → same_outcome (m1 σ1).1 (m2 σ2).1 ∧ R (m1 σ1).2 (m2 σ2).2.

(** ** Hoare triples *)

(** [hoare P m Q]: run from a state that satisfies [P], the computation [m]
    ends, with a value or with an error, in an outcome and a state that
    satisfy [Q]. The computations are total functions, so the triple is one
    of total correctness. *)
Definition hoare {Σ A} (P : Σ → Prop) (m : M Σ A) (Q : Res A → Σ → Prop) : Prop :=
  ∀ σ, P σ → Q (m σ).1 (m σ).2.

(** The postcondition that asks [Q] of a value and [E] of an error. *)
Definition post {Σ A} (Q : A → Σ → Prop) (E : JsError → Σ → Prop)
  : Res A → Σ → Prop :=
  λ r σ, match r with Ok a => Q a σ | Err e => E e σ end.

(** The postcondition of a computation that does not throw. *)
Definition returns {Σ A} (Q : A → Σ → Prop) : Res A → Σ → Prop :=
  post Q (λ _ _, False).

(** ** Tactics *)

(** Unfold the monad's operations. *)
Ltac munfold :=
  unfold bind, ret, throw, try_catch, try_finally, get, put, modify, gets,
    lift_res in *.

(** Case on the outcome of the first computation a goal or a hypothesis
    scrutinises. *)
Ltac mcase :=
  match goal with
  | |- context [match ?m ?σ with (_, _) => _ end] =>
      let r := fresh "r" in let σ' := fresh "σ" in let E := fresh "E" in
      destruct (m σ) as [r σ'] eqn:E; try destruct r
  | H : context [match ?m ?σ with (_, _) => _ end] |- _ =>
      let r := fresh "r" in let σ' := fresh "σ" in let E := fresh "E" in
      destruct (m σ) as [r σ'] eqn:E; try destruct r
  end.

Create HintDb js discriminated.

(** ** Laws of the monad *)

Section laws.
Context {Σ : Type}.
Implicit Types σ : Σ.

Lemma bind_ret_l {A B} (a : A) (f : A → M Σ B) : (x <- ret a ;; f x) ≃ f a.
Proof. by intros σ. Qed.

Lemma bind_ret_r {A} (m : M Σ A) : (x <- m ;; ret x) ≃ m.
Proof. intros σ. unfold bind, ret. by destruct (m σ) as [[a|e] σ']. Qed.

Lemma bind_assoc {A B C} (m : M Σ A) (f : A → M Σ B) (g : B → M Σ C) :
  (y <- (x <- m ;; f x) ;; g y) ≃ (x <- m ;; y <- f x ;; g y).
Proof. intros σ. unfold bind. by destruct (m σ) as [[a|e] σ']. Qed.

Lemma bind_throw {A B} (e : JsError) (f : A → M Σ B) :
  (x <- throw e ;; f x) ≃ throw e.
Proof. by intros σ. Qed.

Lemma try_catch_ret {A} (a : A) (h : JsError → M Σ A) :
  try_catch (ret a) h ≃ ret a.
Proof. by intros σ. Qed.

Lemma try_catch_throw {A} (e : JsError) (h : JsError → M Σ A) :
  try_catch (throw e) h ≃ h e.
Proof. by intros σ. Qed.

(** Running a [bind]: the two outcomes of its first computation. *)
Lemma bind_ok {A B} (m : M Σ A) (f : A → M Σ B) σ a σ' :
  m σ = (Ok a, σ') → (x <- m ;; f x) σ = f a σ'.
Proof. intros E. unfold bind. by rewrite E. Qed.

Lemma bind_err {A B} (m : M Σ A) (f : A → M Σ B) σ e σ' :
  m σ = (Err e, σ') → (x <- m ;; f x) σ = (Err e, σ').
Proof. intros E. unfold bind. by rewrite E. Qed.

Lemma bind_ok_inv {A B} (m : M Σ A) (f : A → M Σ B) σ b σ' :
  (x <- m ;; f x) σ = (Ok b, σ') →
  ∃ a σ1, m σ = (Ok a, σ1) ∧ f a σ1 = (Ok b, σ').
Proof. unfold bind. destruct (m σ) as [[a|e] σ1]; [eauto | done]. Qed.

(** Two continuations that agree where the first computation ends. *)
Lemma bind_run_ext {A B} (m : M Σ A) (f g : A → M Σ B) σ :
  (∀ a σ', m σ = (Ok a, σ') → f a σ' = g a σ') →
  (x <- m ;; f x) σ = (x <- m ;; g x) σ.
Proof.
  intros Hfg. unfold bind. destruct (m σ) as [[a|e] σ'] eqn:E; [by apply Hfg | done].
Qed.

Lemma bind_err_inv {A B} (m : M Σ A) (f : A → M Σ B) σ e σ' :
  (x <- m ;; f x) σ = (Err e, σ') →
  m σ = (Err e, σ') ∨ ∃ a σ1, m σ = (Ok a, σ1) ∧ f a σ1 = (Err e, σ').
Proof.
  unfold bind. destruct (m σ) as [[a|e1] σ1]; [eauto | intros [= -> ->]; eauto].
Qed.

End laws.

(** ** Simulation *)

Section simulation.
Context {Σ1 Σ2 : Type} (R : Σ1 → Σ2 → Prop).

Lemma msim_ret {A} (a : A) : msim R (ret a) (ret a).
Proof. by intros σ1 σ2 HR. Qed.

Lemma msim_throw {A} (e : JsError) : msim R (@throw _ A e) (throw e).
Proof. by intros σ1 σ2 HR. Qed.

Lemma msim_lift_res {A} (r : Res A) : msim R (lift_res r) (lift_res r).
Proof. by intros σ1 σ2 HR. Qed.

Lemma msim_bind {A B} (m1 : M Σ1 A) (m2 : M Σ2 A) (f1 : A → M Σ1 B) (f2 : A → M Σ2 B) :
  msim R m1 m2 → (∀ a, msim R (f1 a) (f2 a)) →
  msim R (x <- m1 ;; f1 x) (x <- m2 ;; f2 x).
Proof.
  intros Hm Hf σ1 σ2 HR. unfold bind. destruct (Hm σ1 σ2 HR) as [Hr HR'].
  destruct (m1 σ1) as [[a|e] σ1'], (m2 σ2) as [[a'|e'] σ2']; cbn in *;
    simplify_eq; [by apply Hf | by split].
Qed.

Lemma msim_try_catch {A} (m1 : M Σ1 A) (m2 : M Σ2 A) h1 h2 :
  msim R m1 m2 → (∀ e, msim R (h1 e) (h2 e)) →
  msim R (try_catch m1 h1) (try_catch m2 h2).
Proof.
  intros Hm Hh σ1 σ2 HR. unfold try_catch. destruct (Hm σ1 σ2 HR) as [Hr HR'].
  destruct (m1 σ1) as [[a|e] σ1'], (m2 σ2) as [[a'|e'] σ2']; cbn in *;
    simplify_eq; [by split | by apply Hh].
Qed.

Lemma msim_try_finally {A} (m1 : M Σ1 A) (m2 : M Σ2 A) fin1 fin2 :
  msim R m1 m2 → msim R fin1 fin2 →
  msim R (try_finally m1 fin1) (try_finally m2 fin2).
Proof.
  intros Hm Hfin σ1 σ2 HR. unfold try_finally. destruct (Hm σ1 σ2 HR) as [Hr HR'].
  destruct (m1 σ1) as [r σ1'], (m2 σ2) as [r' σ2']; cbn in *; subst r'.
  destruct (Hfin σ1' σ2' HR') as [Hf HR2].
  destruct (fin1 σ1') as [[[]|e] σ1''], (fin2 σ2') as [[[]|e'] σ2''];
    cbn in *; simplify_eq; by destruct r.
Qed.

Lemma msim_mmap {A B} (f1 : A → M Σ1 B) (f2 : A → M Σ2 B) (l : list A) :
  (∀ x, msim R (f1 x) (f2 x)) → msim R (mmap f1 l) (mmap f2 l).
Proof.
  intros Hf. induction l as [|x xs IH]; cbn [mmap]; [apply msim_ret|].
  apply msim_bind; [done|]. intros y.
  apply msim_bind; [done|]. intros ys. apply msim_ret.
Qed.

Lemma msim_mfor {A} (f1 : A → M Σ1 unit) (f2 : A → M Σ2 unit) (l : list A) :
  (∀ x, msim R (f1 x) (f2 x)) → msim R (mfor f1 l) (mfor f2 l).
Proof.
  intros Hf. induction l as [|x xs IH]; cbn [mfor]; [apply msim_ret|].
  by apply msim_bind.
Qed.

(** A step taken on one side only, when it returns and keeps the relation:
    the side that prints. *)
Lemma msim_skip_l {A B} (m0 : M Σ1 B) (m1 : M Σ1 A) (m2 : M Σ2 A) :
  (∀ σ1 σ2, R σ1 σ2 → ∃ b, (m0 σ1).1 = Ok b ∧ R (m0 σ1).2 σ2) →
  msim R m1 m2 → msim R (m0 ;; m1) m2.
Proof.
  intros H0 Hm σ1 σ2 HR. unfold bind. destruct (H0 σ1 σ2 HR) as (b & Hb & HR').
  destruct (m0 σ1) as [[b'|e] σ1']; cbn in *; simplify_eq. by apply Hm.
Qed.

(** The same with a continuation on the left only. *)
Lemma msim_bind_l {A B} (m1 : M Σ1 A) (m2 : M Σ2 A) (f : A → M Σ1 B) (g : A → B) :
  msim R m1 m2 → (∀ a, msim R (f a) (ret (g a))) →
  msim R (x <- m1 ;; f x) (x <- m2 ;; ret (g x)).
Proof. intros. by apply msim_bind. Qed.

Lemma msim_meq {A} (m1 m1' : M Σ1 A) (m2 m2' : M Σ2 A) :
  m1 ≃ m1' → m2 ≃ m2' → msim R m1 m2 → msim R m1' m2'.
Proof. intros H1 H2 Hm σ1 σ2 HR. rewrite <- H1, <- H2. by apply Hm. Qed.

(** A simulation is a likeness, and likeness goes through [bind]. *)
Lemma same_outcome_refl {A} (r : Res A) : same_outcome r r.
Proof. by destruct r. Qed.

Lemma same_outcome_sym {A} (r1 r2 : Res A) : same_outcome r1 r2 → same_outcome r2 r1.
Proof. by destruct r1, r2. Qed.

Lemma same_outcome_trans {A} (r1 r2 r3 : Res A) :
  same_outcome r1 r2 → same_outcome r2 r3 → same_outcome r1 r3.
Proof. destruct r1, r2, r3; cbn; congruence || tauto. Qed.

Lemma msim_mlike {A} (m1 : M Σ1 A) (m2 : M Σ2 A) : msim R m1 m2 → mlike R m1 m2.
Proof.
  intros Hm σ1 σ2 HR. destruct (Hm σ1 σ2 HR) as [-> HR']. split; [|done].
  apply same_outcome_refl.
Qed.

Lemma mlike_bind {A B} (m1 : M Σ1 A) (m2 : M Σ2 A) (f1 : A → M Σ1 B) (f2 : A → M Σ2 B) :
  mlike R m1 m2 → (∀ a, mlike R (f1 a) (f2 a)) →
  mlike R (x <- m1 ;; f1 x) (x <- m2 ;; f2 x).
Proof.
  intros Hm Hf σ1 σ2 HR. unfold bind. destruct (Hm σ1 σ2 HR) as [Hr HR'].
  destruct (m1 σ1) as [[a|e] σ1'], (m2 σ2) as [[a'|e'] σ2']; cbn in *;
    try contradiction; simplify_eq; [by apply Hf | by split].
Qed.

End simulation.

#[export] Hint Resolve msim_ret msim_throw msim_lift_res : js.

(** ** Traversals *)

Section traversal_lemmas.
Context {Σ : Type}.
Implicit Types σ : Σ.

(** A traversal by a function that never throws and leaves the state alone
    is [map]. *)
Lemma mmap_pure {A B} (f : A → M Σ B) (g : A → B) (l : list A) σ :
  (∀ x σ0, x ∈ l → f x σ0 = (Ok (g x), σ0)) →
  mmap f l σ = (Ok (g <$> l), σ).
Proof.
  induction l as [|x xs IH]; intros Hf; [done|]. cbn [mmap].
  rewrite (bind_ok _ _ _ _ _ (Hf x σ (list_elem_of_here _ _))).
  rewrite (bind_ok _ _ _ _ _ (IH (λ y σ0 Hy, Hf y σ0 (list_elem_of_further _ _ _ Hy)))).
  done.
Qed.

(** A successful traversal returns one result per element. *)
Lemma mmap_length {A B} (f : A → M Σ B) (l : list A) σ ys σ' :
  mmap f l σ = (Ok ys, σ') → length ys = length l.
Proof.
  revert σ ys σ'. induction l as [|x xs IH]; intros σ ys σ'; cbn [mmap].
  - by intros [= <- _].
  - intros (y & σ1 & _ & H)%bind_ok_inv.
    apply bind_ok_inv in H as (zs & σ2 & Hzs & [= <- _]).
    cbn. f_equal. eauto.
Qed.

(** A traversal whose body leaves the state alone leaves it alone, and its
    results are related to the elements one by one. *)
Lemma mmap_ok_inv {A B} (f : A → M Σ B) (R : A → B → Prop) (l : list A) σ ys σ' :
  (∀ x σ0 y σ1, x ∈ l → f x σ0 = (Ok y, σ1) → σ1 = σ0 ∧ R x y) →
  mmap f l σ = (Ok ys, σ') → σ' = σ ∧ Forall2 R l ys.
Proof.
  revert ys. induction l as [|x xs IH]; intros ys Hf; cbn [mmap].
  - intros [= <- <-]. by split.
  - intros (y & σ1 & Hy & (zs & σ2 & Hzs & [= <- <-])%bind_ok_inv)%bind_ok_inv.
    apply Hf in Hy as [-> HR]; [|apply list_elem_of_here].
    apply IH in Hzs as [-> HF]; [by split; [|constructor]|].
    intros ??????. eapply Hf; [by apply list_elem_of_further | done].
Qed.

(** The traversal stops at the first element whose body throws. *)
Lemma mmap_first_err {A B} (f : A → M Σ B) (x : A) (xs : list A) σ e σ' :
  f x σ = (Err e, σ') → mmap f (x :: xs) σ = (Err e, σ').
Proof. intros Hf. cbn [mmap]. by rewrite (bind_err _ _ _ _ _ Hf). Qed.

Lemma mmap_app {A B} (f : A → M Σ B) (l1 l2 : list A) :
  mmap f (l1 ++ l2) ≃ (ys1 <- mmap f l1 ;; ys2 <- mmap f l2 ;; ret (ys1 ++ ys2)).
Proof.
  induction l1 as [|x xs IH]; intros σ; cbn [mmap app].
  - unfold bind, ret. by destruct (mmap f l2 σ) as [[ys|e] σ1].
  - unfold bind, ret. destruct (f x σ) as [[y|e] σ1]; [|done].
    specialize (IH σ1). unfold bind, ret in IH. rewrite IH.
    destruct (mmap f xs σ1) as [[ys|e] σ2]; [|done].
    by destruct (mmap f l2 σ2) as [[zs|e] σ3].
Qed.

Lemma mfold_app {A B} (f : B → A → M Σ B) (acc : B) (l1 l2 : list A) :
  mfold f acc (l1 ++ l2) ≃ (acc' <- mfold f acc l1 ;; mfold f acc' l2).
Proof.
  revert acc. induction l1 as [|x xs IH]; intros acc σ; cbn [mfold app]; [done|].
  unfold bind. destruct (f acc x σ) as [[acc'|e] σ1]; [|done]. apply IH.
Qed.

End traversal_lemmas.

(** ** Rules of the Hoare logic *)

Section hoare_rules.
Context {Σ : Type}.
Implicit Types (P : Σ → Prop) (σ : Σ).

Lemma hoare_conseq {A} P P' (m : M Σ A) (Q Q' : Res A → Σ → Prop) :
  hoare P' m Q' → (∀ σ, P σ → P' σ) → (∀ r σ, Q' r σ → Q r σ) → hoare P m Q.
Proof. intros Hm HP HQ σ Hσ. by apply HQ, Hm, HP. Qed.

(** A computation that does not throw, in front of another. *)
Lemma hoare_post {A} P (m : M Σ A) (Q : A → Σ → Prop) (E : JsError → Σ → Prop) :
  hoare P m (returns Q) → hoare P m (post Q E).
Proof. intros Hm. eapply hoare_conseq; [apply Hm | done | by intros [a|e] σ]. Qed.

(** A computation that keeps an invariant whatever its outcome. *)
Lemma hoare_any {A} P (m : M Σ A) (I : Σ → Prop) :
  hoare P m (λ _, I) → hoare P m (post (λ _, I) (λ _, I)).
Proof. intros Hm. eapply hoare_conseq; [apply Hm | done | by intros [a|e] σ]. Qed.

(** A computation that keeps an invariant, in front of another whose
    errors are free. *)
Lemma hoare_free {A} P (m : M Σ A) (I : Σ → Prop) :
  hoare P m (λ _, I) → hoare P m (post (λ _, I) (λ _ _, True)).
Proof. intros Hm. eapply hoare_conseq; [apply Hm | done | by intros [a|e] σ]. Qed.

(** A fact that does not depend on the state, in a precondition. *)
Lemma hoare_pure {A} (φ : Prop) P (m : M Σ A) (Q : Res A → Σ → Prop) :
  (φ → hoare P m Q) → hoare (λ σ, φ ∧ P σ) m Q.
Proof. intros Hm σ [Hφ Hσ]. by apply Hm. Qed.

(** Every computation ends. *)
Lemma hoare_True {A} P (m : M Σ A) : hoare P m (post (λ _ _, True) (λ _ _, True)).
Proof. intros σ _. by destruct (m σ) as [[a|e] σ']. Qed.

Lemma hoare_ret {A} P (a : A) (Q : Res A → Σ → Prop) :
  (∀ σ, P σ → Q (Ok a) σ) → hoare P (ret a) Q.
Proof. intros HQ σ Hσ. by apply HQ. Qed.

Lemma hoare_throw {A} P e (Q : Res A → Σ → Prop) :
  (∀ σ, P σ → Q (Err e) σ) → hoare P (throw e) Q.
Proof. intros HQ σ Hσ. by apply HQ. Qed.

Lemma hoare_lift_res {A} P (r : Res A) (Q : Res A → Σ → Prop) :
  (∀ σ, P σ → Q r σ) → hoare P (lift_res r) Q.
Proof. intros HQ σ Hσ. by apply HQ. Qed.

Lemma hoare_lift_ok {A B} P (r : Res A) (a : A) (f : A → M Σ B) (Q : Res B → Σ → Prop) :
  r = Ok a → hoare P (f a) Q → hoare P (x <- lift_res r ;; f x) Q.
Proof. intros -> Hf σ Hσ. exact (Hf σ Hσ). Qed.

Lemma hoare_lift_eq {A} P (r r' : Res A) (Q : Res A → Σ → Prop) :
  r = r' → (∀ σ, P σ → Q r' σ) → hoare P (lift_res r) Q.
Proof. intros ->. apply hoare_lift_res. Qed.

Lemma hoare_gets {A} P (f : Σ → A) (Q : Res A → Σ → Prop) :
  (∀ σ, P σ → Q (Ok (f σ)) σ) → hoare P (gets f) Q.
Proof. intros HQ σ Hσ. by apply HQ. Qed.

Lemma hoare_modify P (f : Σ → Σ) (Q : Res unit → Σ → Prop) :
  (∀ σ, P σ → Q (Ok tt) (f σ)) → hoare P (modify f) Q.
Proof. intros HQ σ Hσ. by apply HQ. Qed.

(** Sequencing: an error of the first computation is the error of the
    sequence. *)
Lemma hoare_bind {A B} P (R : A → Σ → Prop) (m : M Σ A) (f : A → M Σ B)
    (Q : Res B → Σ → Prop) :
  hoare P m (post R (λ e, Q (Err e))) → (∀ a, hoare (R a) (f a) Q) →
  hoare P (x <- m ;; f x) Q.
Proof.
  intros Hm Hf σ Hσ. specialize (Hm σ Hσ). unfold bind.
  destruct (m σ) as [[a|e] σ1]; cbn in *; [by apply Hf | done].
Qed.

(** [try { m } finally { fin }]: [fin] runs from what the body left,
    and what it throws replaces the outcome of the body. *)
Lemma hoare_finally {A} P (R : Res A → Σ → Prop) (m : M Σ A) fin
    (Q : Res A → Σ → Prop) :
  hoare P m R → (∀ r, hoare (R r) fin (post (λ _, Q r) (λ e, Q (Err e)))) →
  hoare P (try_finally m fin) Q.
Proof.
  intros Hm Hfin σ Hσ. specialize (Hm σ Hσ). unfold try_finally.
  destruct (m σ) as [r σ1]. specialize (Hfin r σ1 Hm).
  by destruct (fin σ1) as [[[]|e] σ2].
Qed.

(** [try { m } catch (e) { h e }]. *)
Lemma hoare_try_catch {A} P (E : JsError → Σ → Prop) (m : M Σ A) h
    (Q : Res A → Σ → Prop) :
  hoare P m (post (λ a, Q (Ok a)) E) → (∀ e, hoare (E e) (h e) Q) →
  hoare P (try_catch m h) Q.
Proof.
  intros Hm Hh σ Hσ. specialize (Hm σ Hσ). unfold try_catch.
  destruct (m σ) as [[a|e] σ1]; cbn in *; [done | by apply Hh].
Qed.

(** A loop over a list keeps an invariant its body keeps. *)
Lemma hoare_mfor {A} (I : Σ → Prop) (f : A → M Σ unit) (l : list A)
    (E : JsError → Σ → Prop) :
  (∀ x, x ∈ l → hoare I (f x) (post (λ _, I) E)) →
  hoare I (mfor f l) (post (λ _, I) E).
Proof.
  induction l as [|x xs IH]; intros Hf; cbn [mfor]; [by apply hoare_ret|].
  eapply hoare_bind with (R := λ _, I);
    [|intros _; apply IH; intros y Hy; apply Hf; by right].
  eapply hoare_conseq; [apply Hf; by left | done | by intros [[]|e] σ].
Qed.

Lemma hoare_mmap {A B} (I : Σ → Prop) (f : A → M Σ B) (l : list A)
    (E : JsError → Σ → Prop) :
  (∀ x, x ∈ l → hoare I (f x) (post (λ _, I) E)) →
  hoare I (mmap f l) (post (λ _, I) E).
Proof.
  induction l as [|x xs IH]; intros Hf; cbn [mmap]; [by apply hoare_ret|].
  eapply hoare_bind with (R := λ _, I);
    [eapply hoare_conseq; [apply Hf; by left | done | by intros [b|e] σ]|].
  intros y. eapply hoare_bind with (R := λ _, I);
    [eapply hoare_conseq; [apply IH; intros z Hz; apply Hf; by right | done
                          | by intros [b|e] σ]|].
  intros ys. by apply hoare_ret.
Qed.

(** What a triple says of one run. *)
Lemma hoare_run {A} P (m : M Σ A) (Q : Res A → Σ → Prop) σ r σ' :
  hoare P m Q → P σ → m σ = (r, σ') → Q r σ'.
Proof. intros Hm Hσ Hrun. specialize (Hm σ Hσ). by rewrite Hrun in Hm. Qed.

Lemma hoare_returns_run {A} P (m : M Σ A) (Q : A → Σ → Prop) σ :
  hoare P m (returns Q) → P σ → ∃ a σ', m σ = (Ok a, σ') ∧ Q a σ'.
Proof.
  intros Hm Hσ. specialize (Hm σ Hσ).
  destruct (m σ) as [[a|e] σ']; cbn in *; [eauto | done].
Qed.

End hoare_rules.
