(* ===== verification/JsValue.v ===== *)
(** * JavaScript values

    The values the programs pass around: tool arguments and results, message
    contents, the fields of a graph state. Numbers are IEEE 754 binary64, as
    in JavaScript (the kernel's primitive floats); strings are sequences of
    code units below 256; an object is its list of own properties in
    insertion order, which [Object.assign], [Object.values] and the spread
    operator observe. The operators defined here are the ones the sources
    use: truthiness ([||], [?:], [if]), property reads, [Object.assign],
    [String.prototype.trim], [typeof]. *)

From stdpp Require Import base option list strings.
From Stdlib Require Import Floats ZArith Uint63.
From S2P Require Import Prelude.

#[local] Set Warnings "-register-all".

Inductive value : Type :=
| VUndefined
| VNull
| VBool (b : bool)
| VNum (n : float)
| VStr (s : string)
| VArr (items : list value)
| VObj (fields : list (string * value)).

Module Js.

(** ** Numbers *)

Definition is_nan (n : float) : bool := negb (PrimFloat.eqb n n).

(** A number is falsy when it is [0], [-0] or [NaN]. *)
Definition num_truthy (n : float) : bool :=
  negb (is_nan n || PrimFloat.eqb n 0%float).

(** The arithmetic operators on numbers. On other operands JavaScript
    converts first; the sources apply them to numbers only, and off numbers
    the model answers [undefined]. *)
Definition arith (op : float → float → float) (a b : value) : value :=
  match a, b with
  | VNum x, VNum y => VNum (op x y)
  | _, _ => VUndefined
  end.

(** [a + b], [a * b], [a / b]. *)
Definition add : value → value → value := arith PrimFloat.add.
Definition mul : value → value → value := arith PrimFloat.mul.
Definition div : value → value → value := arith PrimFloat.div.

(** The number a length or a count is. *)
Definition of_nat (n : nat) : value :=
  VNum (PrimFloat.of_uint63 (Uint63.of_Z (Z.of_nat n))).

Definition type_error (msg : string) : JsError := mkError TypeError msg.

(** ** Truthiness ([ToBoolean]) *)

Definition truthy (v : value) : bool :=
  match v with
  | VUndefined | VNull => false
  | VBool b => b
  | VNum n => num_truthy n
  | VStr s => negb (String.eqb s "")
  | VArr _ | VObj _ => true
  end.

(** [a || b]. *)
Definition or (a b : value) : value := if truthy a then a else b.

(** [a ?? b]. *)
Definition nullish (a b : value) : value :=
  match a with VUndefined | VNull => b | _ => a end.

(** [!v] and [!!v]. *)
Definition not (v : value) : value := VBool (negb (truthy v)).
Definition to_bool (v : value) : value := VBool (truthy v).

Definition typeof (v : value) : string :=
  match v with
  | VUndefined => "undefined"
  | VNull | VArr _ | VObj _ => "object"
  | VBool _ => "boolean"
  | VNum _ => "number"
  | VStr _ => "string"
  end.

(** ** Objects *)

(** The own properties of an object are kept with distinct keys; a read
    returns the value of the key, a write replaces it in place or adds the
    key at the end. *)
Fixpoint assoc {A} (k : string) (l : list (string * A)) : option A :=
  match l with
  | [] => None
  | (k', v) :: l' => if String.eqb k k' then Some v else assoc k l'
  end.

Fixpoint assoc_set {A} (k : string) (v : A) (l : list (string * A))
  : list (string * A) :=
  match l with
  | [] => [(k, v)]
  | (k', v') :: l' =>
      if String.eqb k k' then (k, v) :: l' else (k', v') :: assoc_set k v l'
  end.

(** The property [k] of a value that is neither [undefined] nor [null]:
    an own property of an object, the length of a string or of an array,
    [undefined] otherwise. *)
Definition prop (k : string) (o : value) : value :=
  match o with
  | VObj fields => default VUndefined (assoc k fields)
  | VStr s => if String.eqb k "length" then of_nat (String.length s) else VUndefined
  | VArr items => if String.eqb k "length" then of_nat (length items) else VUndefined
  | _ => VUndefined
  end.

(** [v === null]. *)
Definition is_null (v : value) : bool :=
  match v with VNull => true | _ => false end.

Definition is_nullish (v : value) : bool :=
  match v with VUndefined | VNull => true | _ => false end.

(** [o.k], which throws on [undefined] and [null]. *)
Definition get (k : string) (o : value) : Res value :=
  if is_nullish o
  then Err (type_error ("Cannot read properties of undefined (reading '" +:+ k +:+ "')"))
  else Ok (prop k o).

(** [o?.k]. *)
Definition get_opt (k : string) (o : value) : value := prop k o.

(** [k in o], for an object [o]. *)
Definition has_key (k : string) (o : value) : bool :=
  match o with
  | VObj fields => bool_decide (is_Some (assoc k fields))
  | _ => false
  end.

Definition is_array (v : value) : bool :=
  match v with VArr _ => true | _ => false end.

(** The elements of an array, none for another value. *)
Definition items_of (v : value) : list value :=
  match v with VArr items => items | _ => [] end.

(** [Object.assign(target, src)] on the property lists. *)
Definition assign_fields (target src : list (string * value))
  : list (string * value) :=
  foldl (λ acc kv, assoc_set kv.1 kv.2 acc) target src.

(** [Object.assign({}, ...sources)]: sources that are not objects
    contribute nothing. *)
Definition object_assign (sources : list value) : value :=
  VObj (foldl (λ acc src,
                 match src with
                 | VObj fields => assign_fields acc fields
                 | _ => acc
                 end) [] sources).

(** ** Strings *)

(** White space and line terminators below code unit 256: tab, line feed,
    vertical tab, form feed, carriage return, space, no-break space. *)
Definition is_space (c : Ascii.ascii) : bool :=
  let n := Ascii.nat_of_ascii c in
  (Nat.leb 9 n && Nat.leb n 13) || Nat.eqb n 32 || Nat.eqb n 160.

Fixpoint trim_start (s : string) : string :=
  match s with
  | String c s' => if is_space c then trim_start s' else s
  | EmptyString => EmptyString
  end.

(** The string without its trailing white space. *)
Fixpoint trim_end (s : string) : string :=
  match s with
  | EmptyString => EmptyString
  | String c s' =>
      match trim_end s' with
      | EmptyString => if is_space c then EmptyString else String c EmptyString
      | t => String c t
      end
  end.

Definition trim (s : string) : string := trim_end (trim_start s).

(** [s.repeat(n)] for an integer [n], which throws on a negative count. *)
Definition repeat (s : string) (n : Z) : Res string :=
  if (n <? 0)%Z then Err (mkError RangeError "Invalid count value")
  else Ok (String.concat "" (replicate (Z.to_nat n) s)).

(** [s.split(sep)] for a separator of one character: the pieces between
    the occurrences of [sep], one more than there are occurrences. *)
Fixpoint split (sep : Ascii.ascii) (s : string) : list string :=
  match s with
  | EmptyString => [EmptyString]
  | String c s' =>
      if Ascii.eqb c sep then EmptyString :: split sep s'
      else match split sep s' with
           | piece :: pieces => String c piece :: pieces
           | [] => [String c EmptyString]
           end
  end.

(** [s.replace(/c/g, by)] for a character [c]. *)
Fixpoint replace_all (c : Ascii.ascii) (by_ : string) (s : string) : string :=
  match s with
  | EmptyString => EmptyString
  | String c' s' =>
      (if Ascii.eqb c' c then by_ else String c' EmptyString) +:+ replace_all c by_ s'
  end.

(** [s.substring(0, n)]. *)
Fixpoint take (n : nat) (s : string) : string :=
  match n, s with
  | S n', String c s' => String c (take n' s')
  | _, _ => EmptyString
  end.

(** The double quote, which a string of the development cannot hold. *)
Definition quote : string := String (Ascii.ascii_of_nat 34) "".

(** [parts.join(sep)] on an array of strings. *)
Definition join (sep : string) (parts : list string) : string :=
  match parts with
  | [] => ""
  | x :: xs => foldl (λ acc y, acc +:+ sep +:+ y) x xs
  end.

(** [s.split("")]: the code units of [s], one string each. *)
Fixpoint chars (s : string) : list string :=
  match s with
  | EmptyString => []
  | String c s' => String c EmptyString :: chars s'
  end.

(** The same function on every code unit. *)
Fixpoint map_chars (f : Ascii.ascii → Ascii.ascii) (s : string) : string :=
  match s with
  | EmptyString => EmptyString
  | String c s' => String (f c) (map_chars f s')
  end.

(** The case mappings of the letters of ASCII; other code units are left
    as they are. *)
Definition upper_char (c : Ascii.ascii) : Ascii.ascii :=
  let n := Ascii.nat_of_ascii c in
  if Nat.leb 97 n && Nat.leb n 122 then Ascii.ascii_of_nat (n - 32) else c.

Definition lower_char (c : Ascii.ascii) : Ascii.ascii :=
  let n := Ascii.nat_of_ascii c in
  if Nat.leb 65 n && Nat.leb n 90 then Ascii.ascii_of_nat (n + 32) else c.

(** [s.toUpperCase()] and [s.toLowerCase()]. *)
Definition to_upper : string → string := map_chars upper_char.
Definition to_lower : string → string := map_chars lower_char.

(** ** Numbers of an array *)

Definition is_neg_zero (n : float) : bool :=
  match PrimFloat.classify n with NZero => true | _ => false end.

(** [Math.max(a, b)] and [Math.min(a, b)]: [NaN] when an operand is, and
    [+0] above [-0]. *)
Definition max2 (a b : float) : float :=
  if is_nan a || is_nan b then nan
  else if PrimFloat.ltb a b then b
  else if PrimFloat.ltb b a then a
  else if is_neg_zero a then b else a.

Definition min2 (a b : float) : float :=
  if is_nan a || is_nan b then nan
  else if PrimFloat.ltb a b then a
  else if PrimFloat.ltb b a then b
  else if is_neg_zero b then b else a.

(** [Math.max(...l)] and [Math.min(...l)]. *)
Definition math_max (l : list float) : float := foldl max2 neg_infinity l.
Definition math_min (l : list float) : float := foldl min2 infinity l.

(** [l.reduce((a, b) => a + b, 0)]. *)
Definition sum (l : list float) : float := foldl PrimFloat.add 0%float l.

(** The number a value is, for the values a schema of numbers lets
    through. *)
Definition number_of (v : value) : float :=
  match v with VNum n => n | _ => nan end.

End Js.

(** ** Lemmas *)

Section assoc_lemmas.
Context {A : Type}.
Implicit Types (k : string) (l : list (string * A)).

Lemma assoc_set_eq k (v : A) l : Js.assoc k (Js.assoc_set k v l) = Some v.
Proof.
  induction l as [|[k' v'] l IH]; cbn.
  - by rewrite String.eqb_refl.
  - destruct (String.eqb k k') eqn:E; cbn; rewrite ?String.eqb_refl, ?E; done.
Qed.

Lemma assoc_set_ne k k' (v : A) l :
  k ≠ k' → Js.assoc k' (Js.assoc_set k v l) = Js.assoc k' l.
Proof.
  intros Hne. induction l as [|[k0 v0] l IH]; cbn.
  - by rewrite (proj2 (String.eqb_neq k' k)).
  - destruct (String.eqb k k0) eqn:E; cbn.
    + apply String.eqb_eq in E as <-.
      by rewrite (proj2 (String.eqb_neq k' k)).
    + by rewrite IH.
Qed.

(** A write keeps the keys distinct. *)
Lemma assoc_set_keys k (v : A) l :
  (Js.assoc_set k v l).*1 =
  if bool_decide (k ∈ l.*1) then l.*1 else l.*1 ++ [k].
Proof.
  induction l as [|[k0 v0] l IH]; cbn; [done|].
  destruct (String.eqb k k0) eqn:E; cbn.
  - apply String.eqb_eq in E as <-.
    by rewrite bool_decide_eq_true_2 by apply list_elem_of_here.
  - apply String.eqb_neq in E. rewrite IH.
    destruct (bool_decide (k ∈ l.*1)) eqn:Hin.
    + apply bool_decide_eq_true_1 in Hin.
      by rewrite bool_decide_eq_true_2 by by apply list_elem_of_further.
    + apply bool_decide_eq_false_1 in Hin.
      rewrite bool_decide_eq_false_2; [done|].
      by intros [?|?]%elem_of_cons.
Qed.

Lemma assoc_set_NoDup k (v : A) l : NoDup l.*1 → NoDup (Js.assoc_set k v l).*1.
Proof.
  intros Hnd. rewrite assoc_set_keys. case_bool_decide; [done|].
  apply NoDup_app. repeat split; [done| |apply NoDup_singleton].
  by intros x Hx ->%list_elem_of_singleton.
Qed.

End assoc_lemmas.

(** *** Strings *)

Lemma app_cons (c : Ascii.ascii) (a b : string) :
  String c a +:+ b = String c (a +:+ b).
Proof. done. Qed.

Lemma app_empty_r (s : string) : s +:+ "" = s.
Proof. induction s as [|c s IH]; [done|]. by rewrite app_cons, IH. Qed.

Lemma app_assoc_s (a b c : string) : (a +:+ b) +:+ c = a +:+ (b +:+ c).
Proof. induction a as [|x a IH]; [done|]. by rewrite !app_cons, IH. Qed.

(** A text that is not empty at the end of a string that ends with [c]
    ends with [c]. *)
Lemma app_eq_snoc (x g s : string) (c : Ascii.ascii) :
  x +:+ g = s +:+ String c "" → g ≠ "" → ∃ g', g = g' +:+ String c "".
Proof.
  revert s. induction x as [|a x IH]; intros s Heq Hg; [by exists s|].
  destruct s as [|b s]; rewrite !app_cons in Heq; injection Heq as -> Heq.
  - destruct x; [by cbn in Heq | done].
  - eauto.
Qed.

Lemma trim_start_no_space s c s' :
  Js.trim_start s = String c s' → Js.is_space c = false.
Proof.
  induction s as [|c0 s IH]; cbn; [done|].
  destruct (Js.is_space c0) eqn:E; [done | by intros [= <- _]].
Qed.

Lemma trim_end_idemp s : Js.trim_end (Js.trim_end s) = Js.trim_end s.
Proof.
  induction s as [|c s IH]; cbn; [done|].
  destruct (Js.trim_end s) as [|c' t] eqn:E.
  - destruct (Js.is_space c) eqn:Ec; cbn; [done | by rewrite Ec].
  - cbn in *. by rewrite IH.
Qed.

(** *** Code units *)

Lemma foldl_join_empty (x : string) (l : list string) :
  foldl (λ acc y, acc +:+ "" +:+ y) x l = x +:+ foldr String.append "" l.
Proof.
  revert x. induction l as [|y l IH]; intros x; cbn [foldl foldr].
  - by rewrite app_empty_r.
  - rewrite IH. change ("" +:+ y) with y. by rewrite app_assoc_s.
Qed.

Lemma join_empty (l : list string) : Js.join "" l = foldr String.append "" l.
Proof. destruct l as [|x l]; [done|]. apply foldl_join_empty. Qed.

Lemma join_cons_empty (x : string) (l : list string) :
  Js.join "" (x :: l) = x +:+ Js.join "" l.
Proof. by rewrite !join_empty. Qed.

Lemma join_app_empty (l1 l2 : list string) :
  Js.join "" (l1 ++ l2) = Js.join "" l1 +:+ Js.join "" l2.
Proof.
  rewrite !join_empty. induction l1 as [|x l1 IH]; [done|].
  cbn [app foldr]. by rewrite IH, app_assoc_s.
Qed.

(** Splitting a string into its code units and joining them gives the
    string back. *)
Lemma join_chars (s : string) : Js.join "" (Js.chars s) = s.
Proof.
  induction s as [|c s IH]; [done|]. cbn [Js.chars]. by rewrite join_cons_empty, IH.
Qed.

Lemma chars_app (a b : string) : Js.chars (a +:+ b) = Js.chars a ++ Js.chars b.
Proof. induction a as [|c a IH]; [done|]. rewrite app_cons. cbn. by rewrite IH. Qed.

Lemma chars_join_units (l : list string) :
  Forall (λ u, ∃ c, u = String c "") l → Js.chars (Js.join "" l) = l.
Proof.
  induction 1 as [|u l [c ->] _ IH]; [done|].
  by rewrite join_cons_empty, chars_app, IH.
Qed.

Lemma chars_units (s : string) : Forall (λ u, ∃ c, u = String c "") (Js.chars s).
Proof. induction s as [|c s IH]; cbn; constructor; eauto. Qed.

Lemma length_chars (s : string) : length (Js.chars s) = String.length s.
Proof. induction s as [|c s IH]; cbn; [done|]. by rewrite IH. Qed.

Lemma map_chars_length f (s : string) :
  String.length (Js.map_chars f s) = String.length s.
Proof. induction s as [|c s IH]; cbn; [done|]. by rewrite IH. Qed.

Lemma map_chars_idemp f (s : string) :
  (∀ c, f (f c) = f c) → Js.map_chars f (Js.map_chars f s) = Js.map_chars f s.
Proof. intros Hf. induction s as [|c s IH]; cbn; [done|]. by rewrite Hf, IH. Qed.

Lemma upper_char_idemp c : Js.upper_char (Js.upper_char c) = Js.upper_char c.
Proof. by destruct c as [[] [] [] [] [] [] [] []]. Qed.

Lemma lower_char_idemp c : Js.lower_char (Js.lower_char c) = Js.lower_char c.
Proof. by destruct c as [[] [] [] [] [] [] [] []]. Qed.

(** *** Maxima *)

Lemma max2_cases a b : Js.max2 a b = a ∨ Js.max2 a b = b ∨ Js.max2 a b = nan.
Proof.
  unfold Js.max2. destruct (_ || _); [by right; right|].
  destruct (PrimFloat.ltb a b); [by right; left|].
  destruct (PrimFloat.ltb b a); [by left|]. destruct (Js.is_neg_zero a); eauto.
Qed.

Lemma min2_cases a b : Js.min2 a b = a ∨ Js.min2 a b = b ∨ Js.min2 a b = nan.
Proof.
  unfold Js.min2. destruct (_ || _); [by right; right|].
  destruct (PrimFloat.ltb a b); [by left|].
  destruct (PrimFloat.ltb b a); [by right; left|]. destruct (Js.is_neg_zero b); eauto.
Qed.

(** A fold of a choice between its operands returns its seed, an element
    of the list, or [NaN]. *)
Lemma foldl_choice (f : float → float → float) seed l :
  (∀ a b, f a b = a ∨ f a b = b ∨ f a b = nan) →
  foldl f seed l ∈ seed :: nan :: l.
Proof.
  intros Hf. revert seed. induction l as [|x l IH]; intros seed; cbn; [by left|].
  specialize (IH (f seed x)). rewrite !elem_of_cons in *.
  destruct IH as [E|[E|Hin]]; [|eauto..]. rewrite E.
  destruct (Hf seed x) as [E'|[E'|E']]; rewrite E'; eauto.
Qed.
