(* ===== verification/Engine.v ===== *)
(** * The graph engine

    The state graph the sources build with
    [new StateGraph(annotation).addNode(..).addEdge(..).addConditionalEdges(..).compile()]
    and run with [invoke]. The engine is a library the sources import, so it
    is modelled from its contract: a builder that records nodes and edges in
    declaration order, a [compile] that checks the wiring, and a walk that
    executes one node at a time, merges the node's partial update into the
    state with the reducer of the annotation, resolves the next node through
    the static or the conditional edge of the current one, stops at [END] and
    gives up with [StepLimitExceeded] once the step limit is used up.

    The walk returns, beside the outcome, the names of the nodes that
    completed, in order: the last of them is the last node that completed
    before a failure, and their number is the number of node executions.

    The states of the graphs declared with [Annotation.Root] are objects,
    [ObjState]; a [StateSchema] gives the channels their types, and
    [conforms] is the test that an object has channels of the schema only,
    each with a value of its type. The reducer keeps a state in its schema
    when the update is ([conforms_assign]). *)

From stdpp Require Import base option list strings.
From S2P Require Import Prelude JsValue.

Definition START : string := "__start__".
Definition END : string := "__end__".

(** The schema of a graph state: the state before any input and the
    reducer that merges a partial update into it, channel by channel. *)
Class Annotation (St Up : Type) : Type := {
  ann_empty : St;
  ann_reduce : St → Up → St;
}.

(** The recursion limit of a run that does not set one. *)
Definition default_recursion_limit : nat := 25.

Definition config_error (msg : string) : JsError := mkError ConfigurationError msg.

Definition step_limit_error : JsError :=
  mkError StepLimitExceeded "Recursion limit reached without hitting a stop condition".

Notation "g |> f" := (f g) (at level 40, left associativity, only parsing) : js_scope.

Section engine.
Context {Σ St Up : Type} `{Annotation St Up}.

Inductive Edge : Type :=
| Static (dest : string)
| Conditional (router : St → M Σ string) (ends : list (string * string)).

Record StateGraph : Type := mkStateGraph {
  sg_nodes : list (string * (St → M Σ Up));
  sg_edges : list (string * Edge);
}.

(** ** The builder *)

Definition new_StateGraph : StateGraph := mkStateGraph [] [].

Definition addNode (name : string) (fn : St → M Σ Up) (g : StateGraph) : StateGraph :=
  mkStateGraph (sg_nodes g ++ [(name, fn)]) (sg_edges g).

Definition addEdge (src dst : string) (g : StateGraph) : StateGraph :=
  mkStateGraph (sg_nodes g) (sg_edges g ++ [(src, Static dst)]).

Definition addConditionalEdges (src : string) (router : St → M Σ string)
    (ends : list (string * string)) (g : StateGraph) : StateGraph :=
  mkStateGraph (sg_nodes g) (sg_edges g ++ [(src, Conditional router ends)]).

(** The path map given as an array of destinations: each label is the
    destination it names. *)
Definition path_array (dests : list string) : list (string * string) :=
  (λ d, (d, d)) <$> dests.

(** ** Validation *)

Definition node_names (g : StateGraph) : list string := (sg_nodes g).*1.

Definition edge_dests (e : Edge) : list string :=
  match e with
  | Static d => [d]
  | Conditional _ ends => ends.*2
  end.

Definition successors (g : StateGraph) (n : string) : list string :=
  match Js.assoc n (sg_edges g) with
  | Some e => edge_dests e
  | None => []
  end.

(** No node is named like a pseudo-node and no name is used twice. *)
Definition check_names (g : StateGraph) : bool :=
  bool_decide (NoDup (node_names g)) &&
  forallb (λ n, negb (String.eqb n START) && negb (String.eqb n END)) (node_names g).

Definition valid_source (g : StateGraph) (n : string) : bool :=
  String.eqb n START || bool_decide (n ∈ node_names g).

Definition valid_dest (g : StateGraph) (n : string) : bool :=
  String.eqb n END || bool_decide (n ∈ node_names g).

(** Every edge starts at [START] or a node, ends at [END] or a node, and a
    conditional edge declares at least one label. *)
Definition check_edge (g : StateGraph) (se : string * Edge) : bool :=
  valid_source g se.1 &&
  forallb (valid_dest g) (edge_dests se.2) &&
  match se.2 with
  | Static _ => true
  | Conditional _ ends => negb (bool_decide (ends = []))
  end.

Definition check_edges (g : StateGraph) : bool :=
  forallb (check_edge g) (sg_edges g) &&
  bool_decide (NoDup (sg_edges g).*1).

(** Every node has an outgoing edge. *)
Definition check_outgoing (g : StateGraph) : bool :=
  forallb (λ n, bool_decide (n ∈ (sg_edges g).*1)) (node_names g).

(** The names reachable from the frontier in at most [fuel] rounds. *)
Fixpoint reach (g : StateGraph) (fuel : nat) (seen frontier : list string)
  : list string :=
  match fuel with
  | 0 => seen
  | S fuel' =>
      let new := filter (λ n, n ∉ seen) (remove_dups (frontier ≫= successors g)) in
      match new with
      | [] => seen
      | _ => reach g fuel' (seen ++ new) new
      end
  end.

Definition reachable (g : StateGraph) : list string :=
  reach g (S (length (sg_nodes g))) [START] [START].

(** Every node can be reached from [START], and so can [END]. *)
Definition check_reachable (g : StateGraph) : bool :=
  forallb (λ n, bool_decide (n ∈ reachable g)) (END :: node_names g).

(** The entry: the destination of the one static edge of [START]. *)
Definition entry_of (g : StateGraph) : option string :=
  match Js.assoc START (sg_edges g) with
  | Some (Static d) => Some d
  | _ => None
  end.

Record CompiledGraph : Type := mkCompiled {
  cg_graph : StateGraph;
  cg_entry : string;
}.

Definition compile (g : StateGraph) : Res CompiledGraph :=
  if negb (check_names g) then
    Err (config_error "a node name is reserved or used twice")
  else if negb (check_edges g) then
    Err (config_error "an edge names an unknown node, or a node has two edges")
  else if negb (check_outgoing g) then
    Err (config_error "a node has no outgoing edge")
  else
    match entry_of g with
    | None => Err (config_error "START has no static edge")
    | Some entry =>
        if negb (check_reachable g) then
          Err (config_error "a node or END is unreachable from START")
        else Ok (mkCompiled g entry)
    end.

(** ** The walk *)

(** The node after [cur], once the update of [cur] is merged into [s]. *)
Definition next_node (g : StateGraph) (cur : string) (s : St) : M Σ string :=
  match Js.assoc cur (sg_edges g) with
  | None => throw (config_error "no outgoing edge")
  | Some (Static d) => ret d
  | Some (Conditional router ends) =>
      label <- router s ;;
      match Js.assoc label ends with
      | Some d => ret d
      | None => throw (config_error "the routing function returned an unmapped label")
      end
  end.

(** One step: run the node, merge its update, resolve the next node. *)
Definition step (g : StateGraph) (cur : string) (s : St) : M Σ (St * string) :=
  match Js.assoc cur (sg_nodes g) with
  | None => throw (config_error "unknown node")
  | Some fn =>
      u <- fn s ;;
      let s' := ann_reduce s u in
      nxt <- next_node g cur s' ;;
      ret (s', nxt)
  end.

(** The walk from [cur] with [fuel] steps left. It returns the outcome, the
    nodes that completed and the process state. *)
Fixpoint walk (g : StateGraph) (fuel : nat) (cur : string) (s : St)
    (done : list string) (σ : Σ) : Res St * list string * Σ :=
  if String.eqb cur END then (Ok s, done, σ)
  else
    match fuel with
    | 0 => (Err step_limit_error, done, σ)
    | S fuel' =>
        match step g cur s σ with
        | (Ok (s', nxt), σ') => walk g fuel' nxt s' (done ++ [cur]) σ'
        | (Err e, σ') => (Err e, done, σ')
        end
    end.

(** [graph.invoke(input, {recursionLimit})] with the nodes that completed. *)
Definition invoke_trace (cg : CompiledGraph) (input : Up) (limit : nat) (σ : Σ)
  : Res St * list string * Σ :=
  walk (cg_graph cg) limit (cg_entry cg) (ann_reduce ann_empty input) [] σ.

(** [graph.invoke(input, {recursionLimit})]. *)
Definition invoke (cg : CompiledGraph) (input : Up) (limit : nat) : M Σ St :=
  λ σ, let '(r, _, σ') := invoke_trace cg input limit σ in (r, σ').

(** ** Well-formed graphs *)

(** What [compile] establishes, as a proposition. *)
Record wf_graph (g : StateGraph) : Prop := {
  wf_names : NoDup (node_names g);
  wf_reserved : ∀ n, n ∈ node_names g → n ≠ START ∧ n ≠ END;
  wf_dest : ∀ src e d, (src, e) ∈ sg_edges g → d ∈ edge_dests e →
            d = END ∨ d ∈ node_names g;
  wf_outgoing : ∀ n, n ∈ node_names g → n ∈ (sg_edges g).*1;
}.

End engine.

Arguments Edge : clear implicits.
Arguments StateGraph : clear implicits.
Arguments CompiledGraph : clear implicits.

(** ** Lemmas *)

Lemma assoc_Some_elem_of {A} k (v : A) l : Js.assoc k l = Some v → (k, v) ∈ l.
Proof.
  induction l as [|[k' v'] l IH]; cbn; [done|].
  destruct (String.eqb k k') eqn:E.
  - apply String.eqb_eq in E as ->. intros [= ->]. apply list_elem_of_here.
  - intros ?. by apply list_elem_of_further, IH.
Qed.

(** In a list without repeated key the read of a key finds its entry. *)
Lemma assoc_NoDup {A} k (v : A) l : NoDup l.*1 → (k, v) ∈ l → Js.assoc k l = Some v.
Proof.
  induction l as [|[k' v'] l IH]; cbn; [by intros _ ?%elem_of_nil|].
  intros [Hk' Hl]%NoDup_cons [[= -> ->]|Hin]%elem_of_cons; [by rewrite String.eqb_refl|].
  destruct (String.eqb_spec k k') as [->|_]; [|by apply IH].
  destruct Hk'. apply list_elem_of_fmap. by exists (k', v).
Qed.

Lemma assoc_is_Some {A} k (l : list (string * A)) :
  is_Some (Js.assoc k l) ↔ k ∈ l.*1.
Proof.
  induction l as [|[k' v'] l IH]; cbn.
  - split; [by intros [??] | by intros ?%elem_of_nil].
  - destruct (String.eqb k k') eqn:E.
    + apply String.eqb_eq in E as ->. split; [intros _; apply list_elem_of_here | eauto].
    + apply String.eqb_neq in E. rewrite IH, elem_of_cons. naive_solver.
Qed.

Section engine_lemmas.
Context {Σ St Up : Type} `{Annotation St Up}.
Implicit Types (g : StateGraph Σ St Up) (σ : Σ) (s : St).

(** The builder only ever adds. *)
Lemma addNode_names name fn g :
  node_names (addNode name fn g) = node_names g ++ [name].
Proof. unfold node_names, addNode. cbn. by rewrite fmap_app. Qed.

Lemma compile_ok_graph g cg : compile g = Ok cg → cg_graph cg = g.
Proof.
  unfold compile. repeat case_match; try done. by intros [= <-].
Qed.

(** A graph that passes the five checks compiles. *)
Lemma compile_ok g entry :
  check_names g = true → check_edges g = true → check_outgoing g = true →
  entry_of g = Some entry → check_reachable g = true →
  compile g = Ok (mkCompiled g entry).
Proof. unfold compile. by intros -> -> -> -> ->. Qed.

(** A graph that compiles is well formed. *)
Lemma compile_wf g cg : compile g = Ok cg → wf_graph g.
Proof.
  unfold compile.
  destruct (check_names g) eqn:Hn; [|done].
  destruct (check_edges g) eqn:He; [|done].
  destruct (check_outgoing g) eqn:Ho; [|done]. intros _.
  unfold check_names, check_edges, check_outgoing in *.
  apply andb_true_iff in Hn as [Hnd Hres], He as [He _].
  apply bool_decide_eq_true_1 in Hnd.
  rewrite forallb_forall in Hres, He, Ho.
  split; [done| | |].
  - intros n Hin%list_elem_of_In%Hres.
    apply andb_true_iff in Hin as [H1%negb_true_iff%String.eqb_neq
                                   H2%negb_true_iff%String.eqb_neq]. done.
  - intros src e d Hin%list_elem_of_In%He Hd.
    unfold check_edge in Hin. cbn in Hin.
    apply andb_true_iff in Hin as [[_ Hds]%andb_true_iff _].
    rewrite forallb_forall in Hds. apply list_elem_of_In, Hds in Hd.
    apply orb_true_iff in Hd as [->%String.eqb_eq | ?%bool_decide_eq_true_1]; eauto.
  - intros n Hin%list_elem_of_In%Ho. by apply bool_decide_eq_true_1 in Hin.
Qed.

(** A static edge to a name that is neither a node nor [END] makes
    [compile] fail with a configuration error. *)
Lemma compile_dangling_edge g src d :
  (src, Static d) ∈ sg_edges g → d ≠ END → d ∉ node_names g →
  ∃ msg, compile g = Err (config_error msg).
Proof.
  intros Hin Hend Hnode. unfold compile.
  destruct (check_names g); [|by eexists]. cbn.
  assert (check_edges g = false) as ->; [|by eexists].
  unfold check_edges. apply andb_false_iff. left.
  apply not_true_iff_false. rewrite forallb_forall.
  intros Hall. apply list_elem_of_In, Hall in Hin. unfold check_edge in Hin. cbn in Hin.
  apply andb_true_iff in Hin as [[_ Hd]%andb_true_iff _].
  rewrite andb_true_r in Hd.
  apply orb_true_iff in Hd as [?%String.eqb_eq | ?%bool_decide_eq_true_1]; done.
Qed.

(** The entry of a compiled graph is [END] or a node. *)
Lemma compile_entry g cg :
  compile g = Ok cg → cg_entry cg = END ∨ cg_entry cg ∈ node_names g.
Proof.
  intros Hc. pose proof (compile_wf _ _ Hc) as Hwf. revert Hc. unfold compile.
  repeat case_match; try done. intros [= <-]. cbn.
  unfold entry_of in *. repeat case_match; simplify_eq.
  eapply (wf_dest _ Hwf); [by eapply assoc_Some_elem_of | apply list_elem_of_here].
Qed.

(** In a well-formed graph the next node, when the edge yields one, is
    [END] or a node. *)
Lemma next_node_wf g cur s σ nxt σ' :
  wf_graph g → next_node g cur s σ = (Ok nxt, σ') →
  nxt = END ∨ nxt ∈ node_names g.
Proof.
  intros Hwf. unfold next_node.
  destruct (Js.assoc cur (sg_edges g)) as [[d|router ends]|] eqn:E; [| |done].
  - intros [= <- _]. eapply (wf_dest _ Hwf); [by eapply assoc_Some_elem_of|].
    apply list_elem_of_here.
  - intros (label & σ1 & _ & Hl)%bind_ok_inv.
    destruct (Js.assoc label ends) as [d|] eqn:El; [|done].
    injection Hl as <- _.
    eapply (wf_dest _ Hwf); [by eapply assoc_Some_elem_of|]. cbn.
    apply assoc_Some_elem_of in El. by apply (list_elem_of_fmap_2 snd) in El.
Qed.

Lemma step_wf g cur s σ s' nxt σ' :
  wf_graph g → step g cur s σ = (Ok (s', nxt), σ') →
  nxt = END ∨ nxt ∈ node_names g.
Proof.
  intros Hwf. unfold step. destruct (Js.assoc cur (sg_nodes g)) as [fn|]; [|done].
  intros (u & σ1 & _ & (n & σ2 & Hn & [= <- <- <-])%bind_ok_inv)%bind_ok_inv.
  eauto using next_node_wf.
Qed.

(** The equations of the walk. *)
Lemma walk_END g fuel s done σ : walk g fuel END s done σ = (Ok s, done, σ).
Proof. by destruct fuel. Qed.

Lemma walk_limit g cur s done σ :
  cur ≠ END → walk g 0 cur s done σ = (Err step_limit_error, done, σ).
Proof. intros Hne%String.eqb_neq. cbn. by rewrite Hne. Qed.

Lemma walk_step_ok g fuel cur s done σ s' nxt σ' :
  cur ≠ END → step g cur s σ = (Ok (s', nxt), σ') →
  walk g (S fuel) cur s done σ = walk g fuel nxt s' (done ++ [cur]) σ'.
Proof. intros Hne%String.eqb_neq Hs. cbn. by rewrite Hne, Hs. Qed.

Lemma walk_step_err g fuel cur s done σ e σ' :
  cur ≠ END → step g cur s σ = (Err e, σ') →
  walk g (S fuel) cur s done σ = (Err e, done, σ').
Proof. intros Hne%String.eqb_neq Hs. cbn. by rewrite Hne, Hs. Qed.

(** The nodes that completed only grow, by at most the fuel. *)
Lemma walk_done g fuel cur s done σ r done' σ' :
  walk g fuel cur s done σ = (r, done', σ') →
  ∃ more, done' = done ++ more ∧ length more ≤ fuel.
Proof.
  revert cur s done σ. induction fuel as [|fuel IH]; intros cur s done σ; cbn.
  - destruct (String.eqb cur END); intros [= _ <- _]; exists []; by rewrite app_nil_r.
  - destruct (String.eqb cur END).
    { intros [= _ <- _]. exists []. rewrite app_nil_r. split; [done | cbn; lia]. }
    destruct (step g cur s σ) as [[[s1 nxt]|e] σ1].
    + intros (more & -> & Hlen)%IH. exists (cur :: more).
      rewrite <- app_assoc. split; [done | cbn; lia].
    + intros [= _ <- _]. exists []. rewrite app_nil_r. split; [done | cbn; lia].
Qed.

(** More fuel does not change a walk that ended at [END] or in an error of
    a node or an edge. *)
Lemma walk_fuel_mono g fuel fuel' cur s done σ r done' σ' :
  walk g fuel cur s done σ = (r, done', σ') →
  r ≠ Err step_limit_error → fuel ≤ fuel' →
  walk g fuel' cur s done σ = (r, done', σ').
Proof.
  revert fuel' cur s done σ.
  induction fuel as [|fuel IH]; intros fuel' cur s done σ; cbn.
  - destruct (String.eqb cur END) eqn:E.
    + intros [= <- <- <-] _ _. destruct fuel'; cbn; by rewrite E.
    + by intros [= <- _ _] ?.
  - destruct (String.eqb cur END) eqn:E.
    { intros [= <- <- <-] _ _. destruct fuel'; cbn; by rewrite E. }
    intros Hw Hr Hle. destruct fuel' as [|fuel']; [lia|]. cbn. rewrite E.
    destruct (step g cur s σ) as [[[s1 nxt]|e] σ1]; [|done].
    apply IH; [done..|lia].
Qed.

(** Why a step from a registered node of a well-formed graph fails: the
    node threw, the routing function threw, or it returned a label its
    path map does not declare. *)
Lemma step_err_inv g cur s σ e σ' :
  wf_graph g → cur ∈ node_names g → step g cur s σ = (Err e, σ') →
  ∃ fn, Js.assoc cur (sg_nodes g) = Some fn ∧
    (fn s σ = (Err e, σ') ∨
     ∃ u σ1 router ends,
       fn s σ = (Ok u, σ1) ∧
       Js.assoc cur (sg_edges g) = Some (Conditional router ends) ∧
       (router (ann_reduce s u) σ1 = (Err e, σ') ∨
        ∃ label, router (ann_reduce s u) σ1 = (Ok label, σ') ∧
                 Js.assoc label ends = None ∧
                 e = config_error "the routing function returned an unmapped label")).
Proof.
  intros Hwf Hin. unfold step.
  destruct (proj2 (assoc_is_Some cur (sg_nodes g)) Hin) as [fn ->].
  intros [Hf|(u & σ1 & Hf & Hn)]%bind_err_inv; exists fn; split; eauto.
  right. apply bind_err_inv in Hn as [Hn|(? & ? & _ & [=])].
  apply (wf_outgoing _ Hwf), assoc_is_Some in Hin as [ed Hed].
  revert Hn. unfold next_node. rewrite Hed. destruct ed as [d|router ends]; [done|].
  intros [Hr|(label & σ2 & Hr & Hl)]%bind_err_inv;
    exists u, σ1, router, ends; repeat split; eauto.
  right. exists label. destruct (Js.assoc label ends); [done|].
  injection Hl as <- <-. eauto.
Qed.

End engine_lemmas.

(** ** States of channels without a reducer *)

(** The state of [Annotation.Root({k: Annotation<T>, ..})]: an object with
    one property per channel that has been written. A node returns an
    object with the channels it writes, and the value it gives replaces the
    value of the channel. A channel that has not been written reads
    [undefined]. *)
Definition ObjState : Type := list (string * value).

Definition field (k : string) (state : ObjState) : value :=
  default VUndefined (Js.assoc k state).

#[export] Instance LastValue : Annotation ObjState ObjState := {|
  ann_empty := [];
  ann_reduce := Js.assign_fields;
|}.

(** The channels an update writes are among [channels]. *)
Definition writes (channels : list string) (update : ObjState) : Prop :=
  update.*1 ⊆ channels.

Lemma field_assign_eq k v state :
  field k (Js.assign_fields state [(k, v)]) = v.
Proof. unfold field, Js.assign_fields. cbn. by rewrite assoc_set_eq. Qed.

Lemma field_assign_ne k k' v state :
  k ≠ k' → field k (Js.assign_fields state [(k', v)]) = field k state.
Proof. intros Hne. unfold field, Js.assign_fields. cbn. by rewrite assoc_set_ne. Qed.

(** An update leaves the channels it does not write as they are. *)
Lemma field_assign_other k state update :
  k ∉ update.*1 → field k (Js.assign_fields state update) = field k state.
Proof.
  unfold field, Js.assign_fields. revert state.
  induction update as [|[k' v] update IH]; intros state Hk; [done|].
  cbn in *. apply not_elem_of_cons in Hk as [Hne Hk].
  by rewrite IH, assoc_set_ne.
Qed.

(** ** The types of the channels *)

(** The type a channel is declared with, [Annotation<T>]. The types of the
    language are erased before the script runs: a type is a set of values
    that nothing checks when a node returns its update. *)
Inductive ChannelType : Type :=
| TString
| TNumber
| TBoolean
| TObject
| TAny
| TLiterals (literals : list string).

#[export] Instance ChannelType_eq_dec : EqDecision ChannelType.
Proof. solve_decision. Defined.

Definition has_type (t : ChannelType) (v : value) : bool :=
  match t, v with
  | TAny, _ => true
  | TString, VStr _ => true
  | TNumber, VNum _ => true
  | TBoolean, VBool _ => true
  | TObject, VObj _ => true
  | TLiterals literals, VStr s => bool_decide (s ∈ literals)
  | _, _ => false
  end.

(** The channels of [Annotation.Root({..})], in the order of the
    declaration. *)
Definition StateSchema : Type := list (string * ChannelType).

(** Every property of the object is a channel of the schema and holds a
    value of its type. *)
Definition conforms (schema : StateSchema) (o : ObjState) : bool :=
  forallb (λ kv, from_option (λ t, has_type t kv.2) false (Js.assoc kv.1 schema)) o.

(** An update whose channels and values are those of [schema]. *)
Definition produces (schema : StateSchema) (update : ObjState) : Prop :=
  conforms schema update = true.

(** The schema without the types of the channels [ks]. *)
Definition relax (ks : list string) (schema : StateSchema) : StateSchema :=
  (λ kt, (kt.1, if bool_decide (kt.1 ∈ ks) then TAny else kt.2)) <$> schema.

(** Every channel of [a] is a channel of [b], with the same type or with
    none. *)
Definition part_of (a b : StateSchema) : bool :=
  forallb (λ kt, from_option (λ t, bool_decide (t = TAny ∨ t = kt.2)) false
                   (Js.assoc kt.1 b)) a.

Section channel_types.
Implicit Types (schema : StateSchema) (state update : ObjState) (v : value).

Lemma conforms_lookup schema state k v :
  conforms schema state = true → Js.assoc k state = Some v →
  ∃ t, Js.assoc k schema = Some t ∧ has_type t v = true.
Proof.
  intros Hall Hk%assoc_Some_elem_of.
  apply list_elem_of_In, (proj1 (forallb_forall _ _) Hall) in Hk. cbn in Hk.
  destruct (Js.assoc k schema) as [t|]; [by exists t | done].
Qed.

Lemma conforms_set schema state k v t :
  conforms schema state = true → Js.assoc k schema = Some t → has_type t v = true →
  conforms schema (Js.assoc_set k v state) = true.
Proof.
  intros Hall Hk Hv. induction state as [|[k' v'] state IH]; cbn in *.
  - rewrite Hk. cbn. by rewrite Hv.
  - apply andb_true_iff in Hall as [Hhd Htl].
    destruct (String.eqb k k'); cbn; (apply andb_true_iff; split; [|by auto]); [|done].
    by rewrite Hk.
Qed.

(** The reducer keeps the state in the schema when the update is. *)
Lemma conforms_assign schema state update :
  conforms schema state = true → conforms schema update = true →
  conforms schema (Js.assign_fields state update) = true.
Proof.
  unfold Js.assign_fields. revert state.
  induction update as [|[k v] update IH]; intros state Hs Hu; [done|].
  cbn in Hu. apply andb_true_iff in Hu as [Hkv Hu]. cbn.
  destruct (Js.assoc k schema) as [t|] eqn:Hk; [|done].
  by eapply IH, Hu; eapply conforms_set.
Qed.

(** An object of a part of the schema is one of the schema. *)
Lemma conforms_part_of a b update :
  part_of a b = true → conforms a update = true → conforms b update = true.
Proof.
  intros Hpart Hu. apply forallb_forall. intros [k v] Hin. cbn.
  apply (proj1 (forallb_forall _ _) Hu) in Hin. cbn in Hin.
  destruct (Js.assoc k a) as [t|] eqn:Hk; [|done].
  apply assoc_Some_elem_of, list_elem_of_In in Hk.
  apply (proj1 (forallb_forall _ _) Hpart) in Hk. cbn in Hk.
  destruct (Js.assoc k b) as [t'|]; [|done]. cbn in Hk.
  by apply bool_decide_eq_true in Hk as [->| ->].
Qed.

(** It writes channels of the schema only. *)
Lemma conforms_writes schema update :
  conforms schema update = true → writes schema.*1 update.
Proof.
  intros Hu k [[k' v] [-> Hin]]%list_elem_of_fmap. cbn.
  apply list_elem_of_In, (proj1 (forallb_forall _ _) Hu) in Hin. cbn in Hin.
  destruct (Js.assoc k' schema) as [t|] eqn:Hk; [|done].
  apply assoc_Some_elem_of in Hk. apply list_elem_of_fmap. by exists (k', t).
Qed.

End channel_types.
