(* ===== verification/Walks.v ===== *)
(** * Walks that keep an invariant

    Theorems on the walk of the engine, for every graph. The invariant has
    two parts: [I] on the process and [J] on the state of the graph.

    [safe_graph] is the contract of the graphs whose nodes catch what they
    call: every node and every routing function returns and keeps the
    invariant, and every routing function answers with a label of its path
    map. [guarded_graph] lets the nodes throw, with [E] what holds of the
    error and of the process when one does.

    [walk_guarded_limit]: the walk of a guarded graph ends at [END], at the
    step limit, or with what a node threw, and keeps the invariant;
    [walk_safe] is the case of a safe graph. [walk_guarded]: when moreover
    the edges descend along a rank (the graph has no cycle), a walk with
    more fuel than the rank of its first node ends at [END] after a path of
    the graph of at most that many nodes, or with what a node threw;
    [walk_total] is the case of a safe graph. [guarded_graph_and] adds an
    invariant of the state that the updates of the nodes keep, such as the
    types of the channels, to the invariant of a guarded graph.

    [graph_sim] relates two graphs with the same wiring whose nodes and
    routing functions simulate each other; [walk_sim] lifts the simulation
    to the walks. *)

From stdpp Require Import base option list strings.
From S2P Require Import Prelude JsValue Engine.

Section walks.
Context {Σ St Up : Type} `{Annotation St Up}.
Implicit Types (g : StateGraph Σ St Up) (σ : Σ) (s : St).
Implicit Types (I : Σ → Prop) (J : St → Prop).

(** On the states that satisfy [J], the nodes and the routing functions of
    [g] return and keep the invariant [I] of the process, the update of a
    node leads to a state that satisfies [J], and the routing functions
    answer with declared labels. *)
Record safe_graph g I J : Prop := {
  safe_nodes : ∀ name fn s,
    (name, fn) ∈ sg_nodes g → J s →
    hoare I (fn s) (returns (λ u σ, I σ ∧ J (ann_reduce s u)));
  safe_routers : ∀ src router ends s,
    (src, Conditional router ends) ∈ sg_edges g → J s →
    hoare I (router s) (returns (λ label σ, I σ ∧ is_Some (Js.assoc label ends)));
}.

(** The same for nodes that may throw: [E] is what holds of the error and
    of the process when one does. *)
Record guarded_graph g I J (E : JsError → Σ → Prop) : Prop := {
  guarded_nodes : ∀ name fn s,
    (name, fn) ∈ sg_nodes g → J s →
    hoare I (fn s) (post (λ u σ, I σ ∧ J (ann_reduce s u)) E);
  guarded_routers : ∀ src router ends s,
    (src, Conditional router ends) ∈ sg_edges g → J s →
    hoare I (router s) (returns (λ label σ, I σ ∧ is_Some (Js.assoc label ends)));
}.

(** The edges of [g] descend along [rank]. *)
Definition ranked g (rank : string → nat) : Prop :=
  ∀ n d, n ∈ node_names g → d ∈ successors g n → d ≠ END → rank d < rank n.

(** The same, as a test on the edges. *)
Definition check_ranked g (rank : string → nat) : bool :=
  forallb (λ n, forallb (λ d, String.eqb d END || Nat.ltb (rank d) (rank n))
                        (successors g n))
          (node_names g).

(** The nodes [l] follow one another along the edges of [g], and the last
    of them has an edge to [END]. *)
Fixpoint is_path g (l : list string) : Prop :=
  match l with
  | [] => True
  | n :: l' =>
      match l' with
      | [] => END ∈ successors g n
      | m :: _ => m ≠ END ∧ m ∈ successors g n ∧ is_path g l'
      end
  end.

(** Two graphs with the same wiring, whose nodes and routing functions
    simulate each other. *)
Inductive edge_sim {Σ'} (R : Σ → Σ' → Prop) : Edge Σ St → Edge Σ' St → Prop :=
| static_sim d : edge_sim R (Static d) (Static d)
| conditional_sim r1 r2 ends :
    (∀ s, msim R (r1 s) (r2 s)) →
    edge_sim R (Conditional r1 ends) (Conditional r2 ends).

Record graph_sim {Σ'} (R : Σ → Σ' → Prop) g (g' : StateGraph Σ' St Up) : Prop := {
  sim_nodes : Forall2 (λ n n', n.1 = n'.1 ∧ ∀ s, msim R (n.2 s) (n'.2 s))
                (sg_nodes g) (sg_nodes g');
  sim_edges : Forall2 (λ e e', e.1 = e'.1 ∧ edge_sim R e.2 e'.2)
                (sg_edges g) (sg_edges g');
}.

End walks.

(** ** Lemmas *)

Section walk_lemmas.
Context {Σ St Up : Type} `{Annotation St Up}.
Implicit Types (g : StateGraph Σ St Up) (σ : Σ) (s : St).
Implicit Types (I : Σ → Prop) (J : St → Prop).

Lemma check_ranked_ranked g rank : check_ranked g rank = true → ranked g rank.
Proof.
  unfold check_ranked, ranked. rewrite forallb_forall.
  intros Hall n d Hn Hd Hne.
  apply list_elem_of_In, Hall in Hn. rewrite forallb_forall in Hn.
  apply list_elem_of_In, Hn in Hd.
  apply orb_true_iff in Hd as [?%String.eqb_eq | ?%Nat.ltb_lt]; done.
Qed.

(** A walk that returns from a node has completed that node first. *)
Lemma walk_ok_first g fuel cur s done σ s' done' σ' :
  walk g fuel cur s done σ = (Ok s', done', σ') → cur ≠ END →
  ∃ more, done' = done ++ cur :: more.
Proof.
  intros Hwalk Hne. destruct fuel as [|fuel]; [by rewrite walk_limit in Hwalk|].
  destruct (step g cur s σ) as [[[s1 nxt]|e] σ1] eqn:Hstep;
    [|by erewrite walk_step_err in Hwalk].
  erewrite walk_step_ok in Hwalk by done.
  apply walk_done in Hwalk as (more & -> & _). exists more. by rewrite <- app_assoc.
Qed.

(** The step of a node with a conditional edge. *)
Lemma step_conditional g cur fn router ends s σ u σ1 label σ2 d :
  Js.assoc cur (sg_nodes g) = Some fn →
  Js.assoc cur (sg_edges g) = Some (Conditional router ends) →
  fn s σ = (Ok u, σ1) → router (ann_reduce s u) σ1 = (Ok label, σ2) →
  Js.assoc label ends = Some d →
  step g cur s σ = (Ok (ann_reduce s u, d), σ2).
Proof.
  intros Hfn He Hu Hl Hd. unfold step, next_node, bind. by rewrite Hfn, Hu, He, Hl, Hd.
Qed.

Lemma safe_guarded g I J : safe_graph g I J → guarded_graph g I J (λ _ _, False).
Proof. intros [Hn Hr]. by split. Qed.

(** A second invariant of the state, which the update of every node
    keeps: the graph is guarded with both. *)
Lemma guarded_graph_and g I J J' E :
  guarded_graph g I J E →
  (∀ name fn s, (name, fn) ∈ sg_nodes g → J s → J' s →
     hoare I (fn s) (post (λ u _, J' (ann_reduce s u)) (λ _ _, True))) →
  guarded_graph g I (λ s, J s ∧ J' s) E.
Proof.
  intros [Hn Hr] Hn'. split.
  - intros name fn s Hin [Hs Hs'] σ Hσ.
    pose proof (Hn name fn s Hin Hs σ Hσ) as Hu.
    pose proof (Hn' name fn s Hin Hs Hs' σ Hσ) as Hu'.
    destruct (fn s σ) as [[u|e] σ']; cbn in *; [|done]. by destruct Hu.
  - intros src router ends s Hin [Hs _]. by eapply Hr.
Qed.

Lemma safe_graph_and g I J J' :
  safe_graph g I J →
  (∀ name fn s, (name, fn) ∈ sg_nodes g → J s → J' s →
     hoare I (fn s) (post (λ u _, J' (ann_reduce s u)) (λ _ _, True))) →
  safe_graph g I (λ s, J s ∧ J' s).
Proof.
  intros Hsafe%safe_guarded Hn'.
  destruct (guarded_graph_and g I J J' _ Hsafe Hn') as [Hn Hr]. by split.
Qed.

(** The next node of a node of a guarded graph. *)
Lemma next_node_guarded g I J E cur s :
  wf_graph g → guarded_graph g I J E → cur ∈ node_names g → J s →
  hoare I (next_node g cur s) (returns (λ nxt σ, I σ ∧ nxt ∈ successors g cur)).
Proof.
  intros Hwf Hg Hcur Hs σ Hσ. unfold next_node, successors.
  apply (wf_outgoing _ Hwf), assoc_is_Some in Hcur as [e He]. rewrite He.
  destruct e as [d|router ends]; cbn; [split; [done | by left]|].
  apply assoc_Some_elem_of in He.
  destruct (hoare_returns_run _ _ _ σ (guarded_routers _ _ _ _ Hg _ _ _ s He Hs) Hσ)
    as (label & σ' & Hr & HI & [d Hd]).
  unfold bind. rewrite Hr, Hd. cbn. split; [done|].
  apply assoc_Some_elem_of in Hd. by apply (list_elem_of_fmap_2 snd) in Hd.
Qed.

(** A step from a node of a guarded graph returns, or throws what the node
    throws. *)
Lemma step_guarded g I J E cur s :
  wf_graph g → guarded_graph g I J E → cur ∈ node_names g → J s →
  hoare I (step g cur s)
    (post (λ r σ, I σ ∧ J r.1 ∧ r.2 ∈ successors g cur ∧
                  (r.2 = END ∨ r.2 ∈ node_names g)) E).
Proof.
  intros Hwf Hg Hcur Hs σ Hσ. unfold step.
  destruct (proj2 (assoc_is_Some cur (sg_nodes g)) Hcur) as [fn Hfn]. rewrite Hfn.
  pose proof (guarded_nodes _ _ _ _ Hg _ _ s (assoc_Some_elem_of _ _ _ Hfn) Hs σ Hσ)
    as Hnode.
  unfold bind. destruct (fn s σ) as [[u|e] σ1]; cbn in Hnode; [|done].
  destruct Hnode as [HI HJ].
  destruct (hoare_returns_run _ _ _ σ1
              (next_node_guarded g I J E cur (ann_reduce s u) Hwf Hg Hcur HJ) HI)
    as (nxt & σ2 & Hn & HI2 & Hsucc).
  rewrite Hn. cbn. split_and!; [done..|]. eapply next_node_wf; eauto.
Qed.

(** A step from a node of a safe graph returns. *)
Lemma step_safe g I J cur s :
  wf_graph g → safe_graph g I J → cur ∈ node_names g → J s →
  hoare I (step g cur s)
    (returns (λ r σ, I σ ∧ J r.1 ∧ r.2 ∈ successors g cur ∧
                     (r.2 = END ∨ r.2 ∈ node_names g))).
Proof. intros Hwf Hsafe%safe_guarded. by apply step_guarded. Qed.

(** The walk of a guarded graph, cycles allowed: it ends at [END], at the
    step limit, or with what a node throws. *)
Lemma walk_guarded_limit g I J E fuel cur s done σ :
  wf_graph g → guarded_graph g I J E → cur = END ∨ cur ∈ node_names g → I σ → J s →
  let '(r, _, σ') := walk g fuel cur s done σ in
  post (λ s' σ', I σ' ∧ J s') (λ e σ', E e σ' ∨ (e = step_limit_error ∧ I σ')) r σ'.
Proof.
  intros Hwf Hg. revert cur s done σ.
  induction fuel as [|fuel IH]; intros cur s done σ Hcur Hσ Hs.
  - cbn. destruct (String.eqb cur END); cbn; eauto.
  - destruct (decide (cur = END)) as [->|Hne]; [by rewrite walk_END|].
    destruct Hcur as [?|Hcur]; [done|].
    pose proof (step_guarded g I J E cur s Hwf Hg Hcur Hs σ Hσ) as Hstep.
    destruct (step g cur s σ) as [[[s1 nxt]|e] σ1] eqn:Es; cbn in Hstep.
    + destruct Hstep as (HI & HJ & _ & Hnxt). erewrite walk_step_ok by done. by apply IH.
    + erewrite walk_step_err by done. by left.
Qed.

(** The walk of a safe graph ends at [END] or at the step limit, and keeps
    the invariant. *)
Lemma walk_safe g I J fuel cur s done σ :
  wf_graph g → safe_graph g I J → cur = END ∨ cur ∈ node_names g → I σ → J s →
  let '(r, _, σ') := walk g fuel cur s done σ in
  I σ' ∧ post (λ s' _, J s') (λ e _, e = step_limit_error) r σ'.
Proof.
  intros Hwf Hsafe%safe_guarded Hcur Hσ Hs.
  pose proof (walk_guarded_limit g I J _ fuel cur s done σ Hwf Hsafe Hcur Hσ Hs) as Hw.
  destruct (walk g fuel cur s done σ) as [[[s'|e] done'] σ']; cbn in *; [done|].
  by destruct Hw as [[]|[-> ?]].
Qed.

(** The walk of a guarded graph without cycle ends at [END] after a path
    of the graph, or with what a node throws. *)
Lemma walk_guarded g I J E rank fuel cur s done σ :
  wf_graph g → guarded_graph g I J E → ranked g rank →
  cur ∈ node_names g → rank cur < fuel → I σ → J s →
  ∃ r more σ',
    walk g fuel cur s done σ = (r, done ++ more, σ') ∧
    post (λ s' σ', I σ' ∧ J s' ∧ ∃ rest, more = cur :: rest ∧ length rest ≤ rank cur ∧
                                        is_path g more) E r σ'.
Proof.
  intros Hwf Hg Hrank. revert cur s done σ.
  induction fuel as [|fuel IH]; intros cur s done σ Hcur Hfuel Hσ Hs; [lia|].
  pose proof (wf_reserved _ Hwf _ Hcur) as [_ Hne].
  pose proof (step_guarded g I J E cur s Hwf Hg Hcur Hs σ Hσ) as Hstep.
  destruct (step g cur s σ) as [[[s1 nxt]|e] σ1] eqn:Es; cbn in Hstep.
  2:{ erewrite walk_step_err by done. exists (Err e), [], σ1. by rewrite app_nil_r. }
  destruct Hstep as (HI & HJ & Hsucc & Hnxt). erewrite walk_step_ok by done.
  destruct (decide (nxt = END)) as [->|Hnxt'].
  { rewrite walk_END. exists (Ok s1), [cur], σ1. split; [done|]. cbn.
    split_and!; [done..|]. exists []. split_and!; [done | cbn; lia | done]. }
  destruct Hnxt as [?|Hnxt]; [done|]. pose proof (Hrank _ _ Hcur Hsucc Hnxt') as Hlt.
  destruct (IH nxt s1 (done ++ [cur]) σ1 Hnxt ltac:(lia) HI HJ)
    as (r & more & σ' & -> & Hpost).
  exists r, (cur :: more), σ'. rewrite <- app_assoc. split; [done|].
  destruct r as [s'|e]; [|done]. destruct Hpost as (HI' & HJ' & rest & -> & Hlen & Hpath).
  split_and!; [done..|]. exists (nxt :: rest). split_and!; [done | cbn; lia | done].
Qed.

(** The walk of a safe graph without cycle ends at [END]. *)
Lemma walk_total g I J rank fuel cur s done σ :
  wf_graph g → safe_graph g I J → ranked g rank →
  cur ∈ node_names g → rank cur < fuel → I σ → J s →
  ∃ s' more σ', walk g fuel cur s done σ = (Ok s', done ++ cur :: more, σ') ∧
                I σ' ∧ J s' ∧ length more ≤ rank cur ∧ is_path g (cur :: more).
Proof.
  intros Hwf Hsafe%safe_guarded Hrank Hcur Hfuel Hσ Hs.
  destruct (walk_guarded g I J _ rank fuel cur s done σ Hwf Hsafe Hrank Hcur Hfuel Hσ Hs)
    as ([s'|e] & more & σ' & Hwalk & Hpost); [|done].
  destruct Hpost as (HI & HJ & rest & -> & Hlen & Hpath). by exists s', rest, σ'.
Qed.

End walk_lemmas.

(** ** The walk follows the edges *)

Section walk_paths.
Context {Σ St Up : Type} `{Annotation St Up}.
Implicit Types (g : StateGraph Σ St Up) (σ : Σ) (s : St).

(** The nodes [l] follow one another along the edges of [g]. *)
Fixpoint chain g (l : list string) : Prop :=
  match l with
  | n :: l' =>
      match l' with
      | [] => True
      | m :: _ => m ∈ successors g n ∧ chain g l'
      end
  | [] => True
  end.

Lemma is_path_chain g l : is_path g l → chain g l.
Proof.
  induction l as [|n [|m l] IH]; cbn; [done..|]. intros (_ & Hm & Hl). split; [done|].
  by apply IH.
Qed.

(** The node an edge yields is a successor of its source. *)
Lemma next_node_successor g cur s σ nxt σ' :
  next_node g cur s σ = (Ok nxt, σ') → nxt ∈ successors g cur.
Proof.
  unfold next_node, successors.
  destruct (Js.assoc cur (sg_edges g)) as [[d|router ends]|]; cbn; [| |done].
  - intros [= <- _]. apply list_elem_of_here.
  - intros (label & σ1 & _ & Hl)%bind_ok_inv.
    destruct (Js.assoc label ends) as [d|] eqn:El; [|done]. injection Hl as <- _.
    apply assoc_Some_elem_of in El. by apply (list_elem_of_fmap_2 snd) in El.
Qed.

Lemma step_successor g cur s σ s' nxt σ' :
  step g cur s σ = (Ok (s', nxt), σ') → nxt ∈ successors g cur.
Proof.
  unfold step. destruct (Js.assoc cur (sg_nodes g)) as [fn|]; [|done].
  intros (u & σ1 & _ & (n & σ2 & Hn & [= <- <- <-])%bind_ok_inv)%bind_ok_inv.
  eauto using next_node_successor.
Qed.

(** Whatever the nodes and the routing functions do, the nodes a walk of
    a well-formed graph executes are nodes of the graph that follow one
    another along its edges, from the node the walk starts at; a walk that
    returns has followed a path to [END]. *)
Lemma walk_chain g fuel cur s visited σ r visited' σ' :
  wf_graph g → cur ∈ node_names g →
  walk g fuel cur s visited σ = (r, visited', σ') →
  ∃ more, visited' = visited ++ more ∧ Forall (.∈ node_names g) more ∧ chain g more ∧
          (more = [] ∨ head more = Some cur) ∧ (is_ok r = true → is_path g more ∧ more ≠ []).
Proof.
  intros Hwf. revert cur s visited σ.
  induction fuel as [|fuel IH]; intros cur s visited σ Hcur;
    pose proof (wf_reserved _ Hwf _ Hcur) as [_ Hne].
  { rewrite walk_limit by done. intros [= <- <- <-]. exists []. rewrite app_nil_r.
    by split_and!; [|constructor|..|]; auto. }
  destruct (step g cur s σ) as [[[s1 nxt]|e] σ1] eqn:Es.
  2:{ erewrite walk_step_err by done. intros [= <- <- <-]. exists []. rewrite app_nil_r.
      by split_and!; [|constructor|..|]; auto. }
  erewrite walk_step_ok by done. pose proof (step_successor _ _ _ _ _ _ _ Es) as Hsucc.
  destruct (step_wf _ _ _ _ _ _ _ Hwf Es) as [->|Hnxt].
  { rewrite walk_END. intros [= <- <- <-]. exists [cur]. cbn.
    split_and!; [done | by repeat constructor | done | by right | done]. }
  intros (more & -> & Hall & Hchain & Hhead & Hok)%IH; [|done].
  exists (cur :: more). rewrite <- app_assoc. split_and!; [done | by constructor | | by right|].
  - destruct more as [|m more]; [done|]. destruct Hhead as [|[= ->]]; [done|]. by split.
  - intros Hr. destruct (Hok Hr) as [Hpath Hmore]. split; [|done].
    destruct more as [|m more]; [done|]. destruct Hhead as [|[= ->]]; [done|].
    split_and!; [|done..]. apply (wf_reserved _ Hwf _ Hnxt).
Qed.

End walk_paths.

(** ** Simulation of walks *)

Section walk_simulation.
Context {Σ Σ' St Up : Type} `{Annotation St Up} (R : Σ → Σ' → Prop).
Implicit Types (g : StateGraph Σ St Up) (h : StateGraph Σ' St Up).

(** Related tables give related entries. *)
Lemma assoc_Forall2 {A B} (P : A → B → Prop) (l : list (string * A))
    (l' : list (string * B)) k :
  Forall2 (λ n n', n.1 = n'.1 ∧ P n.2 n'.2) l l' →
  option_Forall2 P (Js.assoc k l) (Js.assoc k l').
Proof.
  induction 1 as [|[k1 a] [k2 b] l l' [Hk HP] _ IH]; cbn; [constructor|].
  cbn in Hk, HP. subst k2. destruct (String.eqb k k1); [by constructor | done].
Qed.

Lemma next_node_sim g h cur s :
  graph_sim R g h → msim R (next_node g cur s) (next_node h cur s).
Proof.
  intros Hsim. unfold next_node.
  destruct (assoc_Forall2 (edge_sim R) _ _ cur (sim_edges _ _ _ Hsim)) as [e e' He|];
    [|apply msim_throw].
  destruct He as [d|r1 r2 ends Hr]; [apply msim_ret|].
  apply msim_bind; [apply Hr|]. intros label.
  destruct (Js.assoc label ends); [apply msim_ret | apply msim_throw].
Qed.

Lemma step_sim g h cur s :
  graph_sim R g h → msim R (step g cur s) (step h cur s).
Proof.
  intros Hsim. unfold step.
  destruct (assoc_Forall2 (λ fn fn', ∀ s, msim R (fn s) (fn' s)) _ _ cur
              (sim_nodes _ _ _ Hsim)) as [fn fn' Hfn|];
    [|apply msim_throw].
  apply msim_bind; [apply Hfn|]. intros u.
  apply msim_bind; [by apply next_node_sim|]. intros nxt. apply msim_ret.
Qed.

(** Two graphs with the same wiring whose nodes and routing functions
    simulate each other take the same walks: the same outcome after the
    same nodes, in related states. *)
Lemma walk_sim g h fuel cur s done σ σ' :
  graph_sim R g h → R σ σ' →
  (walk g fuel cur s done σ).1 = (walk h fuel cur s done σ').1 ∧
  R (walk g fuel cur s done σ).2 (walk h fuel cur s done σ').2.
Proof.
  intros Hsim. revert cur s done σ σ'.
  induction fuel as [|fuel IH]; intros cur s done σ σ' Hσ; cbn;
    destruct (String.eqb cur END); [by split..|].
  destruct (step_sim g h cur s Hsim σ σ' Hσ) as [Hr Hσ1].
  destruct (step g cur s σ) as [[[s1 nxt]|e] σ1], (step h cur s σ') as [[[s1' nxt']|e'] σ1'];
    cbn in Hr, Hσ1; simplify_eq; [by apply IH | done].
Qed.

(** So do the calls of the compiled graphs. *)
Lemma invoke_sim g h entry input limit :
  graph_sim R g h →
  msim R (invoke (mkCompiled g entry) input limit) (invoke (mkCompiled h entry) input limit).
Proof.
  intros Hsim σ σ' Hσ. unfold invoke, invoke_trace. cbn.
  pose proof (walk_sim g h limit entry (ann_reduce ann_empty input) [] σ σ' Hsim Hσ) as Hw.
  destruct (walk g _ _ _ _ σ) as [[r1 d1] σ1], (walk h _ _ _ _ σ') as [[r2 d2] σ2].
  cbn in *. by destruct Hw as [[= -> _] HR].
Qed.

End walk_simulation.

(** ** Automation *)

(** Membership in a list given by its elements, as a disjunction of
    equations, with the impossible ones discarded. *)
Ltac elem_cases H :=
  repeat (apply elem_of_cons in H as [H|H]; [try discriminate H; try subst|]);
  try (by apply elem_of_nil in H).

(** The paths from the head of [H : is_path g (n :: more)], one successor
    at a time: [tac] closes the goal of a complete path. *)
Ltac enumerate_paths H more tac :=
  let Hin := fresh "Hin" in
  let Hne := fresh "Hne" in
  destruct more as [|? more];
  [ cbn in H; elem_cases H; try tac
  | destruct H as (Hne & Hin & H); cbn in Hin; elem_cases Hin; try done;
    enumerate_paths H more tac ].

(** ** Invariants that every node keeps *)

Section walk_stable.
Context {Σ St Up : Type} `{Annotation St Up}.
Implicit Types (g : StateGraph Σ St Up) (σ : Σ) (s : St) (K : Σ → Prop).

(** What every node and every routing function keeps, whether it returns
    or throws, a walk keeps, however it ends. *)
Lemma walk_stable g K fuel cur s visited σ :
  (∀ name fn s, (name, fn) ∈ sg_nodes g → hoare K (fn s) (λ _, K)) →
  (∀ src router ends s,
     (src, Conditional router ends) ∈ sg_edges g → hoare K (router s) (λ _, K)) →
  K σ → K (walk g fuel cur s visited σ).2.
Proof.
  intros Hnodes Hrouters. revert cur s visited σ.
  induction fuel as [|fuel IH]; intros cur s visited σ Hσ; cbn;
    destruct (String.eqb cur END); [done..|].
  assert (K (step g cur s σ).2) as Hstep;
    [|by destruct (step g cur s σ) as [[[s1 nxt]|e] σ1]; [apply IH|]].
  unfold step. destruct (Js.assoc cur (sg_nodes g)) as [fn|] eqn:Hfn; [|done].
  pose proof (Hnodes _ _ s (assoc_Some_elem_of _ _ _ Hfn) σ Hσ) as Hnode.
  unfold bind at 1. destruct (fn s σ) as [[u|e] σ1]; cbn in *; [|done].
  unfold bind at 1, next_node.
  destruct (Js.assoc cur (sg_edges g)) as [[d|router ends]|] eqn:He; cbn; [done| |done].
  pose proof (Hrouters _ _ _ (ann_reduce s u) (assoc_Some_elem_of _ _ _ He) σ1 Hnode) as Hr.
  unfold bind. destruct (router (ann_reduce s u) σ1) as [[label|e] σ2]; cbn in *; [|done].
  by destruct (Js.assoc label ends).
Qed.

(** So does a call of the compiled graph. *)
Lemma invoke_stable (cg : CompiledGraph Σ St Up) K input limit :
  (∀ name fn s, (name, fn) ∈ sg_nodes (cg_graph cg) → hoare K (fn s) (λ _, K)) →
  (∀ src router ends s,
     (src, Conditional router ends) ∈ sg_edges (cg_graph cg) →
     hoare K (router s) (λ _, K)) →
  hoare K (invoke cg input limit) (λ _, K).
Proof.
  intros Hnodes Hrouters σ Hσ. unfold invoke, invoke_trace.
  pose proof (walk_stable (cg_graph cg) K limit (cg_entry cg)
                (ann_reduce ann_empty input) [] σ Hnodes Hrouters Hσ) as Hw.
  by destruct (walk _ _ _ _ _ _) as [[r visited] σ'].
Qed.

End walk_stable.
