(* ===== verification/RunOptions.v ===== *)
(** * The options of a run: callbacks and the abort signal

    [graph.invoke(input, options)] takes, beside the recursion limit, a
    list of callback handlers ([callbacks: [langfuseHandler]] in the
    scripts that trace their runs) and an abort signal. This file is the
    executor of [Engine] with both, modelled from the observability
    interface and the cancellation rule of the specification.

    - The handlers are told of five events ([TraceEvent]). The executor
      tells them that a node is entered, that a node is left and that an
      edge is taken. A tool that a node invokes tells the handlers of the
      run, which reach it through the context of the call, that it is
      invoked and that it has returned ([invoke_observed]). A handler is
      a function of the event on the state; it returns nothing and cannot
      fail, so the walk never waits for it and never sees an error of it.
    - The signal is read where the walk is between two nodes. Once it is
      raised the walk runs no further node and the call ends with
      [CancellationError]: a state is returned only by a walk that reached
      [END] with the signal down, and an error a node threw while the
      signal was raised is reported as the cancellation it is.

    Theorems. With no handler and no signal the executor is [Engine.walk]
    ([walk_with_plain]). Two runs whose nodes simulate each other, with
    handlers that keep the relation and signals that agree, end the same
    ([walk_with_sim]): handlers that write what no node reads do not
    change a run. A run that ends with the signal raised ends with the
    cancellation error and no state ([walk_with_cancelled]); a run that
    starts with it raised runs nothing ([cancel_is_prompt]). With the
    handler that records what it is told ([recorder]), the record of a
    run is determined by the nodes that completed and the way the run
    ended ([recorded_walk]), and every edge in it is an edge of the graph
    ([edges_taken_chain]). For a graph whose nodes write to the record
    themselves ([graph_logs]), the record of a run is the events of the
    nodes that completed, each with the log of the node between its entry
    and its exit ([logged_walk], [recorded]); computations that log are
    closed under sequencing ([logs_bind], the class [Log]), and when the
    logs are answered invocations of tools, so is the record
    ([recorded_answered]). *)

From stdpp Require Import base option list strings.
From S2P Require Import Prelude JsValue Engine Walks.

(** What a callback handler is told. *)
Inductive TraceEvent : Type :=
| NodeEntered (node : string)
| NodeExited (node : string)
| EdgeTaken (source dest : string)
| ToolInvoked (name id : string)
| ToolResult (id : string).

#[export] Instance TraceEvent_eq_dec : EqDecision TraceEvent.
Proof. solve_decision. Defined.

Definition cancellation_error : JsError := mkError CancellationError "Aborted".

(** How a run ended: at [END], stopped before a node (by the signal or the
    step limit), by an error thrown in a node, or by an error of the edge
    that leaves a node. *)
Inductive Ending : Type :=
| Reached
| Stopped (node : string)
| Threw (node : string)
| Misrouted (node : string).

Section options.
Context {Σ St Up : Type} `{Annotation St Up}.

Record RunOptions : Type := mkRunOptions {
  recursionLimit : nat;
  callbacks : list (TraceEvent → Σ → Σ);
  signal : Σ → bool;
}.

(** The options of a call that gives a recursion limit only. *)
Definition plain (limit : nat) : RunOptions := mkRunOptions limit [] (λ _, false).

(** The options without their handlers. *)
Definition unobserved (o : RunOptions) : RunOptions :=
  mkRunOptions (recursionLimit o) [] (signal o).

(** Every handler is told, in the order of the list. *)
Definition notify (o : RunOptions) (ev : TraceEvent) (σ : Σ) : Σ :=
  foldl (λ σ handler, handler ev σ) σ (callbacks o).

Definition emit (o : RunOptions) (ev : TraceEvent) : M Σ unit := modify (notify o ev).

(** The function of a tool, called in a node of a run with the options
    [o]: the handlers of the run are told that the tool is invoked and,
    when the call has returned, that it has. A call that throws leaves
    its invocation without a result. *)
Definition invoke_observed {A} (o : RunOptions) (name id : string) (call : M Σ A) : M Σ A :=
  emit o (ToolInvoked name id) ;;
  result <- call ;;
  emit o (ToolResult id) ;;
  ret result.

(** One step, with its events. *)
Definition step_with (o : RunOptions) (g : StateGraph Σ St Up) (cur : string) (s : St)
  : M Σ (St * string) :=
  match Js.assoc cur (sg_nodes g) with
  | None => throw (config_error "unknown node")
  | Some fn =>
      emit o (NodeEntered cur) ;;
      u <- fn s ;;
      emit o (NodeExited cur) ;;
      let s' := ann_reduce s u in
      nxt <- next_node g cur s' ;;
      emit o (EdgeTaken cur nxt) ;;
      ret (s', nxt)
  end.

(** The error of a step, as the call reports it. *)
Definition surfaced (o : RunOptions) (e : JsError) (σ : Σ) : JsError :=
  if signal o σ then cancellation_error else e.

(** The walk under options. *)
Fixpoint walk_with (o : RunOptions) (g : StateGraph Σ St Up) (fuel : nat) (cur : string)
    (s : St) (visited : list string) (σ : Σ) : Res St * list string * Σ :=
  if signal o σ then (Err cancellation_error, visited, σ)
  else if String.eqb cur END then (Ok s, visited, σ)
  else
    match fuel with
    | 0 => (Err step_limit_error, visited, σ)
    | S fuel' =>
        match step_with o g cur s σ with
        | (Ok (s', nxt), σ') => walk_with o g fuel' nxt s' (visited ++ [cur]) σ'
        | (Err e, σ') => (Err (surfaced o e σ'), visited, σ')
        end
    end.

(** [graph.invoke(input, options)] with the nodes that completed. *)
Definition invoke_with_trace (cg : CompiledGraph Σ St Up) (input : Up) (o : RunOptions)
    (σ : Σ) : Res St * list string * Σ :=
  walk_with o (cg_graph cg) (recursionLimit o) (cg_entry cg)
    (ann_reduce ann_empty input) [] σ.

(** [graph.invoke(input, options)]. *)
Definition invoke_with (cg : CompiledGraph Σ St Up) (input : Up) (o : RunOptions)
  : M Σ St :=
  λ σ, let '(r, _, σ') := invoke_with_trace cg input o σ in (r, σ').

(** ** The record of a run *)

(** The events of the nodes [nodes] completed one after the other, the
    last of them followed by [stop]. *)
Fixpoint blocks (nodes : list string) (stop : string) : list TraceEvent :=
  match nodes with
  | [] => []
  | n :: rest =>
      NodeEntered n :: NodeExited n :: EdgeTaken n (default stop (head rest))
        :: blocks rest stop
  end.

(** The node a run ended at, and the events of that node. *)
Definition ending_node (e : Ending) : string :=
  match e with
  | Reached => END
  | Stopped n | Threw n | Misrouted n => n
  end.

Definition ending_events (e : Ending) : list TraceEvent :=
  match e with
  | Reached | Stopped _ => []
  | Threw n => [NodeEntered n]
  | Misrouted n => [NodeEntered n; NodeExited n]
  end.

(** The events of a run that completed [nodes] and ended with [e]. *)
Definition events_of (nodes : list string) (e : Ending) : list TraceEvent :=
  blocks nodes (ending_node e) ++ ending_events e.

(** The edges among the events. *)
Definition edges_taken (events : list TraceEvent) : list (string * string) :=
  omap (λ ev, match ev with EdgeTaken a b => Some (a, b) | _ => None end) events.

(** The events of the tools, and the events that are left without them:
    those of the nodes and of the edges. *)
Definition is_tool_event (ev : TraceEvent) : bool :=
  match ev with
  | ToolInvoked _ _ | ToolResult _ => true
  | _ => false
  end.

Definition node_events (events : list TraceEvent) : list TraceEvent :=
  List.filter (λ ev, negb (is_tool_event ev)) events.

(** The events of tool calls that returned, one after the other: each
    invocation followed by its result. A call is the name of the tool and
    the id of the call. *)
Definition paired (calls : list (string * string)) : list TraceEvent :=
  calls ≫= λ call, [ToolInvoked call.1 call.2; ToolResult call.2].

(** What a node that runs tools of [names] one after the other tells the
    handlers, when every tool that is invoked returns: the events of the
    calls, whether the node returns or throws. *)
Definition tool_log (names : list string) (ok : bool) (events : list TraceEvent) : Prop :=
  ∃ calls, events = paired calls ∧ Forall (λ call, call.1 ∈ names) calls.

(** A record in which every invocation of a tool is answered: it is of a
    tool of [names] and is followed at once by the result of the same
    call, and no result comes without its invocation. [pending] is the id
    of the call that is not answered yet. *)
Fixpoint answered (names : list string) (pending : option string)
    (events : list TraceEvent) : bool :=
  match events with
  | [] => bool_decide (pending = None)
  | ev :: rest =>
      match ev, pending with
      | ToolInvoked name id, None => bool_decide (name ∈ names) && answered names (Some id) rest
      | ToolResult id, Some id' => String.eqb id id' && answered names None rest
      | (NodeEntered _ | NodeExited _ | EdgeTaken _ _), None => answered names None rest
      | _, _ => false
      end
  end.

(** A node that tells the handlers nothing. *)
Definition no_events (ok : bool) (events : list TraceEvent) : Prop := events = [].

(** The logs of computations that can be run one after the other: the
    log of a computation that returns followed by the log of the next is
    a log of the two, and it is one whether or not more follows. *)
Class Log (T : bool → list TraceEvent → Prop) : Prop := {
  log_nil : T true [];
  log_app ok events1 events2 : T true events1 → T ok events2 → T ok (events1 ++ events2);
  log_fail events : T true events → T false events;
}.

(** The events of a run that completed [nodes] and ended with [e], when
    the node [n] adds to its own events a log that [T n] accepts, given
    whether the node returned. *)
Definition block (T : string → bool → list TraceEvent → Prop) (n nxt : string)
    (events : list TraceEvent) : Prop :=
  ∃ log, T n true log ∧ events = NodeEntered n :: log ++ [NodeExited n; EdgeTaken n nxt].

Definition ending_log (T : string → bool → list TraceEvent → Prop) (e : Ending)
    (events : list TraceEvent) : Prop :=
  match e with
  | Reached | Stopped _ => events = []
  | Threw n => ∃ log, T n false log ∧ events = NodeEntered n :: log
  | Misrouted n => ∃ log, T n true log ∧ events = NodeEntered n :: log ++ [NodeExited n]
  end.

Fixpoint recorded (T : string → bool → list TraceEvent → Prop) (nodes : list string)
    (e : Ending) (events : list TraceEvent) : Prop :=
  match nodes with
  | [] => ending_log T e events
  | n :: rest =>
      ∃ first later,
        block T n (default (ending_node e) (head rest)) first ∧
        recorded T rest e later ∧ events = first ++ later
  end.

End options.

Arguments RunOptions : clear implicits.

(** ** The handler that records *)

Section recording.
Context {Σ St Up : Type} `{Annotation St Up}.

(** A computation on a state beside which a record is kept. *)
Definition beside {A} (m : M Σ A) : M (Σ * list TraceEvent) A :=
  λ '(σ, record), let '(r, σ') := m σ in (r, (σ', record)).

Definition beside_edge (e : Edge Σ St) : Edge (Σ * list TraceEvent) St :=
  match e with
  | Static d => Static d
  | Conditional router ends => Conditional (λ s, beside (router s)) ends
  end.

(** The graph, on the state with the record. *)
Definition beside_graph (g : StateGraph Σ St Up) : StateGraph (Σ * list TraceEvent) St Up :=
  mkStateGraph ((λ n, (n.1, λ s, beside (n.2 s))) <$> sg_nodes g)
               ((λ e, (e.1, beside_edge e.2)) <$> sg_edges g).

(** The compiled graph, on the state with the record. *)
Definition beside_compiled (cg : CompiledGraph Σ St Up)
  : CompiledGraph (Σ * list TraceEvent) St Up :=
  mkCompiled (beside_graph (cg_graph cg)) (cg_entry cg).

(** The handler that keeps every event it is told, in order. *)
Definition recorder (ev : TraceEvent) (σ : Σ * list TraceEvent) : Σ * list TraceEvent :=
  (σ.1, σ.2 ++ [ev]).

(** The options [o] with the recorder as the one handler. *)
Definition recording (o : RunOptions Σ) : RunOptions (Σ * list TraceEvent) :=
  mkRunOptions (recursionLimit o) [recorder] (λ σ, signal o σ.1).

(** A computation on the state with the record that is [m] on the state
    and adds to the record events that [T] accepts, given whether [m]
    returned. *)
Definition logs {A} (T : bool → list TraceEvent → Prop)
    (m' : M (Σ * list TraceEvent) A) (m : M Σ A) : Prop :=
  ∀ σ record,
    ∃ events, m' (σ, record) = ((m σ).1, ((m σ).2, record ++ events)) ∧ T (is_ok (m σ).1) events.

(** The graph [h] is the graph [g] with nodes that write to the record:
    the node [n] logs what [T n] accepts, and the routing functions log
    nothing. *)
Record graph_logs (T : string → bool → list TraceEvent → Prop)
    (h : StateGraph (Σ * list TraceEvent) St Up) (g : StateGraph Σ St Up) : Prop := {
  logs_nodes : Forall2 (λ n' n, n'.1 = n.1 ∧ ∀ s, logs (T n.1) (n'.2 s) (n.2 s))
                 (sg_nodes h) (sg_nodes g);
  logs_edges : sg_edges h = (λ e, (e.1, beside_edge e.2)) <$> sg_edges g;
}.

End recording.

(** ** Lemmas *)

Lemma head_snoc {A} (l : list A) (x : A) : head (l ++ [x]) = Some (default x (head l)).
Proof. by destruct l. Qed.

Section options_lemmas.
Context {Σ St Up : Type} `{Annotation St Up}.
Implicit Types (g : StateGraph Σ St Up) (o : RunOptions Σ) (σ : Σ) (s : St).

(** *** Without handlers and without signal *)

Lemma step_with_unobserved o g cur s σ :
  callbacks o = [] → step_with o g cur s σ = step g cur s σ.
Proof.
  intros Ho. unfold step_with, step, emit, notify, modify, bind. rewrite Ho. cbn.
  destruct (Js.assoc cur (sg_nodes g)) as [fn|]; [|done].
  destruct (fn s σ) as [[u|e] σ1]; [|done].
  by destruct (next_node g cur (ann_reduce s u) σ1) as [[nxt|e] σ2].
Qed.

(** The executor of [Engine] is the executor under options that hold a
    recursion limit only. *)
Lemma walk_with_plain limit g fuel cur s visited σ :
  walk_with (plain limit) g fuel cur s visited σ = walk g fuel cur s visited σ.
Proof.
  revert cur s visited σ. induction fuel as [|fuel IH]; intros cur s visited σ; cbn;
    destruct (String.eqb cur END); [done..|].
  rewrite step_with_unobserved by done.
  by destruct (step g cur s σ) as [[[s1 nxt]|e] σ1].
Qed.

Lemma invoke_with_plain (cg : CompiledGraph Σ St Up) input limit :
  invoke_with cg input (plain limit) ≃ invoke cg input limit.
Proof.
  intros σ. unfold invoke_with, invoke_with_trace, invoke, invoke_trace.
  by rewrite walk_with_plain.
Qed.

(** A handler listed twice is told twice. *)
Lemma notify_twice limit (handler : TraceEvent → Σ → Σ) sig ev σ :
  notify (mkRunOptions limit [handler; handler] sig) ev σ = handler ev (handler ev σ).
Proof. done. Qed.

(** *** Cancellation *)

(** A run that starts with the signal raised runs nothing. *)
Lemma cancel_is_prompt o g fuel cur s visited σ :
  signal o σ = true →
  walk_with o g fuel cur s visited σ = (Err cancellation_error, visited, σ).
Proof. intros Hσ. destruct fuel; cbn; by rewrite Hσ. Qed.

(** A run that ends with the signal raised ends with the cancellation
    error: it returns no state and no other error. *)
Lemma walk_with_cancelled o g fuel cur s visited σ :
  signal o (walk_with o g fuel cur s visited σ).2 = true →
  (walk_with o g fuel cur s visited σ).1.1 = Err cancellation_error.
Proof.
  revert cur s visited σ. induction fuel as [|fuel IH]; intros cur s visited σ; cbn;
    destruct (signal o σ) eqn:Hσ; [done| |done|];
    destruct (String.eqb cur END); cbn; try congruence.
  destruct (step_with o g cur s σ) as [[[s1 nxt]|e] σ1]; [apply IH|].
  cbn. unfold surfaced. by intros ->.
Qed.

(** A run that returns a state, or fails with another error than the
    cancellation, ends with the signal down. *)
Lemma walk_with_uncancelled o g fuel cur s visited σ r visited' σ' :
  walk_with o g fuel cur s visited σ = (r, visited', σ') →
  r ≠ Err cancellation_error → signal o σ' = false.
Proof.
  intros Hw Hr. pose proof (walk_with_cancelled o g fuel cur s visited σ) as Hc.
  rewrite Hw in Hc. cbn in Hc. by destruct (signal o σ'); [destruct Hr; apply Hc|].
Qed.

(** The signal only cuts a run short: a run under a signal and without
    handlers is the run of [Engine.walk], or it is cancelled, with the
    signal raised, after nodes that the run of [Engine.walk] completes
    first. *)
Lemma walk_with_cut o g fuel cur s visited σ :
  callbacks o = [] →
  walk_with o g fuel cur s visited σ = walk g fuel cur s visited σ ∨
  (walk_with o g fuel cur s visited σ).1.1 = Err cancellation_error ∧
  signal o (walk_with o g fuel cur s visited σ).2 = true ∧
  (walk_with o g fuel cur s visited σ).1.2 `prefix_of` (walk g fuel cur s visited σ).1.2.
Proof.
  intros Ho. revert cur s visited σ.
  induction fuel as [|fuel IH]; intros cur s visited σ;
    (destruct (signal o σ) eqn:Hσ;
      [right; rewrite cancel_is_prompt by done; split_and!; [done..|];
       destruct (walk g _ cur s visited σ) as [[r v] σ'] eqn:Hw;
       apply walk_done in Hw as (more & -> & _); by eexists|]);
    cbn; rewrite Hσ; destruct (String.eqb cur END); [by left..|].
  rewrite step_with_unobserved by done.
  destruct (step g cur s σ) as [[[s1 nxt]|e] σ1]; [apply IH|].
  cbn. unfold surfaced. destruct (signal o σ1) eqn:Hσ1; [by right | by left].
Qed.

End options_lemmas.

(** *** Simulation *)

Section options_simulation.
Context {Σ Σ' St Up : Type} `{Annotation St Up} (R : Σ → Σ' → Prop).
Implicit Types (g : StateGraph Σ St Up) (h : StateGraph Σ' St Up).
Implicit Types (o : RunOptions Σ) (q : RunOptions Σ').

(** The handlers of [o] and of [q] keep the relation, and the signals
    agree on related states. *)
Record options_sim o q : Prop := {
  sim_notify : ∀ ev σ σ', R σ σ' → R (notify o ev σ) (notify q ev σ');
  sim_signal : ∀ σ σ', R σ σ' → signal o σ = signal q σ';
}.

Lemma emit_sim o q ev : options_sim o q → msim R (emit o ev) (emit q ev).
Proof. intros Ho σ σ' Hσ. split; [done | by apply Ho]. Qed.

Lemma step_with_sim o q g h cur s :
  graph_sim R g h → options_sim o q →
  msim R (step_with o g cur s) (step_with q h cur s).
Proof.
  intros Hsim Ho. unfold step_with.
  destruct (assoc_Forall2 (λ fn fn', ∀ s, msim R (fn s) (fn' s)) _ _ cur
              (sim_nodes _ _ _ Hsim)) as [fn fn' Hfn|];
    [|apply msim_throw].
  repeat first [ apply msim_ret | by apply emit_sim | by apply next_node_sim | apply Hfn
               | apply msim_bind; [|intros ?] ].
Qed.

(** Two runs of graphs whose nodes simulate each other, under options
    that simulate each other, end the same after the same nodes. *)
Lemma walk_with_sim o q g h fuel cur s visited σ σ' :
  graph_sim R g h → options_sim o q → R σ σ' →
  (walk_with o g fuel cur s visited σ).1 = (walk_with q h fuel cur s visited σ').1 ∧
  R (walk_with o g fuel cur s visited σ).2 (walk_with q h fuel cur s visited σ').2.
Proof.
  intros Hsim Ho. revert cur s visited σ σ'.
  induction fuel as [|fuel IH]; intros cur s visited σ σ' Hσ; cbn;
    rewrite <- (sim_signal _ _ Ho _ _ Hσ); destruct (signal o σ); [by split| |by split|];
    destruct (String.eqb cur END); [by split..|].
  destruct (step_with_sim o q g h cur s Hsim Ho σ σ' Hσ) as [Hr Hσ1].
  destruct (step_with o g cur s σ) as [[[s1 nxt]|e] σ1],
           (step_with q h cur s σ') as [[[s1' nxt']|e'] σ1'];
    cbn in Hr, Hσ1; simplify_eq; [by apply IH|].
  cbn. unfold surfaced. by rewrite (sim_signal _ _ Ho _ _ Hσ1).
Qed.

End options_simulation.

(** *** Computations that log *)

#[export] Instance no_events_log : Log no_events.
Proof. by split; unfold no_events; [|intros ? ? ? -> ->|]. Qed.

Lemma paired_app (calls1 calls2 : list (string * string)) :
  paired (calls1 ++ calls2) = paired calls1 ++ paired calls2.
Proof. apply bind_app. Qed.

#[export] Instance tool_log_log names : Log (tool_log names).
Proof.
  split.
  - by exists [].
  - intros ok ? ? (calls1 & -> & Hcalls1) (calls2 & -> & Hcalls2).
    exists (calls1 ++ calls2). by rewrite paired_app, Forall_app.
  - done.
Qed.

Lemma tool_log_call names name id :
  name ∈ names → tool_log names true [ToolInvoked name id; ToolResult id].
Proof. intros Hname. exists [(name, id)]. split; [done | by constructor]. Qed.

(** The events of a log of tool calls are events of tools. *)
Lemma tool_log_node_events names ok log : tool_log names ok log → node_events log = [].
Proof.
  intros (calls & -> & _). unfold node_events.
  induction calls as [|call calls IH]; [done | apply IH].
Qed.

Lemma answered_app names pending events1 events2 :
  answered names pending events1 = true →
  answered names pending (events1 ++ events2) = answered names None events2.
Proof.
  revert pending. induction events1 as [|ev events1 IH]; intros pending; cbn.
  - by intros ->%bool_decide_eq_true.
  - destruct ev, pending; try done; rewrite ?andb_true_iff; try apply IH;
      by intros [-> ?]; apply IH.
Qed.

Lemma tool_log_answered names ok log : tool_log names ok log → answered names None log = true.
Proof.
  intros (calls & -> & Hcalls). induction Hcalls as [|call calls Hcall _ IH]; [done|].
  cbn. by rewrite bool_decide_eq_true_2, String.eqb_refl.
Qed.

Section logging.
Context {Σ : Type} (T : bool → list TraceEvent → Prop) `{!Log T}.

Lemma logs_beside {A} (m : M Σ A) : logs T (beside m) m.
Proof.
  intros σ record. exists []. cbn. rewrite app_nil_r.
  destruct (m σ) as [[a|e] σ']; (split; [done|]); cbn; [|apply log_fail]; apply log_nil.
Qed.

Lemma logs_lift_res {A} (r : Res A) : logs T (lift_res r) (@lift_res Σ _ r).
Proof.
  intros σ record. exists []. cbn. rewrite app_nil_r. split; [done|].
  destruct r; cbn; [|apply log_fail]; apply log_nil.
Qed.

Lemma logs_ret {A} (a : A) : logs T (ret a) (@ret Σ _ a).
Proof. apply (logs_lift_res (Ok a)). Qed.

Lemma logs_bind {A B} (m' : M (Σ * list TraceEvent) A) (m : M Σ A)
    (f' : A → M (Σ * list TraceEvent) B) (f : A → M Σ B) :
  logs T m' m → (∀ a, logs T (f' a) (f a)) → logs T (x <- m' ;; f' x) (x <- m ;; f x).
Proof.
  intros Hm Hf σ record. unfold bind. destruct (Hm σ record) as (events1 & -> & H1).
  destruct (m σ) as [[a|e] σ1]; cbn in *; [|by exists events1].
  destruct (Hf a σ1 (record ++ events1)) as (events2 & -> & H2).
  exists (events1 ++ events2). rewrite <- app_assoc. split; [done|]. by apply log_app.
Qed.

Lemma logs_bind_res {A B} (r : Res A) (f' : A → M (Σ * list TraceEvent) B) (f : A → M Σ B) :
  (∀ a, r = Ok a → logs T (f' a) (f a)) →
  logs T (x <- lift_res r ;; f' x) (x <- lift_res r ;; f x).
Proof.
  intros Hf. destruct r as [a|e]; [by apply Hf|].
  intros σ record. exists []. cbn. rewrite app_nil_r. split; [done|]. apply log_fail, log_nil.
Qed.

Lemma logs_mfold {A B} (f' : B → A → M (Σ * list TraceEvent) B) (f : B → A → M Σ B)
    (acc : B) (l : list A) :
  (∀ acc a, logs T (f' acc a) (f acc a)) → logs T (mfold f' acc l) (mfold f acc l).
Proof.
  intros Hf. revert acc.
  induction l as [|a l IH]; intros acc; cbn; [apply logs_ret | by apply logs_bind].
Qed.

(** A tool that is invoked under the recorder and returns logs its
    invocation and its result. *)
Lemma logs_invoke_observed {A} (o : RunOptions Σ) name id
    (call : M (Σ * list TraceEvent) A) (a : A) :
  (∀ σ, call σ = (Ok a, σ)) → T true [ToolInvoked name id; ToolResult id] →
  logs T (invoke_observed (recording o) name id call) (ret a).
Proof.
  intros Hcall Hok σ record. unfold invoke_observed, bind, emit, modify. cbn.
  rewrite Hcall. exists [ToolInvoked name id; ToolResult id].
  unfold recorder, ret. cbn. by rewrite <- app_assoc.
Qed.

End logging.

(** The computations that log by construction: sequences of computations
    beside the record and of pure results. *)
Ltac logs_auto :=
  repeat first
    [ lazymatch goal with |- Log _ => apply _ end
    | apply logs_beside | apply logs_ret | apply logs_lift_res
    | lazymatch goal with |- ∀ _, _ => intros ? end
    | lazymatch goal with |- logs _ (bind _ _) (bind _ _) => apply logs_bind end ].

(** *** The record of a run *)

Section recording_lemmas.
Context {Σ St Up : Type} `{Annotation St Up}.
Implicit Types (g : StateGraph Σ St Up) (o : RunOptions Σ) (σ : Σ) (s : St).
Implicit Types (record : list TraceEvent) (e : Ending) (r : Res St).
Implicit Types (h : StateGraph (Σ * list TraceEvent) St Up).
Implicit Types (T : string → bool → list TraceEvent → Prop).

(** The nodes [more] and the ending [e] account for a run from [cur] with
    outcome [r]: they start at [cur], follow the edges of the graph, and
    the run returned exactly when it reached [END]. *)
Definition accounts_for g (cur : string) r (more : list string) e : Prop :=
  head (more ++ [ending_node e]) = Some cur ∧
  chain g (more ++ [ending_node e]) ∧
  (is_ok r = true ↔ e = Reached).

Lemma assoc_fmap_snd {A B} (f : A → B) k (l : list (string * A)) :
  Js.assoc k ((λ n, (n.1, f n.2)) <$> l) = f <$> Js.assoc k l.
Proof.
  induction l as [|[k' a] l IH]; cbn; [done|]. by destruct (String.eqb k k').
Qed.

Lemma assoc_Forall2_key {A B} (P : string → A → B → Prop) (l : list (string * A))
    (l' : list (string * B)) k :
  Forall2 (λ n n', n.1 = n'.1 ∧ P n'.1 n.2 n'.2) l l' →
  option_Forall2 (P k) (Js.assoc k l) (Js.assoc k l').
Proof.
  induction 1 as [|[k1 a] [k2 b] l l' [Hk HP] _ IH]; cbn; [constructor|].
  cbn in Hk, HP. subst k2. destruct (String.eqb_spec k k1) as [->|]; [by constructor | done].
Qed.

Lemma next_node_beside h g cur s σ record :
  sg_edges h = (λ ed, (ed.1, beside_edge ed.2)) <$> sg_edges g →
  next_node h cur s (σ, record)
  = let '(r, σ') := next_node g cur s σ in (r, (σ', record)).
Proof.
  intros Hedges. unfold next_node. rewrite Hedges, assoc_fmap_snd.
  destruct (Js.assoc cur (sg_edges g)) as [[d|router ends]|]; cbn; [done| |done].
  unfold bind. cbn. destruct (router s σ) as [[label|err] σ1]; [|done].
  by destruct (Js.assoc label ends).
Qed.

(** A step of a graph that logs, under the recorder, is the step of the
    graph, and adds the events of the node with its log to the record. *)
Lemma step_with_logged T o h g cur s σ record :
  graph_logs T h g →
  ∃ e events, ending_node e = cur ∧ e ≠ Reached ∧
    step_with (recording o) h cur s (σ, record)
    = ((step g cur s σ).1, ((step g cur s σ).2, record ++ events)) ∧
    match (step g cur s σ).1 with
    | Ok (_, nxt) => block T cur nxt events
    | Err _ => ending_log T e events
    end.
Proof.
  intros [Hnodes Hedges]. unfold step_with, step.
  destruct (assoc_Forall2_key (λ k fn' fn, ∀ s, logs (T k) (fn' s) (fn s)) _ _ cur Hnodes)
    as [fn' fn Hfn|].
  2:{ exists (Stopped cur), []. by rewrite app_nil_r. }
  unfold bind, emit, modify. cbn -[next_node].
  change (recorder (NodeEntered cur) (σ, record)) with (σ, record ++ [NodeEntered cur]).
  destruct (Hfn s σ (record ++ [NodeEntered cur])) as (log & -> & Hlog).
  unfold recorder. cbn -[next_node].
  destruct (fn s σ) as [[u|err] σ1]; cbn -[next_node] in *.
  2:{ exists (Threw cur), (NodeEntered cur :: log). rewrite <- app_assoc.
      split_and!; [done..|by exists log]. }
  rewrite (next_node_beside h g) by done.
  destruct (next_node g cur (ann_reduce s u) σ1) as [[nxt|err] σ2]; cbn.
  - exists (Stopped cur), (NodeEntered cur :: log ++ [NodeExited cur; EdgeTaken cur nxt]).
    rewrite <- !app_assoc. split_and!; [done..|by exists log].
  - exists (Misrouted cur), (NodeEntered cur :: log ++ [NodeExited cur]).
    rewrite <- !app_assoc. split_and!; [done..|by exists log].
Qed.

Lemma chain_cons g n m l :
  head l = Some m → m ∈ successors g n → chain g l → chain g (n :: l).
Proof. destruct l as [|m' l]; [done|]. by intros [= ->]. Qed.

(** The run of a graph that logs, under the recorder, is the run of the
    graph without handlers, and what it adds to the record is the events
    of the nodes that completed, each with its log, and of the way the run
    ended. *)
Lemma logged_walk T o h g fuel cur s visited σ record r visited' σ' :
  graph_logs T h g →
  walk_with (unobserved o) g fuel cur s visited σ = (r, visited', σ') →
  ∃ more e events,
    walk_with (recording o) h fuel cur s visited (σ, record)
    = (r, visited', (σ', record ++ events)) ∧
    visited' = visited ++ more ∧ accounts_for g cur r more e ∧ recorded T more e events.
Proof.
  intros Hlogs. revert cur s visited σ record.
  induction fuel as [|fuel IH]; intros cur s visited σ record; cbn;
    (destruct (signal o σ);
      [intros [= <- <- <-]; exists [], (Stopped cur), []; by rewrite !app_nil_r|]);
    (destruct (String.eqb_spec cur END) as [->|Hne];
      [intros [= <- <- <-]; exists [], Reached, []; by rewrite !app_nil_r|]).
  { intros [= <- <- <-]. exists [], (Stopped cur), []. by rewrite !app_nil_r. }
  rewrite step_with_unobserved by done.
  destruct (step_with_logged T o h g cur s σ record Hlogs)
    as (e & first & He & Hne' & -> & Hfirst).
  destruct (step g cur s σ) as [[[s1 nxt]|err] σ1] eqn:Hstep; cbn in *.
  - intros (more & e' & later & -> & -> & (Hhead & Hchain & Hr) & Hlater)%(IH _ _ _ _
      (record ++ first)).
    exists (cur :: more), e', (first ++ later). rewrite <- !app_assoc. cbn.
    rewrite head_snoc in Hhead. injection Hhead as Hhead.
    split_and!; [done..| |].
    + split_and!; [done| |done]. rewrite <- app_comm_cons.
      eapply chain_cons; [by rewrite head_snoc, Hhead | | done]. by eapply step_successor.
    + exists first, later. by rewrite Hhead.
  - intros [= <- <- <-]. exists [], e, first. rewrite app_nil_r. unfold accounts_for. cbn.
    rewrite He. by split_and!.
Qed.

(** The graph beside the record logs nothing. *)
Lemma beside_graph_logs g : graph_logs (λ _, no_events) (beside_graph g) g.
Proof.
  split; [|done]. cbn. apply Forall2_fmap_l, Forall_Forall2_diag, Forall_forall.
  intros [k fn] _. split; [done|]. intros s σ record. exists []. cbn.
  destruct (fn s σ). by rewrite app_nil_r.
Qed.

Lemma recorded_silent (more : list string) e events :
  recorded (λ _, no_events) more e events → events = events_of more e.
Proof.
  revert events. induction more as [|n more IH]; intros events; cbn.
  - unfold events_of, no_events. cbn. destruct e; [done..| |]; by intros (log & -> & ->).
  - by intros (first & later & (log & -> & ->) & ->%IH & ->).
Qed.

(** Without the events of the tools, the record of a graph whose nodes
    log such events only is the record of its nodes and edges. *)
Lemma recorded_node_events T (more : list string) e events :
  (∀ n ok log, T n ok log → node_events log = []) →
  recorded T more e events → node_events events = events_of more e.
Proof.
  intros HT. unfold node_events in *. revert events.
  induction more as [|n more IH]; intros events; cbn.
  - unfold events_of. cbn.
    destruct e; [by intros ->..| |]; intros (log & Hlog%HT & ->); cbn;
      by rewrite ?List.filter_app, Hlog.
  - intros (first & later & (log & Hlog%HT & ->) & Hlater%IH & ->).
    cbn. by rewrite !List.filter_app, Hlog, Hlater.
Qed.

(** In the record of a graph whose nodes log answered invocations, every
    invocation is answered. *)
Lemma recorded_answered T names (more : list string) e events :
  (∀ n ok log, T n ok log → answered names None log = true) →
  recorded T more e events → answered names None events = true.
Proof.
  intros HT. revert events. induction more as [|n more IH]; intros events; cbn.
  - destruct e; [by intros ->..| |]; intros (log & Hlog%HT & ->); cbn;
      by rewrite ?answered_app.
  - intros (first & later & (log & Hlog%HT & ->) & Hlater%IH & ->).
    cbn. rewrite <- app_assoc. by rewrite answered_app.
Qed.

(** The run under the recorder is the run without handlers, and what it
    adds to the record is determined by the nodes that completed and the
    way the run ended. *)
Lemma recorded_walk o g fuel cur s visited σ record r visited' σ' :
  walk_with (unobserved o) g fuel cur s visited σ = (r, visited', σ') →
  ∃ more e,
    walk_with (recording o) (beside_graph g) fuel cur s visited (σ, record)
    = (r, visited', (σ', record ++ events_of more e)) ∧
    visited' = visited ++ more ∧ accounts_for g cur r more e.
Proof.
  intros (more & e & events & -> & -> & Hacc & ->%recorded_silent)%(logged_walk _ _ _ _ _ _ _
    _ _ record _ _ _ (beside_graph_logs g)).
  by exists more, e.
Qed.

Lemma events_of_cons n (more : list string) e :
  events_of (n :: more) e
  = NodeEntered n :: NodeExited n :: EdgeTaken n (default (ending_node e) (head more))
      :: events_of more e.
Proof. done. Qed.

Lemma edges_taken_block n m (events : list TraceEvent) :
  edges_taken (NodeEntered n :: NodeExited n :: EdgeTaken n m :: events)
  = (n, m) :: edges_taken events.
Proof. done. Qed.

Lemma edges_taken_ending e : edges_taken (events_of [] e) = [].
Proof. by destruct e. Qed.

(** The sources of the edges of the record are the nodes that completed,
    and its edges are edges of the graph. *)
Lemma edges_taken_sources (more : list string) e :
  (edges_taken (events_of more e)).*1 = more.
Proof.
  induction more as [|n more IH]; [by rewrite edges_taken_ending|].
  rewrite events_of_cons, edges_taken_block. cbn. by rewrite IH.
Qed.

Lemma edges_taken_chain g (more : list string) e :
  chain g (more ++ [ending_node e]) →
  Forall (λ edge, edge.2 ∈ successors g edge.1) (edges_taken (events_of more e)).
Proof.
  induction more as [|n more IH]; [by rewrite edges_taken_ending|].
  rewrite events_of_cons, edges_taken_block, <- app_comm_cons. intros Hchain.
  assert (default (ending_node e) (head more) ∈ successors g n ∧
          chain g (more ++ [ending_node e])) as [Hn Hrest]; [by destruct more|].
  constructor; [done | by apply IH].
Qed.

(** A call under the recorder is the call of [Engine.invoke_trace]; the
    record it adds is that of the nodes the call completed. *)
Lemma invoke_recorded (cg : CompiledGraph Σ St Up) input limit σ record r visited σ' :
  invoke_trace cg input limit σ = (r, visited, σ') →
  ∃ e,
    invoke_with_trace (beside_compiled cg) input (recording (plain limit)) (σ, record)
    = (r, visited, (σ', record ++ events_of visited e)) ∧
    accounts_for (cg_graph cg) (cg_entry cg) r visited e.
Proof.
  unfold invoke_trace, invoke_with_trace. rewrite <- (walk_with_plain limit).
  intros (more & e & Hrun & -> & Hacc)%(recorded_walk (plain limit) _ _ _ _ _ _ record).
  by exists e.
Qed.

End recording_lemmas.
