(* ===== verification/Messages.v ===== *)
(** * Messages and the message channel

    The message classes of the chat library the sources import
    ([SystemMessage], [HumanMessage], [AIMessage], [ToolMessage]), the tool
    call an [AIMessage] carries, and the state of a graph built over
    [MessagesAnnotation]: one channel, [messages], whose reducer appends.
    An [AIMessage] whose [tool_calls] field is absent is the one whose list
    is empty: the sources read the field through [?.length] and [?? []],
    which do not tell the two apart. *)

From stdpp Require Import base option list strings.
From S2P Require Import Prelude JsValue Engine.

(** A tool call: the tool's name, the arguments the model chose and the
    opaque id the result is tagged with. *)
Record ToolCall : Type := mkToolCall {
  tc_name : string;
  tc_args : value;
  tc_id : string;
}.

Inductive Message : Type :=
| SystemMessage (content : value)
| HumanMessage (content : value)
| AIMessage (content : value) (tool_calls : list ToolCall)
| ToolMessage (content : value) (tool_call_id : string) (name : string).

(** [message._getType()]. *)
Definition _getType (m : Message) : string :=
  match m with
  | SystemMessage _ => "system"
  | HumanMessage _ => "human"
  | AIMessage _ _ => "ai"
  | ToolMessage _ _ _ => "tool"
  end.

(** [message.content]. *)
Definition content (m : Message) : value :=
  match m with
  | SystemMessage c | HumanMessage c | AIMessage c _ | ToolMessage c _ _ => c
  end.

(** [message.tool_calls ?? []]: only an [AIMessage] has the field. *)
Definition tool_calls (m : Message) : list ToolCall :=
  match m with
  | AIMessage _ tcs => tcs
  | _ => []
  end.

Definition is_ai (m : Message) : bool :=
  match m with AIMessage _ _ => true | _ => false end.

Definition is_tool (m : Message) : bool :=
  match m with ToolMessage _ _ _ => true | _ => false end.

(** [addMessages(left, right)], the reducer of the messages channel:
    the new messages follow the old ones, in order. *)
Definition addMessages (left right : list Message) : list Message :=
  left ++ right.

(** The state of a graph over [MessagesAnnotation] and the partial update
    a node of such a graph returns. *)
Record MessagesState : Type := mkMessagesState {
  messages : list Message;
}.

(** [MessagesAnnotation]: the state starts with no message and an update
    is merged by [addMessages]. *)
#[export] Instance MessagesAnnotation : Annotation MessagesState MessagesState := {
  ann_empty := mkMessagesState [];
  ann_reduce s u := mkMessagesState (addMessages (messages s) (messages u));
}.

(** ** Lemmas *)

Lemma getType_ai m : _getType m = "ai" ↔ is_ai m = true.
Proof. by destruct m. Qed.

Lemma tool_calls_not_ai m : is_ai m = false → tool_calls m = [].
Proof. by destruct m. Qed.

Lemma addMessages_assoc l1 l2 l3 :
  addMessages (addMessages l1 l2) l3 = addMessages l1 (addMessages l2 l3).
Proof. unfold addMessages. by rewrite app_assoc. Qed.

Lemma addMessages_nil_r l : addMessages l [] = l.
Proof. apply app_nil_r. Qed.

Lemma addMessages_length l1 l2 :
  length (addMessages l1 l2) = length l1 + length l2.
Proof. apply length_app. Qed.

Lemma addMessages_prefix l1 l2 : l1 `prefix_of` addMessages l1 l2.
Proof. by apply prefix_app_r. Qed.

Lemma last_addMessages_cons l1 m l2 :
  last (addMessages l1 (l2 ++ [m])) = Some m.
Proof. unfold addMessages. by rewrite app_assoc, last_snoc. Qed.
