(* ===== verification/Host.v ===== *)
(** * The process and what lies outside it

    The programs call two kinds of things they do not define: functions of
    the JavaScript runtime that are pure ([JSON.stringify], [JSON.parse],
    [String]), gathered in the class [Runtime], and external collaborators
    whose answers depend on a world the program cannot see (the language
    model behind [model.invoke]), gathered in the class [Host]. A theorem
    proved in a section over these classes holds whatever the runtime and
    the collaborators do; a witness instantiates them with the stub of
    [Stubs.v].

    The state of a running script is a [Process]: the world of the host,
    the lines written to the console so far, and the module-level variables
    of the script (its type [G] is [unit] for a script that has none). *)

From stdpp Require Import base option list strings.
From Stdlib Require Import Floats ZArith Ascii.
From S2P Require Import Prelude JsValue Messages.

(** Pure functions of the runtime. *)
Class Runtime : Type := {
  (** [JSON.stringify(v)] *)
  json_stringify : value → string;
  (** [JSON.stringify(v, null, 2)] *)
  json_pretty : value → string;
  (** [JSON.parse(s)], which throws on a text that is not JSON *)
  json_parse : string → Res value;
  (** [String(v)] and the conversion of a template literal *)
  to_string : value → string;
  (** [Number(v)], the conversion of an operand of [<] and [>] *)
  to_number : value → float;
}.

(** External collaborators. [complete tools msgs] is one call of the chat
    model with the tools named [tools] bound: it answers with the content
    and the tool calls of an [AIMessage], or fails. *)
Class Host : Type := {
  World : Type;
  complete :
    list string → list Message → World → Res (value * list ToolCall) * World;
}.

(** The clock and the random generator of the runtime. A date in ISO
    format holds the letter [T] between the day and the time. *)
Class Clock `{Host} : Type := {
  (** [new Date().toISOString()] *)
  iso_now : World → string * World;
  (** [Date.now()] *)
  epoch_now : World → Z * World;
  (** [Math.random()] *)
  random : World → float * World;
  iso_now_T : ∀ w, 1 < length (Js.split "T"%char (iso_now w).1);
}.

(** The requests of the MCP SDK's client. *)
Class McpServer `{Host} : Type := {
  (** [client.connect(new SSEClientTransport(new URL(url)))] *)
  mcp_connect : string → World → Res unit * World;
  (** [client.listTools()], the [tools] of its answer *)
  mcp_listTools : World → Res (list value) * World;
  (** [client.callTool({name, arguments})] *)
  mcp_callTool : string → value → World → Res value * World;
  (** [client.close()] *)
  mcp_close : World → Res unit * World;
}.

(** The tracing service: the id of the trace of the run that ended last,
    and the flush of what is pending. *)
Class Langfuse `{Host} : Type := {
  (** [langfuseHandler.traceId] *)
  langfuse_traceId : World → value * World;
  (** [langfuseHandler.shutdownAsync()] *)
  langfuse_shutdown : World → Res unit * World;
  (** [process.env.LANGFUSE_HOST] *)
  langfuse_host : value;
}.

Record Process `{Host} (G : Type) : Type := mkProcess {
  host : World;
  console : list string;
  globals : G;
}.
Arguments mkProcess {_ G} host console globals.
Arguments host {_ G} p.
Arguments console {_ G} p.
Arguments globals {_ G} p.

Definition newline : string := String (Ascii.ascii_of_nat 10) "".

(** [typeof m.content === 'string' ? m.content : JSON.stringify(m.content)]. *)
Definition content_text `{Runtime} (message : Message) : string :=
  match content message with
  | VStr s => s
  | c => json_stringify c
  end.

(** The text of a value in a template literal. *)
Definition content_string `{Runtime} (v : value) : string :=
  match v with VStr s => s | _ => to_string v end.

Section process.
Context `{Host} {G : Type}.

Definition set_host (w : World) (p : Process G) : Process G :=
  mkProcess w (console p) (globals p).

Definition set_console (c : list string) (p : Process G) : Process G :=
  mkProcess (host p) c (globals p).

Definition set_globals (g : G) (p : Process G) : Process G :=
  mkProcess (host p) (console p) g.

(** [console.log(line)]. *)
Definition console_log (line : string) : M (Process G) unit :=
  modify (λ p, set_console (console p ++ [line]) p).

(** [model.invoke(msgs)] of a chat model with [tools] bound. *)
Definition invoke_model (tools : list string) (msgs : list Message)
  : M (Process G) Message :=
  λ p, match complete tools msgs (host p) with
       | (Ok (c, tcs), w) => (Ok (AIMessage c tcs), set_host w p)
       | (Err e, w) => (Err e, set_host w p)
       end.

(** A call of the host that returns a value and cannot fail. *)
Definition ask {A} (f : World → A * World) : M (Process G) A :=
  λ p, let '(a, w) := f (host p) in (Ok a, set_host w p).

(** A call of the host that may fail. *)
Definition request {A} (f : World → Res A * World) : M (Process G) A :=
  λ p, let '(r, w) := f (host p) in (r, set_host w p).

(** Reads and writes of the module-level variables. *)
Definition get_global {A} (f : G → A) : M (Process G) A := gets (λ p, f (globals p)).

Definition set_global (f : G → G) : M (Process G) unit :=
  modify (λ p, set_globals (f (globals p)) p).

(** The process with its console emptied: what a run leaves behind apart
    from what it printed. *)
Definition silent (p : Process G) : Process G := set_console [] p.

(** Two processes that differ in what they printed only. *)
Definition quiet (p q : Process G) : Prop := silent p = silent q.

(** A computation that only prints: it returns, and what it leaves behind
    differs from what it found in the console only. *)
Definition prints {A} (m : M (Process G) A) : Prop :=
  ∀ p, ∃ a, (m p).1 = Ok a ∧ quiet (m p).2 p.

(** An invariant of the module-level variables, on a process. *)
Definition holds (I : G → Prop) (p : Process G) : Prop := I (globals p).

(** [preserves I m]: whether it returns or throws, the computation [m]
    run on module-level variables that satisfy [I] leaves variables that
    satisfy [I]. *)
Definition preserves {A} (I : G → Prop) (m : M (Process G) A) : Prop :=
  hoare (holds I) m (λ _, holds I).

(** [l.forEach((x, i) => f(x, i))]. *)
Definition mfor_indexed {A} (f : nat → A → M (Process G) unit) (l : list A)
  : M (Process G) unit :=
  mfor (λ ix, f ix.1 ix.2) (imap pair l).

End process.

(** ** Lemmas *)

Section process_lemmas.
Context `{Host} {G : Type}.
Implicit Types p : Process G.

Lemma console_log_run line p :
  console_log line p = (Ok tt, set_console (console p ++ [line]) p).
Proof. done. Qed.

Lemma silent_console_log line p :
  silent (console_log line p).2 = silent p.
Proof. done. Qed.

(** The model's answer is an [AIMessage], whatever the host. *)
Lemma invoke_model_is_ai tools msgs p m p' :
  invoke_model tools msgs p = (Ok m, p') → is_ai m = true.
Proof.
  unfold invoke_model.
  destruct (complete tools msgs (host p)) as [[[c tcs]|e] w]; by intros [= <- _].
Qed.

(** The console does not reach the model: a call made from a process that
    has printed more answers the same and leaves the same world. *)
Lemma invoke_model_console tools msgs p c :
  invoke_model tools msgs (set_console c p)
  = let '(r, p') := invoke_model tools msgs p in (r, set_console c p').
Proof.
  unfold invoke_model, set_console, set_host. cbn.
  by destruct (complete tools msgs (host p)) as [[[c0 tcs]|e] w].
Qed.

Lemma invoke_model_keeps_console tools msgs p r p' :
  invoke_model tools msgs p = (r, p') →
  console p' = console p ∧ globals p' = globals p.
Proof.
  unfold invoke_model.
  destruct (complete tools msgs (host p)) as [[[c tcs]|e] w];
    by intros [= <- <-].
Qed.

#[export] Instance quiet_equiv : Equivalence (@quiet _ G).
Proof. unfold quiet. split; [by intros ?|by intros ??|by intros ??? ->]. Qed.

Lemma quiet_set_console c p : quiet (set_console c p) p.
Proof. done. Qed.

(** Printing is invisible up to the console. *)
Lemma prints_console_log line : prints (G:=G) (console_log line).
Proof. intros p. by exists tt. Qed.

Lemma prints_ret {A} (a : A) : prints (G:=G) (ret a).
Proof. intros p. by exists a. Qed.

Lemma prints_bind {A B} (m : M (Process G) A) (f : A → M (Process G) B) :
  prints m → (∀ a, prints (f a)) → prints (x <- m ;; f x).
Proof.
  intros Hm Hf p. unfold bind. destruct (Hm p) as (a & Ha & Hq).
  destruct (m p) as [[a'|e] p1]; cbn in *; simplify_eq.
  destruct (Hf a p1) as (b & Hb & Hq'). exists b. split; [done|]. by etrans.
Qed.

Lemma prints_mfor {A} (f : A → M (Process G) unit) (l : list A) :
  (∀ x, prints (f x)) → prints (mfor f l).
Proof.
  intros Hf. induction l as [|x xs IH]; cbn [mfor]; [apply prints_ret|].
  by apply prints_bind.
Qed.

Lemma prints_mfor_indexed {A} (f : nat → A → M (Process G) unit) (l : list A) :
  (∀ i x, prints (f i x)) → prints (mfor_indexed f l).
Proof. intros Hf. apply prints_mfor. by intros [i x]. Qed.

(** What only prints can be dropped in front of a computation. *)
Lemma msim_prints_l {A B} (m0 : M (Process G) B) (m1 m2 : M (Process G) A) :
  prints m0 → msim quiet m1 m2 → msim quiet (m0 ;; m1) m2.
Proof.
  intros H0 Hm. apply msim_skip_l; [|done]. intros p q Hq.
  destruct (H0 p) as (b & Hb & Hq'). exists b. split; [done | by etrans].
Qed.

(** A computation that prints after [m] and returns the value of [m]. *)
Lemma msim_prints_after {A B} (m1 m2 : M (Process G) A) (f : A → M (Process G) B) :
  msim quiet m1 m2 → (∀ a, prints (f a)) →
  msim quiet (x <- m1 ;; f x ;; ret x) m2.
Proof.
  intros Hm Hf. eapply msim_meq; [done | apply bind_ret_r |].
  apply msim_bind; [done|]. intros a.
  apply msim_prints_l; [done | apply msim_ret].
Qed.

(** The model cannot tell two processes that differ in their console. *)
Lemma invoke_model_quiet tools msgs :
  msim (@quiet _ G) (invoke_model tools msgs) (invoke_model tools msgs).
Proof.
  intros p q Hq. unfold quiet, silent, set_console in Hq.
  injection Hq as Hh Hg. unfold invoke_model. rewrite Hh.
  destruct (complete tools msgs (host q)) as [[[c tcs]|e] w]; cbn;
    (split; [done|]); unfold quiet, silent, set_console, set_host; cbn;
    by rewrite Hg.
Qed.

(** A model whose answer depends on what it is sent only, not on the
    calls made before: a deterministic stub of the model provider. *)
Definition stateless_model : Prop :=
  ∀ tools msgs w w', (complete tools msgs w).1 = (complete tools msgs w').1.

(** Two processes with the same module-level variables. *)
Definition same_globals (p q : Process G) : Prop := globals p = globals q.

(** Such a model answers the same in any two processes. *)
Lemma invoke_model_stateless tools msgs :
  stateless_model → msim same_globals (invoke_model tools msgs) (invoke_model tools msgs).
Proof.
  intros Hm p q Hpq. unfold invoke_model. specialize (Hm tools msgs (host p) (host q)).
  destruct (complete tools msgs (host p)) as [[[c tcs]|e] w],
           (complete tools msgs (host q)) as [[[c' tcs']|e'] w']; by simplify_eq/=.
Qed.

(** *** Invariants of the module-level variables *)

Implicit Types I : G → Prop.

Lemma preserves_ret {A} I (a : A) : preserves I (ret a).
Proof. by apply hoare_ret. Qed.

Lemma preserves_throw {A} I e : preserves I (@throw _ A e).
Proof. by apply hoare_throw. Qed.

Lemma preserves_lift_res {A} I (r : Res A) : preserves I (lift_res r).
Proof. by apply hoare_lift_res. Qed.

Lemma preserves_bind {A B} I (m : M (Process G) A) (f : A → M (Process G) B) :
  preserves I m → (∀ a, preserves I (f a)) → preserves I (x <- m ;; f x).
Proof.
  intros Hm Hf. eapply hoare_bind with (R := λ _, holds I); [by apply hoare_any | done].
Qed.

Lemma preserves_try_catch {A} I (m : M (Process G) A) h :
  preserves I m → (∀ e, preserves I (h e)) → preserves I (try_catch m h).
Proof.
  intros Hm Hh. eapply hoare_try_catch with (E := λ _, holds I); [by apply hoare_any | done].
Qed.

Lemma preserves_try_finally {A} I (m : M (Process G) A) fin :
  preserves I m → preserves I fin → preserves I (try_finally m fin).
Proof.
  intros Hm Hfin p Hp. specialize (Hm p Hp). unfold try_finally.
  destruct (m p) as [r p1]. specialize (Hfin p1 Hm).
  by destruct (fin p1) as [[[]|e] p2].
Qed.

Lemma preserves_console_log I line : preserves I (console_log line).
Proof. by intros [w c g] Hp. Qed.

Lemma preserves_ask {A} I (f : World → A * World) : preserves I (ask f).
Proof. intros [w c g] Hp. unfold ask. cbn. by destruct (f w). Qed.

Lemma preserves_request {A} I (f : World → Res A * World) : preserves I (request f).
Proof. intros [w c g] Hp. unfold request. cbn. by destruct (f w). Qed.

(** What a call of the host returns or throws is what the host answers
    in some world. *)
Lemma ask_hoare {A} I (f : World → A * World) :
  hoare (holds I) (ask f) (returns (λ a p, holds I p ∧ ∃ w, a = (f w).1)).
Proof.
  intros [w c g] Hp. unfold ask. cbn. destruct (f w) as [a w'] eqn:E. cbn.
  split; [done|]. exists w. by rewrite E.
Qed.

Lemma request_hoare {A} I (f : World → Res A * World) :
  hoare (holds I) (request f)
        (post (λ _, holds I) (λ e p, holds I p ∧ ∃ w, (f w).1 = Err e)).
Proof.
  intros [w c g] Hp. unfold request. cbn. destruct (f w) as [[a|e] w'] eqn:E; cbn;
    [done|]. split; [done|]. exists w. by rewrite E.
Qed.

Lemma preserves_invoke_model I tools msgs : preserves I (invoke_model tools msgs).
Proof.
  intros [w c g] Hp. unfold invoke_model. cbn.
  by destruct (complete tools msgs w) as [[[? ?]|?] ?].
Qed.

Lemma preserves_get_global {A} I (f : G → A) : preserves I (get_global f).
Proof. by intros [w c g] Hp. Qed.

Lemma preserves_set_global I (f : G → G) :
  (∀ g, I g → I (f g)) → preserves I (set_global f).
Proof. intros Hf [w c g] Hp. by apply Hf. Qed.

Lemma preserves_mfor {A} I (f : A → M (Process G) unit) (l : list A) :
  (∀ x, preserves I (f x)) → preserves I (mfor f l).
Proof.
  intros Hf. induction l as [|x xs IH]; cbn [mfor]; [apply preserves_ret|].
  by apply preserves_bind.
Qed.

Lemma preserves_mmap {A B} I (f : A → M (Process G) B) (l : list A) :
  (∀ x, preserves I (f x)) → preserves I (mmap f l).
Proof.
  intros Hf. induction l as [|x xs IH]; cbn [mmap]; [apply preserves_ret|].
  apply preserves_bind; [done|]. intros y.
  apply preserves_bind; [done|]. intros ys. apply preserves_ret.
Qed.

Lemma preserves_mfold {A B} I (f : B → A → M (Process G) B) acc (l : list A) :
  (∀ b x, preserves I (f b x)) → preserves I (mfold f acc l).
Proof.
  intros Hf. revert acc. induction l as [|x xs IH]; intros acc; cbn [mfold];
    [apply preserves_ret|].
  by apply preserves_bind.
Qed.

End process_lemmas.

#[export] Hint Resolve invoke_model_quiet prints_console_log prints_ret : js.

(** ** Automation *)

Create HintDb inv discriminated.

(** One step of a proof that a computation preserves an invariant of the
    module-level variables: the rule of the construct at its head. *)
Ltac preserves_step :=
  lazymatch goal with
  | |- preserves _ (bind _ _) => apply preserves_bind; [|intros ?]
  | |- preserves _ (try_catch _ _) => apply preserves_try_catch; [|intros ?]
  | |- preserves _ (try_finally _ _) => apply preserves_try_finally
  | |- preserves _ (if ?b then _ else _) => destruct b
  | |- preserves _ (match ?x with _ => _ end) => destruct x
  | |- preserves _ (ret _) => apply preserves_ret
  | |- preserves _ (throw _) => apply preserves_throw
  | |- preserves _ (lift_res _) => apply preserves_lift_res
  | |- preserves _ (console_log _) => apply preserves_console_log
  | |- preserves _ (request _) => apply preserves_request
  | |- preserves _ (ask _) => apply preserves_ask
  | |- preserves _ (invoke_model _ _) => apply preserves_invoke_model
  | |- preserves _ (get_global _) => apply preserves_get_global
  | |- preserves _ (set_global _) => apply preserves_set_global; intros ??
  | |- preserves _ (mfor _ _) => apply preserves_mfor; intros ?
  | |- preserves _ (mmap _ _) => apply preserves_mmap; intros ?
  | |- preserves _ (mfold _ _ _) => apply preserves_mfold; intros ??
  end.

Ltac preserves_auto := repeat preserves_step; eauto with inv.

(** Solves a goal [msim quiet m1 m2] where [m1] is [m2] with lines printed
    in between. *)
Ltac quiet_prints :=
  solve [ repeat first
            [ apply prints_console_log | apply prints_ret
            | apply prints_mfor_indexed; intros ??
            | apply prints_mfor; intros ?
            | apply prints_bind; [|intros ?] ] ].

Ltac quiet_sim :=
  repeat first
    [ apply msim_ret | apply msim_lift_res | apply invoke_model_quiet
    | apply msim_prints_l; [quiet_prints|]
    | apply msim_prints_after; [|intros ?; quiet_prints]
    | apply msim_mmap; intros ?
    | apply msim_bind; [|intros ?] ].
