(* ===== verification/Tools.v ===== *)
(** * Tools

    A tool is what [tool(fn, {name, description, schema})] builds: a
    function with a name, a description and the schema of its input. The
    schema language and [Tool.invoke] belong to the libraries the sources
    import; they are modelled here from their contract: the arguments of a
    tool call are checked against the schema before the function runs, a
    mismatch throws, and the result comes back as a [ToolMessage] tagged
    with the id of the call.

    The module [Calculator] holds the three arithmetic tools and their
    registry [toolsByName] as src/graph.ts declares them. *)

From stdpp Require Import base option list strings.
From Stdlib Require Import Floats.
From S2P Require Import Prelude JsValue Messages Host.

(** ** Schemas *)

#[local] Set Warnings "-register-all".

Inductive Schema : Type :=
| z_number
| z_string
| z_boolean
| z_enum (options : list string)
| z_array (item : Schema)
| z_object (shape : list (string * Schema)).

(** [schema.safeParse(v)]: the parsed value, or [None] when [v] does not
    match. A number must not be [NaN]; an object is rebuilt from the keys
    of the shape, in the shape's order, and keys outside it are dropped. *)
Fixpoint parse (s : Schema) (v : value) {struct s} : option value :=
  match s with
  | z_number =>
      match v with
      | VNum n => if Js.is_nan n then None else Some v
      | _ => None
      end
  | z_string => match v with VStr _ => Some v | _ => None end
  | z_boolean => match v with VBool _ => Some v | _ => None end
  | z_enum options =>
      match v with
      | VStr x => if bool_decide (x ∈ options) then Some v else None
      | _ => None
      end
  | z_array item =>
      match v with
      | VArr l => VArr <$> mapM (parse item) l
      | _ => None
      end
  | z_object shape =>
      match v with
      | VObj fields =>
          VObj <$>
            (fix go (sh : list (string * Schema)) :=
               match sh with
               | [] => Some []
               | (k, sk) :: sh' =>
                   match parse sk (default VUndefined (Js.assoc k fields)), go sh' with
                   | Some x, Some r => Some ((k, x) :: r)
                   | _, _ => None
                   end
               end) shape
      | _ => None
      end
  end.

(** ** Tools *)

(** [tool_func input config]: the function the tool wraps, applied to the
    parsed input and the run's configuration. *)
Record Tool : Type := mkTool {
  tool_name : string;
  tool_description : string;
  tool_schema : Schema;
  tool_func : value → value → Res value;
}.

Definition schema_error : JsError :=
  mkError ValidationError "Received tool input did not match expected schema".

Section invoke.
Context `{Runtime}.

(** The content of the [ToolMessage]: a string result as it is, any other
    result serialised. *)
Definition format_tool_output (out : value) : value :=
  match out with
  | VStr s => VStr s
  | v => VStr (json_pretty v)
  end.

(** [tool.invoke(toolCall, config)]. *)
Definition tool_invoke (t : Tool) (tc : ToolCall) (config : value) : Res Message :=
  match parse (tool_schema t) (tc_args tc) with
  | None => Err schema_error
  | Some input =>
      match tool_func t input config with
      | Ok out => Ok (ToolMessage (format_tool_output out) (tc_id tc) (tool_name t))
      | Err e => Err e
      end
  end.

End invoke.

(** [toolsByName[name]] followed by a method call: reading [invoke] off a
    name that is not in the registry throws a [TypeError]. *)
Definition undefined_tool_error : JsError :=
  mkError TypeError "Cannot read properties of undefined (reading 'invoke')".

Definition lookup_tool (registry : list (string * Tool)) (name : string) : Res Tool :=
  match Js.assoc name registry with
  | Some t => Ok t
  | None => Err undefined_tool_error
  end.

(** ** The arithmetic tools of the agents *)

Module Calculator.

Definition two_numbers : Schema := z_object [("a", z_number); ("b", z_number)].

Definition add : Tool :=
  mkTool "add" "Add two numbers" two_numbers
    (λ input _, Ok (Js.add (Js.get_opt "a" input) (Js.get_opt "b" input))).

Definition multiply : Tool :=
  mkTool "multiply" "Multiply two numbers" two_numbers
    (λ input _, Ok (Js.mul (Js.get_opt "a" input) (Js.get_opt "b" input))).

Definition divide : Tool :=
  mkTool "divide" "Divide two numbers" two_numbers
    (λ input _, Ok (Js.div (Js.get_opt "a" input) (Js.get_opt "b" input))).

(** The registry, keyed by the tools' names. *)
Definition toolsByName : list (string * Tool) :=
  [(tool_name add, add); (tool_name multiply, multiply); (tool_name divide, divide)].

(** [Object.values(toolsByName)]. *)
Definition tools : list Tool := toolsByName.*2.

End Calculator.

(** ** Lemmas *)

(** What the schema of the arithmetic tools accepts: an object whose [a] and
    [b] are numbers other than [NaN]; the parsed input has exactly these two
    keys. *)
Lemma parse_two_numbers v input :
  parse Calculator.two_numbers v = Some input ↔
  ∃ x y, Js.get_opt "a" v = VNum x ∧ Js.get_opt "b" v = VNum y ∧
         Js.is_nan x = false ∧ Js.is_nan y = false ∧
         input = VObj [("a", VNum x); ("b", VNum y)].
Proof.
  split.
  - destruct v as [| | | | | |fs]; try done. cbn.
    destruct (Js.assoc "a" fs) as [[| | |x| | |]|]; try done. cbn.
    destruct (Js.is_nan x) eqn:Ex; [done|].
    destruct (Js.assoc "b" fs) as [[| | |y| | |]|]; try done. cbn.
    destruct (Js.is_nan y) eqn:Ey; [done|].
    intros [= <-]. exists x, y. eauto 10.
  - intros (x & y & Ha & Hb & Hx & Hy & ->).
    destruct v as [| | | | | |fs]; try done. cbn in *.
    destruct (Js.assoc "a" fs) as [va|]; [|done]. cbn in Ha. subst va.
    destruct (Js.assoc "b" fs) as [vb|]; [|done]. cbn in Hb. subst vb.
    cbn. by rewrite Hx, Hy.
Qed.

Lemma lookup_tool_name registry name t :
  (∀ k t0, (k, t0) ∈ registry → tool_name t0 = k) →
  lookup_tool registry name = Ok t → tool_name t = name.
Proof.
  intros Hreg. unfold lookup_tool.
  destruct (Js.assoc name registry) as [t0|] eqn:E; [|done]. intros [= ->].
  induction registry as [|[k t1] r IH]; [done|]. cbn in E.
  destruct (String.eqb name k) eqn:Ek.
  - apply String.eqb_eq in Ek as ->. injection E as ->.
    apply Hreg, list_elem_of_here.
  - apply IH; [|done]. intros ???. by apply Hreg, list_elem_of_further.
Qed.

(** The registry is keyed by the names of its tools. *)
Lemma toolsByName_keys k t :
  (k, t) ∈ Calculator.toolsByName → tool_name t = k.
Proof.
  unfold Calculator.toolsByName. rewrite !elem_of_cons, elem_of_nil.
  intros [[= -> ->]|[[= -> ->]|[[= -> ->]|[]]]]; done.
Qed.

Lemma lookup_calculator name :
  name ∉ ["add"; "multiply"; "divide"] →
  lookup_tool Calculator.toolsByName name = Err undefined_tool_error.
Proof.
  rewrite !not_elem_of_cons. intros (Ha & Hm & Hd & _).
  unfold lookup_tool. cbn.
  by rewrite !(proj2 (String.eqb_neq _ _)).
Qed.
