(* ===== verification/Stubs.v ===== *)
(** * Test doubles

    Instances of [Runtime] and [Host] on which the programs run to a value:
    a runtime that prints the integers among the numbers in decimal, a model
    that reads its answers off a script, and a model that asks for the same
    tool call for ever. The witnesses of the development evaluate the
    programs on them. *)

From stdpp Require Import base option list strings pretty.
From Stdlib Require Import Floats ZArith.
From S2P Require Import Prelude JsValue Engine Messages Host Tools.

Module Stub.

(** The integer a float stands for, when it stands for one. *)
Definition float_to_Z (f : float) : option Z :=
  match Prim2SF f with
  | S754_zero _ => Some 0%Z
  | S754_finite sign m e =>
      let magnitude :=
        if (0 <=? e)%Z then Some (Z.pos m * 2 ^ e)%Z
        else if (Z.pos m mod 2 ^ (- e) =? 0)%Z then Some (Z.pos m / 2 ^ (- e))%Z
        else None in
      (if sign then Z.opp else id) <$> magnitude
  | _ => None
  end.

Definition show_number (f : float) : string :=
  match float_to_Z f with
  | Some z => pretty z
  | None => "<number>"
  end.

Definition quote : string := Js.quote.

(** A compact serialisation, without escapes. *)
Fixpoint show (v : value) : string :=
  match v with
  | VUndefined => "undefined"
  | VNull => "null"
  | VBool b => if b then "true" else "false"
  | VNum n => show_number n
  | VStr s => quote +:+ s +:+ quote
  | VArr items => "[" +:+ Js.join "," (map show items) +:+ "]"
  | VObj fields =>
      "{" +:+ Js.join "," (map (λ kv, quote +:+ kv.1 +:+ quote +:+ ":" +:+ show kv.2) fields)
          +:+ "}"
  end.

Definition runtime : Runtime := {|
  json_stringify := show;
  json_pretty := show;
  json_parse := λ _, Err (mkError GenericError "not JSON");
  to_string := λ v, match v with VStr s => s | _ => show v end;
  to_number := λ v, match v with VNum n => n | _ => nan end;
|}.

(** A model that answers from a script, one entry per call, and fails once
    the script is used up. *)
Definition scripted : Host := {|
  World := list (Res (value * list ToolCall));
  complete _ _ script :=
    match script with
    | answer :: rest => (answer, rest)
    | [] => (Err (mkError ExecutionError "the script is used up"), [])
    end;
|}.

(** A model that asks for the tool call [tc] whatever it is sent. *)
Definition insistent (tc : ToolCall) : Host := {|
  World := unit;
  complete _ _ w := (Ok (VStr "", [tc]), w);
|}.

(** A model that answers from what it is sent: the content of the tool
    message the transcript ends with, or the tool call [tc] when it ends
    otherwise. The world counts the calls. *)
Definition reactive_answer (tc : ToolCall) (msgs : list Message)
  : Res (value * list ToolCall) :=
  match last msgs with
  | Some (ToolMessage content _ _) => Ok (content, [])
  | _ => Ok (VStr "", [tc])
  end.

Definition reactive (tc : ToolCall) : Host := {|
  World := nat;
  complete _ msgs calls := (reactive_answer tc msgs, S calls);
|}.

Definition boot_reactive (tc : ToolCall) (calls : nat) : @Process (reactive tc) unit :=
  mkProcess (calls : @World (reactive tc)) [] tt.

(** Fresh processes of a script with no module-level variable. *)
Definition boot (script : list (Res (value * list ToolCall))) : @Process scripted unit :=
  mkProcess (script : @World scripted) [] tt.

Definition boot_insistent (tc : ToolCall) : @Process (insistent tc) unit :=
  mkProcess (tt : @World (insistent tc)) [] tt.

(** The tool call [add(a=3, b=4)] and the two answers of the scenario
    "Add 3 and 4.". *)
Definition add_3_4 : ToolCall :=
  mkToolCall "add" (VObj [("a", VNum 3); ("b", VNum 4)]) "call_1".

Definition add_script : list (Res (value * list ToolCall)) :=
  [Ok (VStr "", [add_3_4]); Ok (VStr "7", [])].

Definition question : list Message := [HumanMessage (VStr "Add 3 and 4.")].

(** The transcript the scenario ends with. *)
Definition scenario : list Message :=
  [HumanMessage (VStr "Add 3 and 4.");
   AIMessage (VStr "") [add_3_4];
   ToolMessage (VStr "7") "call_1" "add";
   AIMessage (VStr "7") []].

(** A tool call to a tool the agents do not have. *)
Definition subtract_3_4 : ToolCall :=
  mkToolCall "subtract" (VObj [("a", VNum 3); ("b", VNum 4)]) "call_1".

(** A tool call whose arguments do not match the schema of [add]. *)
Definition add_bad_args : ToolCall :=
  mkToolCall "add" (VObj [("a", VStr "three"); ("b", VNum 4)]) "call_1".

End Stub.

Example show_seven : Stub.show (VNum 7) = "7".
Proof. vm_compute. reflexivity. Qed.

Example show_args :
  Stub.show (tc_args Stub.add_3_4)
  = "{" +:+ Stub.quote +:+ "a" +:+ Stub.quote +:+ ":3,"
        +:+ Stub.quote +:+ "b" +:+ Stub.quote +:+ ":4}".
Proof. vm_compute. reflexivity. Qed.

Example add_tool_7 :
  @tool_invoke Stub.runtime Calculator.add Stub.add_3_4 VUndefined
  = Ok (ToolMessage (VStr "7") "call_1" "add").
Proof. vm_compute. reflexivity. Qed.

Example divide_by_zero :
  tool_func Calculator.divide (VObj [("a", VNum 1); ("b", VNum 0)]) VUndefined
  = Ok (VNum infinity).
Proof. vm_compute. reflexivity. Qed.
