(* ===== verification/GraphAgent.v ===== *)
(** * The graph agent of src/graph.ts

    A two-node state graph over [MessagesAnnotation]: [llmCall] asks the
    model, [toolNode] runs the tool calls of the model's last answer, the
    conditional edge [shouldContinue] sends the walk to [toolNode] while the
    answer carries tool calls and to [END] once it carries none.

    [ToolLoop] is the specification of that cycle as a relation: which
    transcripts the model and the tools produce in how many rounds. The
    theorems relate the walk of the compiled graph to it in both
    directions and read the shape of the final transcript off it. *)

From stdpp Require Import base option list strings sets.
From S2P Require Import Prelude JsValue Engine Walks Messages Host Tools Stubs.

Module Graph.

Section agent.
Context `{Host} `{Runtime}.

#[local] Abbreviation Proc := (Process unit).

(** ** Tools and model *)

(** The three arithmetic tools and their registry [toolsByName] are those
    of [Calculator]. [modelWithTools] is [model.bindTools(tools)]. *)
Definition modelWithTools (msgs : list Message) : M Proc Message :=
  invoke_model (tool_name <$> Calculator.tools) msgs.

Definition system_prompt : string :=
  "You are a helpful assistant tasked with performing arithmetic on a set of inputs.".

(** ** The model node *)

Definition llmCall (state : MessagesState) : M Proc MessagesState :=
  response <- modelWithTools (SystemMessage (VStr system_prompt) :: messages state) ;;
  ret (mkMessagesState [response]).

(** ** The tool node *)

(** The body of the loop over the tool calls. *)
Definition run_tool_call (toolCall : ToolCall) : M Proc Message :=
  tool <- lift_res (lookup_tool Calculator.toolsByName (tc_name toolCall)) ;;
  lift_res (tool_invoke tool toolCall VUndefined).

Definition toolNode (state : MessagesState) : M Proc MessagesState :=
  match last (messages state) with
  | None => ret (mkMessagesState [])
  | Some lastMessage =>
      if negb (String.eqb (_getType lastMessage) "ai") then ret (mkMessagesState [])
      else
        result <- mmap run_tool_call (tool_calls lastMessage) ;;
        ret (mkMessagesState result)
  end.

(** ** The conditional edge *)

Definition shouldContinue (state : MessagesState) : M Proc string :=
  match last (messages state) with
  | None => ret END
  | Some lastMessage =>
      if negb (String.eqb (_getType lastMessage) "ai") then ret END
      else if Nat.ltb 0 (length (tool_calls lastMessage)) then ret "toolNode"
      else ret END
  end.

(** ** The graph *)

Definition agent_graph : StateGraph Proc MessagesState MessagesState :=
  new_StateGraph
  |> addNode "llmCall" llmCall
  |> addNode "toolNode" toolNode
  |> addEdge START "llmCall"
  |> addConditionalEdges "llmCall" shouldContinue (path_array ["toolNode"; END])
  |> addEdge "toolNode" "llmCall".

Definition agent : Res (CompiledGraph Proc MessagesState MessagesState) :=
  compile agent_graph.

(** ** The script *)

(** [agent.invoke({messages}, {recursionLimit})]. *)
Definition run (input : list Message) (limit : nat) : M Proc MessagesState :=
  compiled <- lift_res agent ;;
  invoke compiled (mkMessagesState input) limit.

(** The same call, with the nodes that completed. *)
Definition run_trace (input : list Message) (limit : nat) (p : Proc)
  : Res MessagesState * list string * Proc :=
  match agent with
  | Ok compiled => invoke_trace compiled (mkMessagesState input) limit p
  | Err e => (Err e, [], p)
  end.

Definition show_content (message : Message) : string :=
  match content message with
  | VStr s => s
  | c => json_stringify c
  end.

Definition print_message (message : Message) : M Proc unit :=
  console_log ("[" +:+ _getType message +:+ "]: " +:+ show_content message).

Definition main : M Proc unit :=
  result <- run [HumanMessage (VStr "Add 3 and 4.")] default_recursion_limit ;;
  console_log (newline +:+ "Results:") ;;
  mfor print_message (messages result).

(** ** The tool-calling loop, as a relation *)

(** [ToolLoop k msgs p final p']: from the transcript [msgs] and the process
    [p], the model asks for tools [k] times and then answers without a tool
    call; [final] is the transcript and [p'] the process at that point. *)
Inductive ToolLoop : nat → list Message → Proc → list Message → Proc → Prop :=
| loop_end msgs p response p' :
    llmCall (mkMessagesState msgs) p = (Ok (mkMessagesState [response]), p') →
    tool_calls response = [] →
    ToolLoop 0 msgs p (msgs ++ [response]) p'
| loop_round k msgs p response p1 results p2 final p' :
    llmCall (mkMessagesState msgs) p = (Ok (mkMessagesState [response]), p1) →
    tool_calls response ≠ [] →
    mmap run_tool_call (tool_calls response) p1 = (Ok results, p2) →
    ToolLoop k (msgs ++ [response] ++ results) p2 final p' →
    ToolLoop (S k) msgs p final p'.

(** The model never stops asking for tools and the tools never fail. *)
Definition always_calls : Prop :=
  ∀ msgs (p : Proc), ∃ response p1 results p2,
    llmCall (mkMessagesState msgs) p = (Ok (mkMessagesState [response]), p1) ∧
    tool_calls response ≠ [] ∧
    mmap run_tool_call (tool_calls response) p1 = (Ok results, p2).

(** The message [m] answers the tool call [tc]: a [ToolMessage] that carries
    the id and the name of the call. *)
Definition answers (tc : ToolCall) (m : Message) : Prop :=
  ∃ c, m = ToolMessage c (tc_id tc) (tc_name tc).

(** A transcript in which every model message is followed by the answers
    to its tool calls, one per call and in the order of the calls. *)
Inductive Paired : list Message → Prop :=
| paired_nil : Paired []
| paired_ai c tcs results rest :
    Forall2 answers tcs results → Paired rest →
    Paired (AIMessage c tcs :: results ++ rest).

(** The number of tool calls the messages of a transcript carry. *)
Definition calls_in (l : list Message) : nat := length (l ≫= tool_calls).

(** The number of messages of a transcript that pass a test. *)
Definition count (f : Message → bool) (l : list Message) : nat :=
  length (List.filter f l).

(** The nodes a walk of [k] rounds completes. *)
Fixpoint rounds (k : nat) : list string :=
  match k with
  | 0 => ["llmCall"]
  | S k' => "llmCall" :: "toolNode" :: rounds k'
  end.

End agent.

(** ** The nodes and the edge, one at a time *)

Section nodes.
Context `{Host} `{Runtime}.
#[local] Abbreviation Proc := (Process unit).
Implicit Types (p : Proc) (s : MessagesState) (msgs : list Message).

(** [llmCall] returns one message, and it is the model's. *)
Lemma llmCall_ok_inv s p u p' :
  llmCall s p = (Ok u, p') →
  ∃ response, u = mkMessagesState [response] ∧ is_ai response = true ∧
    modelWithTools (SystemMessage (VStr system_prompt) :: messages s) p
    = (Ok response, p').
Proof.
  intros (response & p1 & Hm & [= <- <-])%bind_ok_inv.
  exists response. eauto using invoke_model_is_ai.
Qed.

Lemma llmCall_err_inv s p e p' :
  llmCall s p = (Err e, p') →
  modelWithTools (SystemMessage (VStr system_prompt) :: messages s) p = (Err e, p').
Proof. by intros [?|(? & ? & _ & [=])]%bind_err_inv. Qed.

(** The conditional edge is a function of the last message: it neither
    throws nor touches the process. *)
Definition route (s : MessagesState) : string :=
  match last (messages s) with
  | Some (AIMessage _ (_ :: _)) => "toolNode"
  | _ => END
  end.

Lemma shouldContinue_run s p : shouldContinue s p = (Ok (route s), p).
Proof.
  unfold shouldContinue, route.
  destruct (last (messages s)) as [[| |c [|tc tcs]|]|]; done.
Qed.

Lemma route_snoc msgs response :
  route (mkMessagesState (msgs ++ [response])) =
  if bool_decide (tool_calls response = []) then END else "toolNode".
Proof.
  unfold route. cbn. rewrite last_snoc.
  by destruct response as [| |c [|tc tcs]|].
Qed.

(** A tool call that succeeds is answered, and running it leaves the
    process as it was. *)
Lemma run_tool_call_ok_inv tc p m p' :
  run_tool_call tc p = (Ok m, p') → p' = p ∧ answers tc m.
Proof.
  unfold run_tool_call, lift_res, bind, tool_invoke.
  destruct (lookup_tool Calculator.toolsByName (tc_name tc)) as [t|e] eqn:Ht; [|done].
  apply lookup_tool_name in Ht; [|apply toolsByName_keys].
  repeat case_match; try done. intros [= <- <-]. split; [done|].
  rewrite Ht. by eexists.
Qed.

Lemma run_tool_calls_ok_inv tcs p results p' :
  mmap run_tool_call tcs p = (Ok results, p') → p' = p ∧ Forall2 answers tcs results.
Proof. apply mmap_ok_inv. eauto using run_tool_call_ok_inv. Qed.

(** ** One step of the walk *)

Lemma step_llmCall s p response p' :
  llmCall s p = (Ok (mkMessagesState [response]), p') →
  step agent_graph "llmCall" s p =
  (Ok (mkMessagesState (messages s ++ [response]),
       if bool_decide (tool_calls response = []) then END else "toolNode"), p').
Proof.
  intros Hl. cbv [step agent_graph]. cbn.
  rewrite (bind_ok _ _ _ _ _ Hl). cbn. unfold bind at 1 2.
  rewrite shouldContinue_run. cbn. unfold addMessages. rewrite route_snoc.
  by case_bool_decide.
Qed.

Lemma step_llmCall_err s p e p' :
  llmCall s p = (Err e, p') → step agent_graph "llmCall" s p = (Err e, p').
Proof. intros Hl. cbv [step agent_graph]. cbn. by rewrite (bind_err _ _ _ _ _ Hl). Qed.

Lemma toolNode_ai msgs response :
  is_ai response = true →
  toolNode (mkMessagesState (msgs ++ [response])) =
  (result <- mmap run_tool_call (tool_calls response) ;; ret (mkMessagesState result)).
Proof. intros Hai. unfold toolNode. cbn. rewrite last_snoc. by destruct response. Qed.

Lemma step_toolNode msgs response p results p' :
  is_ai response = true →
  mmap run_tool_call (tool_calls response) p = (Ok results, p') →
  step agent_graph "toolNode" (mkMessagesState (msgs ++ [response])) p =
  (Ok (mkMessagesState ((msgs ++ [response]) ++ results), "llmCall"), p').
Proof.
  intros Hai Hr. cbv [step agent_graph]. cbn. rewrite toolNode_ai by done.
  unfold bind at 1 2. by rewrite Hr.
Qed.

Lemma step_toolNode_err msgs response p e p' :
  is_ai response = true →
  mmap run_tool_call (tool_calls response) p = (Err e, p') →
  step agent_graph "toolNode" (mkMessagesState (msgs ++ [response])) p = (Err e, p').
Proof.
  intros Hai Hr. cbv [step agent_graph]. cbn. rewrite toolNode_ai by done.
  unfold bind at 1 2. by rewrite Hr.
Qed.

(** ** The walk and the loop *)

Lemma ToolLoop_walk k msgs p final p' :
  ToolLoop k msgs p final p' →
  ∀ fuel done, 2 * k + 1 ≤ fuel →
  walk agent_graph fuel "llmCall" (mkMessagesState msgs) done p
  = (Ok (mkMessagesState final), done ++ rounds k, p').
Proof.
  induction 1 as [msgs p response p' Hl Hnone
                 |k msgs p response p1 results p2 final p' Hl Hsome Hr _ IH];
    intros fuel done Hfuel.
  - destruct fuel as [|fuel]; [lia|].
    erewrite walk_step_ok by (done || by apply step_llmCall).
    rewrite bool_decide_eq_true_2 by done. apply walk_END.
  - destruct fuel as [|[|fuel]]; [lia..|].
    erewrite walk_step_ok by (done || by apply step_llmCall).
    rewrite bool_decide_eq_false_2 by done.
    apply llmCall_ok_inv in Hl as (? & [= <-] & Hai & _).
    erewrite walk_step_ok by (done || by apply step_toolNode).
    cbn [messages rounds]. rewrite <- (app_assoc msgs), IH by lia.
    by rewrite <- !app_assoc.
Qed.

Lemma walk_ToolLoop fuel msgs done p s' done' p' :
  walk agent_graph fuel "llmCall" (mkMessagesState msgs) done p = (Ok s', done', p') →
  ∃ k, ToolLoop k msgs p (messages s') p' ∧ done' = done ++ rounds k ∧ 2 * k + 1 ≤ fuel.
Proof.
  revert msgs done p. induction fuel as [fuel IH] using lt_wf_ind.
  intros msgs done p. destruct fuel as [|fuel]; [by rewrite walk_limit|].
  destruct (llmCall (mkMessagesState msgs) p) as [[u|e] p1] eqn:Hl;
    [|by erewrite walk_step_err by (done || by apply step_llmCall_err)].
  destruct (llmCall_ok_inv _ _ _ _ Hl) as (response & -> & Hai & _).
  erewrite walk_step_ok by (done || by apply step_llmCall).
  case_bool_decide as Hcalls.
  { rewrite walk_END. intros [= <- <- <-]. exists 0.
    split; [by constructor | split; [done | lia]]. }
  destruct fuel as [|fuel]; [by rewrite walk_limit|].
  destruct (mmap run_tool_call (tool_calls response) p1) as [[results|e] p2] eqn:Hr;
    [|by erewrite walk_step_err by (done || by apply step_toolNode_err)].
  erewrite walk_step_ok by (done || by apply step_toolNode).
  cbn [messages]. rewrite <- (app_assoc msgs).
  intros (k & Hloop & -> & Hk)%IH; [|lia]. exists (S k).
  split; [by econstructor | split; [by rewrite <- !app_assoc | lia]].
Qed.

(** ** The transcript of a loop *)

Lemma calls_in_app l1 l2 : calls_in (l1 ++ l2) = calls_in l1 + calls_in l2.
Proof. unfold calls_in. by rewrite bind_app, length_app. Qed.

Lemma count_app f l1 l2 : count f (l1 ++ l2) = count f l1 + count f l2.
Proof. unfold count. by rewrite List.filter_app, length_app. Qed.

Lemma answers_counts tcs results :
  Forall2 answers tcs results →
  count is_tool results = length tcs ∧ count is_ai results = 0 ∧
  calls_in results = 0.
Proof.
  induction 1 as [|tc m tcs results [c ->] _ (IH1 & IH2 & IH3)]; [done|].
  unfold count, calls_in in *. cbn. by rewrite IH1, IH2, IH3.
Qed.

(** What a loop of [k] rounds appends: [k + 1] model messages, each followed
    by the answers to its calls, the last one without a call. *)
Lemma ToolLoop_appended k msgs p final p' :
  ToolLoop k msgs p final p' →
  ∃ appended,
    final = msgs ++ appended ∧ Paired appended ∧
    count is_ai appended = S k ∧
    count is_tool appended = calls_in appended ∧
    (∃ c, last appended = Some (AIMessage c [])).
Proof.
  induction 1 as [msgs p response p' Hl Hnone
                 |k msgs p response p1 results p2 final p' Hl Hsome Hr _ IH].
  - apply llmCall_ok_inv in Hl as (? & [= <-] & Hai & _).
    destruct response as [| |c tcs|]; try done. cbn in Hnone. subst tcs.
    exists [AIMessage c []]. repeat split; eauto.
    apply (paired_ai c [] [] []); constructor.
  - destruct IH as (appended & -> & Hp & Hai & Htool & c0 & Hlast).
    apply llmCall_ok_inv in Hl as (? & [= <-] & Hresp & _).
    destruct response as [| |c tcs|]; try done. cbn in Hr.
    apply run_tool_calls_ok_inv in Hr as [_ Hans].
    destruct (answers_counts _ _ Hans) as (Ht1 & Ht2 & Ht3).
    exists ([AIMessage c tcs] ++ results ++ appended).
    rewrite <- !app_assoc. split; [done|].
    split; [by apply (paired_ai c tcs results appended)|].
    rewrite !count_app, !calls_in_app, Ht1, Ht2, Ht3, Hai, Htool.
    repeat split; [unfold calls_in; cbn; rewrite app_nil_r; lia|].
    exists c0. by rewrite !last_app, Hlast.
Qed.

Lemma Paired_length l : Paired l → length l = count is_ai l + count is_tool l.
Proof.
  induction 1 as [|c tcs results rest Hans _ IH]; [done|].
  destruct (answers_counts _ _ Hans) as (Ht1 & Ht2 & _).
  change (AIMessage c tcs :: results ++ rest) with ([AIMessage c tcs] ++ results ++ rest).
  rewrite !length_app, !count_app, Ht1, Ht2, IH.
  apply Forall2_length in Hans. unfold count. cbn. lia.
Qed.

(** ** The step limit *)

Lemma always_calls_walk :
  always_calls → ∀ fuel msgs done p, ∃ done' p',
    walk agent_graph fuel "llmCall" (mkMessagesState msgs) done p
    = (Err step_limit_error, done ++ done', p') ∧ length done' = fuel.
Proof.
  intros Hcalls fuel. induction fuel as [fuel IH] using lt_wf_ind.
  intros msgs done p.
  destruct fuel as [|fuel]; [exists [], p; by rewrite walk_limit, app_nil_r|].
  destruct (Hcalls msgs p) as (response & p1 & results & p2 & Hl & Hsome & Hr).
  erewrite walk_step_ok by (done || by apply step_llmCall).
  rewrite bool_decide_eq_false_2 by done.
  destruct fuel as [|fuel]; [exists ["llmCall"], p1; by rewrite walk_limit|].
  apply llmCall_ok_inv in Hl as (? & [= <-] & Hai & _).
  erewrite walk_step_ok by (done || by apply step_toolNode).
  cbn [messages].
  destruct (IH fuel ltac:(lia) ((msgs ++ [response]) ++ results)
              ((done ++ ["llmCall"]) ++ ["toolNode"]) p2) as (done' & p' & -> & Hlen).
  exists ("llmCall" :: "toolNode" :: done'), p'.
  rewrite <- !app_assoc. split; [done | cbn; lia].
Qed.

(** ** The compiled graph *)

Lemma agent_compiles : agent = Ok (mkCompiled agent_graph "llmCall").
Proof. vm_compute. reflexivity. Qed.

Lemma run_trace_walk input limit p :
  run_trace input limit p
  = walk agent_graph limit "llmCall" (mkMessagesState input) [] p.
Proof. unfold run_trace. by rewrite agent_compiles. Qed.

Lemma run_run_trace input limit p :
  run input limit p = let '(r, _, p') := run_trace input limit p in (r, p').
Proof. unfold run, run_trace, bind, lift_res. by rewrite agent_compiles. Qed.

End nodes.

(** ** Properties *)

Section properties.
Context `{Host} `{Runtime}.
#[local] Abbreviation Proc := (Process unit).
Implicit Types (p : Proc) (s : MessagesState) (msgs input final : list Message).

(** C1. The compiled graph implements the tool-calling loop: when the model
    asks for tools [k] times and then answers, a run whose step limit allows
    the [2k + 1] node executions returns the transcript of the loop, leaves
    the process where the loop leaves it, and has executed [llmCall] and
    [toolNode] in alternation, [llmCall] last. *)
Theorem run_follows_loop k input p final p' limit :
  ToolLoop k input p final p' → 2 * k + 1 ≤ limit →
  run_trace input limit p = (Ok (mkMessagesState final), rounds k, p').
Proof.
  intros Hloop Hlimit. rewrite run_trace_walk.
  by rewrite (ToolLoop_walk _ _ _ _ _ Hloop limit []).
Qed.

(** C2. Every run that returns is a run of the loop: the final transcript
    is the one the model and the tools produce in some number [k] of rounds
    with [2k + 1] within the step limit, and the nodes executed are those
    of [k] rounds. *)
Theorem run_is_loop input limit p s done p' :
  run_trace input limit p = (Ok s, done, p') →
  ∃ k, ToolLoop k input p (messages s) p' ∧ done = rounds k ∧ 2 * k + 1 ≤ limit.
Proof. rewrite run_trace_walk. apply walk_ToolLoop. Qed.

(** C4. A model that never stops asking for tools does not hang the run:
    it fails with [StepLimitExceeded] after exactly [limit] node
    executions. *)
Theorem run_step_limit input limit p :
  always_calls →
  ∃ done p', run_trace input limit p = (Err step_limit_error, done, p') ∧
             length done = limit.
Proof.
  intros Hcalls. rewrite run_trace_walk.
  destruct (always_calls_walk Hcalls limit input [] p) as (done & p' & -> & Hlen).
  eauto.
Qed.

(** C11. What a loop of [k] rounds appends to the transcript it starts
    from: [k + 1] model messages, each followed by one tool message per
    tool call it carries, tagged with the id and the name of the call, in
    the order of the calls; nothing else, and the last message is a model
    message without a tool call. *)
Theorem loop_transcript k msgs p final p' :
  ToolLoop k msgs p final p' →
  ∃ appended,
    final = msgs ++ appended ∧ Paired appended ∧
    count is_ai appended = S k ∧ count is_tool appended = calls_in appended ∧
    length appended = S k + calls_in appended ∧
    (∃ c, last final = Some (AIMessage c [])).
Proof.
  intros (appended & -> & Hp & Hai & Htool & c & Hlast)%ToolLoop_appended.
  exists appended. repeat split; try done.
  - by rewrite (Paired_length _ Hp), Hai, Htool.
  - exists c. by rewrite last_app, Hlast.
Qed.

(** When no model message carries more than one tool call, a loop of
    [k] rounds appends exactly [2k + 1] messages. *)
Theorem loop_single_calls k msgs p final p' :
  ToolLoop k msgs p final p' →
  Forall (λ m, length (tool_calls m) ≤ 1) final →
  length final = length msgs + (2 * k + 1).
Proof.
  induction 1 as [msgs p response p' Hl Hnone
                 |k msgs p response p1 results p2 final p' Hl Hsome Hr Hloop IH];
    intros Hone.
  - rewrite length_app. cbn. lia.
  - rewrite IH by done. rewrite !length_app. cbn [length].
    destruct (ToolLoop_appended _ _ _ _ _ Hloop) as (appended & -> & _).
    assert (length (tool_calls response) ≤ 1) as Hle
      by (apply (proj1 (Forall_forall _ _) Hone); set_solver).
    apply run_tool_calls_ok_inv in Hr as [_ Hlen%Forall2_length].
    destruct (tool_calls response); [done | cbn in *; lia].
Qed.

(** C12. The tool node answers every tool call of the last message: it
    returns one tool message per call, in the order of the calls, each
    tagged with the id and the name of its call, and leaves the process
    untouched. After a message that is not a model message it returns no
    message. *)
Theorem toolNode_answers msgs response p u p' :
  toolNode (mkMessagesState (msgs ++ [response])) p = (Ok u, p') →
  p' = p ∧ Forall2 answers (tool_calls response) (messages u).
Proof.
  destruct (is_ai response) eqn:Hai.
  - rewrite toolNode_ai by done.
    intros (results & p1 & Hr & [= <- <-])%bind_ok_inv.
    by apply run_tool_calls_ok_inv.
  - unfold toolNode. cbn. rewrite last_snoc, tool_calls_not_ai by done.
    destruct response; try done; intros [= <- <-]; by split.
Qed.

(** The conditional edge returns a label its path map declares,
    without throwing and without touching the process; the label is
    [toolNode] exactly when the last message is a model message that
    carries a tool call. *)
Theorem shouldContinue_declared s p :
  ∃ label, shouldContinue s p = (Ok label, p) ∧
    label ∈ (path_array ["toolNode"; END]).*1 ∧
    (label = "toolNode" ↔
     ∃ c tc tcs, last (messages s) = Some (AIMessage c (tc :: tcs))).
Proof.
  exists (route s). split; [apply shouldContinue_run|]. unfold route.
  destruct (last (messages s)) as [[| |c [|tc tcs]|]|]; cbn;
    (split; [set_solver | split; [done | by intros (? & ? & ? & [=])]]) ||
    (split; [set_solver | split; [eauto | done]]).
Qed.

(** C9. A tool that fails ends the run: the error of the first failing tool
    call is the error of [invoke], the model is not called again, and
    [llmCall] is the last node that completed. *)
Theorem tool_failure_is_fatal input p response p1 e p2 limit :
  llmCall (mkMessagesState input) p = (Ok (mkMessagesState [response]), p1) →
  mmap run_tool_call (tool_calls response) p1 = (Err e, p2) →
  2 ≤ limit →
  run_trace input limit p = (Err e, ["llmCall"], p2).
Proof.
  intros Hl Hr Hlimit. rewrite run_trace_walk.
  destruct limit as [|[|limit]]; [lia..|].
  erewrite walk_step_ok by (done || by apply step_llmCall).
  rewrite bool_decide_eq_false_2 by (by intros Hnil; rewrite Hnil in Hr).
  apply llmCall_ok_inv in Hl as (? & [= <-] & Hai & _).
  by erewrite walk_step_err by (done || by apply step_toolNode_err).
Qed.

(** A tool call that names a tool outside the registry throws a
    [TypeError]: the lookup yields [undefined] and [invoke] is read off it. *)
Theorem unknown_tool_throws tc p :
  tc_name tc ∉ ["add"; "multiply"; "divide"] →
  run_tool_call tc p = (Err undefined_tool_error, p).
Proof.
  intros Hname. unfold run_tool_call, bind, lift_res.
  by rewrite lookup_calculator.
Qed.


(** A failure of the model ends the run with the model's error, and no
    node has completed. *)
Theorem model_failure_is_fatal input p e p' limit :
  llmCall (mkMessagesState input) p = (Err e, p') → 1 ≤ limit →
  run_trace input limit p = (Err e, [], p').
Proof.
  intros Hl Hlimit. rewrite run_trace_walk. destruct limit as [|limit]; [lia|].
  by erewrite walk_step_err by (done || by apply step_llmCall_err).
Qed.

(** The messages channel only grows: the transcript a run returns
    starts with the transcript it was given and is strictly longer. *)
Theorem run_appends input limit p s p' :
  run input limit p = (Ok s, p') →
  input `prefix_of` messages s ∧ length input < length (messages s).
Proof.
  rewrite run_run_trace.
  destruct (run_trace input limit p) as [[r done] p1] eqn:Hrun. intros [= -> ->].
  rewrite run_trace_walk in Hrun. apply walk_ToolLoop in Hrun as (k & Hloop & _).
  apply ToolLoop_appended in Hloop as (appended & -> & _ & _ & _ & c & Hlast).
  split; [by apply prefix_app_r|].
  rewrite length_app. destruct appended; [done | cbn; lia].
Qed.

(** The graph of the agent passes the checks of [compile]: its entry
    is [llmCall] and every edge leads to a node or to [END]. *)
Theorem agent_well_formed :
  ∃ cg, agent = Ok cg ∧ cg_entry cg = "llmCall" ∧ wf_graph (cg_graph cg).
Proof.
  eexists. split; [apply agent_compiles|]. split; [done|].
  eapply compile_wf, agent_compiles.
Qed.

(** Wiring [toolNode] to a name that is neither a node nor [END] is
    caught by [compile], before any run. *)
Theorem dangling_edge_rejected dst :
  dst ∉ ["llmCall"; "toolNode"; END] →
  ∃ msg,
    compile (new_StateGraph
             |> addNode "llmCall" llmCall
             |> addNode "toolNode" toolNode
             |> addEdge START "llmCall"
             |> addConditionalEdges "llmCall" shouldContinue (path_array ["toolNode"; END])
             |> addEdge "toolNode" dst)
    = Err (config_error msg).
Proof.
  rewrite !not_elem_of_cons. intros (? & ? & ? & _).
  apply (compile_dangling_edge _ "toolNode" dst); [set_solver | done | set_solver].
Qed.

(** With a model that answers from what it is sent only, the nodes and
    the conditional edge do the same in any two processes. *)
Lemma llmCall_stateless s :
  stateless_model → msim (@same_globals _ unit) (llmCall s) (llmCall s).
Proof.
  intros Hm. apply msim_bind; [by apply invoke_model_stateless | intros ?; apply msim_ret].
Qed.

Lemma toolNode_stateless s : msim (@same_globals _ unit) (toolNode s) (toolNode s).
Proof.
  unfold toolNode. repeat case_match; try apply msim_ret.
  apply msim_bind; [|intros ?; apply msim_ret].
  apply msim_mmap. intros tc. apply msim_bind; [|intros ?]; apply msim_lift_res.
Qed.

Lemma shouldContinue_stateless s :
  msim (@same_globals _ unit) (shouldContinue s) (shouldContinue s).
Proof. unfold shouldContinue. repeat case_match; apply msim_ret. Qed.

Lemma agent_graph_stateless :
  stateless_model → graph_sim (@same_globals _ unit) agent_graph agent_graph.
Proof.
  intros Hm. split; cbn; repeat (constructor; [split; [done|]; cbn|]);
    first [ intros s; by apply llmCall_stateless | apply toolNode_stateless
          | apply static_sim | apply conditional_sim, shouldContinue_stateless
          | constructor ].
Qed.

(** C10. Idempotence: with a deterministic model, one whose answer depends
    on the messages it is sent and not on the calls made before, two runs
    of the agent on the same transcript with the same recursion limit end
    in the same outcome, the same final transcript or the same error, after
    the same nodes, in whatever state the model provider is; so does a
    second run after a first. *)
Theorem run_idempotent input limit p q :
  stateless_model → (run_trace input limit p).1 = (run_trace input limit q).1.
Proof.
  intros Hm. rewrite !run_trace_walk.
  apply (walk_sim same_globals _ _ _ _ _ _ _ _ (agent_graph_stateless Hm)).
  unfold same_globals. by destruct (globals p), (globals q).
Qed.

End properties.

(** ** Witnesses *)

(** The scenario "Add 3 and 4." is a loop of one round. *)
Lemma scenario_loop :
  @ToolLoop Stub.scripted Stub.runtime 1 Stub.question (Stub.boot Stub.add_script)
    Stub.scenario (Stub.boot []).
Proof.
  eapply (loop_round 0 _ _ (AIMessage (VStr "") [Stub.add_3_4]));
    [vm_compute; reflexivity | done | vm_compute; reflexivity |].
  by apply (loop_end (firstn 3 Stub.scenario) _ (AIMessage (VStr "7") [])).
Defined.

(** The model that asks for [add(3, 4)] whatever it is sent never stops. *)
Lemma insistent_always_calls :
  @always_calls (Stub.insistent Stub.add_3_4) Stub.runtime.
Proof.
  intros msgs p.
  exists (AIMessage (VStr "") [Stub.add_3_4]), p,
         [ToolMessage (VStr "7") "call_1" "add"], p.
  destruct p as [[] c []]. repeat split; (done || vm_compute; reflexivity).
Defined.

Lemma run_follows_loop_witness :
  @run_trace Stub.scripted Stub.runtime Stub.question 25 (Stub.boot Stub.add_script)
  = (Ok (mkMessagesState Stub.scenario), rounds 1, Stub.boot []).
Proof.
  apply (@run_follows_loop Stub.scripted Stub.runtime 1); [apply scenario_loop | cbn; lia].
Defined.

Lemma run_is_loop_witness :
  ∃ k, @ToolLoop Stub.scripted Stub.runtime k Stub.question
         (Stub.boot Stub.add_script) Stub.scenario (Stub.boot [])
       ∧ rounds 1 = rounds k ∧ 2 * k + 1 ≤ 25.
Proof.
  apply (@run_is_loop Stub.scripted Stub.runtime Stub.question 25
           (Stub.boot Stub.add_script) (mkMessagesState Stub.scenario)).
  vm_compute. reflexivity.
Defined.

Lemma run_step_limit_witness :
  ∃ done p',
    @run_trace (Stub.insistent Stub.add_3_4) Stub.runtime Stub.question 50 (Stub.boot_insistent Stub.add_3_4)
    = (Err step_limit_error, done, p') ∧ length done = 50.
Proof.
  apply (@run_step_limit (Stub.insistent Stub.add_3_4) Stub.runtime).
  apply insistent_always_calls.
Defined.

Lemma loop_transcript_witness :
  ∃ appended,
    Stub.scenario = Stub.question ++ appended ∧ Paired appended ∧
    count is_ai appended = 2 ∧ count is_tool appended = calls_in appended ∧
    length appended = 2 + calls_in appended ∧
    (∃ c, last Stub.scenario = Some (AIMessage c [])).
Proof. exact (loop_transcript 1 _ _ _ _ scenario_loop). Defined.

Lemma loop_single_calls_witness :
  length Stub.scenario = length Stub.question + (2 * 1 + 1).
Proof.
  apply (loop_single_calls 1 _ _ _ _ scenario_loop).
  repeat constructor.
Defined.

Lemma toolNode_answers_witness :
  Stub.boot [] = Stub.boot [] ∧
  Forall2 answers [Stub.add_3_4] [ToolMessage (VStr "7") "call_1" "add"].
Proof.
  apply (@toolNode_answers Stub.scripted Stub.runtime Stub.question
           (AIMessage (VStr "") [Stub.add_3_4]) (Stub.boot [])
           (mkMessagesState [ToolMessage (VStr "7") "call_1" "add"])).
  vm_compute. reflexivity.
Defined.

Lemma tool_failure_is_fatal_witness :
  @run_trace Stub.scripted Stub.runtime Stub.question 25
    (Stub.boot [Ok (VStr "", [Stub.subtract_3_4]); Ok (VStr "-1", [])])
  = (Err undefined_tool_error, ["llmCall"], Stub.boot [Ok (VStr "-1", [])]).
Proof.
  apply (@tool_failure_is_fatal Stub.scripted Stub.runtime _ _
           (AIMessage (VStr "") [Stub.subtract_3_4]) (Stub.boot [Ok (VStr "-1", [])]));
    [vm_compute; reflexivity | vm_compute; reflexivity | lia].
Defined.

Lemma unknown_tool_throws_witness :
  @run_tool_call Stub.scripted Stub.runtime Stub.subtract_3_4 (Stub.boot [])
  = (Err undefined_tool_error, Stub.boot []).
Proof.
  apply (@unknown_tool_throws Stub.scripted Stub.runtime).
  cbn. rewrite !not_elem_of_cons. repeat split; (discriminate || apply not_elem_of_nil).
Defined.


Lemma model_failure_is_fatal_witness :
  @run_trace Stub.scripted Stub.runtime Stub.question 25 (Stub.boot [])
  = (Err (mkError ExecutionError "the script is used up"), [], Stub.boot []).
Proof.
  apply (@model_failure_is_fatal Stub.scripted Stub.runtime);
    [vm_compute; reflexivity | lia].
Defined.

Lemma run_appends_witness :
  Stub.question `prefix_of` Stub.scenario ∧ length Stub.question < length Stub.scenario.
Proof.
  apply (@run_appends Stub.scripted Stub.runtime Stub.question 25
           (Stub.boot Stub.add_script) (mkMessagesState Stub.scenario) (Stub.boot [])).
  vm_compute. reflexivity.
Defined.

Lemma dangling_edge_rejected_witness :
  ∃ msg,
    compile (new_StateGraph
             |> addNode "llmCall" (@llmCall Stub.scripted)
             |> addNode "toolNode" (@toolNode Stub.scripted Stub.runtime)
             |> addEdge START "llmCall"
             |> addConditionalEdges "llmCall" (@shouldContinue Stub.scripted)
                  (path_array ["toolNode"; END])
             |> addEdge "toolNode" "summarize")
    = Err (config_error msg).
Proof.
  apply (@dangling_edge_rejected Stub.scripted Stub.runtime "summarize").
  rewrite !not_elem_of_cons. repeat split; (discriminate || apply not_elem_of_nil).
Defined.

(** The model that answers from the transcript is deterministic. *)
Lemma reactive_stateless : @stateless_model (Stub.reactive Stub.add_3_4).
Proof. by intros tools msgs w w'. Defined.

Lemma run_idempotent_witness :
  (@run_trace (Stub.reactive Stub.add_3_4) Stub.runtime Stub.question 25
     (Stub.boot_reactive Stub.add_3_4 0)).1
  = (@run_trace (Stub.reactive Stub.add_3_4) Stub.runtime Stub.question 25
       (@run_trace (Stub.reactive Stub.add_3_4) Stub.runtime Stub.question 25
          (Stub.boot_reactive Stub.add_3_4 0)).2).1.
Proof.
  apply (@run_idempotent (Stub.reactive Stub.add_3_4) Stub.runtime).
  apply reactive_stateless.
Defined.

(** The two runs of the witness end in the transcript of the scenario. *)
Example reactive_scenario :
  (@run_trace (Stub.reactive Stub.add_3_4) Stub.runtime Stub.question 25
     (Stub.boot_reactive Stub.add_3_4 0)).1
  = (Ok (mkMessagesState Stub.scenario), rounds 1).
Proof. by vm_compute. Qed.

End Graph.
