(* ===== verification/CreateAgent.v ===== *)
(** * The agents built with createAgent

    src/real-world.ts and basic.ts (src/unnamed/part_002) configure the
    prebuilt agent of the chat library: a system prompt, a list of tools
    and, for the first, a checkpointer that keeps the conversation of a
    thread between two calls of [invoke].

    [Prebuilt] is that agent, modelled from its contract: the tool-calling
    loop as a state graph over [MessagesAnnotation], in which a tool call
    that fails is answered by a [ToolMessage] that describes the error, and
    a checkpointer that is read once before the walk and written once after
    it. [Checkpointer] is the interface of the memory, with its two laws;
    [MemorySaver] implements it. [Weather] and [Basic] are the two scripts:
    their tools, their agents and what they print.

    Theorems: the threads of a checkpointer do not interfere and a thread
    continues where it stopped ([threads_isolated],
    [weather_thread_continues]); a call of the weather agent returns a
    transcript that extends the memory of its thread, or throws what the
    model threw ([weather_invoke_outcome]); the agent of basic.ts, which
    has no memory, returns a transcript that extends its input
    ([basic_invoke_outcome]); a tool call that fails is answered and the
    run goes on ([weather_recovers]). *)

From stdpp Require Import base option list strings.
From S2P Require Import Prelude JsValue Engine Walks Messages Host Tools Stubs GraphAgent.

(** ** The memory *)

(** [load] answers the transcript saved last under a thread, [save]
    replaces it; the threads do not interfere. *)
Record Checkpointer (G : Type) : Type := mkCheckpointer {
  cp_load : string → G → option (list Message);
  cp_save : string → list Message → G → G;
  cp_load_save : ∀ thread l g, cp_load thread (cp_save thread l g) = Some l;
  cp_load_other : ∀ thread thread' l g,
    thread ≠ thread' → cp_load thread (cp_save thread' l g) = cp_load thread g;
}.
Arguments cp_load {G} _ _ _.
Arguments cp_save {G} _ _ _ _.
Arguments cp_load_save {G} _ _ _ _.
Arguments cp_load_other {G} _ _ _ _ _ _.

(** What [createAgent] is given. *)
Record AgentParams (G : Type) : Type := mkAgent {
  agent_systemPrompt : option string;
  agent_tools : list Tool;
  agent_checkpointer : option (Checkpointer G);
}.
Arguments mkAgent {G} _ _ _.
Arguments agent_systemPrompt {G} _.
Arguments agent_tools {G} _.
Arguments agent_checkpointer {G} _.

Module Prebuilt.

Section create_agent.
Context `{Host} `{Runtime} {G : Type}.
#[local] Abbreviation Proc := (Process G).
Implicit Types (agent : AgentParams G) (config : value) (state : MessagesState).

(** The tools by name. *)
Definition registry (tools : list Tool) : list (string * Tool) :=
  (λ t, (tool_name t, t)) <$> tools.

Definition prompt agent : list Message :=
  match agent_systemPrompt agent with
  | Some text => [SystemMessage (VStr text)]
  | None => []
  end.

(** The model node: the system prompt and the transcript go to the model,
    its answer is appended. *)
Definition model_node agent state : M Proc MessagesState :=
  response <- invoke_model (tool_name <$> agent_tools agent) (prompt agent ++ messages state) ;;
  ret (mkMessagesState [response]).

(** The content of the message that answers a tool call that failed. *)
Definition error_content (e : JsError) : value :=
  VStr ("Error: " +:+ err_message e +:+ newline +:+ " Please fix your mistakes.").

(** One tool call: the answer of the tool, or the description of what went
    wrong, under the id and the name of the call. *)
Definition call_tool agent config (toolCall : ToolCall) : Message :=
  match lookup_tool (registry (agent_tools agent)) (tc_name toolCall)
        ≫= λ tool, tool_invoke tool toolCall config with
  | Ok message => message
  | Err e => ToolMessage (error_content e) (tc_id toolCall) (tc_name toolCall)
  end.

(** The tool calls of the last message. *)
Definition pending state : list ToolCall :=
  match last (messages state) with
  | Some lastMessage => tool_calls lastMessage
  | None => []
  end.

(** The tool node: one message per pending tool call, in their order. *)
Definition tools_node agent config state : M Proc MessagesState :=
  ret (mkMessagesState (call_tool agent config <$> pending state)).

Definition route state : M Proc string :=
  ret (if Nat.ltb 0 (length (pending state)) then "tools" else END).

Definition agent_graph agent config : StateGraph Proc MessagesState MessagesState :=
  new_StateGraph
  |> addNode "model_request" (model_node agent)
  |> addNode "tools" (tools_node agent config)
  |> addEdge START "model_request"
  |> addConditionalEdges "model_request" route (path_array ["tools"; END])
  |> addEdge "tools" "model_request".

(** [config.configurable.thread_id]. *)
Definition thread_id config : Res string :=
  match Js.get_opt "thread_id" (Js.get_opt "configurable" config) with
  | VStr thread => Ok thread
  | _ => Err (config_error "thread_id is missing from the configurable of the run")
  end.

(** The walk from a transcript. *)
Definition run_graph agent config (transcript : list Message) : M Proc MessagesState :=
  compiled <- lift_res (compile (agent_graph agent config)) ;;
  invoke compiled (mkMessagesState transcript) default_recursion_limit.

(** [agent.invoke({messages: input}, config)]: without a checkpointer the
    walk starts from the input; with one it starts from the transcript of
    the thread followed by the input, and the final transcript is saved
    under the thread when the walk has returned. *)
Definition agent_invoke agent (input : list Message) config : M Proc MessagesState :=
  match agent_checkpointer agent with
  | None => run_graph agent config input
  | Some saver =>
      thread <- lift_res (thread_id config) ;;
      saved <- get_global (cp_load saver thread) ;;
      result <- run_graph agent config (default [] saved ++ input) ;;
      set_global (cp_save saver thread (messages result)) ;;
      ret result
  end.

End create_agent.

End Prebuilt.

(** ** [MemorySaver] *)

(** The transcripts by thread. *)
Definition MemorySaver : Type := list (string * list Message).

Definition memory_load (thread : string) (store : MemorySaver) : option (list Message) :=
  Js.assoc thread store.

Definition memory_save (thread : string) (transcript : list Message) (store : MemorySaver)
  : MemorySaver :=
  Js.assoc_set thread transcript store.

(** [new MemorySaver()] as a checkpointer. *)
Definition memory_saver : Checkpointer MemorySaver :=
  mkCheckpointer MemorySaver memory_load memory_save
    (λ thread l g, assoc_set_eq thread l g)
    (λ thread thread' l g Hne, assoc_set_ne thread' thread l g (not_eq_sym Hne)).

(** ** The weather agent of src/real-world.ts *)

Module Weather.

Section weather.
Context `{Host} `{Runtime}.
#[local] Abbreviation Proc := (Process MemorySaver).

Definition systemPrompt : string :=
  "You are an expert weather forecaster, who speaks in puns." +:+ newline +:+ newline +:+
  "You have access to two tools:" +:+ newline +:+ newline +:+
  "- get_weather_for_location: use this to get the weather for a specific location"
    +:+ newline +:+
  "- get_user_location: use this to get the user's location" +:+ newline +:+ newline +:+
  "If a user asks you for the weather, make sure you know the location. If you can tell "
    +:+ "from the question that they mean wherever they are, use the get_user_location "
    +:+ "tool to find their location.".

Definition getWeather : Tool :=
  mkTool "get_weather_for_location" "Get the weather for a given city"
    (z_object [("city", z_string)])
    (λ input _,
       Ok (VStr ("It's always sunny in " +:+ content_string (Js.get_opt "city" input) +:+ "!"))).

(** [config?.context?.user_id === "1"]. *)
Definition is_user_1 (config : value) : bool :=
  match Js.get_opt "user_id" (Js.get_opt "context" config) with
  | VStr user_id => String.eqb user_id "1"
  | _ => false
  end.

Definition getUserLocation : Tool :=
  mkTool "get_user_location" "Retrieve user information based on user ID"
    (z_object [])
    (λ _ config, Ok (VStr (if is_user_1 config then "Florida" else "SF"))).

Definition agent : AgentParams MemorySaver :=
  mkAgent (Some systemPrompt) [getUserLocation; getWeather] (Some memory_saver).

Definition config : value :=
  VObj [("configurable", VObj [("thread_id", VStr "1")]);
        ("context", VObj [("user_id", VStr "1")])].

(** [response.messages[response.messages.length - 1].content]. *)
Definition last_content (response : MessagesState) : Res value :=
  match last (messages response) with
  | Some lastMessage => Ok (content lastMessage)
  | None => Err (Js.type_error "Cannot read properties of undefined (reading 'content')")
  end.

(** One question and the printing of its answer. *)
Definition ask_agent (question : string) : M Proc unit :=
  response <- Prebuilt.agent_invoke agent [HumanMessage (VStr question)] config ;;
  console_log "Response:" ;;
  lastContent <- lift_res (last_content response) ;;
  console_log (content_string lastContent).

Definition main : M Proc unit :=
  console_log ("First question: what is the weather outside?" +:+ newline) ;;
  ask_agent "what is the weather outside?" ;;
  console_log (newline +:+ "---" +:+ newline) ;;
  console_log ("Second question: thank you!" +:+ newline) ;;
  ask_agent "thank you!".

(** [main().catch(console.error)]. *)
Definition script : M Proc unit :=
  try_catch main (λ error, console_log (err_message error)).

End weather.

End Weather.

(** ** The agent of basic.ts *)

Module Basic.

Section basic.
Context `{Host} `{Runtime}.
#[local] Abbreviation Proc := (Process unit).

Definition getWeather : Tool :=
  mkTool "get_weather" "Get the weather for a given city"
    (z_object [("city", z_string)])
    (λ input _,
       Ok (VStr ("It's always sunny in " +:+ content_string (Js.get_opt "city" input) +:+ "!"))).

Definition agent : AgentParams unit := mkAgent None [getWeather] None.

(** The object [console.log] is given, as a value: the messages with their
    type and their content. *)
Definition message_value (message : Message) : value :=
  VObj [("type", VStr (_getType message)); ("content", content message)].

Definition script : M Proc unit :=
  result <- Prebuilt.agent_invoke agent [HumanMessage (VStr "What's the weather in Tokyo?")]
              VUndefined ;;
  console_log (to_string (VObj [("messages", VArr (message_value <$> messages result))])).

End basic.

End Basic.

(** ** The prebuilt agent *)

Section prebuilt_lemmas.
Context `{Host} `{Runtime} {G : Type}.
#[local] Abbreviation Proc := (Process G).
Implicit Types (agent : AgentParams G) (config : value) (state : MessagesState).
Implicit Types (p : Proc) (vars : G) (transcript : list Message).

(** An error the model answered a request with. *)
Definition thrown_by_model (e : JsError) : Prop :=
  ∃ tools msgs w, (complete tools msgs w).1 = Err e.

(** The module-level variables are [vars]. *)
Definition globals_are vars p : Prop := globals p = vars.

(** The transcript of the state extends [transcript]. *)
Definition extends transcript state : Prop := transcript `prefix_of` messages state.

Lemma registry_keys (tools : list Tool) k t :
  (k, t) ∈ Prebuilt.registry tools → tool_name t = k.
Proof. unfold Prebuilt.registry. by intros (t' & [= -> ->] & _)%list_elem_of_fmap. Qed.

(** Every tool call is answered under its id and its name. *)
Lemma call_tool_answers agent config tc :
  Graph.answers tc (Prebuilt.call_tool agent config tc).
Proof.
  unfold Prebuilt.call_tool.
  destruct (lookup_tool _ (tc_name tc)) as [tool|e] eqn:Ht; cbn; [|by eexists].
  apply lookup_tool_name in Ht; [|apply registry_keys].
  unfold tool_invoke. destruct (parse _ _) as [input|]; [|by eexists].
  destruct (tool_func _ _ _); rewrite ?Ht; by eexists.
Qed.

Lemma extends_start transcript :
  extends transcript (ann_reduce ann_empty (mkMessagesState transcript)).
Proof. unfold extends. cbn. unfold addMessages. by cbn. Qed.

Lemma model_node_hoare agent vars transcript state :
  extends transcript state →
  hoare (globals_are vars) (Prebuilt.model_node agent state)
    (post (λ u p, globals_are vars p ∧ extends transcript (ann_reduce state u))
          (λ e p, globals_are vars p ∧ thrown_by_model e)).
Proof.
  intros Hs p Hp. unfold Prebuilt.model_node, bind, invoke_model, globals_are in *.
  destruct (complete _ _ (host p)) as [[[c tcs]|e] w] eqn:E; cbn.
  - split; [done | by apply prefix_app_r].
  - split; [done|]. eexists _, _, _. by rewrite E.
Qed.

Lemma agent_graph_compiles agent config :
  compile (Prebuilt.agent_graph agent config)
  = Ok (mkCompiled (Prebuilt.agent_graph agent config) "model_request").
Proof. reflexivity. Qed.

Lemma agent_graph_guarded agent config vars transcript :
  guarded_graph (Prebuilt.agent_graph agent config) (globals_are vars) (extends transcript)
                (λ e p, globals_are vars p ∧ thrown_by_model e).
Proof.
  split.
  - intros name fn state Hin Hs. cbn in Hin.
    repeat (apply elem_of_cons in Hin as [[= -> ->]|Hin]); [| |by apply elem_of_nil in Hin].
    + by apply model_node_hoare.
    + intros p Hp. split; [done | by apply prefix_app_r].
  - intros src router ends state Hin _. cbn in Hin.
    repeat (apply elem_of_cons in Hin as [[=]|Hin]); simplify_eq;
      [|by apply elem_of_nil in Hin].
    intros p Hp. cbn. split; [done|]. by destruct (Prebuilt.pending state).
Qed.

(** A walk of the agent returns a transcript that extends the one it
    started from, or throws what the model threw or the error of the step
    limit; the module-level variables are not touched. *)
Lemma run_graph_hoare agent config vars transcript :
  hoare (globals_are vars) (Prebuilt.run_graph agent config transcript)
    (post (λ result p, globals_are vars p ∧ extends transcript result)
          (λ e p, globals_are vars p ∧ (thrown_by_model e ∨ e = step_limit_error))).
Proof.
  intros p Hp. unfold Prebuilt.run_graph, bind, lift_res.
  rewrite agent_graph_compiles. unfold invoke, invoke_trace. cbn [cg_graph cg_entry].
  pose proof (walk_guarded_limit _ _ _ _ default_recursion_limit "model_request"
                (ann_reduce ann_empty (mkMessagesState transcript)) [] p
                (compile_wf _ _ (agent_graph_compiles agent config))
                (agent_graph_guarded agent config vars transcript)) as Hw.
  destruct (walk _ _ _ _ _ _) as [[r done] p'].
  specialize (Hw ltac:(right; cbn; apply list_elem_of_here) Hp (extends_start transcript)).
  destruct r as [result|e]; cbn in *; [done|]. naive_solver.
Qed.

(** A call of an agent with a checkpointer: the transcript it returns is
    saved under the thread; a call that throws leaves the memory as it
    was. *)
Lemma agent_invoke_hoare agent saver config thread input vars :
  agent_checkpointer agent = Some saver → Prebuilt.thread_id config = Ok thread →
  hoare (globals_are vars) (Prebuilt.agent_invoke agent input config)
    (post (λ result p,
             globals_are (cp_save saver thread (messages result) vars) p ∧
             extends (default [] (cp_load saver thread vars) ++ input) result)
          (λ e p, globals_are vars p ∧ (thrown_by_model e ∨ e = step_limit_error))).
Proof.
  intros Hcp Hthread p Hp. unfold Prebuilt.agent_invoke. rewrite Hcp, Hthread.
  pose proof (run_graph_hoare agent config vars
                (default [] (cp_load saver thread vars) ++ input) p Hp) as Hrun.
  unfold bind, lift_res, get_global, gets, set_global, modify. rewrite Hp.
  destruct (Prebuilt.run_graph _ _ _ p) as [[result|e] p']; cbn in *; [|done].
  destruct Hrun as [Hp' Hresult]. unfold globals_are in *. by rewrite Hp'.
Qed.

End prebuilt_lemmas.

(** ** Test doubles *)

Module WeatherStub.

(** The two tool calls and the answers of the model in the conversation of
    the script. *)
Definition locate : ToolCall := mkToolCall "get_user_location" (VObj []) "call_1".

Definition forecast : ToolCall :=
  mkToolCall "get_weather_for_location" (VObj [("city", VStr "Florida")]) "call_2".

Definition conversation : list (Res (value * list ToolCall)) :=
  [Ok (VStr "", [locate]); Ok (VStr "", [forecast]);
   Ok (VStr "Florida is sun-sational today!", []);
   Ok (VStr "You are welcome!", [])].

Definition boot (script : list (Res (value * list ToolCall)))
  : @Process Stub.scripted MemorySaver :=
  mkProcess (script : @World Stub.scripted) [] [].

(** A call to a tool the agent does not have, and a call whose arguments
    do not match the schema. *)
Definition unknown : ToolCall := mkToolCall "get_time" (VObj []) "call_3".

Definition no_city : ToolCall :=
  mkToolCall "get_weather_for_location" (VObj [("town", VStr "Florida")]) "call_4".

(** The agent of the script and its calls, on the scripted model. *)
Definition agent : AgentParams MemorySaver := @Weather.agent Stub.runtime.

Definition invoke (question : string)
  : M (@Process Stub.scripted MemorySaver) MessagesState :=
  @Prebuilt.agent_invoke Stub.scripted Stub.runtime _ agent
    [HumanMessage (VStr question)] Weather.config.

End WeatherStub.

(** ** Properties *)

Section properties.
Context `{Host} `{Runtime} {G : Type}.
#[local] Abbreviation Proc := (Process G).
Implicit Types (agent : AgentParams G) (config : value) (state : MessagesState).
Implicit Types (p : Proc) (saver : Checkpointer G).

(** The tool node of the prebuilt agent recovers from every failure of a
    tool call: whatever the tool calls of the last message name and carry,
    the node returns, leaves the process as it was and answers each call
    with one message under the id and the name of the call, in the order of
    the calls. *)
Lemma tools_node_recovers agent config state p :
  ∃ results,
    Prebuilt.tools_node agent config state p = (Ok (mkMessagesState results), p) ∧
    Forall2 Graph.answers (Prebuilt.pending state) results.
Proof.
  eexists. split; [done|]. apply Forall2_fmap_r, Forall_Forall2_diag, Forall_forall.
  intros tc _. apply call_tool_answers.
Qed.

(** A call of an agent with a checkpointer, on a thread: when it returns,
    the transcript extends what the memory held for the thread followed by
    the input, and it is what the memory holds afterwards; when it throws,
    the error is the model's or the error of the step limit, and the memory
    is as it was. *)
Lemma agent_invoke_saves agent saver config thread input p :
  agent_checkpointer agent = Some saver → Prebuilt.thread_id config = Ok thread →
  match Prebuilt.agent_invoke agent input config p with
  | (Ok result, p') =>
      (default [] (cp_load saver thread (globals p)) ++ input) `prefix_of` messages result ∧
      cp_load saver thread (globals p') = Some (messages result)
  | (Err e, p') =>
      globals p' = globals p ∧ (thrown_by_model e ∨ e = step_limit_error)
  end.
Proof.
  intros Hcp Hthread.
  pose proof (agent_invoke_hoare agent saver config thread input (globals p) Hcp Hthread
                p eq_refl) as Hrun.
  destruct (Prebuilt.agent_invoke _ _ _ p) as [[result|e] p']; cbn in *; [|done].
  destruct Hrun as [-> Hresult]. by rewrite cp_load_save.
Qed.

(** The conversation of a thread continues: the transcript a second call
    on the same thread returns extends the transcript the first call
    returned, followed by the second input. *)
Lemma agent_thread_continues agent saver config thread input1 input2 p :
  agent_checkpointer agent = Some saver → Prebuilt.thread_id config = Ok thread →
  match Prebuilt.agent_invoke agent input1 config p with
  | (Ok first, p1) =>
      match Prebuilt.agent_invoke agent input2 config p1 with
      | (Ok second, _) => (messages first ++ input2) `prefix_of` messages second
      | (Err _, p2) => cp_load saver thread (globals p2) = Some (messages first)
      end
  | (Err _, p1) => globals p1 = globals p
  end.
Proof.
  intros Hcp Hthread.
  pose proof (agent_invoke_hoare agent saver config thread input1 (globals p) Hcp Hthread
                p eq_refl) as Hrun1.
  destruct (Prebuilt.agent_invoke _ _ _ p) as [[first|e] p1]; cbn in *; [|by destruct Hrun1].
  destruct Hrun1 as [Hp1 _].
  pose proof (agent_invoke_hoare agent saver config thread input2 _ Hcp Hthread
                p1 Hp1) as Hrun2.
  rewrite cp_load_save in Hrun2.
  destruct (Prebuilt.agent_invoke _ _ _ p1) as [[second|e] p2]; cbn in *; [by destruct Hrun2|].
  destruct Hrun2 as [-> _]. apply cp_load_save.
Qed.

(** The threads do not interfere: a call on one thread leaves what the
    memory holds for every other thread. *)
Lemma threads_isolated agent saver config thread other input p :
  agent_checkpointer agent = Some saver → Prebuilt.thread_id config = Ok thread →
  other ≠ thread →
  cp_load saver other (globals (Prebuilt.agent_invoke agent input config p).2)
  = cp_load saver other (globals p).
Proof.
  intros Hcp Hthread Hne.
  pose proof (agent_invoke_hoare agent saver config thread input (globals p) Hcp Hthread
                p eq_refl) as Hrun.
  destruct (Prebuilt.agent_invoke _ _ _ p) as [[result|e] p']; cbn in *.
  - destruct Hrun as [-> _]. by apply cp_load_other.
  - by destruct Hrun as [-> _].
Qed.

End properties.

Section weather_properties.
Context `{Host} `{Runtime}.

(** [get_user_location] answers from the context of the run, whatever the
    arguments of the call: Florida for the user 1, SF for any other user
    and for a run without context or without user. *)
Lemma getUserLocation_answer config fields id :
  Prebuilt.call_tool Weather.agent config (mkToolCall "get_user_location" (VObj fields) id)
  = ToolMessage (VStr (if Weather.is_user_1 config then "Florida" else "SF"))
                id "get_user_location".
Proof. reflexivity. Qed.

(** [get_weather_for_location] answers with the sentence about the
    city when the arguments hold a city that is a string; any other
    arguments are answered with the description of the schema error, and
    the tool is not run. *)
Theorem getWeather_answer config args id :
  Prebuilt.call_tool Weather.agent config (mkToolCall "get_weather_for_location" args id)
  = ToolMessage
      match Js.get_opt "city" args with
      | VStr city => VStr ("It's always sunny in " +:+ city +:+ "!")
      | _ => Prebuilt.error_content schema_error
      end id "get_weather_for_location".
Proof.
  destruct args as [| | | | | |fields]; try done.
  unfold Prebuilt.call_tool, tool_invoke. cbn.
  by destruct (Js.assoc "city" fields) as [[| | | | | |]|].
Qed.

(** A question to the weather agent: when the call returns, the
    transcript extends what the memory held for the thread 1 followed by
    the question, and it is what the memory holds afterwards; when it
    throws, the error is the model's or the error of the step limit, no
    failure of a tool ends the run, and the memory is as it was. *)
Theorem weather_invoke_outcome input p :
  match Prebuilt.agent_invoke Weather.agent input Weather.config p with
  | (Ok result, p') =>
      (default [] (memory_load "1" (globals p)) ++ input) `prefix_of` messages result ∧
      memory_load "1" (globals p') = Some (messages result)
  | (Err e, p') =>
      globals p' = globals p ∧ (thrown_by_model e ∨ e = step_limit_error)
  end.
Proof. by apply (agent_invoke_saves Weather.agent memory_saver). Qed.

(** C19. The second question of the script is asked in the conversation of
    the first: the transcript the second call returns extends the
    transcript the first call returned, followed by the second question;
    when the second call throws, the memory still holds the transcript of
    the first. *)
Theorem weather_thread_continues input1 input2 p :
  match Prebuilt.agent_invoke Weather.agent input1 Weather.config p with
  | (Ok first, p1) =>
      match Prebuilt.agent_invoke Weather.agent input2 Weather.config p1 with
      | (Ok second, _) => (messages first ++ input2) `prefix_of` messages second
      | (Err _, p2) => memory_load "1" (globals p2) = Some (messages first)
      end
  | (Err _, p1) => globals p1 = globals p
  end.
Proof. by apply (agent_thread_continues Weather.agent memory_saver). Qed.

(** One question of the script: the call returns a transcript that is
    not empty, so reading its last message does not fail; what the
    question throws is what the call of the agent throws. *)
Lemma ask_agent_hoare question saved :
  hoare (globals_are saved) (Weather.ask_agent question)
    (post (λ _ p, ∃ transcript,
             globals_are (memory_save "1" transcript saved) p ∧
             (default [] (memory_load "1" saved) ++ [HumanMessage (VStr question)])
               `prefix_of` transcript)
          (λ e p, thrown_by_model e ∨ e = step_limit_error)).
Proof.
  unfold Weather.ask_agent.
  eapply hoare_bind with
    (R := λ response p,
            globals_are (memory_save "1" (messages response) saved) p ∧
            (default [] (memory_load "1" saved) ++ [HumanMessage (VStr question)])
              `prefix_of` messages response).
  { eapply hoare_conseq;
      [by apply (agent_invoke_hoare Weather.agent memory_saver Weather.config "1") | done|].
    intros [response|e] p; [done | by intros [_ ?]]. }
  intros response [w c g] [Hg Hprefix]. unfold bind, Weather.last_content. cbn.
  destruct (last (messages response)) as [lastMessage|] eqn:Hlast; cbn; [by eexists|].
  apply last_None in Hlast. rewrite Hlast in Hprefix.
  by apply prefix_nil_inv, app_eq_nil in Hprefix as [_ [=]].
Qed.

(** C34. The conversation of real-world.ts. When [main] returns, the memory of
    the thread holds a transcript that extends the transcript of the
    first question followed by the second question, and the first extends
    what the memory held followed by the first question; when it throws,
    the error is the model's or the error of the step limit: reading the
    last message of an answer never fails. The script prints what [main]
    throws and returns. *)
Theorem weather_main_outcome p :
  match Weather.main p with
  | (Ok _, p') =>
      ∃ first second,
        memory_load "1" (globals p') = Some second ∧
        (default [] (memory_load "1" (globals p))
         ++ [HumanMessage (VStr "what is the weather outside?")]) `prefix_of` first ∧
        (first ++ [HumanMessage (VStr "thank you!")]) `prefix_of` second
  | (Err e, _) => thrown_by_model e ∨ e = step_limit_error
  end ∧
  (Weather.script p).1 = Ok tt.
Proof.
  split; [|unfold Weather.script, try_catch; by destruct (Weather.main p) as [[[]|e] p']].
  set (Q := λ p' : Process MemorySaver,
         ∃ first second,
           memory_load "1" (globals p') = Some second ∧
           (default [] (memory_load "1" (globals p))
            ++ [HumanMessage (VStr "what is the weather outside?")]) `prefix_of` first ∧
           (first ++ [HumanMessage (VStr "thank you!")]) `prefix_of` second).
  enough (hoare (globals_are (globals p)) Weather.main
            (post (λ _, Q) (λ e _, thrown_by_model e ∨ e = step_limit_error))) as Hs.
  { specialize (Hs p eq_refl). by destruct (Weather.main p) as [[[]|e] p']. }
  unfold Weather.main.
  eapply hoare_bind with (R := λ _, globals_are (globals p)); [by intros [w c g] Hp|].
  intros _. eapply hoare_bind; [apply ask_agent_hoare|].
  intros _ q (first & Hq & Hfirst). revert q Hq.
  do 2 (eapply hoare_bind with (R := λ _, globals_are (memory_save "1" first (globals p)));
    [by intros [w c g] Hp | intros _]).
  eapply hoare_conseq; [apply ask_agent_hoare | done|].
  intros [[]|e] q; [|done]. intros (second & Hq & Hsecond).
  rewrite (cp_load_save memory_saver) in Hsecond.
  exists first, second. rewrite Hq. split_and!; [apply (cp_load_save memory_saver) | done..].
Qed.

End weather_properties.

(** ** Properties of the agent of basic.ts *)

Section basic_properties.
Context `{Host} `{Runtime}.
Implicit Types (p : Process unit).

(** [get_weather] of basic.ts answers with the sentence about the city, or
    with the description of the schema error when the arguments hold no
    city that is a string. *)
Lemma basic_getWeather_answer config args id :
  Prebuilt.call_tool Basic.agent config (mkToolCall "get_weather" args id)
  = ToolMessage
      match Js.get_opt "city" args with
      | VStr city => VStr ("It's always sunny in " +:+ city +:+ "!")
      | _ => Prebuilt.error_content schema_error
      end id "get_weather".
Proof.
  destruct args as [| | | | | |fields]; try done.
  unfold Prebuilt.call_tool, tool_invoke. cbn.
  by destruct (Js.assoc "city" fields) as [[| | | | | |]|].
Qed.

(** The agent of basic.ts has no memory: a call returns a transcript that
    extends its own input, whatever was asked before, or throws what the
    model threw or the error of the step limit. *)
Theorem basic_invoke_outcome input config p :
  match Prebuilt.agent_invoke Basic.agent input config p with
  | (Ok result, _) => input `prefix_of` messages result
  | (Err e, _) => thrown_by_model e ∨ e = step_limit_error
  end.
Proof.
  pose proof (run_graph_hoare Basic.agent config (globals p) input p eq_refl) as Hrun.
  change (Prebuilt.agent_invoke Basic.agent input config)
    with (Prebuilt.run_graph Basic.agent config input).
  destruct (Prebuilt.run_graph _ _ _ p) as [[result|e] p']; cbn in Hrun; by destruct Hrun.
Qed.

End basic_properties.

(** The run of basic.ts on a model that asks for the weather in Tokyo and
    then answers: the transcript holds the four messages of the run, and
    the script prints them on one line. *)
Example basic_scenario :
  let tokyo := mkToolCall "get_weather" (VObj [("city", VStr "Tokyo")]) "call_1" in
  let p : @Process Stub.scripted unit :=
    mkProcess ([Ok (VStr "", [tokyo]); Ok (VStr "Sunny.", [])] : @World Stub.scripted) [] tt in
  (@Prebuilt.agent_invoke Stub.scripted Stub.runtime unit (@Basic.agent Stub.runtime)
     [HumanMessage (VStr "What's the weather in Tokyo?")] VUndefined p).1
  = Ok (mkMessagesState
          [HumanMessage (VStr "What's the weather in Tokyo?");
           AIMessage (VStr "") [tokyo];
           ToolMessage (VStr "It's always sunny in Tokyo!") "call_1" "get_weather";
           AIMessage (VStr "Sunny.") []]) ∧
  length (console (@Basic.script Stub.scripted Stub.runtime p).2) = 1.
Proof. vm_compute. done. Qed.

(** The conversation of the script, on a model that asks for the
    location, then for the weather, and then answers twice: the script
    prints the two answers, and the memory holds the eight messages of the
    thread. *)
Example weather_scenario :
  let p := (@Weather.script Stub.scripted Stub.runtime
              (WeatherStub.boot WeatherStub.conversation)).2 in
  console p
  = ["First question: what is the weather outside?" +:+ newline;
     "Response:"; "Florida is sun-sational today!";
     newline +:+ "---" +:+ newline;
     "Second question: thank you!" +:+ newline;
     "Response:"; "You are welcome!"] ∧
  memory_load "1" (globals p)
  = Some [HumanMessage (VStr "what is the weather outside?");
          AIMessage (VStr "") [WeatherStub.locate];
          ToolMessage (VStr "Florida") "call_1" "get_user_location";
          AIMessage (VStr "") [WeatherStub.forecast];
          ToolMessage (VStr "It's always sunny in Florida!") "call_2"
            "get_weather_for_location";
          AIMessage (VStr "Florida is sun-sational today!") [];
          HumanMessage (VStr "thank you!");
          AIMessage (VStr "You are welcome!") []].
Proof. vm_compute. split; reflexivity. Qed.

(** A model that asks for a tool the agent does not have and for a weather
    without a city is told so, and the run goes on. *)
Example weather_recovers :
  (@Prebuilt.run_graph Stub.scripted Stub.runtime MemorySaver WeatherStub.agent Weather.config
     [HumanMessage (VStr "what time is it?")]
     (WeatherStub.boot [Ok (VStr "", [WeatherStub.unknown; WeatherStub.no_city]);
                        Ok (VStr "I cannot tell.", [])])).1
  = Ok (mkMessagesState
          [HumanMessage (VStr "what time is it?");
           AIMessage (VStr "") [WeatherStub.unknown; WeatherStub.no_city];
           ToolMessage (Prebuilt.error_content undefined_tool_error) "call_3" "get_time";
           ToolMessage (Prebuilt.error_content schema_error) "call_4"
             "get_weather_for_location";
           AIMessage (VStr "I cannot tell.") []]).
Proof. vm_compute. reflexivity. Qed.
