(* ===== verification/FunctionalAgent.v ===== *)
(** * The functional agents

    The same tool-calling agent written with [task] and [entrypoint]: a
    [while (true)] loop that calls the model, runs the tool calls of its
    answer with [Promise.all] and goes round until an answer carries none.
    Three sources hold it: the plain one ([FunctionalPlain]), the one of
    src/functional.ts, which prints what it does ([Functional]), and the one
    of src/src/functional/functional-trace.ts, which also reports to a
    tracing service ([FunctionalTrace]).

    [task] and [entrypoint] wrap a function without changing what it
    computes. The loop has no step limit: it is modelled with fuel, the
    number of iterations allowed, and [None] is the answer of a loop that is
    still running when the fuel is used up. In this file the tool calls
    that [Promise.all] starts together are run one after the other, in the
    order of the calls; [AgentTasks] runs them as tasks under every timing
    and proves that the transcript is the same, and that the console is
    the same when an answer carries one call.

    Theorems: the loop computes the transcript of [ToolLoop] without its
    last message ([functional_follows_loop], [functional_omits_answer]);
    the logging and the tracing versions differ from the plain one in the
    console only ([functional_logging_quiet]); a model that never stops
    asking for tools keeps the loop running ([functional_never_stops]);
    with a deterministic model two runs on the same transcript end the
    same ([functional_idempotent]). *)

From stdpp Require Import base option list strings sets pretty.
From S2P Require Import Prelude JsValue Engine Messages Host Tools Stubs GraphAgent.

(** ** The plain agent *)

Module FunctionalPlain.

Section agent.
Context `{Host} `{Runtime}.
#[local] Abbreviation Proc := (Process unit).

Definition add : Tool := Calculator.add.
Definition multiply : Tool := Calculator.multiply.
Definition divide : Tool := Calculator.divide.

Definition toolsByName : list (string * Tool) :=
  [(tool_name add, add); (tool_name multiply, multiply); (tool_name divide, divide)].

Definition modelWithTools (msgs : list Message) : M Proc Message :=
  invoke_model (tool_name <$> toolsByName.*2) msgs.

Definition callLlm (messages : list Message) : M Proc Message :=
  modelWithTools
    (SystemMessage
       (VStr "You are a helpful assistant tasked with performing arithmetic on a set of inputs.")
     :: messages).

Definition callTool (toolCall : ToolCall) : M Proc Message :=
  tool <- lift_res (lookup_tool toolsByName (tc_name toolCall)) ;;
  lift_res (tool_invoke tool toolCall VUndefined).

(** The [while (true)] loop, entered with the model's first answer. *)
Fixpoint agent_loop (fuel : nat) (messages : list Message) (modelResponse : Message)
  : M Proc (option (list Message)) :=
  if negb (Nat.ltb 0 (length (tool_calls modelResponse))) then ret (Some messages)
  else
    match fuel with
    | 0 => ret None
    | S fuel' =>
        toolResults <- mmap callTool (tool_calls modelResponse) ;;
        let messages := addMessages messages (modelResponse :: toolResults) in
        modelResponse <- callLlm messages ;;
        agent_loop fuel' messages modelResponse
    end.

Definition agent (fuel : nat) (messages : list Message)
  : M Proc (option (list Message)) :=
  modelResponse <- callLlm messages ;;
  agent_loop fuel messages modelResponse.

Definition print_message (message : Message) : M Proc unit :=
  console_log ("[" +:+ _getType message +:+ "]: " +:+ content_text message).

Definition main (fuel : nat) : M Proc (option unit) :=
  result <- agent fuel [HumanMessage (VStr "Add 3 and 4.")] ;;
  match result with
  | None => ret None
  | Some result =>
      console_log (newline +:+ "Results:") ;;
      mfor print_message result ;;
      ret (Some tt)
  end.

End agent.

Section lemmas.
Context `{Host} `{Runtime}.
#[local] Abbreviation Proc := (Process unit).
Implicit Types (p : Proc) (msgs final : list Message) (response : Message).

(** The model node of the graph agent is [callLlm], and the body of its
    tool node is [callTool]. *)
Lemma llmCall_callLlm msgs :
  Graph.llmCall (mkMessagesState msgs)
  = (response <- callLlm msgs ;; ret (mkMessagesState [response])).
Proof. done. Qed.

Lemma callLlm_ok msgs p response p' :
  Graph.llmCall (mkMessagesState msgs) p = (Ok (mkMessagesState [response]), p') →
  callLlm msgs p = (Ok response, p').
Proof.
  rewrite llmCall_callLlm. by intros (r & p1 & -> & [= <- <-])%bind_ok_inv.
Qed.

Lemma callLlm_ok_inv msgs p response p' :
  callLlm msgs p = (Ok response, p') →
  Graph.llmCall (mkMessagesState msgs) p = (Ok (mkMessagesState [response]), p').
Proof. intros Hc. rewrite llmCall_callLlm. by rewrite (bind_ok _ _ _ _ _ Hc). Qed.

(** The equations of the loop. *)
Lemma agent_loop_done fuel msgs response p :
  tool_calls response = [] → agent_loop fuel msgs response p = (Ok (Some msgs), p).
Proof. intros Hnone. destruct fuel; cbn; by rewrite Hnone. Qed.

Lemma agent_loop_round fuel msgs response p results p1 :
  tool_calls response ≠ [] →
  mmap callTool (tool_calls response) p = (Ok results, p1) →
  agent_loop (S fuel) msgs response p = agent fuel (msgs ++ response :: results) p1.
Proof.
  intros Hsome Hr. cbn [agent_loop].
  destruct (tool_calls response) as [|tc tcs] eqn:E; [done|]. cbn [length Nat.ltb negb Nat.leb].
  by rewrite (bind_ok _ _ _ _ _ Hr).
Qed.

Lemma agent_loop_round_err fuel msgs response p e p1 :
  tool_calls response ≠ [] →
  mmap callTool (tool_calls response) p = (Err e, p1) →
  agent_loop (S fuel) msgs response p = (Err e, p1).
Proof.
  intros Hsome Hr. cbn [agent_loop].
  destruct (tool_calls response) as [|tc tcs] eqn:E; [done|]. cbn [length Nat.ltb negb Nat.leb].
  by rewrite (bind_err _ _ _ _ _ Hr).
Qed.

Lemma agent_loop_out_of_fuel msgs response p :
  tool_calls response ≠ [] → agent_loop 0 msgs response p = (Ok None, p).
Proof. intros Hsome. cbn. by destruct (tool_calls response). Qed.

(** The loop of the specification, run by the functional agent: it returns
    the transcript of the loop without its last message. *)
Lemma ToolLoop_agent k msgs p final p' :
  Graph.ToolLoop k msgs p final p' →
  ∀ fuel, k ≤ fuel → agent fuel msgs p = (Ok (Some (removelast final)), p').
Proof.
  induction 1 as [msgs p response p' Hl Hnone
                 |k msgs p response p1 results p2 final p' Hl Hsome Hr _ IH];
    intros fuel Hfuel; unfold agent.
  - rewrite (bind_ok _ _ _ _ _ (callLlm_ok _ _ _ _ Hl)).
    by rewrite agent_loop_done, removelast_last.
  - destruct fuel as [|fuel]; [lia|].
    rewrite (bind_ok _ _ _ _ _ (callLlm_ok _ _ _ _ Hl)).
    erewrite agent_loop_round by done. apply IH. lia.
Qed.

Lemma agent_ToolLoop fuel msgs p t p' :
  agent fuel msgs p = (Ok (Some t), p') →
  ∃ k answer, k ≤ fuel ∧ tool_calls answer = [] ∧
              Graph.ToolLoop k msgs p (t ++ [answer]) p'.
Proof.
  revert msgs p. induction fuel as [|fuel IH]; intros msgs p;
    intros (response & p1 & Hc%callLlm_ok_inv & Hloop)%bind_ok_inv.
  - destruct (tool_calls response) as [|tc tcs] eqn:E.
    + rewrite agent_loop_done in Hloop by done. injection Hloop as <- <-.
      exists 0, response. split_and!; [done|done|by constructor].
    + by rewrite agent_loop_out_of_fuel in Hloop by by rewrite E.
  - destruct (tool_calls response) as [|tc tcs] eqn:E.
    + rewrite agent_loop_done in Hloop by done. injection Hloop as <- <-.
      exists 0, response. split_and!; [lia|done|by constructor].
    + destruct (mmap callTool (tool_calls response) p1) as [[results|e] p2] eqn:Hr.
      * erewrite agent_loop_round in Hloop by (done || by rewrite E).
        apply IH in Hloop as (k & answer & Hk & Hnone & Hloop).
        exists (S k), answer. split_and!; [lia|done|].
        econstructor; [done | by rewrite E | done | done].
      * by erewrite agent_loop_round_err in Hloop by (done || by rewrite E).
Qed.

(** With a model that never stops asking for tools the loop is still
    running after any number of iterations. *)
Lemma always_calls_agent :
  Graph.always_calls → ∀ fuel msgs p, ∃ p', agent fuel msgs p = (Ok None, p').
Proof.
  intros Hcalls fuel. induction fuel as [|fuel IH]; intros msgs p;
    destruct (Hcalls msgs p) as (response & p1 & results & p2 & Hl & Hsome & Hr);
    unfold agent; rewrite (bind_ok _ _ _ _ _ (callLlm_ok _ _ _ _ Hl)).
  - exists p1. by apply agent_loop_out_of_fuel.
  - erewrite agent_loop_round by done. apply IH.
Qed.

End lemmas.

End FunctionalPlain.

(** ** The agent of src/functional.ts, which prints what it does *)

Module Functional.

Section agent.
Context `{Host} `{Runtime}.
#[local] Abbreviation Proc := (Process unit).

Definition add : Tool := Calculator.add.
Definition multiply : Tool := Calculator.multiply.
Definition divide : Tool := Calculator.divide.

Definition toolsByName : list (string * Tool) :=
  [(tool_name add, add); (tool_name multiply, multiply); (tool_name divide, divide)].

Definition tools : list Tool := toolsByName.*2.

Definition modelWithTools (msgs : list Message) : M Proc Message :=
  invoke_model (tool_name <$> tools) msgs.

(** The line printed for the message [msg] at index [i] of the prompt. *)
Definition prompt_line (i : nat) (msg : Message) : M Proc unit :=
  let content := content_text msg in
  console_log ("[" +:+ pretty (i + 1) +:+ "] " +:+ _getType msg +:+ ": " +:+ content).

Definition callLlm (messages : list Message) : M Proc Message :=
  let messagesToSend :=
    SystemMessage
      (VStr "You are a helpful assistant tasked with performing arithmetic on a set of inputs.")
    :: messages in
  console_log (newline +:+ "━━━ LLMに送信するメッセージ ━━━") ;;
  mfor_indexed prompt_line messagesToSend ;;
  console_log ("━━━━━━━━━━━━━━━━━━━━━━━" +:+ newline) ;;
  modelWithTools messagesToSend.

(** [name(JSON.stringify(args))], as the script prints a tool call. *)
Definition show_call (toolCall : ToolCall) : string :=
  tc_name toolCall +:+ "(" +:+ json_stringify (tc_args toolCall) +:+ ")".

Definition callTool (toolCall : ToolCall) : M Proc Message :=
  console_log ("🔧 ツール呼び出し: " +:+ show_call toolCall) ;;
  tool <- lift_res (lookup_tool toolsByName (tc_name toolCall)) ;;
  result <- lift_res (tool_invoke tool toolCall VUndefined) ;;
  console_log ("✓ ツール結果: " +:+ to_string (content result) +:+ newline) ;;
  ret result.

(** The [while (true)] loop, entered with the model's first answer and the
    counter [iteration]. *)
Fixpoint agent_loop (fuel iteration : nat) (messages : list Message)
    (modelResponse : Message) : M Proc (option (list Message)) :=
  if negb (Nat.ltb 0 (length (tool_calls modelResponse))) then
    console_log ("✅ ツール呼び出しなし - エージェント終了" +:+ newline) ;;
    ret (Some messages)
  else
    match fuel with
    | 0 => ret None
    | S fuel' =>
        console_log (newline +:+ "📍 反復 " +:+ pretty iteration +:+ ": "
                     +:+ pretty (length (tool_calls modelResponse))
                     +:+ "個のツールを実行中..." +:+ newline) ;;
        toolResults <- mmap callTool (tool_calls modelResponse) ;;
        let messages := addMessages messages (modelResponse :: toolResults) in
        modelResponse <- callLlm messages ;;
        agent_loop fuel' (S iteration) messages modelResponse
    end.

Definition agent (fuel : nat) (messages : list Message)
  : M Proc (option (list Message)) :=
  console_log (newline +:+ "🤖 エージェント開始" +:+ newline) ;;
  modelResponse <- callLlm messages ;;
  agent_loop fuel 1 messages modelResponse.

(** The body of the loop that prints the result. *)
Definition print_message (message : Message) : M Proc unit :=
  let content := content_text message in
  console_log ("[" +:+ _getType message +:+ "]: " +:+ content) ;;
  if String.eqb (_getType message) "ai" then
    if Nat.ltb 0 (length (tool_calls message)) then
      console_log ("  └─ tool_calls: "
                   +:+ Js.join ", " (show_call <$> tool_calls message))
    else ret tt
  else ret tt.

Definition print_result (result : list Message) : M Proc unit :=
  console_log (newline +:+ "━━━ 最終結果 ━━━") ;;
  mfor print_message result ;;
  console_log ("━━━━━━━━━━━━━━━━" +:+ newline).

Definition main (fuel : nat) : M Proc (option unit) :=
  result <- agent fuel [HumanMessage (VStr "Add 3 and 4.")] ;;
  match result with
  | None => ret None
  | Some result => print_result result ;; ret (Some tt)
  end.

End agent.

End Functional.

(** ** The agent of src/src/functional/functional-trace.ts *)

(** The script hands a Langfuse callback handler to the model. The handler
    observes the calls and reports them; it is not part of what the model
    is sent, so a call with it is the call without it. The script ends
    with [await langfuseHandler.shutdownAsync()], a request to the tracing
    service that may fail. *)
Module FunctionalTrace.

Section agent.
Context `{Host} `{!Langfuse} `{Runtime}.
#[local] Abbreviation Proc := (Process unit).

Definition add : Tool := Calculator.add.
Definition multiply : Tool := Calculator.multiply.
Definition divide : Tool := Calculator.divide.

Definition toolsByName : list (string * Tool) :=
  [(tool_name add, add); (tool_name multiply, multiply); (tool_name divide, divide)].

Definition tools : list Tool := toolsByName.*2.

Definition modelWithTools (msgs : list Message) : M Proc Message :=
  invoke_model (tool_name <$> tools) msgs.

Definition callLlm (messages : list Message) : M Proc Message :=
  let messagesToSend :=
    SystemMessage
      (VStr "You are a helpful assistant tasked with performing arithmetic on a set of inputs.")
    :: messages in
  console_log (newline +:+ "━━━ LLMに送信するメッセージ ━━━") ;;
  mfor_indexed Functional.prompt_line messagesToSend ;;
  console_log ("━━━━━━━━━━━━━━━━━━━━━━━" +:+ newline) ;;
  modelWithTools messagesToSend.

Definition callTool (toolCall : ToolCall) : M Proc Message :=
  console_log ("🔧 ツール呼び出し: " +:+ Functional.show_call toolCall) ;;
  tool <- lift_res (lookup_tool toolsByName (tc_name toolCall)) ;;
  result <- lift_res (tool_invoke tool toolCall VUndefined) ;;
  console_log ("✓ ツール結果: " +:+ to_string (content result) +:+ newline) ;;
  ret result.

Fixpoint agent_loop (fuel iteration : nat) (messages : list Message)
    (modelResponse : Message) : M Proc (option (list Message)) :=
  if negb (Nat.ltb 0 (length (tool_calls modelResponse))) then
    console_log ("✅ ツール呼び出しなし - エージェント終了" +:+ newline) ;;
    ret (Some messages)
  else
    match fuel with
    | 0 => ret None
    | S fuel' =>
        console_log (newline +:+ "📍 反復 " +:+ pretty iteration +:+ ": "
                     +:+ pretty (length (tool_calls modelResponse))
                     +:+ "個のツールを実行中..." +:+ newline) ;;
        toolResults <- mmap callTool (tool_calls modelResponse) ;;
        let messages := addMessages messages (modelResponse :: toolResults) in
        modelResponse <- callLlm messages ;;
        agent_loop fuel' (S iteration) messages modelResponse
    end.

Definition agent (fuel : nat) (messages : list Message)
  : M Proc (option (list Message)) :=
  console_log (newline +:+ "🤖 エージェント開始 (Langfuseでトレース中)" +:+ newline) ;;
  modelResponse <- callLlm messages ;;
  agent_loop fuel 1 messages modelResponse.

Definition main (fuel : nat) : M Proc (option unit) :=
  result <- agent fuel [HumanMessage (VStr "Add 3 and 4.")] ;;
  match result with
  | None => ret None
  | Some result =>
      Functional.print_result result ;;
      console_log ("🔍 トレースをLangfuseで確認: http://localhost:3000" +:+ newline) ;;
      request langfuse_shutdown ;;
      ret (Some tt)
  end.

End agent.

End FunctionalTrace.

(** ** Printing does not change what the agents compute *)

Section quiet.
Context `{Host} `{Runtime}.
#[local] Abbreviation Proc := (Process unit).
Implicit Types (p q : Proc) (msgs final : list Message).

Lemma prints_prompt_line i msg : prints (G:=unit) (Functional.prompt_line i msg).
Proof. apply prints_console_log. Qed.

Lemma callLlm_quiet msgs :
  msim (@quiet _ unit) (Functional.callLlm msgs) (FunctionalPlain.callLlm msgs).
Proof. unfold Functional.callLlm. quiet_sim. Qed.

Lemma callTool_quiet tc :
  msim (@quiet _ unit) (Functional.callTool tc) (FunctionalPlain.callTool tc).
Proof. unfold Functional.callTool, FunctionalPlain.callTool. quiet_sim. Qed.

Lemma agent_loop_quiet fuel iteration msgs response :
  msim (@quiet _ unit) (Functional.agent_loop fuel iteration msgs response)
       (FunctionalPlain.agent_loop fuel msgs response).
Proof.
  revert iteration msgs response.
  induction fuel as [|fuel IH]; intros iteration msgs response; cbn;
    destruct (tool_calls response) as [|tc tcs]; cbn; quiet_sim;
    auto using callTool_quiet, callLlm_quiet.
Qed.

Lemma trace_callLlm_quiet msgs :
  msim (@quiet _ unit) (FunctionalTrace.callLlm msgs) (FunctionalPlain.callLlm msgs).
Proof. unfold FunctionalTrace.callLlm. quiet_sim. Qed.

Lemma trace_callTool_quiet tc :
  msim (@quiet _ unit) (FunctionalTrace.callTool tc) (FunctionalPlain.callTool tc).
Proof. unfold FunctionalTrace.callTool, FunctionalPlain.callTool. quiet_sim. Qed.

Lemma trace_agent_loop_quiet fuel iteration msgs response :
  msim (@quiet _ unit) (FunctionalTrace.agent_loop fuel iteration msgs response)
       (FunctionalPlain.agent_loop fuel msgs response).
Proof.
  revert iteration msgs response.
  induction fuel as [|fuel IH]; intros iteration msgs response; cbn;
    destruct (tool_calls response) as [|tc tcs]; cbn; quiet_sim;
    auto using trace_callTool_quiet, trace_callLlm_quiet.
Qed.

(** What a simulation up to the console says of one run. *)
Lemma quiet_run {A} (m1 m2 : M Proc A) p r p' :
  msim (@quiet _ unit) m1 m2 → m2 p = (r, p') →
  ∃ q', m1 p = (r, q') ∧ quiet q' p'.
Proof.
  intros Hsim Hrun. destruct (Hsim p p) as [Hr Hq]; [done|].
  rewrite Hrun in Hr, Hq. exists (m1 p).2. split; [|done].
  destruct (m1 p) as [r1 q1]. by cbn in Hr; subst.
Qed.

End quiet.

(** ** A deterministic model *)

Section stateless.
Context `{Host} `{Runtime}.
#[local] Abbreviation Proc := (Process unit).
Implicit Types (p q : Proc) (msgs : list Message).

Lemma plain_callLlm_stateless msgs :
  stateless_model →
  msim (@same_globals _ unit) (FunctionalPlain.callLlm msgs) (FunctionalPlain.callLlm msgs).
Proof. intros Hm. by apply invoke_model_stateless. Qed.

Lemma plain_callTool_stateless tc :
  msim (@same_globals _ unit) (FunctionalPlain.callTool tc) (FunctionalPlain.callTool tc).
Proof. apply msim_bind; [apply msim_lift_res | intros tool; apply msim_lift_res]. Qed.

Lemma plain_agent_loop_stateless fuel msgs response :
  stateless_model →
  msim (@same_globals _ unit) (FunctionalPlain.agent_loop fuel msgs response)
       (FunctionalPlain.agent_loop fuel msgs response).
Proof.
  intros Hm. revert msgs response.
  induction fuel as [|fuel IH]; intros msgs response; cbn;
    destruct (tool_calls response) as [|tc tcs]; cbn; try apply msim_ret.
  apply (msim_bind _ (mmap _ (tc :: tcs)) (mmap _ (tc :: tcs)));
    [apply msim_mmap, plain_callTool_stateless|].
  intros results. apply msim_bind; [by apply plain_callLlm_stateless | intros r; apply IH].
Qed.

End stateless.

(** ** Properties *)

Section properties.
Context `{Host} `{Runtime}.
#[local] Abbreviation Proc := (Process unit).
Implicit Types (p q : Proc) (msgs input final : list Message).

(** C5. The functional agent runs the tool-calling loop: when the model
    asks for tools [k] times and then answers, [k] iterations are enough,
    and the agent returns the transcript of the loop without its last
    message, the model's final answer, which the [while] loop leaves in
    [modelResponse] and never adds to [messages]. *)
Theorem functional_follows_loop k msgs p final p' fuel :
  Graph.ToolLoop k msgs p final p' → k ≤ fuel →
  FunctionalPlain.agent fuel msgs p = (Ok (Some (removelast final)), p').
Proof. intros Hloop Hk. by apply (FunctionalPlain.ToolLoop_agent k). Qed.

(** Every transcript the functional agent returns is the transcript
    of a loop of at most [fuel] rounds, short of the answer that ended it. *)
Theorem functional_is_loop fuel msgs p t p' :
  FunctionalPlain.agent fuel msgs p = (Ok (Some t), p') →
  ∃ k answer, k ≤ fuel ∧ tool_calls answer = [] ∧
              Graph.ToolLoop k msgs p (t ++ [answer]) p'.
Proof. apply FunctionalPlain.agent_ToolLoop. Qed.

(** C7. The two agents do not return the same transcript: on an input on
    which the graph agent returns, the functional agent returns, from the
    same calls to the model and the tools, the graph agent's transcript
    without its last message. *)
Theorem functional_omits_answer input limit p s done p' :
  Graph.run_trace input limit p = (Ok s, done, p') →
  ∃ t answer, messages s = t ++ [answer] ∧ is_ai answer = true ∧
    FunctionalPlain.agent limit input p = (Ok (Some t), p').
Proof.
  rewrite Graph.run_trace_walk. intros (k & Hloop & _ & Hk)%Graph.walk_ToolLoop.
  destruct (Graph.ToolLoop_appended _ _ _ _ _ Hloop)
    as (appended & Hfinal & _ & _ & _ & c & Hlast).
  apply last_Some in Hlast as [t' ->]. rewrite Hfinal.
  exists (input ++ t'), (AIMessage c []). rewrite app_assoc. split_and!; [done..|].
  rewrite <- (removelast_last (input ++ t') (AIMessage c [])), <- app_assoc, <- Hfinal.
  apply (FunctionalPlain.ToolLoop_agent k); [done | lia].
Qed.

(** C15. The functional agent has no step limit: with a model that never
    stops asking for tools, the loop is still running after any number of
    iterations, where the graph agent fails with [StepLimitExceeded]. *)
Theorem functional_never_stops fuel msgs p :
  Graph.always_calls → ∃ p', FunctionalPlain.agent fuel msgs p = (Ok None, p').
Proof. intros Hcalls. by apply FunctionalPlain.always_calls_agent. Qed.

(** C13. The agent of src/functional.ts computes what the plain agent
    computes: run from processes that differ in their console only, the two
    return the same transcript or fail with the same error, and leave
    processes that differ in their console only. *)
Theorem functional_logging_quiet fuel msgs :
  msim (@quiet _ unit) (Functional.agent fuel msgs) (FunctionalPlain.agent fuel msgs).
Proof.
  unfold Functional.agent, FunctionalPlain.agent. quiet_sim;
    auto using callLlm_quiet, agent_loop_quiet.
Qed.

(** Idempotence of the functional agent: with a deterministic model, one
    whose answer depends on the messages it is sent only, two runs on the
    same transcript with the same fuel return the same transcript, are
    both out of fuel or fail with the same error, in whatever state the
    model provider is. *)
Theorem functional_idempotent fuel msgs p q :
  stateless_model →
  (FunctionalPlain.agent fuel msgs p).1 = (FunctionalPlain.agent fuel msgs q).1.
Proof.
  intros Hm.
  apply (msim_bind same_globals _ _ _ _ (plain_callLlm_stateless msgs Hm)
           (λ r, plain_agent_loop_stateless fuel msgs r Hm)).
  unfold same_globals. by destruct (globals p), (globals q).
Qed.

(** The agent of functional-trace.ts computes what the plain agent
    computes, up to the console. *)
Theorem functional_trace_quiet fuel msgs :
  msim (@quiet _ unit) (FunctionalTrace.agent fuel msgs) (FunctionalPlain.agent fuel msgs).
Proof.
  unfold FunctionalTrace.agent, FunctionalPlain.agent. quiet_sim;
    auto using trace_callLlm_quiet, trace_agent_loop_quiet.
Qed.

End properties.

(** On the scenario "Add 3 and 4." the script of src/functional.ts
    ends normally and its last lines show the question, the model's request
    for [add] and the tool's result: the answer of the model is not among
    them. *)
Example functional_prints_scenario :
  let run := @Functional.main Stub.scripted Stub.runtime 1 (Stub.boot Stub.add_script) in
  run.1 = Ok (Some tt) ∧
  drop 15 (console run.2)
  = [ newline +:+ "━━━ 最終結果 ━━━";
      "[human]: Add 3 and 4.";
      "[ai]: ";
      "  └─ tool_calls: add(" +:+ Stub.show (tc_args Stub.add_3_4) +:+ ")";
      "[tool]: 7";
      "━━━━━━━━━━━━━━━━" +:+ newline ].
Proof. vm_compute. done. Qed.

(** ** Witnesses *)

Lemma functional_follows_loop_witness :
  @FunctionalPlain.agent Stub.scripted Stub.runtime 1 Stub.question
    (Stub.boot Stub.add_script)
  = (Ok (Some (removelast Stub.scenario)), Stub.boot []).
Proof.
  apply (@functional_follows_loop Stub.scripted Stub.runtime 1);
    [apply Graph.scenario_loop | lia].
Defined.

Lemma functional_is_loop_witness :
  ∃ k answer, k ≤ 1 ∧ tool_calls answer = [] ∧
    @Graph.ToolLoop Stub.scripted Stub.runtime k Stub.question
      (Stub.boot Stub.add_script) (firstn 3 Stub.scenario ++ [answer]) (Stub.boot []).
Proof.
  apply (@functional_is_loop Stub.scripted Stub.runtime 1). vm_compute. reflexivity.
Defined.

Lemma functional_omits_answer_witness :
  ∃ t answer, Stub.scenario = t ++ [answer] ∧ is_ai answer = true ∧
    @FunctionalPlain.agent Stub.scripted Stub.runtime 25 Stub.question
      (Stub.boot Stub.add_script) = (Ok (Some t), Stub.boot []).
Proof.
  apply (@functional_omits_answer Stub.scripted Stub.runtime Stub.question 25
           (Stub.boot Stub.add_script) (mkMessagesState Stub.scenario)
           (Graph.rounds 1)).
  vm_compute. reflexivity.
Defined.

Lemma functional_never_stops_witness :
  ∃ p', @FunctionalPlain.agent (Stub.insistent Stub.add_3_4) Stub.runtime 50
          Stub.question (Stub.boot_insistent Stub.add_3_4) = (Ok None, p').
Proof.
  apply (@functional_never_stops (Stub.insistent Stub.add_3_4) Stub.runtime).
  apply Graph.insistent_always_calls.
Defined.
