(* ===== verification/GraphTrace.v ===== *)
(** * The graph agent with console tracing (graph-trace.ts)

    The second document of src/unnamed/part_001: the graph agent of
    src/graph.ts whose nodes and routing function print what they do, with
    the Langfuse handler attached to the model. The graph has the wiring of
    [Graph.agent_graph]; its nodes and its routing function are those of
    the graph agent with lines printed in between.

    [graph_trace_sim] relates the two graphs node by node up to the
    console, and [walk_sim] lifts the relation to the runs: the traced
    agent returns what the graph agent returns, after the same nodes. *)

From stdpp Require Import base option list strings pretty.
From S2P Require Import Prelude JsValue Engine Walks Messages Host Tools Stubs GraphAgent.

Module GraphTrace.

Section agent.
Context `{Host} `{!Langfuse} `{Runtime}.
#[local] Abbreviation Proc := (Process unit).

(** ** Tools and model *)

Definition add : Tool := Calculator.add.
Definition multiply : Tool := Calculator.multiply.
Definition divide : Tool := Calculator.divide.

Definition toolsByName : list (string * Tool) :=
  [(tool_name add, add); (tool_name multiply, multiply); (tool_name divide, divide)].

Definition tools : list Tool := toolsByName.*2.

Definition modelWithTools (msgs : list Message) : M Proc Message :=
  invoke_model (tool_name <$> tools) msgs.

(** ** The model node *)

(** The line printed for the message [msg] at index [i] of the prompt. *)
Definition prompt_line (i : nat) (msg : Message) : M Proc unit :=
  let content := content_text msg in
  console_log ("[" +:+ pretty (i + 1) +:+ "] " +:+ _getType msg +:+ ": " +:+ content).

Definition llmCall (state : MessagesState) : M Proc MessagesState :=
  let messagesToSend :=
    SystemMessage
      (VStr "You are a helpful assistant tasked with performing arithmetic on a set of inputs.")
    :: messages state in
  console_log (newline +:+ "━━━ LLMに送信するメッセージ ━━━") ;;
  mfor_indexed prompt_line messagesToSend ;;
  console_log ("━━━━━━━━━━━━━━━━━━━━━━━" +:+ newline) ;;
  response <- modelWithTools messagesToSend ;;
  ret (mkMessagesState [response]).

(** ** The tool node *)

(** The body of the loop over the tool calls. *)
Definition run_tool_call (toolCall : ToolCall) : M Proc Message :=
  console_log ("🔧 ツール呼び出し: " +:+ tc_name toolCall +:+ "("
               +:+ json_stringify (tc_args toolCall) +:+ ")") ;;
  tool <- lift_res (lookup_tool toolsByName (tc_name toolCall)) ;;
  observation <- lift_res (tool_invoke tool toolCall VUndefined) ;;
  console_log ("✓ ツール結果: " +:+ to_string (content observation) +:+ newline) ;;
  ret observation.

Definition toolNode (state : MessagesState) : M Proc MessagesState :=
  match last (messages state) with
  | None => ret (mkMessagesState [])
  | Some lastMessage =>
      if negb (String.eqb (_getType lastMessage) "ai") then ret (mkMessagesState [])
      else
        console_log (newline +:+ "📍 " +:+ pretty (length (tool_calls lastMessage))
                     +:+ "個のツールを実行中..." +:+ newline) ;;
        result <- mmap run_tool_call (tool_calls lastMessage) ;;
        ret (mkMessagesState result)
  end.

(** ** The conditional edge *)

Definition shouldContinue (state : MessagesState) : M Proc string :=
  match last (messages state) with
  | None => ret END
  | Some lastMessage =>
      if negb (String.eqb (_getType lastMessage) "ai") then ret END
      else if Nat.ltb 0 (length (tool_calls lastMessage)) then
        console_log "➡️  次のノード: toolNode" ;;
        ret "toolNode"
      else
        console_log ("✅ ツール呼び出しなし - エージェント終了" +:+ newline) ;;
        ret END
  end.

(** ** The graph *)

Definition agent_graph : StateGraph Proc MessagesState MessagesState :=
  new_StateGraph
  |> addNode "llmCall" llmCall
  |> addNode "toolNode" toolNode
  |> addEdge START "llmCall"
  |> addConditionalEdges "llmCall" shouldContinue (path_array ["toolNode"; END])
  |> addEdge "toolNode" "llmCall".

Definition agent : Res (CompiledGraph Proc MessagesState MessagesState) :=
  compile agent_graph.

(** ** The script *)

(** [agent.invoke({messages})] with the nodes that completed. *)
Definition run_trace (input : list Message) (limit : nat) (p : Proc)
  : Res MessagesState * list string * Proc :=
  match agent with
  | Ok compiled => invoke_trace compiled (mkMessagesState input) limit p
  | Err e => (Err e, [], p)
  end.

(** The body of the loop that prints the result. *)
Definition print_message (message : Message) : M Proc unit :=
  let content := content_text message in
  console_log ("[" +:+ _getType message +:+ "]: " +:+ content) ;;
  if String.eqb (_getType message) "ai" then
    if Nat.ltb 0 (length (tool_calls message)) then
      console_log ("  └─ tool_calls: "
                   +:+ Js.join ", "
                         ((λ tc, tc_name tc +:+ "(" +:+ json_stringify (tc_args tc) +:+ ")")
                            <$> tool_calls message))
    else ret tt
  else ret tt.

Definition main : M Proc unit :=
  console_log (newline +:+ "🤖 グラフエージェント開始 (Langfuseでトレース中)" +:+ newline) ;;
  compiled <- lift_res agent ;;
  result <- invoke compiled (mkMessagesState [HumanMessage (VStr "Add 3 and 4.")])
              default_recursion_limit ;;
  console_log (newline +:+ "━━━ 最終結果 ━━━") ;;
  mfor print_message (messages result) ;;
  console_log ("━━━━━━━━━━━━━━━━" +:+ newline) ;;
  console_log ("🔍 トレースをLangfuseで確認: http://localhost:3000" +:+ newline) ;;
  request langfuse_shutdown.

End agent.

End GraphTrace.

(** ** The traced graph simulates the graph agent *)

Section simulation.
Context `{Host} `{!Langfuse} `{Runtime}.
#[local] Abbreviation Proc := (Process unit).
Implicit Types (p q : Proc) (s : MessagesState).

Lemma trace_llmCall_quiet s :
  msim (@quiet _ unit) (GraphTrace.llmCall s) (Graph.llmCall s).
Proof. unfold GraphTrace.llmCall, Graph.llmCall. quiet_sim. Qed.

Lemma trace_run_tool_call_quiet tc :
  msim (@quiet _ unit) (GraphTrace.run_tool_call tc) (Graph.run_tool_call tc).
Proof.
  unfold GraphTrace.run_tool_call, Graph.run_tool_call.
  apply msim_prints_l; [quiet_prints|]. apply msim_bind; [apply msim_lift_res|].
  intros tool. eapply msim_meq; [done | apply bind_ret_r|].
  apply msim_bind; [apply msim_lift_res|]. intros m.
  apply msim_prints_l; [quiet_prints | apply msim_ret].
Qed.

Lemma trace_toolNode_quiet s :
  msim (@quiet _ unit) (GraphTrace.toolNode s) (Graph.toolNode s).
Proof.
  unfold GraphTrace.toolNode, Graph.toolNode.
  destruct (last (messages s)) as [m|]; [|apply msim_ret].
  destruct (negb _); [apply msim_ret|].
  apply msim_prints_l; [quiet_prints|].
  apply msim_bind; [apply msim_mmap, trace_run_tool_call_quiet | intros ?; apply msim_ret].
Qed.

Lemma trace_shouldContinue_quiet s :
  msim (@quiet _ unit) (GraphTrace.shouldContinue s) (Graph.shouldContinue s).
Proof.
  unfold GraphTrace.shouldContinue, Graph.shouldContinue.
  destruct (last (messages s)) as [m|]; [|apply msim_ret].
  destruct (negb _); [apply msim_ret|].
  destruct (Nat.ltb _ _); (apply msim_prints_l; [quiet_prints | apply msim_ret]).
Qed.

Lemma graph_trace_sim :
  graph_sim (@quiet _ unit) GraphTrace.agent_graph Graph.agent_graph.
Proof.
  split; cbn; repeat (constructor; [split; [done|]; cbn|]);
    first [ apply trace_llmCall_quiet | apply trace_toolNode_quiet | apply static_sim
          | apply conditional_sim, trace_shouldContinue_quiet | constructor ].
Qed.

Lemma trace_agent_compiles :
  GraphTrace.agent = Ok (mkCompiled GraphTrace.agent_graph "llmCall").
Proof. apply compile_ok; by vm_compute. Qed.

Lemma graph_trace_walk input limit p :
  GraphTrace.run_trace input limit p
  = walk GraphTrace.agent_graph limit "llmCall" (mkMessagesState input) [] p.
Proof. unfold GraphTrace.run_trace. by rewrite trace_agent_compiles. Qed.

End simulation.

(** ** Properties *)

Section properties.
Context `{Host} `{!Langfuse} `{Runtime}.
#[local] Abbreviation Proc := (Process unit).
Implicit Types (p q : Proc) (s : MessagesState) (input : list Message).

(** C26. Tracing changes nothing but the console: from processes that
    differ in their consoles at most, a run of the traced graph and a run of
    the graph agent of graph.ts end in the same outcome, the same final
    transcript or the same error, after the same nodes, and leave the model
    provider in the same state. *)
Theorem graph_trace_quiet input limit p q :
  quiet p q →
  (GraphTrace.run_trace input limit p).1 = (Graph.run_trace input limit q).1 ∧
  quiet (GraphTrace.run_trace input limit p).2 (Graph.run_trace input limit q).2.
Proof.
  intros Hq. rewrite graph_trace_walk, Graph.run_trace_walk.
  by apply walk_sim; [apply graph_trace_sim|].
Qed.

(** The traced graph implements the tool-calling loop: a run that
    returns has the transcript the model and the tools of the loop produce
    in some number [k] of rounds, has executed the nodes of [k] rounds
    within the step limit, and leaves the process the loop leaves, up to
    the console. *)
Theorem graph_trace_is_loop input limit p s done q' :
  GraphTrace.run_trace input limit p = (Ok s, done, q') →
  ∃ k p', Graph.ToolLoop k input p (messages s) p' ∧ quiet q' p' ∧
          done = Graph.rounds k ∧ 2 * k + 1 ≤ limit.
Proof.
  intros Hrun.
  destruct (walk_sim (@quiet _ unit) _ _ limit "llmCall" (mkMessagesState input) [] p p
              graph_trace_sim) as [Hr Hq]; [done|].
  rewrite <- graph_trace_walk, Hrun in Hr, Hq. cbn in Hr, Hq.
  destruct (walk Graph.agent_graph _ _ _ _ p) as [[r done'] p'] eqn:Hwalk.
  cbn in Hr, Hq. injection Hr as <- <-.
  apply Graph.walk_ToolLoop in Hwalk as (k & Hloop & -> & Hk). by exists k, p'.
Qed.

End properties.

(** ** Witnesses *)

Lemma graph_trace_quiet_witness :
  (@GraphTrace.run_trace Stub.scripted Stub.runtime [HumanMessage (VStr "Add 3 and 4.")]
     25 (Stub.boot [])).1
  = (@Graph.run_trace Stub.scripted Stub.runtime [HumanMessage (VStr "Add 3 and 4.")]
       25 (Stub.boot [])).1 ∧
  quiet
    (@GraphTrace.run_trace Stub.scripted Stub.runtime [HumanMessage (VStr "Add 3 and 4.")]
       25 (Stub.boot [])).2
    (@Graph.run_trace Stub.scripted Stub.runtime [HumanMessage (VStr "Add 3 and 4.")]
       25 (Stub.boot [])).2.
Proof. by apply graph_trace_quiet. Defined.

Lemma graph_trace_is_loop_witness :
  ∃ k p', @Graph.ToolLoop Stub.scripted Stub.runtime k Stub.question
            (Stub.boot Stub.add_script) Stub.scenario p'
          ∧ quiet
              (@GraphTrace.run_trace Stub.scripted Stub.runtime Stub.question 25
                 (Stub.boot Stub.add_script)).2 p'
          ∧ Graph.rounds 1 = Graph.rounds k ∧ 2 * k + 1 ≤ 25.
Proof.
  apply (@graph_trace_is_loop Stub.scripted Stub.runtime Stub.question 25
           (Stub.boot Stub.add_script) (mkMessagesState Stub.scenario)).
  vm_compute. reflexivity.
Defined.

(** The scenario "Add 3 and 4." on the traced graph prints fifteen lines:
    four and six for the two prompts, three for the tool node and one for
    each routing decision. *)
Example graph_trace_prints_scenario :
  length (console (@GraphTrace.run_trace Stub.scripted Stub.runtime Stub.question 25
                     (Stub.boot Stub.add_script)).2) = 15.
Proof. vm_compute. reflexivity. Qed.
