(* ===== verification/Trace.v ===== *)
(** * The trace utilities

    [trace], [traceEnter] and [traceExit], which the two larger scripts
    (the complex graph and the document analysis graph) define word for
    word, but for the way [trace] prints its data. They print a line
    indented by the module-level counter [traceDepth] and stamped with the
    time of the clock; [traceEnter] increments the counter after printing
    and [traceExit] decrements it before.

    The counter is reached through the class [Depth], which each script
    instantiates on its own module-level variables. [" ".repeat(n)] throws
    on a negative [n], so a [traceExit] without its [traceEnter] throws: the
    lemmas give what each utility does when the counter allows it, and
    [balanced] and [safe] are what the nodes of both graphs are proved to
    be: run at a depth from zero on, they leave the counter where they
    found it. *)

From stdpp Require Import base option list strings.
From Stdlib Require Import ZArith Ascii.
From S2P Require Import Prelude JsValue Messages Host.

(** The module-level variable [traceDepth] among the variables [G] of a
    script. *)
Class Depth (G : Type) : Type := {
  traceDepth : G → Z;
  set_traceDepth : Z → G → G;
  traceDepth_set : ∀ d g, traceDepth (set_traceDepth d g) = d;
  set_traceDepth_same : ∀ g, set_traceDepth (traceDepth g) g = g;
  set_traceDepth_twice : ∀ d d' g,
    set_traceDepth d (set_traceDepth d' g) = set_traceDepth d g;
}.

Definition newline_char : ascii := ascii_of_nat 10.

(** The module-level variables whose counter is [d]. *)
Definition depth_is `{Depth G} (d : Z) (g : G) : Prop := traceDepth g = d.

(** [keeps d m]: run at depth [d], the computation [m] returns or throws
    with the counter at [d]. *)
Abbreviation keeps d := (preserves (depth_is d)).

Section trace.
Context `{Host} `{!Clock} `{Runtime} `{Depth G}.

(** [new Date().toISOString().split("T")[1].split(".")[0]]. *)
Definition time_of (iso : string) : Res string :=
  match Js.split "T" iso !! 1 with
  | None => Err (Js.type_error "Cannot read properties of undefined (reading 'split')")
  | Some time => Ok (default "" (head (Js.split "." time)))
  end.

Definition timestamp : M (Process G) string :=
  iso <- ask iso_now ;;
  lift_res (time_of iso).

(** The lines [trace] prints at depth [depth] and time [time]. *)
Definition trace_lines (render : value → string) (indent time message : string)
    (data : value) : list string :=
  (indent +:+ "[" +:+ time +:+ "] " +:+ message)
  :: (if Js.truthy data
      then [indent +:+ "    └─ "
            +:+ Js.replace_all newline_char (newline +:+ indent +:+ "       ") (render data)]
      else []).

(** [trace(message, data)], with [render] the text of the data. *)
Definition trace_with (render : value → string) (message : string) (data : value)
  : M (Process G) unit :=
  depth <- get_global traceDepth ;;
  indent <- lift_res (Js.repeat "  " depth) ;;
  time <- timestamp ;;
  mfor console_log (trace_lines render indent time message data).

Definition traceEnter_with (render : value → string) (name : string) (input : value)
  : M (Process G) unit :=
  trace_with render ("▶ " +:+ name +:+ " 開始") input ;;
  set_global (λ g, set_traceDepth (traceDepth g + 1) g).

Definition traceExit_with (render : value → string) (name : string) (output : value)
  : M (Process G) unit :=
  set_global (λ g, set_traceDepth (traceDepth g - 1) g) ;;
  trace_with render ("◀ " +:+ name +:+ " 終了") output.

(** The processes whose counter is [d]. *)
Definition at_depth (d : Z) : Process G → Prop := holds (depth_is d).

(** [runs d m]: run at depth [d], the computation [m] returns, with the
    counter at [d]. *)
Definition runs {A} (d : Z) (m : M (Process G) A) : Prop :=
  hoare (at_depth d) m (returns (λ _, at_depth d)).

(** A computation that may be run at any depth from zero on. *)
Definition balanced {A} (m : M (Process G) A) : Prop := ∀ d, (0 ≤ d)%Z → keeps d m.

(** A computation that is balanced, does not throw, and returns a value
    that satisfies [Q]. *)
Definition yields {A} (Q : A → Prop) (m : M (Process G) A) : Prop :=
  ∀ d, (0 ≤ d)%Z → hoare (at_depth d) m (returns (λ a p, at_depth d p ∧ Q a)).

(** A computation that is balanced and does not throw. *)
Definition safe {A} (m : M (Process G) A) : Prop := ∀ d, (0 ≤ d)%Z → runs d m.

(** A computation that leaves the counter where it found it when it
    returns, with a value that satisfies [Q], and one above when it throws:
    a [traceEnter] whose [traceExit] is skipped by the error. *)
Definition leaks {A} (Q : A → Prop) (m : M (Process G) A) : Prop :=
  ∀ d, (0 ≤ d)%Z →
  hoare (at_depth d) m (post (λ a p, at_depth d p ∧ Q a) (λ _, at_depth (d + 1))).

End trace.

(** ** Lemmas *)

Lemma split_length sep s : 0 < length (Js.split sep s).
Proof.
  induction s as [|c s IH]; cbn; [lia|].
  destruct (Ascii.eqb c sep); cbn; [lia|]. destruct (Js.split sep s); cbn; lia.
Qed.

Lemma repeat_ok s n : (0 ≤ n)%Z → ∃ t, Js.repeat s n = Ok t.
Proof. intros Hn. unfold Js.repeat. destruct (Z.ltb_spec n 0); [lia | eauto]. Qed.

Section trace_lemmas.
Context `{Host} `{!Clock} `{Runtime} `{Depth G}.
Implicit Types (p q : Process G) (render : value → string).

Lemma time_of_iso_now w : ∃ t, time_of (iso_now w).1 = Ok t.
Proof.
  unfold time_of. pose proof (iso_now_T w) as HT.
  destruct (lookup_lt_is_Some_2 _ _ HT) as [time ->]. eauto.
Qed.

(** The clock answers: [timestamp] returns, and only the world moves. *)
Lemma timestamp_run p :
  ∃ t, timestamp p = (Ok t, set_host (iso_now (host p)).2 p).
Proof.
  unfold timestamp, ask, bind, lift_res.
  destruct (iso_now (host p)) as [iso w] eqn:E. cbn.
  destruct (time_of_iso_now (host p)) as [t Ht]. rewrite E in Ht. cbn in Ht.
  rewrite Ht. eauto.
Qed.

Lemma mfor_console_log lines p :
  mfor console_log lines p = (Ok tt, set_console (console p ++ lines) p).
Proof.
  revert p. induction lines as [|l lines IH]; intros [w c g]; cbn.
  - by rewrite app_nil_r.
  - unfold bind. cbn. rewrite IH. cbn. by rewrite <- app_assoc.
Qed.

(** [trace] at a depth from zero on prints its lines and moves the clock. *)
Lemma trace_run render message data p :
  (0 ≤ traceDepth (globals p))%Z →
  ∃ lines, trace_with render message data p
           = (Ok tt, mkProcess (iso_now (host p)).2 (console p ++ lines) (globals p)).
Proof.
  intros Hd. unfold trace_with, get_global, gets, bind, lift_res.
  destruct (repeat_ok "  " _ Hd) as [indent ->].
  destruct (timestamp_run p) as [t ->]. rewrite mfor_console_log. eauto.
Qed.

(** Below zero it throws a [RangeError] before it prints. *)
Lemma trace_negative render message data p :
  (traceDepth (globals p) < 0)%Z →
  trace_with render message data p = (Err (mkError RangeError "Invalid count value"), p).
Proof.
  intros Hd. unfold trace_with, get_global, gets, bind, lift_res, Js.repeat.
  by destruct (Z.ltb_spec (traceDepth (globals p)) 0); [|lia].
Qed.

Lemma traceEnter_run render name input p :
  (0 ≤ traceDepth (globals p))%Z →
  ∃ lines, traceEnter_with render name input p
           = (Ok tt, mkProcess (iso_now (host p)).2 (console p ++ lines)
                       (set_traceDepth (traceDepth (globals p) + 1) (globals p))).
Proof.
  intros Hd. unfold traceEnter_with, bind.
  destruct (trace_run render ("▶ " +:+ name +:+ " 開始") input p Hd) as [lines ->].
  by exists lines.
Qed.

Lemma traceExit_run render name output p :
  (1 ≤ traceDepth (globals p))%Z →
  ∃ lines, traceExit_with render name output p
           = (Ok tt, mkProcess (iso_now (host p)).2 (console p ++ lines)
                       (set_traceDepth (traceDepth (globals p) - 1) (globals p))).
Proof.
  intros Hd. unfold traceExit_with, set_global, modify, bind.
  edestruct (trace_run render ("◀ " +:+ name +:+ " 終了") output) as [lines ->];
    [|by exists lines].
  cbn. rewrite traceDepth_set. lia.
Qed.

(** *** The counter through the operations of the monad *)

Lemma runs_keeps {A} d (m : M (Process G) A) : runs d m → keeps d m.
Proof. intros Hm. eapply hoare_conseq; [apply Hm | done | by intros [a|e] q]. Qed.

Lemma safe_balanced {A} (m : M (Process G) A) : safe m → balanced m.
Proof. intros Hm d Hd. by apply runs_keeps, Hm. Qed.

Lemma runs_ret {A} d (a : A) : runs d (ret a).
Proof. by apply hoare_ret. Qed.

Lemma runs_bind {A B} d (m : M (Process G) A) (f : A → M (Process G) B) :
  runs d m → (∀ a, runs d (f a)) → runs d (x <- m ;; f x).
Proof.
  intros Hm Hf. eapply hoare_bind with (R := λ _, at_depth d); [|done].
  eapply hoare_conseq; [apply Hm | done | by intros [a|e] q].
Qed.

(** A handler that does not throw makes the whole [try] safe. *)
Lemma runs_try_catch {A} d (m : M (Process G) A) h :
  keeps d m → (∀ e, runs d (h e)) → runs d (try_catch m h).
Proof.
  intros Hm Hh. eapply hoare_try_catch with (E := λ _, at_depth d); [|done].
  eapply hoare_conseq; [apply Hm | done | by intros [a|e] q].
Qed.

Lemma runs_console_log d line : runs d (console_log (G:=G) line).
Proof. by intros [w c g] Hd. Qed.

Lemma runs_ask {A} d (f : World → A * World) : runs d (ask (G:=G) f).
Proof. intros [w c g] Hd. unfold ask. cbn. by destruct (f w). Qed.

Lemma runs_get_global {A} d (f : G → A) : runs d (get_global f).
Proof. by intros [w c g] Hd. Qed.

(** A write of another module-level variable. *)
Lemma runs_set_global d (f : G → G) :
  (∀ g, traceDepth (f g) = traceDepth g) → runs d (set_global f).
Proof.
  intros Hf [w c g] Hd. unfold at_depth, holds, depth_is in *. cbn in *. by rewrite Hf.
Qed.

Lemma runs_mfor {A} d (f : A → M (Process G) unit) (l : list A) :
  (∀ x, runs d (f x)) → runs d (mfor f l).
Proof.
  intros Hf. induction l as [|x xs IH]; cbn [mfor]; [apply runs_ret|].
  by apply runs_bind.
Qed.

(** *** The counter through the utilities *)

(** [trace] does not write the module-level variables. *)
Lemma preserves_trace (I : G → Prop) render message data :
  preserves I (trace_with render message data).
Proof. unfold trace_with, timestamp. preserves_auto. Qed.

Lemma runs_trace d render message data :
  (0 ≤ d)%Z → runs d (trace_with render message data).
Proof.
  intros Hd p Hp. unfold at_depth, holds, depth_is in Hp.
  destruct (trace_run render message data p ltac:(lia)) as [lines ->]. done.
Qed.

Lemma enter_hoare d render name input :
  (0 ≤ d)%Z →
  hoare (at_depth d) (traceEnter_with render name input)
        (returns (λ _, at_depth (d + 1))).
Proof.
  intros Hd p Hp. unfold at_depth, holds, depth_is in Hp.
  destruct (traceEnter_run render name input p ltac:(lia)) as [lines ->].
  cbn. unfold at_depth, holds, depth_is. cbn. rewrite traceDepth_set. lia.
Qed.

Lemma exit_hoare d render name output :
  (1 ≤ d)%Z →
  hoare (at_depth d) (traceExit_with render name output)
        (returns (λ _, at_depth (d - 1))).
Proof.
  intros Hd p Hp. unfold at_depth, holds, depth_is in Hp.
  destruct (traceExit_run render name output p ltac:(lia)) as [lines ->].
  cbn. unfold at_depth, holds, depth_is. cbn. rewrite traceDepth_set. lia.
Qed.

Lemma exit_back d :
  (0 ≤ d)%Z → ∀ render name output,
  hoare (at_depth (d + 1)) (traceExit_with render name output) (returns (λ _, at_depth d)).
Proof.
  intros Hd render name output.
  eapply hoare_conseq; [apply (exit_hoare (d + 1)); lia | done|].
  intros [[]|e] q; cbn; [|done]. by replace (d + 1 - 1)%Z with d by lia.
Qed.

Lemma yields_safe {A} (Q : A → Prop) (m : M (Process G) A) : yields Q m → safe m.
Proof.
  intros Hm d Hd. eapply hoare_conseq; [by apply Hm | done|].
  by intros [a|e] q; [intros [? _]|].
Qed.

Lemma yields_impl {A} (Q Q' : A → Prop) (m : M (Process G) A) :
  yields Q m → (∀ a, Q a → Q' a) → yields Q' m.
Proof.
  intros Hm HQ d Hd. eapply hoare_conseq; [by apply Hm | done|].
  intros [a|e] q; [|done]. intros [? ?]. split; eauto.
Qed.

(** What [yields] says of one run. *)
Lemma yields_run {A} (Q : A → Prop) (m : M (Process G) A) p :
  yields Q m → (0 ≤ traceDepth (globals p))%Z →
  ∃ a p', m p = (Ok a, p') ∧ traceDepth (globals p') = traceDepth (globals p) ∧ Q a.
Proof.
  intros Hm Hd.
  destruct (hoare_returns_run _ _ _ p (Hm _ Hd) eq_refl) as (a & p' & Hrun & Hp' & Ha).
  by exists a, p'.
Qed.

(** A [traceEnter] followed by a [try] whose body ends with the
    [traceExit] and whose handler starts with it. *)
Lemma bracket_yields {A} (Q : A → Prop) render name input (body : M (Process G) A) h :
  (∀ d, (0 ≤ d)%Z →
     hoare (at_depth (d + 1)) body
           (post (λ a p, at_depth d p ∧ Q a) (λ _, at_depth (d + 1)))) →
  (∀ d e, (0 ≤ d)%Z →
     hoare (at_depth (d + 1)) (h e) (returns (λ a p, at_depth d p ∧ Q a))) →
  yields Q (traceEnter_with render name input ;; try_catch body h).
Proof.
  intros Hbody Hh d Hd.
  eapply hoare_bind with (R := λ _, at_depth (d + 1)); [by apply hoare_post, enter_hoare|].
  intros _. eapply hoare_try_catch with (E := λ _, at_depth (d + 1)); [by apply Hbody|].
  intros e. by apply Hh.
Qed.

(** [traceExit] and the value returned after it. *)
Lemma exit_ret {A} (Q : A → Prop) d render name output (a : A) :
  (0 ≤ d)%Z → Q a →
  hoare (at_depth (d + 1)) (traceExit_with render name output ;; ret a)
        (returns (λ b p, at_depth d p ∧ Q b)).
Proof.
  intros Hd Ha. eapply hoare_bind with (R := λ _, at_depth d);
    [by apply hoare_post, exit_back | intros _; by apply hoare_ret].
Qed.

(** The body of such a [try]: a computation that keeps the counter, the
    data of the trace, which may throw, and the [traceExit]. *)
Lemma body_exit {A B} (Q : B → Prop) d render name (body : M (Process G) A)
    (out : A → Res value) (result : A → B) :
  (0 ≤ d)%Z → keeps (d + 1) body → (∀ r output, out r = Ok output → Q (result r)) →
  hoare (at_depth (d + 1))
        (r <- body ;;
         output <- lift_res (out r) ;;
         traceExit_with render name output ;;
         ret (result r))
        (post (λ b p, at_depth d p ∧ Q b) (λ _, at_depth (d + 1))).
Proof.
  intros Hd Hbody HQ.
  eapply hoare_bind with (R := λ _, at_depth (d + 1)); [by apply hoare_any|].
  intros r. destruct (out r) as [output|e] eqn:Hout; [|by intros p Hp].
  eapply hoare_lift_ok; [done|]. apply hoare_post, exit_ret; eauto.
Qed.

(** The shape of a node that traces its entry and its exit and catches
    what its body throws: whatever the body does at the depth of the node,
    the node returns one of its two results and leaves the counter where it
    found it. The first result is returned when the data of the trace
    could be read off what the body returned. *)
Lemma node_yields {A B} (Q : B → Prop) render name input (body : M (Process G) A)
    (out : A → Res value) (result : A → B) (h : JsError → value * B) :
  balanced body → (∀ r output, out r = Ok output → Q (result r)) → (∀ e, Q (h e).2) →
  yields Q (traceEnter_with render name input ;;
            try_catch
              (r <- body ;;
               output <- lift_res (out r) ;;
               traceExit_with render name output ;;
               ret (result r))
              (λ e, traceExit_with render name (h e).1 ;; ret (h e).2)).
Proof.
  intros Hbody Hr He. apply bracket_yields.
  - intros d Hd. apply body_exit; [done | apply Hbody; lia | done].
  - intros d e Hd. by apply exit_ret.
Qed.

(** A computation that keeps the counter, in front of another. *)
Lemma keeps_hoare {A} d (m : M (Process G) A) :
  keeps d m → hoare (at_depth d) m (post (λ _, at_depth d) (λ _, at_depth d)).
Proof. apply hoare_any. Qed.

(** The shape of a node that traces its entry and its exit and catches
    nothing: a body that keeps the counter, then the [traceExit] and what
    follows it, which do not throw. *)
Lemma bracket_leaks {A B} (Q : B → Prop) render name input (body : M (Process G) A)
    (finish : A → M (Process G) B) :
  balanced body →
  (∀ d r, (0 ≤ d)%Z →
     hoare (at_depth (d + 1)) (finish r) (returns (λ b p, at_depth d p ∧ Q b))) →
  leaks Q (traceEnter_with render name input ;; r <- body ;; finish r).
Proof.
  intros Hbody Hfinish d Hd.
  eapply hoare_bind with (R := λ _, at_depth (d + 1)); [by apply hoare_post, enter_hoare|].
  intros _. eapply hoare_bind with (R := λ _, at_depth (d + 1));
    [apply hoare_any, Hbody; lia|].
  intros r. by apply hoare_post, Hfinish.
Qed.

Lemma leaks_impl {A} (Q Q' : A → Prop) (m : M (Process G) A) :
  leaks Q m → (∀ a, Q a → Q' a) → leaks Q' m.
Proof.
  intros Hm HQ d Hd. eapply hoare_conseq; [by apply Hm | done|].
  intros [a|e] q; [|done]. intros [? ?]. split; eauto.
Qed.

End trace_lemmas.

(** ** Automation *)

Create HintDb trace discriminated.
#[export] Hint Extern 2 (_ ≤ _)%Z => lia : trace.
#[export] Hint Resolve runs_keeps : trace.

#[export] Hint Resolve preserves_trace : inv trace.
#[export] Hint Extern 1 (preserves _ (trace_with _ _ _)) => apply preserves_trace : inv.

(** A proof that a computation keeps the counter: the rules of the
    invariants of the module-level variables. *)
Ltac keeps_auto := preserves_auto; eauto with trace.

(** The same for a computation that does not throw. *)
Ltac runs_step :=
  lazymatch goal with
  | |- runs _ (bind _ _) => apply runs_bind; [|intros ?]
  | |- runs _ (try_catch _ _) => apply runs_try_catch; [keeps_auto|intros ?]
  | |- runs _ (if ?b then _ else _) => destruct b
  | |- runs _ (match ?x with _ => _ end) => destruct x
  | |- runs _ (ret _) => apply runs_ret
  | |- runs _ (console_log _) => apply runs_console_log
  | |- runs _ (ask _) => apply runs_ask
  | |- runs _ (get_global _) => apply runs_get_global
  | |- runs _ (set_global _) => apply runs_set_global; try done
  | |- runs _ (mfor _ _) => apply runs_mfor; intros ?
  | |- runs _ (trace_with _ _ _) => apply runs_trace; lia
  end.

Ltac runs_auto := repeat runs_step; eauto with trace.

