(* ===== verification/Regex.v ===== *)
(** * Regular expressions by backtracking

    The fragment of the JavaScript regular expressions the sources use: a
    character class, the greedy quantifiers star and plus on a character
    class, a capture of a greedy plus, and the end of the input. A pattern
    is a matcher in continuation-passing style: it consumes a prefix of the
    input and hands the rest to its continuation; a greedy quantifier tries
    the longest run first and gives characters back one at a time while the
    continuation fails, which is the order of the backtracking of the
    language. [greedy_splits] is the reference the quantifier is proved
    against: the candidates it tries, in the order it tries them. *)

From stdpp Require Import base option list strings.
From Stdlib Require Import Ascii.
From S2P Require Import Prelude JsValue.

Module Re.

Section matchers.
Context {R : Type}.

(** A continuation: from the rest of the input to a result, or failure. *)
Definition K : Type := string → option R.

(** One character of the class [p]. *)
Definition chr (p : ascii → bool) (k : K) : K :=
  λ s, match s with
       | String c s' => if p c then k s' else None
       | EmptyString => None
       end.

(** The greedy star of a class [p]. *)
Fixpoint star (p : ascii → bool) (k : K) (s : string) : option R :=
  match s with
  | String c s' =>
      if p c then match star p k s' with Some r => Some r | None => k s end
      else k s
  | EmptyString => k s
  end.

(** [p+], greedy. *)
Definition plus (p : ascii → bool) (k : K) : K := chr p (star p k).

(** The capturing group of [p] under a greedy star, with the text it
    matched added to [acc]. *)
Fixpoint star_cap (p : ascii → bool) (k : string → K) (acc : string) (s : string)
  : option R :=
  match s with
  | String c s' =>
      if p c
      then match star_cap p k (acc +:+ String c EmptyString) s' with
           | Some r => Some r
           | None => k acc s
           end
      else k acc s
  | EmptyString => k acc s
  end.

(** The capturing group of [p+], greedy. *)
Definition plus_cap (p : ascii → bool) (k : string → K) : K :=
  λ s, match s with
       | String c s' => if p c then star_cap p k (String c EmptyString) s' else None
       | EmptyString => None
       end.

End matchers.

(** [$] without the multiline flag: the end of the input. *)
Definition eos {R} (r : R) : @K R :=
  λ s, match s with EmptyString => Some r | _ => None end.

(** ** Character classes *)

(** The character [c] itself. *)
Definition lit (c : ascii) : ascii → bool := Ascii.eqb c.

(** [\s] below code unit 256. *)
Definition space : ascii → bool := Js.is_space.

(** [\d]. *)
Definition digit (c : ascii) : bool :=
  let n := nat_of_ascii c in Nat.leb 48 n && Nat.leb n 57.

(** [.] without the dotAll flag: any character but a line terminator. *)
Definition dot (c : ascii) : bool :=
  let n := nat_of_ascii c in negb (Nat.eqb n 10 || Nat.eqb n 13).

(** Every character of [s] is of the class [p]. *)
Fixpoint all (p : ascii → bool) (s : string) : bool :=
  match s with
  | String c s' => p c && all p s'
  | EmptyString => true
  end.

(** ** The reference of the greedy quantifier *)

(** The run of characters of the class [p] at the head of [s]. *)
Fixpoint run (p : ascii → bool) (s : string) : nat :=
  match s with
  | String c s' => if p c then S (run p s') else 0
  | EmptyString => 0
  end.

(** [s] without its first [n] characters. *)
Fixpoint drop (n : nat) (s : string) : string :=
  match n, s with
  | S n', String _ s' => drop n' s'
  | _, _ => s
  end.

(** What is left of [s] after the star of [p] took [n], [n - 1], ..., [0] characters. *)
Definition splits (n : nat) (s : string) : list string :=
  (λ i, drop i s) <$> reverse (seq 0 (S n)).

Definition greedy_splits (p : ascii → bool) (s : string) : list string :=
  splits (run p s) s.

(** The first candidate the continuation accepts. *)
Fixpoint first_of {R} (k : @K R) (candidates : list string) : option R :=
  match candidates with
  | [] => None
  | s :: rest => match k s with Some r => Some r | None => first_of k rest end
  end.

End Re.

(** ** Lemmas *)

Section regex_lemmas.
Context {R : Type}.
Implicit Types (k : @Re.K R) (p : ascii → bool) (s : string).

Lemma first_of_app k l1 l2 :
  Re.first_of k (l1 ++ l2)
  = match Re.first_of k l1 with Some r => Some r | None => Re.first_of k l2 end.
Proof. induction l1 as [|s l1 IH]; cbn; [done|]. by destruct (k s). Qed.

Lemma splits_S n c s :
  Re.splits (S n) (String c s) = Re.splits n s ++ [String c s].
Proof.
  unfold Re.splits. change (seq 0 (S (S n))) with (0 :: seq 1 (S n)).
  rewrite <- fmap_S_seq, reverse_cons, fmap_app, <- !fmap_reverse, <- list_fmap_compose.
  done.
Qed.

(** The greedy quantifier returns what the continuation makes of the first
    candidate it accepts, the longest run first. *)
Lemma star_first_of p k s : Re.star p k s = Re.first_of k (Re.greedy_splits p s).
Proof.
  unfold Re.greedy_splits. induction s as [|c s IH]; cbn [Re.star Re.run].
  - cbn. by destruct (k _).
  - destruct (p c); [|cbn; by destruct (k _)].
    rewrite splits_S, first_of_app, <- IH. cbn. by destruct (k _).
Qed.

(** *** The language of a pattern *)

Lemma all_app p a b : Re.all p (a +:+ b) = Re.all p a && Re.all p b.
Proof.
  induction a as [|c a IH]; [done|].
  change (String c a +:+ b) with (String c (a +:+ b)). cbn [Re.all].
  by rewrite IH, andb_assoc.
Qed.

(** A character of the class, then the continuation. *)
Lemma chr_is_Some p k s :
  is_Some (Re.chr p k s) ↔ ∃ c rest, s = String c rest ∧ p c = true ∧ is_Some (k rest).
Proof.
  unfold Re.chr. destruct s as [|c s]; [split; [by intros [??] | by intros (?&?&?&_)]|].
  destruct (p c) eqn:E; split.
  - eauto.
  - by intros (? & ? & [= <- <-] & _ & ?).
  - by intros [??].
  - intros (? & ? & [= <- <-] & ? & _). congruence.
Qed.

(** What a pattern returns is what its continuation returns on some rest
    of the input. *)
Lemma star_Some p k s r :
  Re.star p k s = Some r → ∃ a rest, s = a +:+ rest ∧ Re.all p a = true ∧ k rest = Some r.
Proof.
  induction s as [|c s IH]; cbn [Re.star]; [intros Hk; by exists "", ""|].
  destruct (p c) eqn:E; [|intros Hk; by exists "", (String c s)].
  destruct (Re.star p k s) as [r'|] eqn:Es; [|intros Hk; by exists "", (String c s)].
  intros [= ->]. destruct (IH eq_refl) as (a & rest & -> & Ha & Hk).
  exists (String c a), rest. cbn. by rewrite E, Ha.
Qed.

Lemma chr_Some p k s r :
  Re.chr p k s = Some r → ∃ c rest, s = String c rest ∧ p c = true ∧ k rest = Some r.
Proof.
  unfold Re.chr. destruct s as [|c s]; [done|]. destruct (p c) eqn:E; [|done]. eauto.
Qed.

Lemma plus_Some p k s r :
  Re.plus p k s = Some r →
  ∃ a rest, s = a +:+ rest ∧ a ≠ "" ∧ Re.all p a = true ∧ k rest = Some r.
Proof.
  unfold Re.plus, Re.chr. destruct s as [|c s]; [done|].
  destruct (p c) eqn:E; [|done].
  intros (a & rest & -> & Ha & Hk)%star_Some.
  exists (String c a), rest. cbn. by rewrite E, Ha.
Qed.

(** The star accepts when the continuation accepts what is left after
    some run of the class. *)
Lemma star_skip p k s : is_Some (k s) → is_Some (Re.star p k s).
Proof.
  intros Hk. destruct s as [|c s]; cbn; [done|].
  destruct (p c); [|done]. by destruct (Re.star p k s).
Qed.

Lemma star_is_Some p k s :
  is_Some (Re.star p k s)
  ↔ ∃ a rest, s = a +:+ rest ∧ Re.all p a = true ∧ is_Some (k rest).
Proof.
  split.
  - intros [r (a & rest & ? & ? & Hk)%star_Some]. exists a, rest. by rewrite Hk.
  - intros (a & rest & -> & Ha & Hk). induction a as [|c a IH]; [by apply star_skip|].
    cbn in Ha. apply andb_true_iff in Ha as [Hc Ha].
    change (String c a +:+ rest) with (String c (a +:+ rest)). cbn [Re.star].
    rewrite Hc. by destruct (IH Ha) as [r ->].
Qed.

Lemma plus_is_Some p k s :
  is_Some (Re.plus p k s)
  ↔ ∃ a rest, s = a +:+ rest ∧ a ≠ "" ∧ Re.all p a = true ∧ is_Some (k rest).
Proof.
  unfold Re.plus. rewrite chr_is_Some. split.
  - intros (c & s' & -> & Hc & (a & rest & -> & Ha & Hk)%star_is_Some).
    exists (String c a), rest. cbn. by rewrite Hc, Ha.
  - intros ([|c a] & rest & -> & Hne & Ha & Hk); [done|].
    cbn in Ha. apply andb_true_iff in Ha as [Hc Ha].
    exists c, (a +:+ rest). rewrite star_is_Some. eauto 10.
Qed.

End regex_lemmas.

(** A capture that runs to the end of the input is what is left of the
    input, when all of it is of the class. *)
Lemma star_cap_eos p acc s :
  Re.star_cap p (λ group, Re.eos group) acc s
  = if Re.all p s then Some (acc +:+ s) else None.
Proof.
  revert acc. induction s as [|c s IH]; intros acc; cbn.
  - by rewrite app_empty_r.
  - destruct (p c); cbn; [|done]. rewrite IH.
    destruct (Re.all p s); [|done]. by rewrite app_assoc_s.
Qed.

Lemma plus_cap_eos p s :
  Re.plus_cap p (λ group, Re.eos group) s
  = if Re.all p s && negb (String.eqb s "") then Some s else None.
Proof.
  destruct s as [|c s]; cbn; [done|]. destruct (p c); cbn; [|done].
  rewrite star_cap_eos. destruct (Re.all p s); cbn; [|done]. done.
Qed.

(** *** White space *)

Lemma trim_start_all s : Re.all Re.space (Js.trim_start s) = Re.all Re.space s.
Proof.
  induction s as [|c s IH]; [done|]. cbn. unfold Re.space at 2.
  destruct (Js.is_space c) eqn:E; [done|]. cbn. unfold Re.space at 1. by rewrite E.
Qed.

Lemma trim_end_blank s : Js.trim_end s = "" ↔ Re.all Re.space s = true.
Proof.
  induction s as [|c s IH]; [done|]. cbn. unfold Re.space at 1.
  destruct (Js.trim_end s) as [|c' t]; destruct (Js.is_space c); cbn;
    intuition congruence.
Qed.

(** [trim] leaves nothing of the strings of white space, and of them only. *)
Lemma trim_blank s : Js.trim s = "" ↔ Re.all Re.space s = true.
Proof. unfold Js.trim. by rewrite trim_end_blank, trim_start_all. Qed.

Lemma trim_length_blank s :
  Nat.ltb 0 (String.length (Js.trim s)) = negb (Re.all Re.space s).
Proof.
  destruct (Re.all Re.space s) eqn:E.
  - apply trim_blank in E as ->. done.
  - destruct (Js.trim s) eqn:Et; [|done]. apply trim_blank in Et. congruence.
Qed.
