(* ===== verification/WikiStubs.v ===== *)
(** * Test doubles for the document analysis

    A world in which the DeepWiki server answers from a script and records
    the requests it receives, the model answers with a fixed summary, and
    the clock stands still. The witnesses of the document analysis graph
    evaluate the script on it. *)

From stdpp Require Import base option list strings.
From Stdlib Require Import ZArith Ascii Floats.
From S2P Require Import Prelude JsValue Engine Messages Host Stubs.

Module WikiStub.

(** The world: the message of the error a connection fails with, if it
    fails, the answers of [callTool] that are left, the answer of the
    model, and the requests received so far. *)
Record Wiki : Type := mkWiki {
  online : option string;
  answers : list (Res value);
  summary : Res value;
  requests : list string;
}.

Definition record (request : string) (w : Wiki) : Wiki :=
  mkWiki (online w) (answers w) (summary w) (requests w ++ [request]).

Definition next_answer (w : Wiki) : Res value * Wiki :=
  match answers w with
  | answer :: rest => (answer, mkWiki (online w) rest (summary w) (requests w))
  | [] => (Err (mkError ExecutionError "the script is used up"), w)
  end.

#[global] Instance host : Host := {|
  World := Wiki;
  complete _ _ w :=
    (match summary w with Ok text => Ok (text, []) | Err e => Err e end,
     record "model" w);
|}.

Definition iso : string := "2024-05-01T10:20:30.000Z".

#[global] Program Instance clock : Clock := {|
  iso_now w := (iso, w);
  epoch_now w := (1714558830000%Z, w);
  random w := (0.25%float, w);
|}.
Next Obligation. intros w. vm_compute. lia. Qed.

Definition tool (name description : string) : value :=
  VObj [("name", VStr name); ("description", VStr description)].

#[global] Instance server : McpServer := {|
  mcp_connect url w :=
    (match online w with
     | None => Ok tt
     | Some message => Err (mkError ExecutionError message)
     end, record ("connect " +:+ url) w);
  mcp_listTools w :=
    (Ok [tool "read_wiki_structure" "Topics of a repository";
         tool "read_wiki_contents" "Documentation of a repository";
         tool "ask_question" ""],
     record "listTools" w);
  mcp_callTool name _ w := next_answer (record ("callTool " +:+ name) w);
  mcp_close w := (Ok tt, record "close" w);
|}.

#[global] Instance langfuse : Langfuse := {|
  langfuse_traceId w := (VStr "trace-1", w);
  langfuse_shutdown w := (Ok tt, w);
  langfuse_host := VUndefined;
|}.

(** An answer of the server that holds one text. *)
Definition text_answer (text : string) : Res value :=
  Ok (VObj [("content", VArr [VObj [("type", VStr "text"); ("text", VStr text)]])]).

(** A server with the three answers of a run with a question. *)
Definition topics_text : string :=
  "- 1 Overview" +:+ newline +:+ "  - 1.1 Getting started" +:+ newline +:+ "Not a topic".

Definition wiki : Wiki :=
  mkWiki None
    [text_answer topics_text; text_answer "The documentation."; text_answer "An answer."]
    (Ok (VStr "A summary.")) [].

(** A server that refuses connections, with a message and without. *)
Definition offline : Wiki :=
  mkWiki (Some "connection refused") [] (Ok (VStr "A summary.")) [].

Definition mute : Wiki := mkWiki (Some "") [] (Ok (VStr "A summary.")) [].

End WikiStub.
