(* ===== verification/McpClient.v ===== *)
(** * The MCP client of src/devin-mcp-graph.ts

    The class [MCPClient], the module-level variable [mcpClient] that holds
    its one instance, [initMCPClient], which creates and connects the
    instance on first use, the three calls of the DeepWiki tools
    ([readWikiStructure], [readWikiContents], [askQuestion]) and
    [parseTopicList], which reads the topics off the markdown list the
    server answers with.

    The server is an external collaborator: the class [McpServer] gives the
    four requests of the SDK's client as functions of the world. The
    script's own state is [Globals]: the counter of the trace utilities and
    [mcpClient]. The script has one [MCPClient] at most, and every use of it
    goes through the module-level variable or a local alias of it, so the
    object is modelled by the value of the variable. *)

From stdpp Require Import base option list strings.
From Stdlib Require Import ZArith Ascii.
From S2P Require Import Prelude JsValue Engine Messages Host Stubs Trace Regex WikiStubs.

Module Mcp.

(** ** State of the script *)

(** The SDK's [Client], as the script constructs it. *)
Record Client : Type := mkClient {
  client_name : string;
  client_version : string;
}.

(** The fields of an [MCPClient]. *)
Record MCPClient : Type := mkMCPClient {
  client : option Client;
  transport : option string;
}.

(** The module-level variables. *)
Record Globals : Type := mkGlobals {
  depth : Z;
  mcpClient : option MCPClient;
}.

#[global] Instance Globals_depth : Depth Globals := {|
  traceDepth := depth;
  set_traceDepth d g := mkGlobals d (mcpClient g);
  traceDepth_set _ _ := eq_refl;
  set_traceDepth_same '(mkGlobals _ _) := eq_refl;
  set_traceDepth_twice _ _ _ := eq_refl;
|}.

Definition set_mcpClient (c : option MCPClient) (g : Globals) : Globals :=
  mkGlobals (depth g) c.

Section client.
Context `{Host} `{!Clock} `{!McpServer} `{Runtime}.
#[local] Abbreviation Proc := (Process Globals).

(** ** Trace utilities *)

(** The text [trace] prints for its data. *)
Definition render (data : value) : string :=
  match data with
  | VStr s => s
  | _ => json_pretty data
  end.

Definition trace (message : string) (data : value) : M Proc unit :=
  trace_with render message data.

Definition traceEnter (name : string) (input : value) : M Proc unit :=
  traceEnter_with render name input.

Definition traceExit (name : string) (output : value) : M Proc unit :=
  traceExit_with render name output.

(** ** The class MCPClient *)

Definition null_error : JsError :=
  Js.type_error "Cannot read properties of null".

(** The object a method is called on. *)
Definition this : M Proc MCPClient :=
  c <- get_global mcpClient ;;
  match c with
  | Some c => ret c
  | None => throw null_error
  end.

Definition set_this (f : MCPClient → MCPClient) : M Proc unit :=
  c <- this ;; set_global (set_mcpClient (Some (f c))).

Definition not_connected : JsError := mkError GenericError "MCP client not connected".

Definition connect (url : string) : M Proc unit :=
  trace "🔌 MCPサーバーに接続中..." (VObj [("url", VStr url)]) ;;
  set_this (λ c, mkMCPClient (client c) (Some url)) ;;
  set_this (λ c, mkMCPClient (Some (mkClient "langgraph-client" "1.0.0")) (transport c)) ;;
  request (mcp_connect url) ;;
  trace "✅ MCPサーバーに接続しました" VUndefined.

Definition listTools : M Proc (list value) :=
  c <- this ;;
  if negb (bool_decide (is_Some (client c))) then throw not_connected
  else
    tools <- request mcp_listTools ;;
    trace "📋 利用可能なツール" (VObj [("count", Js.of_nat (length tools))]) ;;
    ret tools.

Definition callTool (name : string) (args : value) : M Proc value :=
  c <- this ;;
  if negb (bool_decide (is_Some (client c))) then throw not_connected
  else
    trace ("🔧 MCPツール呼び出し: " +:+ name) args ;;
    result <- request (mcp_callTool name args) ;;
    ret result.

Definition disconnect : M Proc unit :=
  c <- this ;;
  if bool_decide (is_Some (client c)) then
    request mcp_close ;;
    trace "🔌 MCPサーバーから切断しました" VUndefined
  else ret tt.

(** ** initMCPClient *)

(** The line printed for a tool of the server. *)
Definition tool_line (tool : value) : string :=
  "  - " +:+ to_string (Js.prop "name" tool) +:+ ": "
  +:+ to_string (Js.or (Js.prop "description" tool) (VStr "(説明なし)")).

(** It returns the value of [mcpClient]. *)
Definition initMCPClient : M Proc (option MCPClient) :=
  existing <- get_global mcpClient ;;
  if bool_decide (is_Some existing) then ret existing
  else
    set_global (set_mcpClient (Some (mkMCPClient None None))) ;;
    try_catch
      (connect "https://mcp.deepwiki.com/sse" ;;
       tools <- listTools ;;
       console_log (newline +:+ "📋 利用可能なMCPツール:") ;;
       mfor (λ tool, console_log (tool_line tool)) tools ;;
       console_log "")
      (λ error,
       console_log "❌ DeepWiki MCPサーバーへの接続に失敗しました。" ;;
       console_log ("   エラー: " +:+ err_message error) ;;
       set_global (set_mcpClient None) ;;
       throw error) ;;
    get_global mcpClient.

(** ** parseTopicList *)

(** The class [[\d.]]. *)
Definition digit_or_dot (c : ascii) : bool := Re.digit c || Re.lit "."%char c.

(** [/^\s*-\s+[\d.]+\s+(.+)$/], with the text of its group as result. *)
Definition topic_pattern : @Re.K string :=
  Re.star Re.space
    (Re.chr (Re.lit "-"%char)
       (Re.plus Re.space
          (Re.plus digit_or_dot
             (Re.plus Re.space
                (Re.plus_cap Re.dot (λ group, Re.eos group)))))).

(** The lines of the language of the pattern, with the text of the group:
    white space, a dash, white space, a number of digits and dots, white
    space, and a text without line terminator to the end of the line. *)
Definition topic_line (line group : string) : Prop :=
  ∃ indent gap number gap',
    line = indent +:+ "-" +:+ gap +:+ number +:+ gap' +:+ group ∧
    Re.all Re.space indent = true ∧
    gap ≠ "" ∧ Re.all Re.space gap = true ∧
    number ≠ "" ∧ Re.all digit_or_dot number = true ∧
    gap' ≠ "" ∧ Re.all Re.space gap' = true ∧
    group ≠ "" ∧ Re.all Re.dot group = true.

(** The reference of [parseTopicList]: the trimmed groups of the lines
    that match, in the order of the lines. *)
Definition topics_of (text : string) : list string :=
  omap (λ line, Js.trim <$> topic_pattern line) (Js.split newline_char text).

Definition parseTopicList (text : string) : list string :=
  let lines := Js.split newline_char text in
  foldl (λ topics line,
           match topic_pattern line with
           | Some group => topics ++ [Js.trim group]
           | None => topics
           end) [] lines.

(** ** The tools of the server *)

Definition not_available : JsError := mkError GenericError "MCP client not available".

(** [content[0]] when [content] is an array that is not empty. *)
Definition first_content (content : value) : option value :=
  match content with
  | VArr (first :: _) => Some first
  | _ => None
  end.

(** [typeof content === 'object' && content !== null && 'text' in content]. *)
Definition has_text (content : value) : bool :=
  String.eqb (Js.typeof content) "object"
  && negb (Js.is_null content)
  && Js.has_key "text" content.

Definition split_error : JsError := Js.type_error "text.split is not a function".

Definition readWikiStructure (repoName : value) : M Proc value :=
  client <- initMCPClient ;;
  if negb (bool_decide (is_Some client)) then throw not_available
  else
    result <- callTool "read_wiki_structure" (VObj [("repoName", repoName)]) ;;
    result_content <- lift_res (Js.get "content" result) ;;
    match first_content result_content with
    | Some content =>
        if has_text content then
          let textContent := Js.prop "text" content in
          match textContent with
          | VStr text =>
              let topics := parseTopicList text in
              ret (VObj [("raw", textContent); ("topics", VArr (VStr <$> topics))])
          | _ => throw split_error
          end
        else ret content
    | None => ret result_content
    end.

(** The text of the first content of an answer, or the answer as a
    string: the end of [readWikiContents] and of [askQuestion]. *)
Definition text_of (result_content : value) : value :=
  match first_content result_content with
  | Some content =>
      if has_text content then Js.prop "text" content
      else VStr (to_string content)
  | None => VStr (to_string result_content)
  end.

Definition readWikiContents (repoName : value) : M Proc value :=
  client <- initMCPClient ;;
  if negb (bool_decide (is_Some client)) then throw not_available
  else
    result <- callTool "read_wiki_contents" (VObj [("repoName", repoName)]) ;;
    result_content <- lift_res (Js.get "content" result) ;;
    ret (text_of result_content).

Definition askQuestion (repoName question : value) : M Proc value :=
  client <- initMCPClient ;;
  if negb (bool_decide (is_Some client)) then throw not_available
  else
    result <- callTool "ask_question"
                (VObj [("repoName", repoName); ("question", question)]) ;;
    result_content <- lift_res (Js.get "content" result) ;;
    ret (text_of result_content).

End client.

(** A process that has not traced and has no client, in a world of the
    test doubles. *)
Definition boot (w : WikiStub.Wiki) : Process Globals :=
  mkProcess (w : @World WikiStub.host) [] (mkGlobals 0 None).

End Mcp.

Example topics_of_stub :
  Mcp.parseTopicList WikiStub.topics_text = ["Overview"; "Getting started"].
Proof. vm_compute. reflexivity. Qed.

(** ** parseTopicList *)

Lemma foldl_snoc_omap {A B C} (f : A → option B) (h : B → C) (l : list A)
    (acc : list C) :
  foldl (λ acc x, match f x with Some y => acc ++ [h y] | None => acc end) acc l
  = acc ++ omap (λ x, h <$> f x) l.
Proof.
  revert acc. induction l as [|x l IH]; intros acc; cbn; [by rewrite app_nil_r|].
  rewrite IH. destruct (f x); [by rewrite <- app_assoc | done].
Qed.


Lemma lit_true c c' : Re.lit c c' = true → c' = c.
Proof. unfold Re.lit. by intros ->%Ascii.eqb_eq. Qed.

Lemma dot_group_Some s group :
  Re.plus_cap Re.dot (λ group, Re.eos group) s = Some group →
  group = s ∧ s ≠ "" ∧ Re.all Re.dot s = true.
Proof.
  rewrite plus_cap_eos. destruct (Re.all Re.dot s); [|done].
  destruct (String.eqb_spec s ""); [done|]. by intros [= <-].
Qed.

(** The pattern accepts the lines of its language only, and the group it
    returns is the end of the line. *)
Lemma topic_pattern_sound line group :
  Mcp.topic_pattern line = Some group → Mcp.topic_line line group.
Proof.
  intros (indent & r1 & -> & Hi & H)%star_Some.
  apply chr_Some in H as (c & r2 & -> & ->%lit_true & H).
  apply plus_Some in H as (gap & r3 & -> & ? & ? & H).
  apply plus_Some in H as (number & r4 & -> & ? & ? & H).
  apply plus_Some in H as (gap' & r5 & -> & ? & ? & H).
  apply dot_group_Some in H as (-> & ? & ?).
  exists indent, gap, number, gap'. split_and!; done.
Qed.

(** The pattern accepts every line of its language. *)
Lemma topic_pattern_complete line group :
  Mcp.topic_line line group → is_Some (Mcp.topic_pattern line).
Proof.
  intros (indent & gap & number & gap' & -> & Hi & ? & ? & ? & ? & ? & ? & Hne & Hg).
  apply star_is_Some. exists indent, ("-" +:+ gap +:+ number +:+ gap' +:+ group).
  split_and!; [done..|]. apply chr_is_Some. eexists _, _. split_and!; [done..|].
  do 3 (apply plus_is_Some; eexists _, _; split_and!; [done..|]).
  rewrite plus_cap_eos, Hg. by destruct (String.eqb_spec group "").
Qed.

Definition carriage_return : string := String (ascii_of_nat 13) "".

(** A line that ends in a carriage return is never a topic: the
    group runs to the end of the line and cannot hold a line terminator,
    so a list of topics with the line ends of Windows parses to no topic
    but, at most, its last line. *)
Theorem topic_pattern_cr line : Mcp.topic_pattern (line +:+ carriage_return) = None.
Proof.
  destruct (Mcp.topic_pattern _) as [group|] eqn:E; [|done].
  apply topic_pattern_sound in E
    as (indent & gap & number & gap' & Heq & _ & _ & _ & _ & _ & _ & _ & Hne & Hg).
  rewrite <- !app_assoc_s in Heq. symmetry in Heq.
  apply app_eq_snoc in Heq as [g' ->]; [|done].
  rewrite all_app, andb_comm in Hg. done.
Qed.

(** ** The trace counter *)

(** The client writes [mcpClient] and, through [trace], nothing: every
    operation of this file keeps the counter of the trace utilities,
    whether it returns or throws. *)

Section counter.
Context `{Host} `{!Clock} `{!McpServer} `{Runtime}.
#[local] Abbreviation Proc := (Process Mcp.Globals).
Implicit Types (p : Proc) (d : Z).

Lemma depth_set_mcpClient d c g : depth_is d g → depth_is d (Mcp.set_mcpClient c g).
Proof. done. Qed.

Lemma trace_runs d message data : (0 ≤ d)%Z → runs d (Mcp.trace message data).
Proof. intros Hd. unfold Mcp.trace. runs_auto. Qed.

Lemma trace_keeps d message data : keeps d (Mcp.trace message data).
Proof. apply preserves_trace. Qed.

#[local] Hint Resolve depth_set_mcpClient trace_keeps : inv.

Lemma this_keeps d : keeps d Mcp.this.
Proof. unfold Mcp.this. keeps_auto. Qed.

#[local] Hint Resolve this_keeps : inv.

Lemma set_this_keeps d f : keeps d (Mcp.set_this f).
Proof. unfold Mcp.set_this. keeps_auto. Qed.

#[local] Hint Resolve set_this_keeps : inv.

Lemma connect_keeps d url : keeps d (Mcp.connect url).
Proof. unfold Mcp.connect. keeps_auto. Qed.

Lemma listTools_keeps d : keeps d Mcp.listTools.
Proof. unfold Mcp.listTools. keeps_auto. Qed.

Lemma callTool_keeps d name args : keeps d (Mcp.callTool name args).
Proof. unfold Mcp.callTool. keeps_auto. Qed.

Lemma disconnect_keeps d : keeps d Mcp.disconnect.
Proof. unfold Mcp.disconnect. keeps_auto. Qed.

#[local] Hint Resolve connect_keeps listTools_keeps callTool_keeps : inv.

Lemma initMCPClient_keeps d : keeps d Mcp.initMCPClient.
Proof. unfold Mcp.initMCPClient. keeps_auto. Qed.

#[local] Hint Resolve initMCPClient_keeps : inv.

Lemma readWikiStructure_balanced repoName : balanced (Mcp.readWikiStructure repoName).
Proof. intros d Hd. unfold Mcp.readWikiStructure. keeps_auto. Qed.

Lemma readWikiContents_balanced repoName : balanced (Mcp.readWikiContents repoName).
Proof. intros d Hd. unfold Mcp.readWikiContents. keeps_auto. Qed.

Lemma askQuestion_balanced repoName question :
  balanced (Mcp.askQuestion repoName question).
Proof. intros d Hd. unfold Mcp.askQuestion. keeps_auto. Qed.

End counter.

#[export] Hint Resolve trace_runs : trace.
#[export] Hint Resolve depth_set_mcpClient trace_keeps this_keeps set_this_keeps
  connect_keeps listTools_keeps callTool_keeps disconnect_keeps initMCPClient_keeps : inv.

(** ** The one client *)

Section singleton.
Context `{Host} `{!Clock} `{!McpServer} `{Runtime}.
#[local] Abbreviation Proc := (Process Mcp.Globals).
Implicit Types (p : Proc) (c : Mcp.MCPClient).

(** The module-level variables in which [mcpClient] is [c]. *)
Definition has_client (c : option Mcp.MCPClient) (g : Mcp.Globals) : Prop :=
  Mcp.mcpClient g = c.

(** The client [initMCPClient] leaves after a connection. *)
Definition connected_client : Mcp.MCPClient :=
  Mcp.mkMCPClient (Some (Mcp.mkClient "langgraph-client" "1.0.0"))
    (Some "https://mcp.deepwiki.com/sse").

Lemma set_this_hoare c f :
  hoare (holds (has_client (Some c))) (Mcp.set_this f)
        (returns (λ _, holds (has_client (Some (f c))))).
Proof.
  intros [w co g] Hp. unfold holds, has_client in Hp. cbn in Hp.
  unfold Mcp.set_this, Mcp.this, bind, get_global, gets. cbn. by rewrite Hp.
Qed.

(** [connect] leaves the client with its transport and its SDK client
    when it returns. *)
Lemma connect_hoare c url :
  hoare (holds (has_client (Some c))) (Mcp.connect url)
        (post (λ _, holds (has_client
                 (Some (Mcp.mkMCPClient (Some (Mcp.mkClient "langgraph-client" "1.0.0"))
                          (Some url)))))
              (λ _ _, True)).
Proof.
  unfold Mcp.connect. set (cc := Mcp.mkMCPClient _ (Some url)).
  eapply hoare_bind with (R := λ _, holds (has_client (Some c)));
    [apply hoare_free, (preserves_trace _)|]. intros _.
  eapply hoare_bind with
    (R := λ _, holds (has_client (Some (Mcp.mkMCPClient (Mcp.client c) (Some url)))));
    [apply hoare_post, set_this_hoare|]. intros _.
  eapply hoare_bind with (R := λ _, holds (has_client (Some cc)));
    [apply hoare_post, set_this_hoare|]. intros _.
  eapply hoare_bind with (R := λ _, holds (has_client (Some cc)));
    [apply hoare_free, preserves_request|]. intros _.
  apply hoare_free, (preserves_trace _).
Qed.

(** [listTools] does not write the client. *)
Lemma listTools_client I : preserves I Mcp.listTools.
Proof. unfold Mcp.listTools, Mcp.this. preserves_auto; apply (preserves_trace _). Qed.

(** What [initMCPClient] does after a failure: it forgets the client and
    throws the error again. *)
Lemma init_handler_hoare P error :
  hoare P
    (console_log "❌ DeepWiki MCPサーバーへの接続に失敗しました。" ;;
     console_log ("   エラー: " +:+ err_message error) ;;
     set_global (Mcp.set_mcpClient None) ;;
     @throw Proc unit error)
    (post (λ _ _, False) (λ e p, e = error ∧ has_client None (globals p))).
Proof.
  eapply hoare_bind with (R := λ _ _, True); [by apply hoare_modify|]. intros _.
  eapply hoare_bind with (R := λ _ _, True); [by apply hoare_modify|]. intros _.
  eapply hoare_bind with (R := λ _, holds (has_client None));
    [apply hoare_modify; intros ? _; reflexivity | intros _; by apply hoare_throw].
Qed.

(** The [try] of [initMCPClient], from a client just made. *)
Lemma init_try_hoare :
  hoare (holds (has_client (Some (Mcp.mkMCPClient None None))))
    (Mcp.connect "https://mcp.deepwiki.com/sse" ;;
     tools <- Mcp.listTools ;;
     console_log (newline +:+ "📋 利用可能なMCPツール:") ;;
     mfor (λ tool, console_log (Mcp.tool_line tool)) tools ;;
     console_log "")
    (post (λ _, holds (has_client (Some connected_client))) (λ _ _, True)).
Proof.
  eapply hoare_bind with (R := λ _, holds (has_client (Some connected_client)));
    [apply connect_hoare|]. intros _.
  apply hoare_free. apply preserves_bind; [apply listTools_client|]. intros tools.
  preserves_auto.
Qed.

(** Without a client, [initMCPClient] leaves the connected client and
    returns it, or leaves none and throws. *)
Lemma initMCPClient_fresh :
  hoare (holds (has_client None)) Mcp.initMCPClient
        (post (λ r p, r = Some connected_client ∧ has_client r (globals p))
              (λ _, holds (has_client None))).
Proof.
  unfold Mcp.initMCPClient.
  eapply hoare_bind with (R := λ existing p, existing = None ∧ holds (has_client None) p);
    [by apply hoare_gets|].
  intros existing. apply hoare_pure. intros ->. rewrite bool_decide_eq_false_2 by by intros [].
  eapply hoare_bind with
    (R := λ _, holds (has_client (Some (Mcp.mkMCPClient None None))));
    [apply hoare_modify; intros ? _; reflexivity|]. intros _.
  eapply hoare_bind with (R := λ _, holds (has_client (Some connected_client))).
  - eapply hoare_try_catch; [apply init_try_hoare|]. intros error.
    eapply hoare_conseq; [apply (init_handler_hoare (λ _, True)) | done|].
    by intros [[]|e] p; [|intros [_ ?]].
  - intros _. by apply hoare_gets.
Qed.

(** With a client, it returns the client and does nothing else. *)
Lemma initMCPClient_existing p c :
  Mcp.mcpClient (globals p) = Some c → Mcp.initMCPClient p = (Ok (Some c), p).
Proof.
  intros Hc. unfold Mcp.initMCPClient, get_global, gets, bind. cbn. rewrite Hc.
  by rewrite bool_decide_eq_true_2.
Qed.

End singleton.

(** ** Properties *)

Section properties.
Context `{Host} `{!Clock} `{!McpServer} `{Runtime}.
#[local] Abbreviation Proc := (Process Mcp.Globals).
Implicit Types (p : Proc) (c : Mcp.MCPClient).

(** C8. The script has one client at most and connects it once:
    [initMCPClient] returns the client of [mcpClient] without a request and
    without a line printed when there is one; when there is none it leaves
    in [mcpClient] the connected client it returns, or, when the connection
    or the listing of the tools fails, leaves [null] there and throws, so
    that the next call tries again. *)
Theorem init_singleton p r p' :
  Mcp.initMCPClient p = (r, p') →
  match Mcp.mcpClient (globals p) with
  | Some c => r = Ok (Some c) ∧ p' = p
  | None =>
      match r with
      | Ok client =>
          client = Some connected_client ∧ Mcp.mcpClient (globals p') = client
      | Err _ => Mcp.mcpClient (globals p') = None
      end
  end.
Proof.
  intros Hrun. destruct (Mcp.mcpClient (globals p)) as [c|] eqn:Hc.
  - rewrite (initMCPClient_existing p c Hc) in Hrun. by injection Hrun as <- <-.
  - by apply (hoare_run _ _ _ _ _ _ initMCPClient_fresh Hc Hrun).
Qed.

(** C40. [traceExit] without a [traceEnter] before it throws: at depth
    zero or below it decrements the counter, fails with a [RangeError] in
    [repeat], and leaves the counter decremented. *)
Theorem exit_without_enter_throws name output p :
  (traceDepth (globals p) ≤ 0)%Z →
  ∃ p', Mcp.traceExit name output p
        = (Err (mkError RangeError "Invalid count value"), p') ∧
        traceDepth (globals p') = (traceDepth (globals p) - 1)%Z.
Proof.
  intros Hd. unfold Mcp.traceExit, traceExit_with, set_global, modify, bind.
  rewrite trace_negative; [eexists; split; [done|] |]; cbn in *; lia.
Qed.

(** A [traceEnter] and the [traceExit] that answers it, from a depth
    of zero or more: both return, the module-level variables, the counter
    among them, are what they were, and the console is extended. *)
Theorem enter_exit_balanced name input output p :
  (0 ≤ traceDepth (globals p))%Z →
  ∃ lines w,
    (Mcp.traceEnter name input ;; Mcp.traceExit name output) p
    = (Ok tt, mkProcess w (console p ++ lines) (globals p)).
Proof.
  intros Hd. unfold bind, Mcp.traceEnter, Mcp.traceExit.
  destruct (traceEnter_run Mcp.render name input p Hd) as [lines1 ->].
  edestruct (traceExit_run Mcp.render name output) as [lines2 ->];
    [cbn in *; lia|].
  eexists (lines1 ++ lines2), _. cbn [console globals host].
  rewrite traceDepth_set, set_traceDepth_twice, Z.add_simpl_r, set_traceDepth_same.
  by rewrite <- app_assoc.
Qed.

(** The topic pattern accepts the lines made of spaces, a hyphen,
    spaces, a number of digits and dots, spaces and a text without line
    terminator, and no other. *)
Theorem topic_pattern_language line :
  is_Some (Mcp.topic_pattern line) ↔ ∃ group, Mcp.topic_line line group.
Proof.
  split.
  - intros [group Hm]. exists group. by apply topic_pattern_sound.
  - intros [group Hl]. by apply (topic_pattern_complete line group).
Qed.

(** The text the topic pattern captures is the end of the line: what
    follows the number and some of the spaces after it. *)
Theorem topic_group_is_rest line group :
  Mcp.topic_pattern line = Some group → Mcp.topic_line line group.
Proof. apply topic_pattern_sound. Qed.

End properties.

(** ** Witnesses *)

(** A process of the test doubles that has connected its client. *)
Definition connected : Process Mcp.Globals :=
  mkProcess (WikiStub.wiki : @World WikiStub.host) [] (Mcp.mkGlobals 0 (Some connected_client)).

Lemma init_singleton_witness :
  Ok (Some connected_client) = Ok (Some connected_client) ∧ connected = connected.
Proof.
  apply (@init_singleton WikiStub.host WikiStub.clock WikiStub.server Stub.runtime
           connected (Ok (Some connected_client)) connected).
  vm_compute. reflexivity.
Defined.

Lemma exit_without_enter_throws_witness :
  ∃ p', @Mcp.traceExit WikiStub.host WikiStub.clock Stub.runtime "connect" VUndefined
          (Mcp.boot WikiStub.wiki)
        = (Err (mkError RangeError "Invalid count value"), p') ∧
        traceDepth (globals p') = (traceDepth (globals (Mcp.boot WikiStub.wiki)) - 1)%Z.
Proof.
  apply (@exit_without_enter_throws WikiStub.host WikiStub.clock Stub.runtime).
  cbn. lia.
Defined.

Lemma enter_exit_balanced_witness :
  ∃ lines w,
    (@Mcp.traceEnter WikiStub.host WikiStub.clock Stub.runtime "connect" VUndefined ;;
     @Mcp.traceExit WikiStub.host WikiStub.clock Stub.runtime "connect" VUndefined)
      (Mcp.boot WikiStub.wiki)
    = (Ok tt, mkProcess w (console (Mcp.boot WikiStub.wiki) ++ lines)
                (globals (Mcp.boot WikiStub.wiki))).
Proof.
  apply (@enter_exit_balanced WikiStub.host WikiStub.clock Stub.runtime).
  cbn. lia.
Defined.

Lemma topic_group_is_rest_witness :
  Mcp.topic_line "  - 1.1 Getting started" "Getting started".
Proof. apply topic_group_is_rest. vm_compute. reflexivity. Defined.
