(* ===== verification/DocumentAnalysis.v ===== *)
(** * The document analysis graph of src/devin-mcp-graph.ts

    A graph of five nodes over a state of eight channels without reducer.
    [fetchWikiStructure], [fetchWikiContents] and [answerQuestion] ask the
    DeepWiki server through the MCP client, [analyzeInsights] counts what
    was fetched, [generateSummary] asks the model for a summary. Every node
    that calls outside catches what the call throws and writes the message
    into the channel [error] (or into [summary], for the model). The
    conditional edge [checkError] ends the run after [fetchWikiStructure]
    when [error] is set; [shouldAnswerQuestion] runs [answerQuestion] only
    for a question that is not blank and a state without error.

    [GraphState] lists the channels with the types they are declared with.
    The types are erased when the script runs; [analysis_state_typed]
    proves that the nodes keep them all the same, but for the channel
    [answer], and [answer_of_any_type] runs the graph to a state whose
    answer is a number.

    [runDocumentAnalysis] wraps a run of the graph between [traceEnter] and
    [traceExit]; [main] runs it twice and disconnects the client in a
    [finally]. *)

From stdpp Require Import base option list strings pretty sets.
From Stdlib Require Import ZArith Ascii Floats.
From S2P Require Import Prelude JsValue Engine Walks Messages Host Stubs Trace Regex.
From S2P Require Import McpClient WikiStubs.

Module Devin.
Import Mcp.

Section graph.
Context `{Host} `{!Clock} `{!McpServer} `{!Langfuse} `{Runtime}.
#[local] Abbreviation Proc := (Process Globals).

(** ** State *)

(** The channels of [GraphState], with the types they are declared
    with. *)
Definition GraphState : StateSchema :=
  [("repoName", TString); ("userQuestion", TString); ("wikiStructure", TAny);
   ("wikiContents", TString); ("answer", TString); ("insights", TObject);
   ("summary", TString); ("error", TString)].

(** [error instanceof Error ? error.message : String(error)]: everything
    thrown in the model is an [Error]. *)
Definition errorMsg (error : JsError) : string := err_message error.

(** ** Nodes *)

Definition fetchWikiStructureNode (state : ObjState) : M Proc ObjState :=
  traceEnter "fetchWikiStructure" (VObj [("repoName", field "repoName" state)]) ;;
  try_catch
    (wikiStructure <- readWikiStructure (field "repoName" state) ;;
     output <- lift_res
       (topics ← Js.get "topics" wikiStructure;
        Ok (VObj [("topicCount", Js.or (Js.get_opt "length" topics) (Js.of_nat 0))])) ;;
     traceExit "fetchWikiStructure" output ;;
     ret [("wikiStructure", wikiStructure)])
    (λ error,
     traceExit "fetchWikiStructure" (VObj [("error", VStr (errorMsg error))]) ;;
     ret [("error", VStr (errorMsg error)); ("wikiStructure", VNull)]).

(** [s.substring(0, n) + "..."]. *)
Definition preview (n : nat) (s : value) : Res value :=
  match s with
  | VStr s => Ok (VStr (Js.take n s +:+ "..."))
  | VUndefined | VNull =>
      Err (Js.type_error "Cannot read properties of undefined (reading 'substring')")
  | _ => Err (Js.type_error "substring is not a function")
  end.

Definition fetchWikiContentsNode (state : ObjState) : M Proc ObjState :=
  traceEnter "fetchWikiContents" (VObj [("repoName", field "repoName" state)]) ;;
  try_catch
    (wikiContents <- readWikiContents (field "repoName" state) ;;
     output <- lift_res
       (len ← Js.get "length" wikiContents;
        text ← preview 100 wikiContents;
        Ok (VObj [("length", len); ("preview", text)])) ;;
     traceExit "fetchWikiContents" output ;;
     ret [("wikiContents", wikiContents)])
    (λ error,
     traceExit "fetchWikiContents" (VObj [("error", VStr (errorMsg error))]) ;;
     ret [("error", VStr (errorMsg error)); ("wikiContents", VStr "")]).

Definition answerQuestionNode (state : ObjState) : M Proc ObjState :=
  traceEnter "answerQuestion" (VObj [("question", field "userQuestion" state)]) ;;
  try_catch
    (answer <- askQuestion (field "repoName" state) (field "userQuestion" state) ;;
     output <- lift_res
       (len ← Js.get "length" answer;
        Ok (VObj [("answerLength", len)])) ;;
     traceExit "answerQuestion" output ;;
     ret [("answer", answer)])
    (λ error,
     traceExit "answerQuestion" (VObj [("error", VStr (errorMsg error))]) ;;
     ret [("error", VStr (errorMsg error)); ("answer", VStr "")]).

(** [v > 0]. *)
Definition positive (v : value) : bool := PrimFloat.ltb 0 (to_number v).

Definition analyzeInsightsNode (state : ObjState) : M Proc ObjState :=
  traceEnter "analyzeInsights" VUndefined ;;
  let insights :=
    VObj [("topicCount",
           Js.or (Js.get_opt "length" (Js.get_opt "topics" (field "wikiStructure" state)))
                 (Js.of_nat 0));
          ("documentLength",
           Js.or (Js.get_opt "length" (field "wikiContents" state)) (Js.of_nat 0));
          ("hasWiki",
           if Js.truthy (field "wikiContents" state)
           then VBool (positive (Js.prop "length" (field "wikiContents" state)))
           else VBool false)] in
  traceExit "analyzeInsights" insights ;;
  ret [("insights", insights)].

Definition summary_prompt : string :=
  "あなたはGitHubリポジトリのドキュメント分析レポートを作成するアシスタントです。"
  +:+ "提供されたデータを元に、簡潔で分かりやすいサマリーを日本語で作成してください。"
  +:+ "ユーザーの質問に対する回答も含めてください。".

Definition generateSummaryNode (state : ObjState) : M Proc ObjState :=
  traceEnter "generateSummary" VUndefined ;;
  let data :=
    VObj [("repository", field "repoName" state);
          ("question", field "userQuestion" state);
          ("wikiTopics",
           Js.or (Js.get_opt "topics" (field "wikiStructure" state)) (VArr []));
          ("documentLength",
           Js.or (Js.get_opt "length" (field "wikiContents" state)) (Js.of_nat 0));
          ("answer", field "answer" state);
          ("insights", field "insights" state)] in
  let messages :=
    [SystemMessage (VStr summary_prompt);
     HumanMessage
       (VStr ("以下のリポジトリドキュメント情報を要約してください:" +:+ newline +:+ newline
              +:+ json_pretty data))] in
  try_catch
    (response <- invoke_model [] messages ;;
     let summary := to_string (content response) in
     traceExit "generateSummary" (VObj [("length", Js.of_nat (String.length summary))]) ;;
     ret [("summary", VStr summary)])
    (λ error,
     traceExit "generateSummary" (VObj [("error", VStr (errorMsg error))]) ;;
     ret [("summary", VStr ("要約生成中にエラーが発生しました: " +:+ errorMsg error))]).

(** ** Routing functions *)

Definition checkError (state : ObjState) : M Proc string :=
  if Js.truthy (field "error" state) then
    trace ("❌ エラー検出: " +:+ to_string (field "error" state)) VUndefined ;;
    ret "end"
  else ret "continue".

Definition trim_error : JsError := Js.type_error "state.userQuestion.trim is not a function".

Definition shouldAnswerQuestion (state : ObjState) : M Proc string :=
  if Js.truthy (field "error" state) then ret "skip"
  else
    asked <-
      (if Js.truthy (field "userQuestion" state) then
         match field "userQuestion" state with
         | VStr question => ret (Nat.ltb 0 (String.length (Js.trim question)))
         | _ => throw trim_error
         end
       else ret false) ;;
    if (asked : bool) then
      trace ("❓ ユーザー質問あり: " +:+ Js.quote
             +:+ to_string (field "userQuestion" state) +:+ Js.quote) VUndefined ;;
      ret "answer"
    else
      trace "ℹ️  ユーザー質問なし - スキップ" VUndefined ;;
      ret "skip".

(** ** The graph *)

Definition graph_builder : StateGraph Proc ObjState ObjState :=
  new_StateGraph
  |> addNode "fetchWikiStructure" fetchWikiStructureNode
  |> addNode "fetchWikiContents" fetchWikiContentsNode
  |> addNode "answerQuestion" answerQuestionNode
  |> addNode "analyzeInsights" analyzeInsightsNode
  |> addNode "generateSummary" generateSummaryNode
  |> addEdge START "fetchWikiStructure"
  |> addConditionalEdges "fetchWikiStructure" checkError
       [("continue", "fetchWikiContents"); ("end", END)]
  |> addEdge "fetchWikiContents" "analyzeInsights"
  |> addConditionalEdges "analyzeInsights" shouldAnswerQuestion
       [("answer", "answerQuestion"); ("skip", "generateSummary")]
  |> addEdge "answerQuestion" "generateSummary"
  |> addEdge "generateSummary" END.

Definition graph : Res (CompiledGraph Proc ObjState ObjState) := compile graph_builder.

(** [graph.invoke(input, {recursionLimit})], with the nodes that completed. *)
Definition run_trace (input : ObjState) (limit : nat) (p : Proc)
  : Res ObjState * list string * Proc :=
  match graph with
  | Ok compiled => invoke_trace compiled input limit p
  | Err e => (Err e, [], p)
  end.

(** The three runs of the graph: a failure of the first fetch, a run
    without question, a run with a question. *)
Definition runs_of_graph : list (list string) :=
  [["fetchWikiStructure"];
   ["fetchWikiStructure"; "fetchWikiContents"; "analyzeInsights"; "generateSummary"];
   ["fetchWikiStructure"; "fetchWikiContents"; "analyzeInsights"; "answerQuestion";
    "generateSummary"]].

(** ** runDocumentAnalysis *)

Definition banner : list string :=
  [newline +:+ "╔════════════════════════════════════════════════════════════╗";
   "║      DeepWiki MCP リポジトリドキュメント分析グラフ        ║";
   "║      (HTTP/SSE版 + Langfuse)                              ║";
   "╚════════════════════════════════════════════════════════════╝" +:+ newline].

(** The handler of the tracing service is made with [sessionId]; what it
    sends is outside the model. *)
Definition runDocumentAnalysis (repoName : string) (userQuestion sessionId : value)
  : M Proc ObjState :=
  mfor console_log banner ;;
  traceEnter "documentAnalysisAgent"
    (VObj [("repoName", VStr repoName); ("userQuestion", userQuestion)]) ;;
  compiled <- lift_res graph ;;
  result <- invoke compiled
              [("repoName", VStr repoName);
               ("userQuestion", Js.or userQuestion (VStr ""))]
              default_recursion_limit ;;
  traceId <- ask langfuse_traceId ;;
  traceExit "documentAnalysisAgent"
    (VObj [("success", Js.not (field "error" result));
           ("hasAnswer", Js.to_bool (field "answer" result));
           ("traceId", traceId)]) ;;
  request langfuse_shutdown ;;
  ret (Js.assign_fields result [("traceId", traceId)]).

(** ** main *)

(** ["=".repeat(60)]. *)
Definition rule : string := String.concat "" (replicate 60 "=").

(** [v?.substring(0, n) + "..."]. *)
Definition preview_opt (n : nat) (v : value) : Res string :=
  match v with
  | VStr s => Ok (Js.take n s +:+ "...")
  | VUndefined | VNull => Ok "undefined..."
  | _ => Err (Js.type_error "substring is not a function")
  end.

Definition print_traceId (result : ObjState) : M Proc unit :=
  if Js.truthy (field "traceId" result) then
    console_log (newline +:+ "🔍 トレースID: " +:+ to_string (field "traceId" result))
  else ret tt.

(** The report of the first example. *)
Definition report1 (result1 : ObjState) : M Proc unit :=
  console_log (newline +:+ "【分析結果】") ;;
  console_log rule ;;
  if Js.truthy (field "error" result1) then
    console_log ("❌ エラー: " +:+ to_string (field "error" result1))
  else
    console_log (newline +:+ "📚 Wiki構造:") ;;
    console_log (json_pretty (field "wikiStructure" result1)) ;;
    console_log (newline +:+ "📊 インサイト:") ;;
    console_log (json_pretty (field "insights" result1)) ;;
    console_log (newline +:+ "📄 ドキュメントプレビュー:") ;;
    text <- lift_res (preview_opt 300 (field "wikiContents" result1)) ;;
    console_log text ;;
    console_log (newline +:+ "🤖 AI要約:") ;;
    console_log (to_string (field "summary" result1)) ;;
    print_traceId result1.

(** The report of the second example. *)
Definition report2 (result2 : ObjState) : M Proc unit :=
  console_log (newline +:+ "【分析結果】") ;;
  console_log rule ;;
  if Js.truthy (field "error" result2) then
    console_log ("❌ エラー: " +:+ to_string (field "error" result2))
  else
    console_log (newline +:+ "❓ 質問: " +:+ to_string (field "userQuestion" result2)) ;;
    console_log (newline +:+ "💬 回答:") ;;
    console_log (to_string (field "answer" result2)) ;;
    console_log (newline +:+ "📊 インサイト:") ;;
    console_log (json_pretty (field "insights" result2)) ;;
    console_log (newline +:+ "🤖 AI総合要約:") ;;
    console_log (to_string (field "summary" result2)) ;;
    print_traceId result2.

Definition heading (title : string) : M Proc unit :=
  console_log (newline +:+ rule) ;;
  console_log title ;;
  console_log rule.

(** The two examples, inside the [try]. *)
Definition examples (sessionId : string) : M Proc unit :=
  heading "例1: React リポジトリのドキュメント取得" ;;
  result1 <- runDocumentAnalysis "facebook/react" VUndefined (VStr sessionId) ;;
  report1 result1 ;;
  heading "例2: Next.js についての質問" ;;
  result2 <- runDocumentAnalysis "vercel/next.js"
               (VStr "このプロジェクトの主な特徴は何ですか？") (VStr sessionId) ;;
  report2 result2 ;;
  console_log (newline +:+ "✅ 全ての分析が完了しました！" +:+ newline).

(** The [finally] of [main]. *)
Definition cleanup : M Proc unit :=
  c <- get_global mcpClient ;;
  if bool_decide (is_Some c) then disconnect else ret tt.

Definition features (sessionId : string) : list string :=
  [newline +:+ "💡 このグラフの特徴:";
   "   🔧 標準MCPプロトコルを使用（HTTP/SSE通信）";
   "   🌐 DeepWiki MCPサーバーに接続 (https://mcp.deepwiki.com)";
   "   📚 リポジトリのWiki/ドキュメント構造を取得";
   "   📄 ドキュメント本文を取得";
   "   ❓ リポジトリに関する質問に回答";
   "   🤖 AIによる総合要約生成";
   "   🔀 条件分岐（質問がある場合のみ回答ノード実行）";
   "   📊 Langfuseで全実行を自動トレース";
   newline +:+ "🔍 Langfuseで確認: "
     +:+ to_string (Js.or langfuse_host (VStr "http://localhost:3000"));
   "   📊 2つの実行がセッションでグループ化: " +:+ sessionId;
   "   📈 各ノード・エッジ・LLM呼び出しが階層構造で表示" +:+ newline].

Definition main : M Proc unit :=
  console_log (newline +:+ "🚀 DeepWiki MCP グラフのデモ実行開始" +:+ newline) ;;
  console_log ("💡 このグラフは標準MCPプロトコル（HTTP/SSE）でDeepWiki MCPサーバーと通信します"
               +:+ newline) ;;
  console_log ("🌐 接続先: https://mcp.deepwiki.com/sse" +:+ newline) ;;
  now <- ask epoch_now ;;
  let sessionId := "deepwiki-mcp-session-" +:+ pretty now in
  console_log ("📊 Langfuseセッション: " +:+ sessionId +:+ newline) ;;
  try_finally (examples sessionId) cleanup ;;
  mfor console_log (features sessionId).

(** [main().catch(console.error)]. *)
Definition script : M Proc unit :=
  try_catch main (λ error, console_log (err_message error)).

End graph.

End Devin.

(** ** The nodes and the routing functions return *)

Section safety.
Context `{Host} `{!Clock} `{!McpServer} `{!Langfuse} `{Runtime}.
#[local] Abbreviation Proc := (Process Mcp.Globals).
Implicit Types (p : Proc) (state : ObjState) (d : Z).

(** The two updates of [fetchWikiStructureNode]: the structure, or the
    message of the error it caught. *)
Definition structure_update (update : ObjState) : Prop :=
  (∃ wikiStructure, update = [("wikiStructure", wikiStructure)]) ∨
  (∃ message, update = [("error", VStr message); ("wikiStructure", VNull)]).

Lemma fetchWikiStructureNode_outcome state :
  yields structure_update (Devin.fetchWikiStructureNode state).
Proof.
  apply (node_yields _ _ _ _ _ _ (λ ws, [("wikiStructure", ws)])
           (λ error, (VObj [("error", VStr (Devin.errorMsg error))],
                      [("error", VStr (Devin.errorMsg error)); ("wikiStructure", VNull)])));
    [apply readWikiStructure_balanced | intros; by (left + right); eexists..].
Qed.

(** What each node returns: the channels it writes and the types of the
    values it gives them. The structure has no type to keep. *)
Lemma fetchWikiStructureNode_yields state :
  yields (produces [("wikiStructure", TAny); ("error", TString)])
         (Devin.fetchWikiStructureNode state).
Proof.
  eapply yields_impl; [apply fetchWikiStructureNode_outcome|].
  by intros update [[ws ->]|[message ->]].
Qed.

(** The contents are returned after [wikiContents.substring(0, 100)]:
    a value that is not a string has thrown there, and the node has
    caught it. *)
Lemma fetchWikiContentsNode_yields state :
  yields (produces [("wikiContents", TString); ("error", TString)])
         (Devin.fetchWikiContentsNode state).
Proof.
  apply (node_yields _ _ _ _ _ _ (λ wc, [("wikiContents", wc)])
           (λ error, (VObj [("error", VStr (Devin.errorMsg error))],
                      [("error", VStr (Devin.errorMsg error)); ("wikiContents", VStr "")])));
    [apply readWikiContents_balanced | | done].
  intros wc output. destruct wc; try done; cbn; by destruct (Js.get _ _).
Qed.

(** Of the answer the node reads the length only, which every value that
    is neither [undefined] nor [null] has or lacks without an error. *)
Lemma answerQuestionNode_yields state :
  yields (produces [("answer", TAny); ("error", TString)])
         (Devin.answerQuestionNode state).
Proof.
  by apply (node_yields _ _ _ _ _ _ (λ answer, [("answer", answer)])
           (λ error, (VObj [("error", VStr (Devin.errorMsg error))],
                      [("error", VStr (Devin.errorMsg error)); ("answer", VStr "")])));
    [apply askQuestion_balanced|..].
Qed.

Lemma analyzeInsightsNode_yields state :
  yields (produces [("insights", TObject)]) (Devin.analyzeInsightsNode state).
Proof.
  intros d Hd. unfold Devin.analyzeInsightsNode.
  eapply hoare_bind with (R := λ _, at_depth (d + 1)); [by apply hoare_post, enter_hoare|].
  intros _. by apply exit_ret.
Qed.

Lemma generateSummaryNode_yields state :
  yields (produces [("summary", TString)]) (Devin.generateSummaryNode state).
Proof.
  apply bracket_yields.
  - intros d Hd. eapply hoare_bind with (R := λ _, at_depth (d + 1));
      [apply hoare_any, preserves_invoke_model|].
    intros r. by apply hoare_post, exit_ret.
  - intros d e Hd. by apply exit_ret.
Qed.

Lemma checkError_safe state :
  ∀ d, (0 ≤ d)%Z →
  hoare (at_depth d) (Devin.checkError state)
    (returns (λ label p, at_depth d p ∧ label ∈ ["continue"; "end"])).
Proof.
  intros d Hd p Hp. unfold Devin.checkError.
  destruct (Js.truthy (field "error" state)); [|split; [done | set_solver]].
  pose proof (trace_runs d ("❌ エラー検出: " +:+ to_string (field "error" state))
                VUndefined Hd p Hp) as Ht.
  unfold bind. destruct (Mcp.trace _ _ p) as [[[]|e] p1]; [|done].
  split; [done | set_solver].
Qed.

(** The question of the state is a string, as [runDocumentAnalysis] sets
    it. *)
Definition asked (state : ObjState) : Prop :=
  ∃ question, field "userQuestion" state = VStr question.

Lemma shouldAnswerQuestion_safe state :
  asked state → ∀ d, (0 ≤ d)%Z →
  hoare (at_depth d) (Devin.shouldAnswerQuestion state)
    (returns (λ label p, at_depth d p ∧ label ∈ ["answer"; "skip"])).
Proof.
  intros [question Hq] d Hd p Hp. unfold Devin.shouldAnswerQuestion. rewrite Hq.
  destruct (Js.truthy (field "error" state)); [split; [done | set_solver]|].
  unfold bind. destruct (Js.truthy (VStr question)); cbn [ret];
    [destruct (Nat.ltb 0 (String.length (Js.trim question)))|];
    match goal with
    | |- context [Mcp.trace ?m ?v p] =>
        pose proof (trace_runs d m v Hd p Hp);
        destruct (Mcp.trace m v p) as [[[]|e] p1]; [|done]
    end; (split; [done | set_solver]).
Qed.

Lemma asked_update channels state update :
  asked state → writes channels update → "userQuestion" ∉ channels →
  asked (ann_reduce state update).
Proof.
  intros [question Hq] Hw Hk. exists question. rewrite <- Hq.
  apply field_assign_other. set_solver.
Qed.

(** The graph compiles, and its entry is [fetchWikiStructure]. *)
Lemma graph_compiles :
  Devin.graph = Ok (mkCompiled Devin.graph_builder "fetchWikiStructure").
Proof. apply compile_ok; by vm_compute. Qed.

(** The nodes in the order of the longest run, numbered from the end. *)
Definition rank (node : string) : nat :=
  if String.eqb node "fetchWikiStructure" then 4
  else if String.eqb node "fetchWikiContents" then 3
  else if String.eqb node "analyzeInsights" then 2
  else if String.eqb node "answerQuestion" then 1
  else 0.

Lemma graph_ranked : ranked Devin.graph_builder rank.
Proof. apply check_ranked_ranked. vm_compute. reflexivity. Qed.

(** A node that yields an update that does not write the question. *)
Lemma node_step channels (fn : ObjState → M Proc ObjState) state d :
  yields (writes channels) (fn state) → "userQuestion" ∉ channels →
  (0 ≤ d)%Z → asked state →
  hoare (at_depth d) (fn state)
        (returns (λ u p, at_depth d p ∧ asked (ann_reduce state u))).
Proof.
  intros Hfn Hk Hd Hs. eapply hoare_conseq; [by apply Hfn | done|].
  intros [u|e] p; [|done]. intros [Hp Hw]. split; [done | by eapply asked_update].
Qed.

(** The channels the nodes write: every channel of the state but the
    inputs of the run. *)
Definition outputs : list string :=
  ["wikiStructure"; "wikiContents"; "answer"; "insights"; "summary"; "error"].

(** The types the nodes give them: those of [GraphState], but for the
    answer. *)
Definition analysis_types : StateSchema :=
  [("wikiStructure", TAny); ("wikiContents", TString); ("answer", TAny);
   ("insights", TObject); ("summary", TString); ("error", TString)].

Lemma graph_nodes_typed name fn state :
  (name, fn) ∈ sg_nodes Devin.graph_builder → yields (produces analysis_types) (fn state).
Proof.
  intros Hin. cbn in Hin.
  repeat (apply elem_of_cons in Hin as [[= -> ->]|Hin]);
    [eapply yields_impl; [apply fetchWikiStructureNode_yields|]
    |eapply yields_impl; [apply fetchWikiContentsNode_yields|]
    |eapply yields_impl; [apply answerQuestionNode_yields|]
    |eapply yields_impl; [apply analyzeInsightsNode_yields|]
    |eapply yields_impl; [apply generateSummaryNode_yields|]
    |by apply elem_of_nil in Hin]; intros update; by apply conforms_part_of.
Qed.

Lemma graph_nodes_yield name fn state :
  (name, fn) ∈ sg_nodes Devin.graph_builder → yields (writes outputs) (fn state).
Proof.
  intros Hin. eapply yields_impl; [by eapply graph_nodes_typed|].
  intros update. apply (conforms_writes analysis_types).
Qed.

(** A routing function that answers with one of [labels] answers with a
    label of a path map that declares them. *)
Lemma router_declared (router : ObjState → M Proc string) labels
    (ends : list (string * string)) state d :
  hoare (at_depth d) (router state)
        (returns (λ label p, at_depth d p ∧ label ∈ labels)) →
  Forall (λ label, is_Some (Js.assoc label ends)) labels →
  hoare (at_depth d) (router state)
        (returns (λ label p, at_depth d p ∧ is_Some (Js.assoc label ends))).
Proof.
  intros Hr Hall. eapply hoare_conseq; [done | done|].
  intros [label|e] p; [|done]. intros [Hp Hl]. split; [done|].
  by apply (proj1 (Forall_forall _ _) Hall).
Qed.

Lemma graph_safe d :
  (0 ≤ d)%Z → safe_graph Devin.graph_builder (at_depth d) asked.
Proof.
  intros Hd. split.
  - intros name fn state Hin Hs.
    eapply node_step; [by eapply graph_nodes_yield | set_solver | done..].
  - intros src router ends state Hin Hs. cbn in Hin.
    repeat (apply elem_of_cons in Hin as [[=]|Hin]); simplify_eq;
      [| |by apply elem_of_nil in Hin].
    + eapply router_declared; [by apply checkError_safe|].
      repeat constructor; by eexists.
    + eapply router_declared; [by apply shouldAnswerQuestion_safe|].
      repeat constructor; by eexists.
Qed.

(** The states of the schema: the channels are those of [GraphState] and
    hold values of their types, [answer] apart. *)
Definition typed (state : ObjState) : Prop :=
  conforms (relax ["answer"] Devin.GraphState) state = true.

Lemma graph_typed d :
  (0 ≤ d)%Z → safe_graph Devin.graph_builder (at_depth d) (λ state, asked state ∧ typed state).
Proof.
  intros Hd. apply safe_graph_and; [by apply graph_safe|].
  intros name fn state Hin _ Hs.
  eapply hoare_conseq; [by apply (graph_nodes_typed _ _ state Hin d) | done|].
  intros [update|e] p; [|done]. intros [_ Hu].
  apply conforms_assign; [done|]. by eapply conforms_part_of, Hu.
Qed.

Lemma analysis_walk input limit p :
  Devin.run_trace input limit p
  = walk Devin.graph_builder limit "fetchWikiStructure"
      (Js.assign_fields [] input) [] p.
Proof. unfold Devin.run_trace. by rewrite graph_compiles. Qed.

(** A call of the compiled graph returns a state of the schema, at any
    depth from zero on. *)
Lemma invoke_safe input d :
  (0 ≤ d)%Z → asked (Js.assign_fields [] input) → typed (Js.assign_fields [] input) →
  hoare (at_depth d)
        (invoke (mkCompiled Devin.graph_builder "fetchWikiStructure") input
           default_recursion_limit)
        (returns (λ state p, at_depth d p ∧ typed state)).
Proof.
  intros Hd Hs Ht p Hp. unfold invoke, invoke_trace. cbn [cg_graph cg_entry].
  destruct (walk_total Devin.graph_builder (at_depth d) (λ state, asked state ∧ typed state)
              rank default_recursion_limit "fetchWikiStructure"
              (ann_reduce ann_empty input) [] p)
    as (state & more & p' & Hwalk & Hp' & [_ Hstate] & _);
    [eapply compile_wf, graph_compiles | by apply graph_typed | apply graph_ranked
    |cbn; set_solver | vm_compute; lia | done..|].
  destruct (walk _ _ _ _ _ _) as [[r done'] q] eqn:E.
  by injection Hwalk as -> _ ->.
Qed.

(** The paths of the graph from its entry. *)
Lemma graph_paths more :
  is_path Devin.graph_builder ("fetchWikiStructure" :: more) →
  "fetchWikiStructure" :: more ∈ Devin.runs_of_graph.
Proof.
  unfold Devin.runs_of_graph. intros Hpath.
  enumerate_paths Hpath more ltac:(set_solver).
Qed.

(** The question [runDocumentAnalysis] is called with: a string, or
    nothing. *)
Definition question_value (question : option string) : value :=
  from_option VStr VUndefined question.

(** The input of a run for a repository and a question. *)
Definition input_of (repoName question : string) : ObjState :=
  [("repoName", VStr repoName); ("userQuestion", VStr question)].

Lemma error_after_structure repoName question wikiStructure :
  field "error" (Js.assign_fields (Js.assign_fields [] (input_of repoName question))
                   [("wikiStructure", wikiStructure)]) = VUndefined.
Proof. reflexivity. Qed.

Lemma error_after_failure repoName question message :
  field "error" (Js.assign_fields (Js.assign_fields [] (input_of repoName question))
                   [("error", VStr message); ("wikiStructure", VNull)]) = VStr message.
Proof. reflexivity. Qed.

(** The conditional edge after the first fetch, as a function of the
    state. *)
Lemma checkError_run state p :
  (0 ≤ traceDepth (globals p))%Z →
  ∃ p', Devin.checkError state p
        = (Ok (if Js.truthy (field "error" state) then "end" else "continue"), p') ∧
        traceDepth (globals p') = traceDepth (globals p).
Proof.
  intros Hd. unfold Devin.checkError.
  destruct (Js.truthy (field "error" state)); [|by exists p].
  destruct (trace_run Mcp.render ("❌ エラー検出: " +:+ to_string (field "error" state))
              VUndefined p Hd) as [lines Ht].
  unfold Mcp.trace, bind. rewrite Ht. by eexists.
Qed.

Lemma structure_step state p update p1 label p2 (next : string) :
  Devin.fetchWikiStructureNode state p = (Ok update, p1) →
  Devin.checkError (Js.assign_fields state update) p1 = (Ok label, p2) →
  Js.assoc label [("continue", "fetchWikiContents"); ("end", END)] = Some next →
  step Devin.graph_builder "fetchWikiStructure" state p
  = (Ok (Js.assign_fields state update, next), p2).
Proof.
  intros Hnode Hedge Hnext.
  change (Js.assign_fields state update) with (ann_reduce state update).
  by eapply (step_conditional Devin.graph_builder "fetchWikiStructure");
    [reflexivity | reflexivity | ..].
Qed.

(** The first step of a run: the node returns one of its two updates and
    the edge reads the channel [error] of the state that results. *)
Lemma first_step state p :
  (0 ≤ traceDepth (globals p))%Z →
  ∃ update p',
    structure_update update ∧
    traceDepth (globals p') = traceDepth (globals p) ∧
    step Devin.graph_builder "fetchWikiStructure" state p
    = (Ok (Js.assign_fields state update,
           if Js.truthy (field "error" (Js.assign_fields state update))
           then END else "fetchWikiContents"), p').
Proof.
  intros Hd.
  destruct (yields_run _ _ p (fetchWikiStructureNode_outcome state) Hd)
    as (update & p1 & Hnode & Hd1 & Hupdate).
  destruct (checkError_run (Js.assign_fields state update) p1) as (p2 & Hedge & Hd2);
    [cbn in *; lia|].
  exists update, p2. split_and!; [done | cbn in *; lia|].
  eapply structure_step; [done..|]. by destruct (Js.truthy _).
Qed.

End safety.

(** ** Properties *)

Section properties.
Context `{Host} `{!Clock} `{!McpServer} `{!Langfuse} `{Runtime}.
#[local] Abbreviation Proc := (Process Mcp.Globals).
Implicit Types (p : Proc) (state : ObjState).

(** The walk of the graph is total: the graph is safe and ranked, and
    its paths from the entry are the three runs. *)
Lemma analysis_walk_total repoName question limit p :
  (0 ≤ traceDepth (globals p))%Z → 5 ≤ limit →
  ∃ state done p',
    walk Devin.graph_builder limit "fetchWikiStructure"
      (Js.assign_fields [] (input_of repoName question)) [] p
    = (Ok state, done, p') ∧
    done ∈ Devin.runs_of_graph ∧
    traceDepth (globals p') = traceDepth (globals p).
Proof.
  intros Hd Hlimit.
  destruct (walk_total Devin.graph_builder (at_depth (traceDepth (globals p))) asked
              rank limit "fetchWikiStructure"
              (Js.assign_fields [] (input_of repoName question)) [] p)
    as (state & more & p' & Hwalk & Hp' & _ & _ & Hpath);
    [eapply compile_wf, graph_compiles | by apply graph_safe | apply graph_ranked
    |cbn; set_solver | cbn; lia | done | by eexists|].
  exists state, ("fetchWikiStructure" :: more), p'. eauto using graph_paths.
Qed.

(** C3. A run of the document analysis graph always returns: whatever the
    server and the model answer or throw, no error leaves the graph and the
    step limit is not reached. The run takes one of the three paths of the
    graph, five nodes at most, and leaves the counter of the trace
    utilities where it found it. *)
Theorem analysis_returns repoName question limit p :
  (0 ≤ traceDepth (globals p))%Z → 5 ≤ limit →
  ∃ state done p',
    Devin.run_trace (input_of repoName question) limit p = (Ok state, done, p') ∧
    done ∈ Devin.runs_of_graph ∧
    traceDepth (globals p') = traceDepth (globals p).
Proof. rewrite analysis_walk. apply analysis_walk_total. Qed.

(** A run that ends after [fetchWikiStructure] is a run whose first
    fetch failed: the final state is the input with the message of the
    error, which is not empty, in [error] and [null] in [wikiStructure]. No
    other node has run. *)
Theorem run_ends_on_error repoName question limit p state p' :
  (0 ≤ traceDepth (globals p))%Z →
  Devin.run_trace (input_of repoName question) limit p
  = (Ok state, ["fetchWikiStructure"], p') →
  ∃ message, message ≠ "" ∧
    state = input_of repoName question
            ++ [("error", VStr message); ("wikiStructure", VNull)].
Proof.
  intros Hd. rewrite analysis_walk.
  destruct limit as [|limit]; [by rewrite walk_limit|].
  destruct (first_step (Js.assign_fields [] (input_of repoName question)) p Hd)
    as (update & p1 & Hupdate & _ & Hstep).
  erewrite walk_step_ok by done.
  destruct Hupdate as [[ws ->]|[message ->]].
  - rewrite error_after_structure. by intros (more & [=])%walk_ok_first.
  - rewrite error_after_failure. cbn [Js.truthy].
    destruct (String.eqb_spec message "") as [->|Hne]; cbn [negb].
    + by intros (more & [=])%walk_ok_first.
    + rewrite walk_END. intros [= <- <-]. by exists message.
Qed.

(** C39. A failure whose message is empty is not seen: when the first
    fetch catches an error with the message [""], the conditional edge
    reads the channel [error] as unset and the run goes on to
    [fetchWikiContents]. *)
Theorem empty_message_not_detected repoName question limit p p1 :
  (0 ≤ traceDepth (globals p1))%Z → 5 ≤ limit →
  Devin.fetchWikiStructureNode (Js.assign_fields [] (input_of repoName question)) p
  = (Ok [("error", VStr ""); ("wikiStructure", VNull)], p1) →
  ∃ state more p',
    Devin.run_trace (input_of repoName question) limit p
    = (Ok state, "fetchWikiStructure" :: "fetchWikiContents" :: more, p').
Proof.
  intros Hd Hlimit Hnode. rewrite analysis_walk.
  destruct limit as [|limit]; [lia|].
  destruct (checkError_run
              (Js.assign_fields (Js.assign_fields [] (input_of repoName question))
                 [("error", VStr ""); ("wikiStructure", VNull)]) p1 Hd)
    as (p2 & Hedge & Hd2).
  rewrite error_after_failure in Hedge.
  erewrite walk_step_ok; [|done | by eapply structure_step].
  destruct (walk_total Devin.graph_builder (at_depth (traceDepth (globals p2))) asked
              rank limit "fetchWikiContents"
              (Js.assign_fields (Js.assign_fields [] (input_of repoName question))
                 [("error", VStr ""); ("wikiStructure", VNull)])
              ([] ++ ["fetchWikiStructure"]) p2)
    as (state & more & p' & Hwalk & _);
    [eapply compile_wf, graph_compiles | by apply graph_safe; lia | apply graph_ranked
    |cbn; set_solver | cbn; lia | done | by eexists|].
  by exists state, more, p'.
Qed.

(** C31. No node of the graph throws: run at a depth of zero or more, on
    any state, each of the five nodes returns an update, whatever the
    server and the model do, leaves the counter of the trace utilities
    where it found it, and writes output channels only, never the
    repository or the question of the run. *)
Theorem nodes_catch name fn state p :
  (name, fn) ∈ sg_nodes Devin.graph_builder → (0 ≤ traceDepth (globals p))%Z →
  ∃ update p',
    fn state p = (Ok update, p') ∧
    traceDepth (globals p') = traceDepth (globals p) ∧
    update.*1 ⊆ outputs.
Proof. intros Hin Hd. by eapply yields_run, Hd; eapply graph_nodes_yield. Qed.

(** The edge after [analyzeInsights] leads to [answerQuestion] when
    no error is recorded and the question has a character that is not
    white space, and past it otherwise; it returns at every depth from
    zero on. *)
Theorem question_routing state question p :
  field "userQuestion" state = VStr question → (0 ≤ traceDepth (globals p))%Z →
  ∃ p',
    Devin.shouldAnswerQuestion state p
    = (Ok (if Js.truthy (field "error" state) || Re.all Re.space question
           then "skip" else "answer"), p') ∧
    traceDepth (globals p') = traceDepth (globals p).
Proof.
  intros Hq Hd. unfold Devin.shouldAnswerQuestion. rewrite Hq.
  destruct (Js.truthy (field "error" state)); [by exists p|].
  assert ((if Js.truthy (VStr question)
           then ret (Nat.ltb 0 (String.length (Js.trim question))) else ret false)
          = ret (Σ := Proc) (negb (Re.all Re.space question))) as ->.
  { rewrite trim_length_blank. by destruct question. }
  unfold bind, ret. cbn [orb].
  destruct (Re.all Re.space question); cbn [negb];
    match goal with
    | |- context [Mcp.trace ?m ?v p] =>
        destruct (trace_run Mcp.render m v p Hd) as [lines Ht];
        unfold Mcp.trace; rewrite Ht
    end; by eexists.
Qed.

(** What [runDocumentAnalysis] returns: the final state of the graph, a
    state of the schema, with the identifier of the trace added. *)
Definition analysis_result (result : ObjState) : Prop :=
  ∃ state w, typed state ∧
    result = Js.assign_fields state [("traceId", (langfuse_traceId w).1)].

Lemma runDocumentAnalysis_outcome repoName question sessionId d :
  (0 ≤ d)%Z →
  hoare (at_depth d)
        (Devin.runDocumentAnalysis repoName (question_value question) sessionId)
        (post (λ result p, analysis_result result ∧ at_depth d p)
              (λ e p, at_depth d p ∧ ∃ w, (langfuse_shutdown w).1 = Err e)).
Proof.
  intros Hd. unfold Devin.runDocumentAnalysis.
  eapply hoare_bind with (R := λ _, at_depth d);
    [apply hoare_post, runs_mfor, runs_console_log|].
  intros _. eapply hoare_bind with (R := λ _, at_depth (d + 1));
    [by apply hoare_post, enter_hoare|].
  intros _.
  eapply hoare_bind with
    (R := λ c p, c = mkCompiled Devin.graph_builder "fetchWikiStructure"
                 ∧ at_depth (d + 1) p);
    [by eapply hoare_lift_eq; [apply graph_compiles|]|].
  intros compiled. apply hoare_pure. intros ->.
  eapply hoare_bind with (R := λ state p, typed state ∧ at_depth (d + 1) p).
  { apply hoare_post. eapply hoare_conseq; [apply (invoke_safe _ (d + 1)) | done|];
      [lia | destruct question as [[|c q]|]; by eexists | by destruct question as [[|c q]|]|].
    by intros [state|e] p; [intros [? ?]|]. }
  intros state. apply hoare_pure. intros Hstate.
  eapply hoare_bind with
    (R := λ traceId p, (∃ w, traceId = (langfuse_traceId w).1) ∧ at_depth (d + 1) p).
  { apply hoare_post. eapply hoare_conseq; [apply ask_hoare | done|].
    intros [a|e] p; [|done]. by intros [? ?]. }
  intros traceId. apply hoare_pure. intros [w ->].
  eapply hoare_bind with (R := λ _, at_depth d); [by apply hoare_post, exit_back|].
  intros _. eapply hoare_bind with (R := λ _, at_depth d); [apply request_hoare|].
  intros _. apply hoare_ret. split; [by exists state, w | done].
Qed.

(** [runDocumentAnalysis] throws only what the shutdown of the
    tracing service throws: called at a depth of zero or more with a
    question or without, it returns the final state of the graph with the
    identifier of the trace in [traceId], or fails with the error of
    [langfuse_shutdown]; in both cases the counter of the trace utilities
    is back where it was. *)
Theorem analysis_throws_shutdown repoName question sessionId d :
  (0 ≤ d)%Z →
  hoare (at_depth d)
        (Devin.runDocumentAnalysis repoName (question_value question) sessionId)
        (post (λ result p,
                 at_depth d p ∧ ∃ w, field "traceId" result = (langfuse_traceId w).1)
              (λ e p, at_depth d p ∧ ∃ w, (langfuse_shutdown w).1 = Err e)).
Proof.
  intros Hd. eapply hoare_conseq; [by apply runDocumentAnalysis_outcome | done|].
  intros [result|e] p; [|done]. intros [(state & w & _ & ->) Hp].
  split; [done|]. exists w. apply field_assign_eq.
Qed.

(** C30. The state of a run keeps its schema: every run returns a state
    whose channels are channels of [GraphState] and hold values of the
    types they are declared with, but for [answer], which holds what the
    server sent as the text of its answer, whatever its type. Nothing
    checks the types when the script runs: the contents are a string
    because the node takes their first hundred characters inside its
    [try]. *)
Theorem analysis_state_typed repoName question limit p :
  (0 ≤ traceDepth (globals p))%Z → 5 ≤ limit →
  ∃ state,
    (Devin.run_trace (input_of repoName question) limit p).1.1 = Ok state ∧
    conforms (relax ["answer"] Devin.GraphState) state = true.
Proof.
  intros Hd Hlimit. rewrite analysis_walk.
  destruct (walk_total Devin.graph_builder (at_depth (traceDepth (globals p)))
              (λ state, asked state ∧ typed state) rank limit "fetchWikiStructure"
              (Js.assign_fields [] (input_of repoName question)) [] p)
    as (state & more & p' & -> & _ & [_ Hstate] & _);
    [eapply compile_wf, graph_compiles | by apply graph_typed | apply graph_ranked
    |cbn; set_solver | cbn; lia | done | by split; [eexists|]|].
  by exists state.
Qed.

End properties.

(** ** Witnesses *)

Lemma analysis_state_typed_witness :
  ∃ state,
    (@Devin.run_trace WikiStub.host WikiStub.clock WikiStub.server Stub.runtime
       (input_of "facebook/react" "What is it?") 25 (Mcp.boot WikiStub.wiki)).1.1
    = Ok state ∧
    conforms (relax ["answer"] Devin.GraphState) state = true.
Proof.
  apply (@analysis_state_typed WikiStub.host WikiStub.clock WikiStub.server
           Stub.runtime); [cbn; lia | lia].
Defined.

(** A server whose answer to the question carries a number where the
    protocol has a text: the run returns with the number in [answer], a
    channel declared with the type [string]. *)
Example answer_of_any_type :
  let numbered :=
    WikiStub.mkWiki None
      [WikiStub.text_answer WikiStub.topics_text; WikiStub.text_answer "The documentation.";
       Ok (VObj [("content", VArr [VObj [("type", VStr "text"); ("text", VNum 42)]])])]
      (Ok (VStr "A summary.")) [] in
  ∃ state,
    (@Devin.run_trace WikiStub.host WikiStub.clock WikiStub.server Stub.runtime
       (input_of "vercel/next.js" "What is it?") 25 (Mcp.boot numbered)).1.1 = Ok state ∧
    field "answer" state = VNum 42 ∧
    field "error" state = VUndefined ∧
    conforms Devin.GraphState state = false.
Proof. vm_compute. eexists. by split_and!. Qed.

Lemma analysis_returns_witness :
  ∃ state done p',
    @Devin.run_trace WikiStub.host WikiStub.clock WikiStub.server Stub.runtime
      (input_of "facebook/react" "What is it?") 25 (Mcp.boot WikiStub.wiki)
    = (Ok state, done, p') ∧
    done ∈ Devin.runs_of_graph ∧
    traceDepth (globals p') = traceDepth (globals (Mcp.boot WikiStub.wiki)).
Proof.
  apply (@analysis_returns WikiStub.host WikiStub.clock WikiStub.server
           Stub.runtime); [cbn; lia | lia].
Defined.

Lemma run_ends_on_error_witness :
  ∃ message, message ≠ "" ∧
    input_of "facebook/react" ""
    ++ [("error", VStr "connection refused"); ("wikiStructure", VNull)]
    = input_of "facebook/react" ""
      ++ [("error", VStr message); ("wikiStructure", VNull)].
Proof.
  apply (@run_ends_on_error WikiStub.host WikiStub.clock WikiStub.server
           Stub.runtime "facebook/react" "" 25
           (Mcp.boot WikiStub.offline) _
           (@Devin.run_trace WikiStub.host WikiStub.clock WikiStub.server Stub.runtime
              (input_of "facebook/react" "") 25 (Mcp.boot WikiStub.offline)).2);
    [cbn; lia | vm_compute; reflexivity].
Defined.

Lemma empty_message_not_detected_witness :
  ∃ state more p',
    @Devin.run_trace WikiStub.host WikiStub.clock WikiStub.server Stub.runtime
      (input_of "facebook/react" "") 25 (Mcp.boot WikiStub.mute)
    = (Ok state, "fetchWikiStructure" :: "fetchWikiContents" :: more, p').
Proof.
  apply (@empty_message_not_detected WikiStub.host WikiStub.clock WikiStub.server
           Stub.runtime "facebook/react" "" 25
           (Mcp.boot WikiStub.mute)
           (@Devin.fetchWikiStructureNode WikiStub.host WikiStub.clock WikiStub.server
              Stub.runtime (Js.assign_fields [] (input_of "facebook/react" ""))
              (Mcp.boot WikiStub.mute)).2);
    [vm_compute; by intros [=] | lia | vm_compute; reflexivity].
Defined.

Lemma nodes_catch_witness :
  ∃ update p',
    @Devin.analyzeInsightsNode WikiStub.host WikiStub.clock Stub.runtime
      (input_of "facebook/react" "") (Mcp.boot WikiStub.wiki) = (Ok update, p') ∧
    traceDepth (globals p') = traceDepth (globals (Mcp.boot WikiStub.wiki)) ∧
    update.*1 ⊆ outputs.
Proof.
  apply (@nodes_catch WikiStub.host WikiStub.clock WikiStub.server Stub.runtime
           "analyzeInsights"); [cbn; set_solver | cbn; lia].
Defined.

Lemma question_routing_witness :
  ∃ p',
    @Devin.shouldAnswerQuestion WikiStub.host WikiStub.clock Stub.runtime
      (input_of "facebook/react" "  ") (Mcp.boot WikiStub.wiki)
    = (Ok (if Js.truthy (field "error" (input_of "facebook/react" "  "))
              || Re.all Re.space "  "
           then "skip" else "answer"), p') ∧
    traceDepth (globals p') = traceDepth (globals (Mcp.boot WikiStub.wiki)).
Proof.
  apply (@question_routing WikiStub.host WikiStub.clock Stub.runtime);
    [reflexivity | cbn; lia].
Defined.

Lemma analysis_throws_shutdown_witness :
  hoare (at_depth 0)
        (@Devin.runDocumentAnalysis WikiStub.host WikiStub.clock WikiStub.server
           WikiStub.langfuse Stub.runtime "facebook/react" (question_value None)
           (VStr "session"))
        (post (λ result p,
                 at_depth 0 p ∧
                 ∃ w, field "traceId" result = (@langfuse_traceId _ WikiStub.langfuse w).1)
              (λ e p, at_depth 0 p ∧
                      ∃ w, (@langfuse_shutdown _ WikiStub.langfuse w).1 = Err e)).
Proof.
  apply (@analysis_throws_shutdown WikiStub.host WikiStub.clock WikiStub.server
           WikiStub.langfuse Stub.runtime "facebook/react" None (VStr "session") 0).
  lia.
Defined.
