(* ===== verification/AnalysisScript.v ===== *)
(** * The script of the document analysis

    devin-mcp-graph.ts ends with [main().catch(console.error)]. [main]
    runs [runDocumentAnalysis] twice inside a [try] whose [finally]
    disconnects the MCP client, prints a report after each run and the
    features of the graph at the end. [DocumentAnalysis] holds the
    definitions ([Devin.runDocumentAnalysis], [Devin.examples],
    [Devin.cleanup], [Devin.main], [Devin.script]); this file is what a run
    of the script can end with.

    The report of the first example takes the first three hundred
    characters of the contents with [substring], which a value that is
    neither a string nor [undefined] does not have. The state of a run
    keeps the types of its channels ([typed]), so the contents are a
    string and the report prints ([report1_runs]).

    Theorems: the examples throw only what the shutdown of the tracing
    handler throws ([examples_outcome]); the [finally] throws only what
    [close] throws ([cleanup_outcome]); [main] returns after printing the
    features of the graph, or throws one of the two, with the counter of
    the trace utilities where it was, and the script returns
    ([analysis_main_outcome]). *)

From stdpp Require Import base option list strings pretty.
From Stdlib Require Import ZArith Lia.
From S2P Require Import Prelude JsValue Engine Walks Messages Host Stubs Trace Regex.
From S2P Require Import McpClient WikiStubs DocumentAnalysis.

Section script_lemmas.
Context `{Host} `{!Clock} `{!McpServer} `{!Langfuse} `{Runtime}.
#[local] Abbreviation Proc := (Process Mcp.Globals).
Implicit Types (p : Proc) (d : Z) (result : ObjState).

(** The contents of a result are a string, or were never written. *)
Lemma result_contents result :
  analysis_result result →
  ∃ text, Devin.preview_opt 300 (field "wikiContents" result) = Ok text.
Proof.
  intros (state & w & Hstate & ->). rewrite field_assign_ne by done. unfold field.
  destruct (Js.assoc "wikiContents" state) as [v|] eqn:Hv; [|by eexists].
  destruct (conforms_lookup _ _ _ _ Hstate Hv) as (t & Ht & Hty).
  vm_compute in Ht. injection Ht as <-. destruct v; try done. by eexists.
Qed.

Lemma heading_runs title d : runs d (Devin.heading title).
Proof. unfold Devin.heading. runs_auto. Qed.

Lemma report1_runs result d : analysis_result result → runs d (Devin.report1 result).
Proof.
  intros [text Ht]%result_contents. unfold Devin.report1, Devin.print_traceId.
  rewrite Ht. change (lift_res (Ok text)) with (ret (Σ := Proc) text). runs_auto.
Qed.

Lemma report2_runs result d : runs d (Devin.report2 result).
Proof. unfold Devin.report2, Devin.print_traceId. runs_auto. Qed.

(** What the shutdown of the tracing handler throws. *)
Definition shutdown_error (e : JsError) : Prop := ∃ w, (langfuse_shutdown w).1 = Err e.

(** What [close] throws. *)
Definition close_error (e : JsError) : Prop := ∃ w, (mcp_close w).1 = Err e.

(** The two examples throw only what the shutdown throws. *)
Lemma examples_outcome sessionId d :
  (0 ≤ d)%Z →
  hoare (at_depth d) (Devin.examples sessionId)
        (post (λ _, at_depth d) (λ e p, at_depth d p ∧ shutdown_error e)).
Proof.
  intros Hd. unfold Devin.examples.
  eapply hoare_bind with (R := λ _, at_depth d); [apply hoare_post, heading_runs|].
  intros _. eapply hoare_bind;
    [by apply (runDocumentAnalysis_outcome "facebook/react" None)|].
  intros result1. apply hoare_pure. intros Hresult1.
  eapply hoare_bind with (R := λ _, at_depth d); [by apply hoare_post, report1_runs|].
  intros _. eapply hoare_bind with (R := λ _, at_depth d); [apply hoare_post, heading_runs|].
  intros _. eapply hoare_bind;
    [by apply (runDocumentAnalysis_outcome "vercel/next.js" (Some _))|].
  intros result2. apply hoare_pure. intros _.
  eapply hoare_bind with (R := λ _, at_depth d); [apply hoare_post, report2_runs|].
  intros _. apply hoare_post, runs_console_log.
Qed.

(** The [finally] of [main] throws only what [close] throws. *)
Lemma cleanup_outcome d :
  (0 ≤ d)%Z →
  hoare (at_depth d) Devin.cleanup
        (post (λ _, at_depth d) (λ e p, at_depth d p ∧ close_error e)).
Proof.
  intros Hd. unfold Devin.cleanup.
  eapply hoare_bind with (R := λ c p, Mcp.mcpClient (globals p) = c ∧ at_depth d p);
    [by apply hoare_gets|].
  intros c. case_bool_decide as Hc; [|by intros p [_ Hp]].
  destruct Hc as [registered ->]. unfold Mcp.disconnect.
  eapply hoare_bind with (R := λ _, at_depth d).
  { intros p [Hc Hp]. unfold Mcp.this, get_global, gets, bind. cbn. by rewrite Hc. }
  intros this. destruct (bool_decide _); [|by apply hoare_ret].
  eapply hoare_bind with (R := λ _, at_depth d); [apply request_hoare|].
  intros _. by apply hoare_post, trace_runs.
Qed.

End script_lemmas.

(** ** The script *)

Section properties.
Context `{Host} `{!Clock} `{!McpServer} `{!Langfuse} `{Runtime}.
#[local] Abbreviation Proc := (Process Mcp.Globals).
Implicit Types (p : Proc).

(** The session of the two runs: [`deepwiki-mcp-session-${Date.now()}`]. *)
Definition analysis_session p : string :=
  "deepwiki-mcp-session-" +:+ pretty (epoch_now (host p)).1.

(** C36. What a run of the document analysis script ends with. Started with
    the counter of the trace utilities at zero, [main] returns after
    printing the features of the graph with the session of the two runs,
    or throws what the shutdown of the tracing handler threw in one of the
    two examples, or what [close] threw in the [finally]; nothing else
    leaves the nodes, the reports and the graph. The counter is back at
    zero in every case, and the script prints what [main] throws and
    returns. *)
Theorem analysis_main_outcome p :
  traceDepth (globals p) = 0%Z →
  match (Devin.main p).1 with
  | Ok _ => Devin.features (analysis_session p) `suffix_of` console (Devin.main p).2
  | Err e => shutdown_error e ∨ close_error e
  end ∧
  traceDepth (globals (Devin.main p).2) = 0%Z ∧
  (Devin.script p).1 = Ok tt.
Proof.
  intros Hd.
  enough (hoare (λ q, host q = host p ∧ at_depth 0 q) Devin.main
            (post (λ _ q, at_depth 0 q ∧
                          Devin.features (analysis_session p) `suffix_of` console q)
                  (λ e q, at_depth 0 q ∧ (shutdown_error e ∨ close_error e)))) as Hmain.
  { specialize (Hmain p (conj eq_refl Hd)). unfold Devin.script, try_catch.
    destruct (Devin.main p) as [[[]|e] q]; cbn in *; by destruct Hmain. }
  unfold Devin.main.
  do 3 (eapply hoare_bind with (R := λ _ q, host q = host p ∧ at_depth 0 q);
    [by intros [w c g] [? ?]|intros _]).
  eapply hoare_bind with (R := λ now q, now = (epoch_now (host p)).1 ∧ at_depth 0 q).
  { intros [w c g] [Hw Hq]. cbn in *. unfold ask. cbn. rewrite Hw.
    by destruct (epoch_now (host p)). }
  intros now. apply hoare_pure. intros ->. fold (analysis_session p).
  eapply hoare_bind with (R := λ _, at_depth 0); [apply hoare_post, runs_console_log|].
  intros _.
  eapply hoare_bind with
    (R := λ _, at_depth 0) (Q := post _ (λ e q, at_depth 0 q ∧ (shutdown_error e ∨ close_error e))).
  - eapply hoare_finally; [by apply (examples_outcome _ 0)|].
    intros r q Hq. assert (at_depth 0 q) as Hq0 by (destruct r; [done | by destruct Hq]).
    pose proof (cleanup_outcome 0 ltac:(done) q Hq0) as Hc.
    destruct (Devin.cleanup q) as [[[]|e'] q']; cbn in *; [|by destruct Hc; auto].
    destruct r as [[]|e]; cbn in *; [done | by destruct Hq; auto].
  - intros _ q Hq. rewrite mfor_console_log. cbn. split; [done | by apply suffix_app_r].
Qed.

End properties.

(** ** Scenarios *)

(** A tracing handler whose shutdown fails. *)
Definition unreachable : @Langfuse WikiStub.host := {|
  langfuse_traceId w := (VStr "trace-1", w);
  langfuse_shutdown w := (Err (mkError ExecutionError "flush failed"), w);
  langfuse_host := VUndefined;
|}.

(** With such a handler the first example ends [main]: the graph has
    run, the error of the shutdown leaves [main] after the [finally] has
    closed the connection, the second example is not run, and the script
    prints the message of the error. *)
Example shutdown_failure_ends_main :
  let p := Mcp.boot WikiStub.wiki in
  let main := @Devin.main WikiStub.host WikiStub.clock WikiStub.server unreachable
                Stub.runtime in
  let script := @Devin.script WikiStub.host WikiStub.clock WikiStub.server unreachable
                  Stub.runtime in
  (main p).1 = Err (mkError ExecutionError "flush failed") ∧
  WikiStub.requests (host (main p).2)
  = ["connect https://mcp.deepwiki.com/sse"; "listTools"; "callTool read_wiki_structure";
     "callTool read_wiki_contents"; "model"; "close"] ∧
  (script p).1 = Ok tt ∧
  last (console (script p).2) = Some "flush failed".
Proof. vm_compute. done. Qed.

(** ** Witnesses *)

Lemma analysis_main_outcome_witness :
  let p := Mcp.boot WikiStub.wiki in
  let main := @Devin.main WikiStub.host WikiStub.clock WikiStub.server WikiStub.langfuse
                Stub.runtime in
  match (main p).1 with
  | Ok _ =>
      @Devin.features WikiStub.host WikiStub.langfuse Stub.runtime
        (@analysis_session WikiStub.host WikiStub.clock p) `suffix_of` console (main p).2
  | Err e =>
      @shutdown_error WikiStub.host WikiStub.langfuse e ∨
      @close_error WikiStub.host WikiStub.server e
  end ∧
  traceDepth (globals (main p).2) = 0%Z ∧
  (@Devin.script WikiStub.host WikiStub.clock WikiStub.server WikiStub.langfuse
     Stub.runtime p).1 = Ok tt.
Proof.
  apply (@analysis_main_outcome WikiStub.host WikiStub.clock WikiStub.server
           WikiStub.langfuse Stub.runtime). reflexivity.
Defined.
