(* ===== verification/McpProtocol.v ===== *)
(** * The protocol of the MCP connection

    The document analysis script talks to the DeepWiki server through one
    connection: [connect] opens it, [listTools] and [callTool] use it,
    [disconnect] closes it. This file records what the script asks of the
    server, in order, and proves that the requests of a run of the script
    follow the protocol of a connection: nothing is asked on a connection
    that is not open.

    The record is ghost state. [logged] turns any server, clock, model and
    tracing service into ones whose world carries the list of the requests
    made to the server so far, each with its outcome; the answers and the
    world underneath are those of the collaborators it is given
    ([Transparency] proves that the script cannot tell the difference).
    The theorems hold for every collaborator so instrumented.

    [links] reads a log as a run of the protocol: the number of
    connections that are open after the log, when no request of the log
    was made without an open connection.

    The proof is an invariant, [sound]: the log is a run of the protocol
    and a connection is open whenever the registered client is connected.
    [frames] says that a computation makes no request and leaves
    [mcpClient] alone, which is most of the script; the methods of the
    client have a triple each; [initMCPClient], the tools, the nodes, the
    routing functions, the walk of the graph ([walk_stable]),
    [runDocumentAnalysis] and the examples keep the invariant, whether
    they return or throw, and the [finally] of [main] leaves a run of the
    protocol. *)

From stdpp Require Import base option list strings.
From Stdlib Require Import ZArith Ascii.
From S2P Require Import Prelude JsValue Engine Walks Messages Host Stubs Trace Regex.
From S2P Require Import McpClient WikiStubs DocumentAnalysis.

(** ** Requests and the protocol *)

(** A request to the server and whether it succeeded. *)
Inductive McpEvent : Type :=
| Connected (url : string) (ok : bool)
| Listed (ok : bool)
| Called (name : string) (args : value) (ok : bool)
| Closed (ok : bool).

(** The number of open connections after a request made with [open]
    connections open; [None] when the request needs a connection and none
    is open. A connection is open once [connect] has succeeded and until
    [close] is asked, whatever [close] answers. *)
Definition after (open : nat) (ev : McpEvent) : option nat :=
  match ev with
  | Connected _ true => Some (S open)
  | Connected _ false => Some open
  | Listed _ | Called _ _ _ => match open with 0 => None | S _ => Some open end
  | Closed _ => match open with 0 => None | S n => Some n end
  end.

(** The open connections after a log that starts with none. *)
Definition links (log : list McpEvent) : option nat :=
  foldl (λ st ev, st ≫= λ open, after open ev) (Some 0) log.

(** The connections the log opened. *)
Definition opened (log : list McpEvent) : nat :=
  length (List.filter (λ ev, match ev with Connected _ true => true | _ => false end) log).

(** The closes the log asked for. *)
Definition closes (log : list McpEvent) : nat :=
  length (List.filter (λ ev, match ev with Closed _ => true | _ => false end) log).

(** The listings of the log that failed. *)
Definition failed_listing (ev : McpEvent) : bool :=
  match ev with Listed false => true | _ => false end.

(** The requests that need an open connection: all but [connect]. *)
Definition needs_connection (ev : McpEvent) : bool :=
  match ev with Connected _ _ => false | _ => true end.

(** ** Instrumented collaborators *)

(** The collaborators of the script. *)
Record Collaborators : Type := mkCollaborators {
  co_host : Host;
  co_clock : @Clock co_host;
  co_server : @McpServer co_host;
  co_langfuse : @Langfuse co_host;
}.

Section logged.
Context (base : Collaborators).

#[local] Abbreviation W := (@World (co_host base)).

(** A call that is not recorded. *)
Definition unlogged {A} (f : W → A * W) (w : W * list McpEvent)
  : A * (W * list McpEvent) :=
  let '(a, w') := f w.1 in (a, (w', w.2)).

(** A request that is recorded with its outcome. *)
Definition logging {A} (ev : bool → McpEvent) (f : W → Res A * W)
    (w : W * list McpEvent) : Res A * (W * list McpEvent) :=
  let '(r, w') := f w.1 in (r, (w', w.2 ++ [ev (is_ok r)])).

Definition logged_host : Host := {|
  World := W * list McpEvent;
  complete tools msgs := unlogged (@complete (co_host base) tools msgs);
|}.

Lemma logged_iso_now_T (w : W * list McpEvent) :
  1 < length (Js.split "T"%char (unlogged (@iso_now _ (co_clock base)) w).1).
Proof.
  unfold unlogged. pose proof (@iso_now_T _ (co_clock base) w.1) as Hw.
  by destruct (iso_now w.1).
Qed.

Definition logged_clock : @Clock logged_host := {|
  iso_now := unlogged (@iso_now _ (co_clock base)) : @World logged_host → _;
  epoch_now := unlogged (@epoch_now _ (co_clock base)) : @World logged_host → _;
  random := unlogged (@random _ (co_clock base)) : @World logged_host → _;
  iso_now_T := logged_iso_now_T;
|}.

Definition logged_server : @McpServer logged_host := {|
  mcp_connect url :=
    logging (Connected url) (@mcp_connect _ (co_server base) url) : @World logged_host → _;
  mcp_listTools := logging Listed (@mcp_listTools _ (co_server base)) : @World logged_host → _;
  mcp_callTool name args :=
    logging (Called name args) (@mcp_callTool _ (co_server base) name args)
    : @World logged_host → _;
  mcp_close := logging Closed (@mcp_close _ (co_server base)) : @World logged_host → _;
|}.

Definition logged_langfuse : @Langfuse logged_host := {|
  langfuse_traceId :=
    unlogged (@langfuse_traceId _ (co_langfuse base)) : @World logged_host → _;
  langfuse_shutdown :=
    unlogged (@langfuse_shutdown _ (co_langfuse base)) : @World logged_host → _;
  langfuse_host := @langfuse_host _ (co_langfuse base);
|}.

Definition logged : Collaborators :=
  mkCollaborators logged_host logged_clock logged_server logged_langfuse.

End logged.

(** ** Lemmas on the protocol *)

Lemma links_snoc log ev : links (log ++ [ev]) = links log ≫= λ open, after open ev.
Proof. unfold links. by rewrite foldl_app. Qed.

Lemma opened_snoc log ev :
  opened (log ++ [ev])
  = opened log + match ev with Connected _ true => 1 | _ => 0 end.
Proof.
  unfold opened. rewrite List.filter_app, length_app. cbn.
  by destruct ev as [url [|]| | |].
Qed.

Lemma closes_snoc log ev :
  closes (log ++ [ev]) = closes log + match ev with Closed _ => 1 | _ => 0 end.
Proof.
  unfold closes. rewrite List.filter_app, length_app. cbn.
  by destruct ev as [url [|]| | |].
Qed.

(** A request on an open connection keeps the log a run of the protocol. *)
Lemma links_listed log n ok :
  links log = Some (S n) → links (log ++ [Listed ok]) = Some (S n).
Proof. intros Hlog. by rewrite links_snoc, Hlog. Qed.

Lemma links_called log n name args ok :
  links log = Some (S n) → links (log ++ [Called name args ok]) = Some (S n).
Proof. intros Hlog. by rewrite links_snoc, Hlog. Qed.

Lemma links_closed log n ok :
  links log = Some (S n) → links (log ++ [Closed ok]) = Some n.
Proof. intros Hlog. by rewrite links_snoc, Hlog. Qed.

Lemma links_connect log n url ok :
  links log = Some n → links (log ++ [Connected url ok]) = Some (if ok then S n else n).
Proof. intros Hlog. rewrite links_snoc, Hlog. by destruct ok. Qed.

Lemma links_app l1 l2 :
  links (l1 ++ l2) = foldl (λ st ev, st ≫= λ open, after open ev) (links l1) l2.
Proof. unfold links. by rewrite foldl_app. Qed.

Lemma links_stuck l : foldl (λ st ev, st ≫= λ open, after open ev) None l = None.
Proof. by induction l. Qed.

(** After a run of the protocol, the connections that are open are those
    the log opened less those it closed. *)
Lemma links_count l n : links l = Some n → n + closes l = opened l.
Proof.
  revert n. induction l as [|ev l IH] using rev_ind; intros n; [by intros [= <-]|].
  rewrite links_snoc, opened_snoc, closes_snoc.
  destruct (links l) as [m|]; [|done]. specialize (IH m eq_refl).
  destruct ev as [url []|ok|name args ok|ok], m as [|m]; cbn; intros [= <-]; lia.
Qed.

(** The start of a run of the protocol is a run of the protocol. *)
Lemma links_prefix l1 l2 : is_Some (links (l1 ++ l2)) → is_Some (links l1).
Proof.
  rewrite links_app. destruct (links l1) as [n|]; [by eexists|].
  rewrite links_stuck. by intros [n Hn].
Qed.

(** In a run of the protocol, a request that needs a connection is made
    when one is open. *)
Lemma links_open l1 ev l2 :
  is_Some (links (l1 ++ ev :: l2)) → needs_connection ev = true →
  ∃ n, links l1 = Some (S n).
Proof.
  rewrite cons_middle, (assoc_L (++)). intros Hl%links_prefix Hev.
  rewrite links_snoc in Hl. destruct Hl as [k Hk].
  destruct (links l1) as [[|n]|]; [by destruct ev as [? []|[]|? ? []|[]] | by eexists | done].
Qed.

(** ** What a computation does to the log and to the registered client *)

Section frames.
Context (base : Collaborators) `{Runtime}.

#[local] Hint Extern 0 Host => exact (logged_host base) : typeclass_instances.
#[local] Hint Extern 0 Clock => exact (logged_clock base) : typeclass_instances.
#[local] Hint Extern 0 McpServer => exact (logged_server base) : typeclass_instances.
#[local] Hint Extern 0 Langfuse => exact (logged_langfuse base) : typeclass_instances.

#[local] Abbreviation Proc := (Process Mcp.Globals).
Implicit Types (p : Proc) (K : Proc → Prop).

(** The requests made so far. *)
Definition log p : list McpEvent := (host p).2.

(** The value of the module-level variable [mcpClient]. *)
Definition registered p : option Mcp.MCPClient := Mcp.mcpClient (globals p).

(** A computation that makes no request and leaves [mcpClient] alone. *)
Definition frames {A} (m : M Proc A) : Prop :=
  ∀ p, log (m p).2 = log p ∧ registered (m p).2 = registered p.

(** A property of the log and of the registered client. *)
Definition on_view (Q : list McpEvent → option Mcp.MCPClient → Prop) : Proc → Prop :=
  λ p, Q (log p) (registered p).

(** [stable K m]: the computation [m] keeps [K], whether it returns or
    throws. *)
Definition stable {A} K (m : M Proc A) : Prop := hoare K m (λ _, K).

Lemma frames_ret {A} (a : A) : frames (ret a).
Proof. done. Qed.

Lemma frames_throw {A} e : frames (@throw _ A e).
Proof. done. Qed.

Lemma frames_lift_res {A} (r : Res A) : frames (lift_res r).
Proof. done. Qed.

Lemma frames_bind {A B} (m : M Proc A) (f : A → M Proc B) :
  frames m → (∀ a, frames (f a)) → frames (x <- m ;; f x).
Proof.
  intros Hm Hf p. specialize (Hm p). unfold bind.
  destruct (m p) as [[a|e] p1]; cbn in *; [|done].
  destruct (Hf a p1) as [-> ->]. done.
Qed.

Lemma frames_try_catch {A} (m : M Proc A) h :
  frames m → (∀ e, frames (h e)) → frames (try_catch m h).
Proof.
  intros Hm Hh p. specialize (Hm p). unfold try_catch.
  destruct (m p) as [[a|e] p1]; cbn in *; [done|].
  destruct (Hh e p1) as [-> ->]. done.
Qed.

Lemma frames_console_log line : frames (console_log line).
Proof. done. Qed.

Lemma frames_get_global {A} (f : Mcp.Globals → A) : frames (get_global f).
Proof. done. Qed.

Lemma frames_set_depth (f : Z → Z) :
  frames (set_global (λ g, set_traceDepth (f (traceDepth g)) g)).
Proof. done. Qed.

Lemma frames_ask {A} (f : @World (co_host base) → A * @World (co_host base)) :
  frames (ask (unlogged base f : @World (logged_host base) → _)).
Proof. intros [[w l] c g]. unfold ask, unlogged. cbn. by destruct (f w). Qed.

Lemma frames_request {A} (f : @World (co_host base) → Res A * @World (co_host base)) :
  frames (request (unlogged base f : @World (logged_host base) → _)).
Proof. intros [[w l] c g]. unfold request, unlogged. cbn. by destruct (f w). Qed.

Lemma frames_invoke_model tools msgs : frames (invoke_model tools msgs).
Proof.
  intros [[w l] c g]. unfold invoke_model. cbn. unfold unlogged. cbn.
  by destruct (complete tools msgs w) as [[[content calls]|e] w'].
Qed.

Lemma frames_mfor {A} (f : A → M Proc unit) (l : list A) :
  (∀ x, frames (f x)) → frames (mfor f l).
Proof.
  intros Hf. induction l as [|x l IH]; cbn [mfor]; [apply frames_ret|].
  by apply frames_bind.
Qed.

(** A computation that frames keeps every property of the log and of the
    registered client. *)
Lemma frames_stable {A} Q (m : M Proc A) : frames m → stable (on_view Q) m.
Proof. intros Hm p Hp. unfold on_view. by destruct (Hm p) as [-> ->]. Qed.

(** *** Sequencing under an invariant *)

Lemma stable_bind {A B} K (m : M Proc A) (f : A → M Proc B) :
  stable K m → (∀ a, stable K (f a)) → stable K (x <- m ;; f x).
Proof.
  intros Hm Hf. eapply hoare_bind with (R := λ _, K); [|done].
  eapply hoare_conseq; [apply Hm | done | by intros [a|e] p].
Qed.

Lemma stable_lift_ok {A B} K (r : Res A) (a : A) (f : A → M Proc B) :
  r = Ok a → stable K (f a) → stable K (x <- lift_res r ;; f x).
Proof. apply hoare_lift_ok. Qed.

(** An invariant that is kept, with a weaker one for the error. *)
Lemma stable_post {A} K (E : Proc → Prop) (m : M Proc A) :
  stable K m → (∀ p, K p → E p) → hoare K m (post (λ _, K) (λ _, E)).
Proof.
  intros Hm HE. eapply hoare_conseq; [apply Hm | done|].
  intros [a|e] p Hp; [done | by apply HE].
Qed.

Lemma stable_try_catch {A} K (m : M Proc A) h :
  stable K m → (∀ e, stable K (h e)) → stable K (try_catch m h).
Proof.
  intros Hm Hh. eapply hoare_try_catch with (E := λ _, K); [|done].
  eapply hoare_conseq; [apply Hm | done | by intros [a|e] p].
Qed.

(** [try { m } finally { fin }]: the [finally] block runs from the
    invariant of the body, whatever the body did. *)
Lemma hoare_try_finally {A} K K' (m : M Proc A) fin :
  stable K m → hoare K fin (λ _, K') → hoare K (try_finally m fin) (λ _, K').
Proof.
  intros Hm Hfin p Hp. specialize (Hm p Hp). unfold try_finally.
  destruct (m p) as [r p1]. cbn in Hm. specialize (Hfin p1 Hm).
  destruct (fin p1) as [[[]|e] p2]; by destruct r.
Qed.

Lemma stable_try_finally {A} K (m : M Proc A) fin :
  stable K m → stable K fin → stable K (try_finally m fin).
Proof. apply hoare_try_finally. Qed.

End frames.

(** One step of a proof that a computation frames: the rule of the
    construct at its head. *)
Ltac frames_step :=
  lazymatch goal with
  | |- frames _ (bind _ _) => apply frames_bind; [|intros ?]
  | |- frames _ (try_catch _ _) => apply frames_try_catch; [|intros ?]
  | |- frames _ (if ?b then _ else _) => destruct b
  | |- frames _ (match ?x with _ => _ end) => destruct x
  | |- frames _ (ret _) => apply frames_ret
  | |- frames _ (throw _) => apply frames_throw
  | |- frames _ (lift_res _) => apply frames_lift_res
  | |- frames _ (console_log _) => apply frames_console_log
  | |- frames _ (get_global _) => apply frames_get_global
  | |- frames _ (set_global _) => apply frames_set_depth
  | |- frames _ (ask _) => apply frames_ask
  | |- frames _ (request _) => apply frames_request
  | |- frames _ (invoke_model _ _) => apply frames_invoke_model
  | |- frames _ (mfor _ _) => apply frames_mfor; intros ?
  end.

Ltac frames_auto := repeat frames_step.

(** One step of a proof that a computation keeps an invariant. *)
Ltac stable_step :=
  lazymatch goal with
  | |- stable _ _ (bind _ _) => apply stable_bind; [|intros ?]
  | |- stable _ _ (try_catch _ _) => apply stable_try_catch; [|intros ?]
  | |- stable _ _ (try_finally _ _) => apply stable_try_finally
  | |- stable _ _ (if ?b then _ else _) => destruct b
  | |- stable _ (on_view _ _) _ => apply frames_stable; solve [frames_auto]
  end.

(** ** The script and the protocol *)

Section protocol.
Context (base : Collaborators) `{Runtime}.

#[local] Hint Extern 0 Host => exact (logged_host base) : typeclass_instances.
#[local] Hint Extern 0 Clock => exact (logged_clock base) : typeclass_instances.
#[local] Hint Extern 0 McpServer => exact (logged_server base) : typeclass_instances.
#[local] Hint Extern 0 Langfuse => exact (logged_langfuse base) : typeclass_instances.

#[local] Abbreviation Proc := (Process Mcp.Globals).
Implicit Types (p : Proc) (K : Proc → Prop).

Lemma frames_trace message data : frames base (Mcp.trace message data).
Proof. unfold Mcp.trace, trace_with, timestamp. frames_auto. Qed.

Lemma frames_traceEnter name input : frames base (Mcp.traceEnter name input).
Proof.
  unfold Mcp.traceEnter, traceEnter_with. apply frames_bind; [apply frames_trace|].
  intros _. apply (frames_set_depth base (λ d, d + 1)%Z).
Qed.

Lemma frames_traceExit name output : frames base (Mcp.traceExit name output).
Proof.
  unfold Mcp.traceExit, traceExit_with.
  apply frames_bind; [apply (frames_set_depth base (λ d, d - 1)%Z)|].
  intros _. apply frames_trace.
Qed.

End protocol.

(** A proof that a computation of the script frames. *)
Ltac frames_more :=
  repeat lazymatch goal with
    | |- frames _ (Mcp.trace _ _) => apply frames_trace
    | |- frames _ (Mcp.traceEnter _ _) => apply frames_traceEnter
    | |- frames _ (Mcp.traceExit _ _) => apply frames_traceExit
    | |- _ => frames_step
    end.

Section invariant.
Context (base : Collaborators) `{Runtime}.

#[local] Hint Extern 0 Host => exact (logged_host base) : typeclass_instances.
#[local] Hint Extern 0 Clock => exact (logged_clock base) : typeclass_instances.
#[local] Hint Extern 0 McpServer => exact (logged_server base) : typeclass_instances.
#[local] Hint Extern 0 Langfuse => exact (logged_langfuse base) : typeclass_instances.

#[local] Abbreviation Proc := (Process Mcp.Globals).
Implicit Types (p : Proc) (K : Proc → Prop).

(** *** The primitives that change the log or the registered client *)

Implicit Types (Q : list McpEvent → option Mcp.MCPClient → Prop).

Lemma hoare_logging {A} ev
    (f : @World (co_host base) → Res A * @World (co_host base)) Q
    (Q' : Res A → list McpEvent → option Mcp.MCPClient → Prop) :
  (∀ l c r, Q l c → Q' r (l ++ [ev (is_ok r)]) c) →
  hoare (on_view base Q) (request (logging base ev f : @World (logged_host base) → _))
        (λ r, on_view base (Q' r)).
Proof.
  intros HQ [[w l] c g] Hp. unfold request, logging, on_view, log, registered in *. cbn in *.
  destruct (f w) as [r w']. cbn. by apply HQ.
Qed.

Lemma hoare_registered Q :
  hoare (on_view base Q) (get_global Mcp.mcpClient)
        (returns (λ c, on_view base (λ l c', Q l c' ∧ c' = c))).
Proof. by intros [[w l] c g] Hp. Qed.

(** [this] returns the registered client. *)
Lemma hoare_this Q :
  hoare (on_view base Q) Mcp.this
        (post (λ c, on_view base (λ l c', Q l c' ∧ c' = Some c)) (λ _, on_view base Q)).
Proof.
  intros [[w l] c [d [cl|]]] Hp; unfold Mcp.this, bind, get_global, gets; cbn; [by split|done].
Qed.

Lemma hoare_set_this (f : Mcp.MCPClient → Mcp.MCPClient) Q :
  hoare (on_view base Q) (Mcp.set_this f)
        (post (λ _, on_view base (λ l c', ∃ c, Q l (Some c) ∧ c' = Some (f c)))
              (λ _, on_view base Q)).
Proof.
  intros [[w l] c [d [cl|]]] Hp;
    unfold Mcp.set_this, Mcp.this, bind, get_global, gets, set_global, modify; cbn; [|done].
  by exists cl.
Qed.

(** A computation that frames, as a triple with an error postcondition. *)
Lemma hoare_frames {A} Q E (m : M Proc A) :
  frames base m → (∀ l c, Q l c → E l c) →
  hoare (on_view base Q) m (post (λ _, on_view base Q) (λ _, on_view base E)).
Proof.
  intros Hm HQ p Hp. unfold on_view in *. destruct (Hm p) as [Hl Hc].
  destruct (m p) as [[a|e] p1]; cbn in *; rewrite Hl, Hc; [done | by apply HQ].
Qed.

(** *** The methods of the client *)

(** The registered client holds a connected SDK client. *)
Definition is_live (c : option Mcp.MCPClient) : Prop :=
  ∃ cl, c = Some cl ∧ is_Some (Mcp.client cl).

(** The log is a run of the protocol. *)
Definition valid : Proc → Prop := on_view base (λ l _, is_Some (links l)).

(** The log is a run of the protocol after which [S n] connections are
    open, and the registered client is connected. *)
Definition live (n : nat) : Proc → Prop :=
  on_view base (λ l c, links l = Some (S n) ∧ is_live c).

(** The log is a run of the protocol, and a connection is open when the
    registered client is connected. *)
Definition sound_view (l : list McpEvent) (c : option Mcp.MCPClient) : Prop :=
  ∃ n, links l = Some n ∧ (is_live c → 0 < n).

Definition sound : Proc → Prop := on_view base sound_view.

Lemma sound_connected l cl :
  sound_view l (Some cl) → is_Some (Mcp.client cl) → ∃ n, links l = Some (S n).
Proof.
  intros (n & Hl & Hn) Hc. destruct n as [|n]; [|by exists n].
  exfalso. apply (Nat.lt_irrefl 0), Hn. by exists cl.
Qed.

Lemma live_sound n p : live n p → sound p.
Proof. intros [Hl Hc]. exists (S n). split; [done | lia]. Qed.

Lemma sound_valid p : sound p → valid p.
Proof. intros (n & Hl & _). by exists n. Qed.

(** [connect] opens a connection and leaves a connected client, or
    throws. *)
Lemma hoare_connect url n :
  hoare (on_view base (λ l c, links l = Some n ∧ is_Some c)) (Mcp.connect url)
        (post (λ _, live n) (λ _, valid)).
Proof.
  unfold Mcp.connect.
  eapply hoare_bind;
    [apply (hoare_frames _ (λ l _, is_Some (links l)));
       [apply frames_trace | by intros l c [-> _]]|].
  intros []. eapply hoare_bind with (R := λ _, on_view base (λ l c, links l = Some n ∧ is_Some c)).
  { eapply hoare_conseq; [apply hoare_set_this | done|].
    intros [[]|e] p; unfold valid, on_view; cbn; [by intros (c & [Hl _] & ->) | intros [Hl _]; eauto]. }
  intros []. eapply hoare_bind with (R := λ _, on_view base (λ l c, links l = Some n ∧ is_live c)).
  { eapply hoare_conseq; [apply hoare_set_this | done|].
    intros [[]|e] p; unfold valid, on_view; cbn; [|intros [Hl _]; eauto].
    intros (c & [Hl _] & ->). split; [done|]. by eexists. }
  intros []. eapply hoare_bind with (R := λ _, live n).
  { eapply hoare_conseq;
      [eapply (hoare_logging (Connected url) _ _
                (λ r l c, match r with
                          | Ok _ => links l = Some (S n) ∧ is_live c
                          | Err _ => is_Some (links l)
                          end))
      | done | by intros [[]|e] p].
    intros l c [[]|e] [Hl Hc]; cbn; rewrite (links_connect _ _ _ _ Hl); eauto. }
  intros []. apply (hoare_frames _ (λ l _, is_Some (links l)));
    [apply frames_trace | by intros l c [-> _]].
Qed.

(** [listTools] and [callTool] keep the invariant: they ask the server
    only when the registered client is connected. *)
Lemma sound_listTools : stable base sound Mcp.listTools.
Proof.
  unfold Mcp.listTools.
  eapply hoare_bind; [apply hoare_this|]. intros c. cbv beta.
  case_bool_decide as Hc; cbn; [|apply hoare_throw; by intros p [Hp _]].
  eapply hoare_bind with (R := λ _, sound).
  { eapply hoare_conseq;
      [eapply (hoare_logging Listed _ _ (λ _, sound_view))
      | done | by intros [a|e] p].
    intros l c' r [Hs ->]. destruct (sound_connected _ _ Hs Hc) as [n Hl].
    exists (S n). split; [by apply links_listed | lia]. }
  intros tools. apply stable_bind; [apply frames_stable, frames_trace|].
  intros _. by apply hoare_ret.
Qed.

Lemma sound_callTool name args : stable base sound (Mcp.callTool name args).
Proof.
  unfold Mcp.callTool.
  eapply hoare_bind; [apply hoare_this|]. intros c. cbv beta.
  case_bool_decide as Hc; cbn; [|apply hoare_throw; by intros p [Hp _]].
  eapply hoare_bind with (R := λ _, on_view base (λ l c', sound_view l c' ∧ c' = Some c));
    [apply (hoare_frames _ sound_view);
       [apply frames_trace | by intros l c' [Hs _]]|].
  intros []. eapply hoare_bind with (R := λ _, sound); [|intros result; by apply hoare_ret].
  eapply hoare_conseq;
    [eapply (hoare_logging (Called name args) _ _
              (λ _, sound_view))
    | done | by intros [a|e] p].
  intros l c' r [Hs ->]. destruct (sound_connected _ _ Hs Hc) as [n Hl].
  exists (S n). split; [by apply links_called | lia].
Qed.

(** [disconnect] closes the connection of a connected client; the client
    stays registered. *)
Lemma valid_disconnect : hoare sound Mcp.disconnect (λ _, valid).
Proof.
  unfold Mcp.disconnect.
  eapply hoare_bind with (R := λ c, on_view base (λ l c', sound_view l c' ∧ c' = Some c));
    [eapply hoare_conseq; [apply hoare_this | done|]|].
  { intros [c|e] p; [done | apply sound_valid]. }
  intros c. cbv beta. case_bool_decide as Hc; cbn;
    [|apply hoare_ret; intros p [Hp _]; by apply sound_valid].
  eapply hoare_bind with (R := λ _, valid) (Q := λ _, valid);
    [|intros _; apply frames_stable, frames_trace].
  eapply hoare_conseq;
    [eapply (hoare_logging Closed _ _ (λ _ l _, is_Some (links l))) | done
    | by intros [a|e] p].
  intros l c' r [Hs ->]. destruct (sound_connected _ _ Hs Hc) as [n Hl].
  by rewrite (links_closed _ _ _ Hl).
Qed.

(** [initMCPClient] keeps the invariant: when the connection or the
    listing fails, its handler forgets the client, and no request follows
    on it. *)
Lemma sound_initMCPClient : stable base sound Mcp.initMCPClient.
Proof.
  unfold Mcp.initMCPClient.
  eapply hoare_bind; [apply hoare_post, hoare_registered|]. intros existing. cbv beta.
  case_bool_decide as He; [apply hoare_ret; by intros p [Hp _]|].
  eapply hoare_bind
    with (R := λ _ p, ∃ n, on_view base (λ l c, links l = Some n ∧ is_Some c) p).
  { intros [[w l] c g] [(n & Hl & _) _]. exists n. split; [done | by eexists]. }
  intros []. eapply hoare_bind with (R := λ _, sound);
    [|intros []; apply frames_stable, frames_get_global].
  intros p [n Hp]. revert p Hp. eapply hoare_try_catch with (E := λ _, valid).
  - eapply hoare_bind with (R := λ _, sound).
    + eapply hoare_conseq;
        [apply (hoare_connect _ n) | done | intros [[]|e] p; [apply live_sound | done]].
    + intros []. apply stable_post; [|apply sound_valid].
      repeat stable_step; first [apply sound_listTools | apply frames_stable; frames_auto].
  - intros e [[w l] c g] [k Hl]. exists k. split; [done|]. by intros (cl & [=] & _).
Qed.

(** *** The tools, the nodes and the script *)

Lemma sound_frames {A} (m : M Proc A) : frames base m → stable base sound m.
Proof. apply frames_stable. Qed.

#[local] Ltac sound_with tac :=
  repeat first [tac | stable_step | apply sound_frames; solve [frames_more]].

#[local] Ltac sound_tools :=
  sound_with ltac:(idtac; lazymatch goal with
    | |- stable _ _ Mcp.initMCPClient => apply sound_initMCPClient
    | |- stable _ _ (Mcp.callTool _ _) => apply sound_callTool
    end).

Lemma sound_readWikiStructure repoName : stable base sound (Mcp.readWikiStructure repoName).
Proof.
  unfold Mcp.readWikiStructure.
  sound_tools.
Qed.

Lemma sound_readWikiContents repoName : stable base sound (Mcp.readWikiContents repoName).
Proof.
  unfold Mcp.readWikiContents.
  sound_tools.
Qed.

Lemma sound_askQuestion repoName question :
  stable base sound (Mcp.askQuestion repoName question).
Proof.
  unfold Mcp.askQuestion.
  sound_tools.
Qed.

(** Every node of the graph keeps the invariant. *)
Lemma sound_nodes name fn state :
  (name, fn) ∈ sg_nodes Devin.graph_builder → stable base sound (fn state).
Proof.
  intros Hin. cbn in Hin. elem_cases Hin; simplify_eq;
    unfold Devin.fetchWikiStructureNode, Devin.fetchWikiContentsNode,
      Devin.answerQuestionNode, Devin.analyzeInsightsNode, Devin.generateSummaryNode;
    sound_with ltac:(idtac; lazymatch goal with
      | |- stable _ _ (Mcp.readWikiStructure _) => apply sound_readWikiStructure
      | |- stable _ _ (Mcp.readWikiContents _) => apply sound_readWikiContents
      | |- stable _ _ (Mcp.askQuestion _ _) => apply sound_askQuestion
      end).
Qed.

(** So does every routing function. *)
Lemma sound_routers src router ends state :
  (src, Conditional router ends) ∈ sg_edges Devin.graph_builder →
  stable base sound (router state).
Proof.
  intros Hin. cbn in Hin. elem_cases Hin; simplify_eq;
    apply sound_frames; unfold Devin.checkError, Devin.shouldAnswerQuestion; frames_more.
Qed.

Lemma sound_runDocumentAnalysis repoName userQuestion sessionId :
  stable base sound (Devin.runDocumentAnalysis repoName userQuestion sessionId).
Proof.
  unfold Devin.runDocumentAnalysis.
  sound_with ltac:(idtac; lazymatch goal with
    | |- stable _ _ (bind (lift_res Devin.graph) _) =>
        eapply stable_lift_ok; [apply graph_compiles|]; cbv beta
    | |- stable _ _ (invoke _ _ _) =>
        apply invoke_stable; [apply sound_nodes | apply sound_routers]
    end).
Qed.

Lemma sound_examples sessionId : stable base sound (Devin.examples sessionId).
Proof.
  unfold Devin.examples, Devin.heading, Devin.report1, Devin.report2, Devin.print_traceId.
  sound_with ltac:(idtac; lazymatch goal with
    | |- stable _ _ (Devin.runDocumentAnalysis _ _ _) => apply sound_runDocumentAnalysis
    end).
Qed.

(** The [finally] of [main] closes the connection of the registered
    client. *)
Lemma valid_cleanup : hoare sound Devin.cleanup (λ _, valid).
Proof.
  unfold Devin.cleanup.
  eapply hoare_bind with (R := λ _, sound);
    [apply stable_post; [apply sound_frames, frames_get_global | apply sound_valid]|].
  intros c. case_bool_decide; [apply valid_disconnect|].
  apply hoare_ret. intros p. apply sound_valid.
Qed.

Lemma valid_main : hoare sound Devin.main (λ _, valid).
Proof.
  unfold Devin.main.
  repeat (eapply hoare_bind with (R := λ _, sound);
    [apply stable_post; [apply sound_frames; solve [frames_more] | apply sound_valid]
    |intros ?]).
  eapply hoare_bind with (R := λ _, valid);
    [|intros []; apply frames_stable; frames_more].
  eapply hoare_conseq;
    [eapply hoare_try_finally; [apply sound_examples | apply valid_cleanup]
    | done | by intros [?|?] ?].
Qed.

Lemma valid_script : hoare sound Devin.script (λ _, valid).
Proof.
  unfold Devin.script. eapply hoare_try_catch with (E := λ _, valid).
  - eapply hoare_conseq; [apply valid_main | done | by intros [a|e] p].
  - intros e. apply frames_stable, frames_console_log.
Qed.

End invariant.

(** ** The requests of a run *)

Section conformance.
Context (base : Collaborators) `{Runtime}.

#[local] Hint Extern 0 Host => exact (logged_host base) : typeclass_instances.
#[local] Hint Extern 0 Clock => exact (logged_clock base) : typeclass_instances.
#[local] Hint Extern 0 McpServer => exact (logged_server base) : typeclass_instances.
#[local] Hint Extern 0 Langfuse => exact (logged_langfuse base) : typeclass_instances.

#[local] Abbreviation Proc := (Process Mcp.Globals).
Implicit Types (p : Proc).

(** A process that has asked nothing of the server and has no client
    satisfies the invariant. *)
Lemma fresh_sound p : log base p = [] → registered base p = None → sound base p.
Proof.
  intros Hl Hc. exists 0. rewrite Hl, Hc. split; [done|]. by intros (cl & [=] & _).
Qed.

(** C16. The requests of a run of the script follow the protocol: run in a
    process that has asked nothing of the server and has no client, with
    any server, model, clock and tracing service, the script asks for a
    listing, for a tool call or for the end of the connection only while
    a connection that it opened is open, whether the requests succeed or
    fail and however the run ends. *)
Theorem requests_on_open_connection p before ev later :
  log base p = [] → registered base p = None →
  log base (Devin.script p).2 = before ++ ev :: later →
  needs_connection ev = true →
  ∃ n, links before = Some (S n).
Proof.
  intros Hl Hc Hlog Hev. eapply links_open; [|done]. rewrite <- Hlog.
  apply (valid_script base p). exact (fresh_sound p Hl Hc).
Qed.

End conformance.

(** ** Test doubles *)

Module ProtocolStub.

(** The test doubles of the document analysis, as collaborators. *)
Definition wiki : Collaborators :=
  mkCollaborators WikiStub.host WikiStub.clock WikiStub.server WikiStub.langfuse.

(** A server that accepts connections and fails to list its tools. *)
Definition unlisted_server : @McpServer WikiStub.host := {|
  mcp_connect := @mcp_connect _ WikiStub.server;
  mcp_listTools w :=
    (Err (mkError ExecutionError "tools/list failed"), WikiStub.record "listTools" w);
  mcp_callTool := @mcp_callTool _ WikiStub.server;
  mcp_close := @mcp_close _ WikiStub.server;
|}.

Definition unlisted : Collaborators :=
  mkCollaborators WikiStub.host WikiStub.clock unlisted_server WikiStub.langfuse.

(** A process of the instrumented script that has asked nothing. *)
Definition boot (c : Collaborators) (w : @World (co_host c))
  : @Process (logged_host c) Mcp.Globals :=
  mkProcess ((w, []) : @World (logged_host c)) [] (Mcp.mkGlobals 0 None).

(** The instrumented script. *)
Definition script (c : Collaborators)
  : M (@Process (logged_host c) Mcp.Globals) unit :=
  @Devin.script (logged_host c) (logged_clock c) (logged_server c) (logged_langfuse c)
    Stub.runtime.

End ProtocolStub.

(** ** Witnesses *)

Lemma requests_on_open_connection_witness :
  ∃ n, links [Connected "https://mcp.deepwiki.com/sse" true; Listed true] = Some (S n).
Proof.
  apply (@requests_on_open_connection ProtocolStub.wiki Stub.runtime
           (ProtocolStub.boot ProtocolStub.wiki WikiStub.wiki)
           [Connected "https://mcp.deepwiki.com/sse" true; Listed true]
           (Called "read_wiki_structure" (VObj [("repoName", VStr "facebook/react")]) true)
           [Called "read_wiki_contents" (VObj [("repoName", VStr "facebook/react")]) true;
            Called "read_wiki_structure" (VObj [("repoName", VStr "vercel/next.js")]) true;
            Called "read_wiki_contents" (VObj [("repoName", VStr "vercel/next.js")]) false;
            Closed true]);
    [reflexivity | reflexivity | vm_compute; reflexivity | reflexivity].
Defined.

(** A server that accepts connections and fails to list its tools: the
    script opens a connection for each of its two analyses, closes neither,
    and ends with no client registered. *)
Example failed_listing_leaks :
  let p := (ProtocolStub.script ProtocolStub.unlisted
              (ProtocolStub.boot ProtocolStub.unlisted WikiStub.wiki)).2 in
  log ProtocolStub.unlisted p
  = [Connected "https://mcp.deepwiki.com/sse" true; Listed false;
     Connected "https://mcp.deepwiki.com/sse" true; Listed false]
  ∧ links (log ProtocolStub.unlisted p) = Some 2
  ∧ registered ProtocolStub.unlisted p = None.
Proof. by vm_compute. Qed.
