(* ===== verification/Transparency.v ===== *)
(** * The record of the requests is transparent

    [McpProtocol] and [Connections] reason about the document analysis
    script run with instrumented collaborators, whose world carries the
    list of the requests made to the server. This file proves that the
    instrumentation changes nothing: the instrumented script simulates the
    script, function by function, so that what is proved of the requests of
    the one is true of the requests of the other.

    [erased] relates a process of the instrumented script to the process
    without the log; [transparent f] says that [f] run with the
    instrumented collaborators and [f] run with the collaborators
    themselves return or throw the same and leave related processes. The
    proofs follow the code: one lemma per function, each from the lemmas of
    the functions it calls, and [graph_transparent] for the graph as a
    whole through the simulation of walks of [Walks]. *)

From stdpp Require Import base option list strings.
From Stdlib Require Import ZArith.
From S2P Require Import Prelude JsValue Engine Walks Messages Host Stubs Trace.
From S2P Require Import McpClient WikiStubs DocumentAnalysis McpProtocol.

(** ** Processes without the log *)

Section erasure.
Context (base : Collaborators) `{Runtime}.

#[local] Abbreviation G := Mcp.Globals.

(** The process of the script under the process of the instrumented
    script: the same process without the log. *)
Definition erased (p : @Process (logged_host base) G) (q : @Process (co_host base) G)
  : Prop :=
  (host p).1 = host q ∧ console p = console q ∧ globals p = globals q.

(** A computation of the script, for any collaborators. *)
Definition Generic (A : Type) : Type :=
  ∀ (host : Host), @Clock host → @McpServer host → @Langfuse host →
    M (@Process host G) A.

Definition over (c : Collaborators) {A} (f : Generic A) : M (@Process (co_host c) G) A :=
  f (co_host c) (co_clock c) (co_server c) (co_langfuse c).

(** With the instrumented collaborators, [f] returns or throws what it
    does with the collaborators themselves, and leaves the same process. *)
Definition transparent {A} (f : Generic A) : Prop :=
  msim erased (over (logged base) f) (over base f).

Lemma erased_console_log line : msim erased (console_log line) (console_log line).
Proof. intros [[w l] c g] [w' c' g'] (Hw & Hc & Hg). cbn in *. by subst. Qed.

Lemma erased_get_global {A} (f : G → A) : msim erased (get_global f) (get_global f).
Proof. intros [[w l] c g] [w' c' g'] (Hw & Hc & Hg). cbn in *. by subst. Qed.

Lemma erased_set_global (f : G → G) : msim erased (set_global f) (set_global f).
Proof. intros [[w l] c g] [w' c' g'] (Hw & Hc & Hg). cbn in *. by subst. Qed.

Lemma erased_ask {A} (f : @World (co_host base) → A * @World (co_host base)) :
  msim erased (ask (unlogged base f : @World (logged_host base) → _)) (ask f).
Proof.
  intros [[w l] c g] [w' c' g'] (Hw & Hc & Hg). unfold ask, unlogged. cbn in *. subst.
  by destruct (f w').
Qed.

Lemma erased_request {A} (f : @World (co_host base) → Res A * @World (co_host base)) :
  msim erased (request (unlogged base f : @World (logged_host base) → _)) (request f).
Proof.
  intros [[w l] c g] [w' c' g'] (Hw & Hc & Hg). unfold request, unlogged. cbn in *. subst.
  by destruct (f w').
Qed.

Lemma erased_logging {A} ev (f : @World (co_host base) → Res A * @World (co_host base)) :
  msim erased (request (logging base ev f : @World (logged_host base) → _)) (request f).
Proof.
  intros [[w l] c g] [w' c' g'] (Hw & Hc & Hg). unfold request, logging. cbn in *. subst.
  by destruct (f w').
Qed.

Lemma erased_invoke_model tools msgs :
  msim erased (invoke_model tools msgs) (invoke_model tools msgs).
Proof.
  intros [[w l] c g] [w' c' g'] (Hw & Hc & Hg). unfold invoke_model, unlogged. cbn in *.
  subst. unfold unlogged. cbn. by destruct (complete tools msgs w') as [[[content calls]|e] w1].
Qed.

(** A value that is known, on both sides. *)
Lemma erased_lift_ok {A1 A2 B} (r1 : Res A1) (r2 : Res A2) a1 a2
    (f1 : A1 → M (@Process (logged_host base) G) B) (f2 : A2 → M (@Process (co_host base) G) B) :
  r1 = Ok a1 → r2 = Ok a2 → msim erased (f1 a1) (f2 a2) →
  msim erased (x <- lift_res r1 ;; f1 x) (x <- lift_res r2 ;; f2 x).
Proof. intros -> -> Hf p q Hpq. exact (Hf p q Hpq). Qed.

End erasure.

(** One step of a proof that two computations simulate each other: the
    rule of the construct at their heads. *)
Ltac erased_step :=
  lazymatch goal with
  | |- msim _ (bind _ _) (bind _ _) => apply msim_bind; [|intros ?]
  | |- msim _ (try_catch _ _) _ => apply msim_try_catch; [|intros ?]
  | |- msim _ (try_finally _ _) _ => apply msim_try_finally
  | |- msim _ (if ?b then _ else _) _ => destruct b
  | |- msim _ (match ?x with _ => _ end) _ => destruct x
  | |- msim _ (ret _) _ => apply msim_ret
  | |- msim _ (throw _) _ => apply msim_throw
  | |- msim _ (lift_res _) _ => apply msim_lift_res
  | |- msim _ (console_log _) _ => apply erased_console_log
  | |- msim _ (get_global _) _ => apply erased_get_global
  | |- msim _ (set_global _) _ => apply erased_set_global
  | |- msim _ (ask _) _ => apply erased_ask
  | |- msim _ (request _) _ => first [apply erased_request | apply erased_logging]
  | |- msim _ (invoke_model _ _) _ => apply erased_invoke_model
  | |- msim _ (mfor _ _) _ => apply msim_mfor; intros ?
  end.

(** The goal [transparent base f], as a simulation. *)
Ltac transparent_open :=
  unfold transparent, over; cbn [co_host co_clock co_server co_langfuse logged].

Section transparency.
Context (base : Collaborators) `{Runtime}.

Lemma transparent_trace message data :
  transparent base (λ _ _ _ _, Mcp.trace message data).
Proof.
  transparent_open. unfold Mcp.trace, trace_with, timestamp. repeat erased_step.
Qed.

Lemma transparent_traceEnter name input :
  transparent base (λ _ _ _ _, Mcp.traceEnter name input).
Proof.
  transparent_open. unfold Mcp.traceEnter, traceEnter_with.
  apply msim_bind; [exact (transparent_trace _ _) | intros ?; apply erased_set_global].
Qed.

Lemma transparent_traceExit name output :
  transparent base (λ _ _ _ _, Mcp.traceExit name output).
Proof.
  transparent_open. unfold Mcp.traceExit, traceExit_with.
  apply msim_bind; [apply erased_set_global | intros ?; exact (transparent_trace _ _)].
Qed.

#[local] Ltac erased_with tac :=
  repeat first
    [ erased_step
    | lazymatch goal with
      | |- msim _ (Mcp.trace _ _) _ => exact (transparent_trace _ _)
      | |- msim _ (Mcp.traceEnter _ _) _ => exact (transparent_traceEnter _ _)
      | |- msim _ (Mcp.traceExit _ _) _ => exact (transparent_traceExit _ _)
      end
    | tac ].

Lemma transparent_connect url : transparent base (λ _ _ _ _, Mcp.connect url).
Proof.
  transparent_open. unfold Mcp.connect, Mcp.set_this, Mcp.this. erased_with fail.
Qed.

Lemma transparent_listTools : transparent base (λ _ _ _ _, Mcp.listTools).
Proof. transparent_open. unfold Mcp.listTools, Mcp.this. erased_with fail. Qed.

Lemma transparent_callTool name args :
  transparent base (λ _ _ _ _, Mcp.callTool name args).
Proof. transparent_open. unfold Mcp.callTool, Mcp.this. erased_with fail. Qed.

Lemma transparent_disconnect : transparent base (λ _ _ _ _, Mcp.disconnect).
Proof. transparent_open. unfold Mcp.disconnect, Mcp.this. erased_with fail. Qed.

Lemma transparent_initMCPClient : transparent base (λ _ _ _ _, Mcp.initMCPClient).
Proof.
  transparent_open. unfold Mcp.initMCPClient.
  erased_with ltac:(idtac; lazymatch goal with
    | |- msim _ (Mcp.connect _) _ => exact (transparent_connect _)
    | |- msim _ Mcp.listTools _ => exact transparent_listTools
    end).
Qed.

#[local] Ltac erased_tools :=
  erased_with ltac:(idtac; lazymatch goal with
    | |- msim _ Mcp.initMCPClient _ => exact transparent_initMCPClient
    | |- msim _ (Mcp.callTool _ _) _ => exact (transparent_callTool _ _)
    end).

Lemma transparent_readWikiStructure repoName :
  transparent base (λ _ _ _ _, Mcp.readWikiStructure repoName).
Proof. transparent_open. unfold Mcp.readWikiStructure. erased_tools. Qed.

Lemma transparent_readWikiContents repoName :
  transparent base (λ _ _ _ _, Mcp.readWikiContents repoName).
Proof. transparent_open. unfold Mcp.readWikiContents. erased_tools. Qed.

Lemma transparent_askQuestion repoName question :
  transparent base (λ _ _ _ _, Mcp.askQuestion repoName question).
Proof. transparent_open. unfold Mcp.askQuestion. erased_tools. Qed.

#[local] Ltac erased_nodes :=
  erased_with ltac:(idtac; lazymatch goal with
    | |- msim _ (Mcp.readWikiStructure _) _ => exact (transparent_readWikiStructure _)
    | |- msim _ (Mcp.readWikiContents _) _ => exact (transparent_readWikiContents _)
    | |- msim _ (Mcp.askQuestion _ _) _ => exact (transparent_askQuestion _ _)
    end).

Lemma transparent_fetchWikiStructureNode state :
  transparent base (λ _ _ _ _, Devin.fetchWikiStructureNode state).
Proof. transparent_open. unfold Devin.fetchWikiStructureNode. erased_nodes. Qed.

Lemma transparent_fetchWikiContentsNode state :
  transparent base (λ _ _ _ _, Devin.fetchWikiContentsNode state).
Proof. transparent_open. unfold Devin.fetchWikiContentsNode. erased_nodes. Qed.

Lemma transparent_answerQuestionNode state :
  transparent base (λ _ _ _ _, Devin.answerQuestionNode state).
Proof. transparent_open. unfold Devin.answerQuestionNode. erased_nodes. Qed.

Lemma transparent_analyzeInsightsNode state :
  transparent base (λ _ _ _ _, Devin.analyzeInsightsNode state).
Proof. transparent_open. unfold Devin.analyzeInsightsNode. erased_nodes. Qed.

Lemma transparent_generateSummaryNode state :
  transparent base (λ _ _ _ _, Devin.generateSummaryNode state).
Proof. transparent_open. unfold Devin.generateSummaryNode. erased_nodes. Qed.

Lemma transparent_checkError state :
  transparent base (λ _ _ _ _, Devin.checkError state).
Proof. transparent_open. unfold Devin.checkError. erased_nodes. Qed.

Lemma transparent_shouldAnswerQuestion state :
  transparent base (λ _ _ _ _, Devin.shouldAnswerQuestion state).
Proof. transparent_open. unfold Devin.shouldAnswerQuestion. erased_nodes. Qed.

(** The graph of the instrumented script simulates the graph of the
    script. *)
Lemma graph_transparent :
  graph_sim (erased base)
    (@Devin.graph_builder (logged_host base) (logged_clock base) (logged_server base) _)
    (@Devin.graph_builder (co_host base) (co_clock base) (co_server base) _).
Proof.
  split; cbn; repeat (constructor; [split; [done|]; cbn|]);
    first [ exact transparent_fetchWikiStructureNode
          | exact transparent_fetchWikiContentsNode
          | exact transparent_answerQuestionNode
          | exact transparent_analyzeInsightsNode
          | exact transparent_generateSummaryNode
          | apply static_sim
          | apply conditional_sim; exact transparent_checkError
          | apply conditional_sim; exact transparent_shouldAnswerQuestion
          | constructor ].
Qed.

Lemma transparent_runDocumentAnalysis repoName userQuestion sessionId :
  transparent base (λ _ _ _ _, Devin.runDocumentAnalysis repoName userQuestion sessionId).
Proof.
  transparent_open. unfold Devin.runDocumentAnalysis.
  erased_with ltac:(idtac; lazymatch goal with
    | |- msim _ (bind (lift_res Devin.graph) _) _ =>
        eapply erased_lift_ok; [apply graph_compiles..|]; cbv beta
    | |- msim _ (invoke _ _ _) _ => apply invoke_sim, graph_transparent
    end).
Qed.

Lemma transparent_examples sessionId :
  transparent base (λ _ _ _ _, Devin.examples sessionId).
Proof.
  transparent_open.
  unfold Devin.examples, Devin.heading, Devin.report1, Devin.report2, Devin.print_traceId.
  erased_with ltac:(idtac; lazymatch goal with
    | |- msim _ (Devin.runDocumentAnalysis ?repo ?question ?session) _ =>
        exact (transparent_runDocumentAnalysis repo question session)
    end).
Qed.

Lemma transparent_cleanup : transparent base (λ _ _ _ _, Devin.cleanup).
Proof.
  transparent_open. unfold Devin.cleanup.
  erased_with ltac:(idtac; lazymatch goal with
    | |- msim _ Mcp.disconnect _ => exact transparent_disconnect
    end).
Qed.

Lemma transparent_main : transparent base (λ _ _ _ _, Devin.main).
Proof.
  transparent_open. unfold Devin.main, Devin.features.
  erased_with ltac:(idtac; lazymatch goal with
    | |- msim _ (Devin.examples _) _ => exact (transparent_examples _)
    | |- msim _ Devin.cleanup _ => exact transparent_cleanup
    end).
Qed.

Lemma transparent_script : transparent base (λ _ _ _ _, Devin.script).
Proof.
  transparent_open. unfold Devin.script.
  apply msim_try_catch; [exact transparent_main | intros e; apply erased_console_log].
Qed.

End transparency.

(** ** The script *)

Section script.
Context (base : Collaborators) `{Runtime}.


End script.

(** ** Witnesses *)

