(* ===== verification/Connections.v ===== *)
(** * The connections a run leaves open

    [McpProtocol] shows that the document analysis script asks nothing on
    a connection that is not open. This file counts the connections: it
    proves that the connections still open when the script ends are as
    many as the listings of tools that failed. [initMCPClient] forgets its
    client when the listing fails after the connection was made, and the
    [finally] of [main] closes the connection of the client that is
    registered, so that a run in which every listing succeeds closes what
    it opened, and a run in which a listing fails leaves that connection
    open.

    The count needs the trace counter: below zero [trace] throws, and a
    [trace] that throws between a successful [connect] and the end of
    [initMCPClient] would lose a connection without a failed listing. The
    invariants of this file therefore pair a depth of the trace counter
    with a property of the log and of the registered client. *)

From stdpp Require Import base option list strings.
From Stdlib Require Import ZArith Lia.
From S2P Require Import Prelude JsValue Engine Walks Messages Host Trace.
From S2P Require Import Stubs WikiStubs McpClient DocumentAnalysis McpProtocol.

(** ** The account of a log *)

(** The listings of the log that failed. *)
Definition leaked (log : list McpEvent) : nat :=
  length (List.filter failed_listing log).

(** The registered client holds a connected SDK client. *)
Definition liveb (c : option Mcp.MCPClient) : bool :=
  match c with
  | Some cl => bool_decide (is_Some (Mcp.client cl))
  | None => false
  end.

(** The connections that are open are those of the listings that
    failed. *)
Definition settled (log : list McpEvent) : Prop := links log = Some (leaked log).

(** The connections that are open are those of the listings that failed
    and the connection of the registered client, when it is connected. *)
Definition tight (log : list McpEvent) (c : option Mcp.MCPClient) : Prop :=
  links log = Some (leaked log + (if liveb c then 1 else 0)).

Lemma leaked_snoc log ev :
  leaked (log ++ [ev]) = leaked log + (if failed_listing ev then 1 else 0).
Proof.
  unfold leaked. rewrite List.filter_app, length_app. cbn.
  by destruct (failed_listing ev).
Qed.

Lemma liveb_live c : liveb c = true ↔ is_live c.
Proof.
  destruct c as [cl|]; cbn; [rewrite bool_decide_eq_true|].
  - split; [by exists cl | by intros (cl' & [= <-] & Hc)].
  - split; [done | by intros (cl & [=] & _)].
Qed.

Lemma tight_settled log : tight log None ↔ settled log.
Proof. unfold tight, settled. cbn. by rewrite Nat.add_0_r. Qed.

(** A tight log is a run of the protocol, with a connection open when the
    client is connected. *)
Lemma tight_sound log c : tight log c → sound_view log c.
Proof.
  intros Hl. eexists. split; [done|]. intros Hc%liveb_live. rewrite Hc. lia.
Qed.

(** The account through the requests. *)
Lemma tight_connected log c url :
  settled log → liveb c = true → tight (log ++ [Connected url true]) c.
Proof.
  unfold settled, tight. intros Hl ->.
  rewrite (links_connect _ _ _ _ Hl), leaked_snoc. cbn. f_equal. lia.
Qed.

Lemma settled_refused log url : settled log → settled (log ++ [Connected url false]).
Proof.
  unfold settled. intros Hl. rewrite (links_connect _ _ _ _ Hl), leaked_snoc. cbn.
  f_equal. lia.
Qed.

Lemma tight_listed log c : tight log c → liveb c = true → tight (log ++ [Listed true]) c.
Proof.
  unfold tight. intros Hl Hc. rewrite Hc, Nat.add_1_r in *.
  rewrite (links_listed _ _ _ Hl), leaked_snoc. cbn. f_equal. lia.
Qed.

Lemma settled_unlisted log c :
  tight log c → liveb c = true → settled (log ++ [Listed false]).
Proof.
  unfold tight, settled. intros Hl Hc. rewrite Hc, Nat.add_1_r in *.
  rewrite (links_listed _ _ _ Hl), leaked_snoc. cbn. f_equal. lia.
Qed.

Lemma tight_called log c name args ok :
  tight log c → liveb c = true → tight (log ++ [Called name args ok]) c.
Proof.
  unfold tight. intros Hl Hc. rewrite Hc, Nat.add_1_r in *.
  rewrite (links_called _ _ _ _ _ Hl), leaked_snoc. cbn. f_equal. lia.
Qed.

Lemma settled_closed log c ok :
  tight log c → liveb c = true → settled (log ++ [Closed ok]).
Proof.
  unfold tight, settled. intros Hl Hc. rewrite Hc, Nat.add_1_r in *.
  rewrite (links_closed _ _ _ Hl), leaked_snoc. cbn. f_equal. lia.
Qed.

(** ** Invariants at a depth of the trace counter *)

Section accounting.
Context (base : Collaborators) `{Runtime}.

#[local] Hint Extern 0 Host => exact (logged_host base) : typeclass_instances.
#[local] Hint Extern 0 Clock => exact (logged_clock base) : typeclass_instances.
#[local] Hint Extern 0 McpServer => exact (logged_server base) : typeclass_instances.
#[local] Hint Extern 0 Langfuse => exact (logged_langfuse base) : typeclass_instances.

#[local] Abbreviation Proc := (Process Mcp.Globals).
#[local] Abbreviation View := (list McpEvent → option Mcp.MCPClient → Prop).
Implicit Types (p : Proc) (d : Z) (T Q : View).

(** The trace counter is [d] and the log and the registered client
    satisfy [T]. *)
Definition inv T d : Proc → Prop := λ p, at_depth d p ∧ on_view base T p.

Lemma inv_impl T T' d p : (∀ l c, T l c → T' l c) → inv T d p → inv T' d p.
Proof. intros HT [Hd Hp]. split; [done | by apply HT]. Qed.

(** A computation that keeps the counter and whose effect on the log and
    on the registered client is known. *)
Lemma inv_keeps {A} Q (R : A → View) (E : JsError → View) d (m : M Proc A) :
  keeps d m →
  hoare (on_view base Q) m (post (λ a, on_view base (R a)) (λ e, on_view base (E e))) →
  hoare (inv Q d) m (post (λ a, inv (R a) d) (λ e, inv (E e) d)).
Proof.
  intros Hk Hv p [Hd Hp]. specialize (Hk p Hd). specialize (Hv p Hp).
  destruct (m p) as [[a|e] p1]; by split.
Qed.

(** A computation that frames and keeps the counter keeps the
    invariant. *)
Lemma inv_frames {A} T d (m : M Proc A) :
  frames base m → keeps d m → stable base (inv T d) m.
Proof.
  intros Hf Hk p [Hd Hp]. split; [by apply Hk | by apply (frames_stable base T m Hf)].
Qed.

(** A computation that frames and returns. *)
Lemma inv_returns {A} T d d' (m : M Proc A) :
  frames base m → hoare (at_depth d) m (returns (λ _, at_depth d')) →
  hoare (inv T d) m (returns (λ _, inv T d')).
Proof.
  intros Hf Hr p [Hd Hp]. specialize (Hr p Hd).
  pose proof (frames_stable base T m Hf p Hp) as Hv.
  destruct (m p) as [[a|e] p1]; [by split | done].
Qed.

Lemma inv_runs {A} T d (m : M Proc A) :
  frames base m → runs d m → hoare (inv T d) m (returns (λ _, inv T d)).
Proof. apply inv_returns. Qed.

(** At a depth from zero on, [trace] returns. *)
Lemma inv_trace T d message data :
  (0 ≤ d)%Z → hoare (inv T d) (Mcp.trace message data) (returns (λ _, inv T d)).
Proof. intros Hd. apply inv_returns; [apply frames_trace | by apply trace_runs]. Qed.

Lemma inv_traceEnter T d name input :
  (0 ≤ d)%Z → hoare (inv T d) (Mcp.traceEnter name input) (returns (λ _, inv T (d + 1))).
Proof. intros Hd. apply inv_returns; [apply frames_traceEnter | by apply enter_hoare]. Qed.

Lemma inv_traceExit T d name output :
  (0 ≤ d)%Z → hoare (inv T (d + 1)) (Mcp.traceExit name output) (returns (λ _, inv T d)).
Proof. intros Hd. apply inv_returns; [apply frames_traceExit | by apply exit_back]. Qed.

(** A request that is recorded. *)
Lemma inv_logging {A} ev
    (f : @World (co_host base) → Res A * @World (co_host base)) Q (R E : View) d :
  (∀ l c, Q l c → R (l ++ [ev true]) c) → (∀ l c, Q l c → E (l ++ [ev false]) c) →
  hoare (inv Q d) (request (logging base ev f : @World (logged_host base) → _))
        (post (λ _, inv R d) (λ _, inv E d)).
Proof.
  intros HR HE. apply (inv_keeps Q (λ _, R) (λ _, E)); [apply preserves_request|].
  eapply hoare_conseq;
    [apply (hoare_logging base ev f Q (λ r, if is_ok r then R else E)) | done
    | by intros [a|e] p].
  intros l c [a|e] Hq; cbn; auto.
Qed.

(** Reads and writes of [mcpClient]. *)
Lemma inv_registered T d :
  hoare (inv T d) (get_global Mcp.mcpClient)
        (returns (λ c, inv (λ l c', T l c' ∧ c' = c) d)).
Proof. by intros [[w l] co g] [Hd Hp]. Qed.

Lemma inv_register (c' : option Mcp.MCPClient) Q Q' d :
  (∀ l c, Q l c → Q' l c') →
  hoare (inv Q d) (set_global (Mcp.set_mcpClient c')) (returns (λ _, inv Q' d)).
Proof. intros HQ [[w l] co g] [Hd Hp]. split; [done | exact (HQ _ _ Hp)]. Qed.

Lemma inv_this Q d :
  hoare (inv Q d) Mcp.this
        (post (λ c, inv (λ l c', Q l c' ∧ c' = Some c) d)
              (λ _, inv (λ l c', Q l c' ∧ c' = None) d)).
Proof.
  intros [[w l] co [dep [cl|]]] [Hd Hp];
    unfold Mcp.this, bind, get_global, gets; cbn; by repeat split.
Qed.

Lemma inv_set_this (f : Mcp.MCPClient → Mcp.MCPClient) Q Q' E d :
  (∀ l c, Q l (Some c) → Q' l (Some (f c))) → (∀ l, Q l None → E l None) →
  hoare (inv Q d) (Mcp.set_this f) (post (λ _, inv Q' d) (λ _, inv E d)).
Proof.
  intros HQ HE [[w l] co [dep [cl|]]] [Hd Hp];
    unfold Mcp.set_this, Mcp.this, bind, get_global, gets, set_global, modify; cbn;
    (split; [done|]); [exact (HQ _ _ Hp) | exact (HE _ Hp)].
Qed.

(** *** The methods of the client *)

(** The client is connected and the account is tight. *)
Definition connected : View := λ l c, tight l c ∧ liveb c = true.

(** A client is registered and the account is settled. *)
Definition registering : View := λ l c, settled l ∧ is_Some c.

(** [connect] at a depth from zero on: it opens the connection of the
    registered client, or throws with the account settled. *)
Lemma connect_opens d url :
  (0 ≤ d)%Z →
  hoare (inv registering d) (Mcp.connect url)
        (post (λ _, inv connected d) (λ _, inv (λ l _, settled l) d)).
Proof.
  intros Hd. unfold Mcp.connect.
  eapply hoare_bind; [by apply hoare_post, inv_trace|]. intros []. cbv beta.
  eapply hoare_bind with (R := λ _, inv registering d);
    [apply inv_set_this; [by intros l c [Hl _]; split | by intros l [_ []]]|].
  intros []. eapply hoare_bind with (R := λ _, inv (λ l c, settled l ∧ liveb c = true) d);
    [apply inv_set_this; [intros l c [Hl _] | by intros l [_ []]]|].
  { split; [done | by apply bool_decide_eq_true_2]. }
  intros []. eapply hoare_bind with (R := λ _, inv connected d);
    [|intros []; by apply hoare_post, inv_trace].
  apply inv_logging; intros l c [Hl Hc];
    [split; [by apply tight_connected | done] | by apply settled_refused].
Qed.

(** [listTools] on a connected client at a depth from zero on: a listing
    that fails leaves the account settled with the connection among the
    leaked ones. *)
Lemma listTools_account d :
  (0 ≤ d)%Z →
  hoare (inv connected d) Mcp.listTools
        (post (λ _, inv connected d) (λ _, inv (λ l _, settled l) d)).
Proof.
  intros Hd. unfold Mcp.listTools.
  eapply hoare_bind with (R := λ c, inv (λ l c', connected l c' ∧ c' = Some c) d);
    [eapply hoare_conseq; [apply inv_this | done|]; intros [c|e] p; [done|]|].
  { apply inv_impl. by intros l c [[_ Hc] ->]. }
  intros c. cbv beta. case_bool_decide as Hc; cbn.
  - eapply hoare_bind with (R := λ _, inv connected d).
    + apply inv_logging; intros l c' [[Hl Hl'] ->];
        [split; [by apply tight_listed | done] | by eapply settled_unlisted].
    + intros tools. eapply hoare_bind; [by apply hoare_post, inv_trace|].
      intros []. by apply hoare_ret.
  - apply hoare_throw. intros p [_ [[_ Hl] Hp]]. rewrite Hp in Hl. cbn in Hl.
    by apply bool_decide_eq_true in Hl.
Qed.

(** The account is tight at depth [d]. *)
Definition accounted d : Proc → Prop := inv tight d.

(** A proof that a computation that frames keeps the account. *)
#[local] Ltac accounted_frames :=
  apply inv_frames; [solve [frames_more] | solve [keeps_auto]].

(** [initMCPClient] at a depth from zero on keeps the account: when the
    listing fails, the connection it opened is forgotten with the client
    and counts among the leaked ones. *)
Lemma initMCPClient_accounted d :
  (0 ≤ d)%Z → stable base (accounted d) Mcp.initMCPClient.
Proof.
  intros Hd. unfold Mcp.initMCPClient.
  eapply hoare_bind; [apply hoare_post, inv_registered|]. intros existing. cbv beta.
  case_bool_decide as He; [apply hoare_ret; intros p; apply inv_impl; by intros l c [Hl _]|].
  eapply hoare_bind with (R := λ _, inv registering d).
  { apply hoare_post, inv_register. intros l c [Hl ->]. split; [|by eexists].
    apply tight_settled. by destruct existing; [destruct He|]. }
  intros []. eapply hoare_bind with (R := λ _, accounted d);
    [|intros []; accounted_frames].
  eapply hoare_try_catch with (E := λ _, inv (λ l _, settled l) d).
  - eapply hoare_bind; [by apply connect_opens|]. intros [].
    eapply hoare_bind; [by apply listTools_account|]. intros tools. cbv beta.
    eapply hoare_conseq;
      [apply (inv_runs connected d); [frames_more | runs_auto] | done|].
    intros [[]|e] p; [|done]. apply inv_impl. by intros l c [Hl _].
  - intros e [[w l] co g] [Hp Hl]. split; [done | by apply tight_settled].
Qed.

(** [callTool] keeps the account: a call that fails leaves the
    connection open. *)
Lemma callTool_accounted d name args : stable base (accounted d) (Mcp.callTool name args).
Proof.
  unfold Mcp.callTool.
  eapply hoare_bind with (R := λ c, inv (λ l c', tight l c' ∧ c' = Some c) d);
    [eapply hoare_conseq; [apply inv_this | done|]; intros [c|e] p; [done|]|].
  { apply inv_impl. by intros l c [Hl _]. }
  intros c. cbv beta. case_bool_decide as Hc; cbn;
    [|apply hoare_throw; intros p; apply inv_impl; by intros l c' [Hl _]].
  eapply hoare_bind with (R := λ _, inv (λ l c', tight l c' ∧ c' = Some c) d);
    [apply stable_post; [accounted_frames | intros p; apply inv_impl; by intros l c' [Hl _]]|].
  intros []. eapply hoare_bind with (R := λ _, accounted d);
    [|intros result; by apply hoare_ret].
  apply inv_logging; intros l c' [Hl ->]; apply tight_called; try done;
    by apply bool_decide_eq_true_2.
Qed.

(** [disconnect] closes the connection of a connected client. *)
Lemma disconnect_settles d :
  hoare (accounted d) Mcp.disconnect (λ _, inv (λ l _, settled l) d).
Proof.
  unfold Mcp.disconnect.
  eapply hoare_bind with (R := λ c, inv (λ l c', tight l c' ∧ c' = Some c) d);
    [eapply hoare_conseq; [apply inv_this | done|]; intros [c|e] p; [done|]|].
  { apply inv_impl. intros l c [Hl ->]. by apply tight_settled. }
  intros c. cbv beta. case_bool_decide as Hc; cbn.
  - eapply hoare_bind with (R := λ _, inv (λ l _, settled l) d) (Q := λ _, inv _ d);
      [|intros []; accounted_frames].
    eapply hoare_conseq; [|done | by intros [a|e] p].
    apply (inv_logging Closed _ _ (λ l _, settled l) (λ l _, settled l));
      intros l c' [Hl ->]; eapply settled_closed; try done;
      by apply bool_decide_eq_true_2.
  - apply hoare_ret. intros p. apply inv_impl. intros l c' [Hl ->].
    unfold tight in Hl. cbn in Hl. rewrite bool_decide_eq_false_2 in Hl by done.
    by apply tight_settled.
Qed.

(** *** The tools and the nodes *)

#[local] Ltac accounted_with tac :=
  repeat first [tac | stable_step | accounted_frames].

#[local] Ltac accounted_tools Hd :=
  accounted_with ltac:(idtac; lazymatch goal with
    | |- stable _ _ Mcp.initMCPClient => apply initMCPClient_accounted, Hd
    | |- stable _ _ (Mcp.callTool _ _) => apply callTool_accounted
    end).

Lemma readWikiStructure_accounted d repoName :
  (0 ≤ d)%Z → stable base (accounted d) (Mcp.readWikiStructure repoName).
Proof. intros Hd. unfold Mcp.readWikiStructure. accounted_tools Hd. Qed.

Lemma readWikiContents_accounted d repoName :
  (0 ≤ d)%Z → stable base (accounted d) (Mcp.readWikiContents repoName).
Proof. intros Hd. unfold Mcp.readWikiContents. accounted_tools Hd. Qed.

Lemma askQuestion_accounted d repoName question :
  (0 ≤ d)%Z → stable base (accounted d) (Mcp.askQuestion repoName question).
Proof. intros Hd. unfold Mcp.askQuestion. accounted_tools Hd. Qed.

(** [traceExit] and the value returned after it. *)
Lemma exit_accounted {A} d name output (a : A) :
  (0 ≤ d)%Z →
  hoare (accounted (d + 1)) (Mcp.traceExit name output ;; ret a)
        (returns (λ _, accounted d)).
Proof.
  intros Hd. eapply hoare_bind with (R := λ _, accounted d);
    [by apply hoare_post, inv_traceExit | intros []; by apply hoare_ret].
Qed.

(** A [traceEnter] followed by a [try] whose body ends with the
    [traceExit] and whose handler starts with it. *)
Lemma bracket_accounted {A} d name input (body : M Proc A) h :
  (0 ≤ d)%Z →
  hoare (accounted (d + 1)) body (post (λ _, accounted d) (λ _, accounted (d + 1))) →
  (∀ e, hoare (accounted (d + 1)) (h e) (returns (λ _, accounted d))) →
  stable base (accounted d) (Mcp.traceEnter name input ;; try_catch body h).
Proof.
  intros Hd Hbody Hh.
  eapply hoare_bind with (R := λ _, accounted (d + 1)); [by apply hoare_post, inv_traceEnter|].
  intros []. eapply hoare_try_catch with (E := λ _, accounted (d + 1)); [exact Hbody|].
  intros e. eapply hoare_conseq; [apply Hh | done | by intros [a|e'] p].
Qed.

(** The body of such a [try]: a computation that keeps the account, the
    data of the trace, which may throw, and the [traceExit]. *)
Lemma body_accounted {A B} d name (body : M Proc A) (out : A → Res value)
    (result : A → B) :
  (0 ≤ d)%Z → stable base (accounted (d + 1)) body →
  hoare (accounted (d + 1))
        (r <- body ;;
         output <- lift_res (out r) ;;
         Mcp.traceExit name output ;;
         ret (result r))
        (post (λ _, accounted d) (λ _, accounted (d + 1))).
Proof.
  intros Hd Hbody.
  eapply hoare_bind with (R := λ _, accounted (d + 1)); [by apply stable_post|].
  intros r. eapply hoare_bind with (R := λ _, accounted (d + 1));
    [apply hoare_lift_res; by destruct (out r)|].
  intros output. by apply hoare_post, exit_accounted.
Qed.

(** Every node of the graph keeps the account. *)
Lemma nodes_accounted d name fn state :
  (0 ≤ d)%Z → (name, fn) ∈ sg_nodes Devin.graph_builder →
  stable base (accounted d) (fn state).
Proof.
  intros Hd Hin. cbn in Hin. elem_cases Hin; simplify_eq.
  - apply bracket_accounted; [done| |intros e; by apply exit_accounted].
    apply (body_accounted d _ _ _ (λ ws, [("wikiStructure", ws)])); [done|].
    apply readWikiStructure_accounted. lia.
  - apply bracket_accounted; [done| |intros e; by apply exit_accounted].
    apply (body_accounted d _ _ _ (λ wc, [("wikiContents", wc)])); [done|].
    apply readWikiContents_accounted. lia.
  - apply bracket_accounted; [done| |intros e; by apply exit_accounted].
    apply (body_accounted d _ _ _ (λ answer, [("answer", answer)])); [done|].
    apply askQuestion_accounted. lia.
  - unfold Devin.analyzeInsightsNode.
    eapply hoare_bind with (R := λ _, accounted (d + 1));
      [by apply hoare_post, inv_traceEnter|].
    intros []. eapply hoare_conseq; [by apply exit_accounted | done | by intros [a|e] p].
  - apply bracket_accounted; [done| |intros e; by apply exit_accounted].
    eapply hoare_bind with (R := λ _, accounted (d + 1));
      [apply stable_post; [accounted_frames | done]|].
    intros response. by apply hoare_post, exit_accounted.
Qed.

(** So does every routing function. *)
Lemma routers_accounted d src router ends state :
  (src, Conditional router ends) ∈ sg_edges Devin.graph_builder →
  stable base (accounted d) (router state).
Proof.
  intros Hin. cbn in Hin. elem_cases Hin; simplify_eq;
    unfold Devin.checkError, Devin.shouldAnswerQuestion; accounted_frames.
Qed.

(** *** The analysis and the script *)

(** The account is tight at some depth from zero on. *)
Definition accounts : Proc → Prop := λ p, ∃ d, (0 ≤ d)%Z ∧ accounted d p.

Lemma accounted_accounts d p : (0 ≤ d)%Z → accounted d p → accounts p.
Proof. intros Hd Hp. by exists d. Qed.

Lemma accounts_hoare {A} (m : M Proc A) (Q : Res A → Proc → Prop) :
  (∀ d, (0 ≤ d)%Z → hoare (accounted d) m Q) → hoare accounts m Q.
Proof. intros Hm p (d & Hd & Hp). by apply (Hm d). Qed.

Lemma accounts_stable {A} (m : M Proc A) :
  (∀ d, (0 ≤ d)%Z → hoare (accounted d) m (λ _, accounts)) → stable base accounts m.
Proof. apply accounts_hoare. Qed.

Lemma accounts_runs {A} (m : M Proc A) :
  frames base m → (∀ d, (0 ≤ d)%Z → runs d m) →
  hoare accounts m (returns (λ _, accounts)).
Proof.
  intros Hf Hr. apply accounts_hoare. intros d Hd.
  eapply hoare_conseq; [apply (inv_runs tight d); [done | by apply Hr] | done|].
  intros [a|e] p; [by apply accounted_accounts | done].
Qed.

Lemma accounts_frames {A} (m : M Proc A) :
  frames base m → (∀ d, keeps d m) → stable base accounts m.
Proof.
  intros Hf Hk. apply accounts_stable. intros d Hd p Hp.
  apply (accounted_accounts d); [done|]. by apply inv_frames.
Qed.

(** A computation that keeps the account at its depth, in front of
    another. *)
Lemma accounted_then {A B} d d' (m : M Proc A) (f : A → M Proc B) :
  (0 ≤ d)%Z →
  hoare (accounted d) m (post (λ _, accounted d') (λ _, accounted d)) →
  (∀ a, hoare (accounted d') (f a) (λ _, accounts)) →
  hoare (accounted d) (x <- m ;; f x) (λ _, accounts).
Proof.
  intros Hd Hm Hf. eapply hoare_bind with (R := λ _, accounted d'); [|done].
  eapply hoare_conseq; [apply Hm | done|].
  intros [a|e] p; [done | by apply accounted_accounts].
Qed.

Lemma runDocumentAnalysis_accounts d repoName userQuestion sessionId :
  (0 ≤ d)%Z →
  hoare (accounted d) (Devin.runDocumentAnalysis repoName userQuestion sessionId)
        (λ _, accounts).
Proof.
  intros Hd. unfold Devin.runDocumentAnalysis.
  apply (accounted_then d d); [done | apply stable_post; [accounted_frames | done]|].
  intros []. apply (accounted_then d (d + 1)); [done | by apply hoare_post, inv_traceEnter|].
  intros []. eapply hoare_lift_ok; [apply graph_compiles|]. cbv beta.
  apply (accounted_then (d + 1) (d + 1)); [lia | apply stable_post; [|done]|].
  { apply invoke_stable; [intros name fn s; apply nodes_accounted; lia|].
    intros src router ends s. apply routers_accounted. }
  intros result. apply (accounted_then (d + 1) (d + 1));
    [lia | apply stable_post; [accounted_frames | done]|].
  intros traceId. apply (accounted_then (d + 1) d);
    [lia | by apply hoare_post, inv_traceExit|].
  intros []. apply (accounted_then d d); [done | apply stable_post; [accounted_frames | done]|].
  intros []. apply hoare_ret. intros p. by apply accounted_accounts.
Qed.

Lemma examples_accounts sessionId : stable base accounts (Devin.examples sessionId).
Proof.
  unfold Devin.examples, Devin.heading, Devin.report1, Devin.report2, Devin.print_traceId.
  repeat first
    [ lazymatch goal with
      | |- stable _ _ (Devin.runDocumentAnalysis ?repo ?question ?session) =>
          apply accounts_stable; intros d Hd;
          exact (runDocumentAnalysis_accounts d repo question session Hd)
      end
    | stable_step
    | apply accounts_frames; [solve [frames_more] | intros ?; solve [keeps_auto]] ].
Qed.

(** The connections that are open are those of the listings that
    failed. *)
Definition closed : Proc → Prop := on_view base (λ l _, settled l).

(** The [finally] of [main] closes the connection of the registered
    client. *)
Lemma cleanup_closes : hoare accounts Devin.cleanup (λ _, closed).
Proof.
  apply accounts_hoare. intros d Hd. unfold Devin.cleanup.
  eapply hoare_bind; [apply hoare_post, inv_registered|]. intros c. cbv beta.
  case_bool_decide as Hc.
  - eapply hoare_conseq; [apply disconnect_settles | | by intros r p [_ Hp]].
    intros p. apply inv_impl. by intros l c' [Hl _].
  - apply hoare_ret. intros p [_ [Hl Hp]]. unfold closed, on_view in *.
    rewrite Hp in Hl. apply tight_settled. by destruct c; [destruct Hc|].
Qed.

Lemma main_closes : hoare accounts Devin.main (λ _, closed).
Proof.
  unfold Devin.main.
  repeat (eapply hoare_bind with (R := λ _, accounts);
    [apply hoare_post, accounts_runs; [solve [frames_more] | intros ??; solve [runs_auto]]
    |intros ?]).
  eapply hoare_bind with (R := λ _, closed); [|intros []; apply frames_stable; frames_more].
  eapply hoare_conseq;
    [eapply hoare_try_finally; [apply examples_accounts | apply cleanup_closes]
    | done | by intros [?|?] ?].
Qed.

Lemma script_closes : hoare accounts Devin.script (λ _, closed).
Proof.
  unfold Devin.script. eapply hoare_try_catch with (E := λ _, closed).
  - eapply hoare_conseq; [apply main_closes | done | by intros [a|e] p].
  - intros e. apply frames_stable, frames_console_log.
Qed.

(** A process that has asked nothing of the server, has no client and
    has a trace counter of zero or more satisfies the invariant. *)
Lemma fresh_accounts p :
  log base p = [] → registered base p = None → (0 ≤ traceDepth (globals p))%Z →
  accounts p.
Proof.
  intros Hl Hc Hd. exists (traceDepth (globals p)). split; [done|]. split; [done|].
  unfold on_view. by rewrite Hl, Hc.
Qed.

(** C6. The connections a run leaves open are those whose listing failed.
    Run in a process that has asked nothing of the server, has no client
    and has a trace counter of zero or more, with any server, model, clock
    and tracing service, the script ends, however it ends, with as many
    connections open as listings of tools have failed: every connection
    it opened has been closed, but for the connections that
    [initMCPClient] forgot with its client when the listing failed. *)
Theorem open_connections_are_failed_listings p :
  log base p = [] → registered base p = None → (0 ≤ traceDepth (globals p))%Z →
  links (log base (Devin.script p).2) = Some (leaked (log base (Devin.script p).2)).
Proof. intros Hl Hc Hd. exact (script_closes p (fresh_accounts p Hl Hc Hd)). Qed.

(** In numbers: the connections the script opened are those it closed
    and those whose listing failed. *)
Corollary opened_closed_or_leaked p :
  log base p = [] → registered base p = None → (0 ≤ traceDepth (globals p))%Z →
  opened (log base (Devin.script p).2)
  = closes (log base (Devin.script p).2) + leaked (log base (Devin.script p).2).
Proof.
  intros Hl Hc Hd.
  rewrite <- (links_count _ _ (script_closes p (fresh_accounts p Hl Hc Hd))). lia.
Qed.

(** When no listing fails, the script closes every connection it
    opened. *)
Corollary closes_what_it_opened p :
  log base p = [] → registered base p = None → (0 ≤ traceDepth (globals p))%Z →
  Forall (λ ev, failed_listing ev = false) (log base (Devin.script p).2) →
  links (log base (Devin.script p).2) = Some 0.
Proof.
  intros Hl Hc Hd Hall. rewrite (script_closes p (fresh_accounts p Hl Hc Hd)).
  f_equal. unfold leaked. apply length_zero_iff_nil.
  induction Hall as [|ev l Hev _ IH]; cbn; [done | by rewrite Hev].
Qed.

End accounting.

(** ** Witnesses *)

Lemma open_connections_are_failed_listings_witness :
  links (log ProtocolStub.unlisted
           (ProtocolStub.script ProtocolStub.unlisted
              (ProtocolStub.boot ProtocolStub.unlisted WikiStub.wiki)).2)
  = Some (leaked (log ProtocolStub.unlisted
                    (ProtocolStub.script ProtocolStub.unlisted
                       (ProtocolStub.boot ProtocolStub.unlisted WikiStub.wiki)).2)).
Proof.
  apply (@open_connections_are_failed_listings ProtocolStub.unlisted Stub.runtime
           (ProtocolStub.boot ProtocolStub.unlisted WikiStub.wiki));
    [reflexivity | reflexivity | cbn; lia].
Defined.

Lemma closes_what_it_opened_witness :
  links (log ProtocolStub.wiki
           (ProtocolStub.script ProtocolStub.wiki
              (ProtocolStub.boot ProtocolStub.wiki WikiStub.wiki)).2)
  = Some 0.
Proof.
  apply (@closes_what_it_opened ProtocolStub.wiki Stub.runtime
           (ProtocolStub.boot ProtocolStub.wiki WikiStub.wiki));
    [reflexivity | reflexivity | cbn; lia|].
  apply (bool_decide_unpack _). by vm_compute.
Defined.

(** [disconnect] leaves the client registered and connected in
    appearance: a request after the [finally] of [main] is made on the
    connection that was closed. *)
Example request_after_disconnect :
  let p := (ProtocolStub.script ProtocolStub.wiki
              (ProtocolStub.boot ProtocolStub.wiki WikiStub.wiki)).2 in
  liveb (registered ProtocolStub.wiki p) = true ∧
  links (log ProtocolStub.wiki p) = Some 0 ∧
  links (log ProtocolStub.wiki
           (@Mcp.readWikiStructure (logged_host ProtocolStub.wiki)
              (logged_clock ProtocolStub.wiki) (logged_server ProtocolStub.wiki)
              Stub.runtime (VStr "facebook/react") p).2) = None.
Proof. by vm_compute. Qed.
