(* ===== verification/FanOut.v ===== *)
(** * Fan-out and fan-in

    A stage that starts a list of sub-tasks, waits for all of them and
    merges their partial updates into one, as [enrichDataNode] of the
    complex graph does with [Promise.all] and [Object.assign].

    The sub-tasks of the source are async functions that are called where
    the array is built and that await nothing: each body runs to its end
    when it is called, in the order of the array, and a body that throws
    yields a rejected promise without stopping the construction of the
    array. [promise_all] is the [await] of [Promise.all] on such an array.
    It runs every task, and throws what the first task that failed threw.
    [fan_out] merges the results with [Object.assign]: of two tasks that
    write the same key the later one wins. *)

From stdpp Require Import base option list strings.
From S2P Require Import Prelude JsValue.

Section fan_out.
Context {Σ : Type}.

(** The outcome of two promises awaited together: the values of both, or
    the first rejection. *)
Definition both {A} (r : Res A) (rs : Res (list A)) : Res (list A) :=
  match r, rs with
  | Ok a, Ok l => Ok (a :: l)
  | Err e, _ => Err e
  | Ok _, Err e => Err e
  end.

(** [await Promise.all([task1(), ..., taskn()])]. *)
Fixpoint promise_all {A} (tasks : list (M Σ A)) : M Σ (list A) :=
  match tasks with
  | [] => ret []
  | task :: rest =>
      λ σ, let '(r, σ1) := task σ in
           let '(rs, σ2) := promise_all rest σ1 in
           (both r rs, σ2)
  end.

(** The stage: [Object.assign({}, ...await Promise.all(tasks))]. *)
Definition fan_out (tasks : list (M Σ value)) : M Σ value :=
  results <- promise_all tasks ;;
  ret (Js.object_assign results).

(** The state after every task has run, whatever the outcomes. *)
Definition run_all {A} (tasks : list (M Σ A)) (σ : Σ) : Σ :=
  foldl (λ σ task, (task σ).2) σ tasks.

(** The outcomes of the tasks, each run where the one before ended. *)
Fixpoint outcomes {A} (tasks : list (M Σ A)) (σ : Σ) : list (Res A) :=
  match tasks with
  | [] => []
  | task :: rest => (task σ).1 :: outcomes rest (task σ).2
  end.

(** The first error of a list of outcomes, or their values. *)
Fixpoint settle {A} (rs : list (Res A)) : Res (list A) :=
  match rs with
  | [] => Ok []
  | r :: rest => both r (settle rest)
  end.

End fan_out.

(** The value of the key [k] after [Object.assign({}, ...sources)]: that of
    the last source that has the key. *)
Fixpoint last_writer (k : string) (sources : list value) : option value :=
  match sources with
  | [] => None
  | src :: rest =>
      match last_writer k rest with
      | Some v => Some v
      | None => match src with VObj fields => Js.assoc k (reverse fields) | _ => None end
      end
  end.

(** ** Lemmas *)

Section fan_out_lemmas.
Context {Σ : Type}.
Implicit Types (σ : Σ).

(** [promise_all] runs every task and settles their outcomes. *)
Lemma promise_all_run {A} (tasks : list (M Σ A)) σ :
  promise_all tasks σ = (settle (outcomes tasks σ), run_all tasks σ).
Proof.
  revert σ. induction tasks as [|task rest IH]; intros σ; [done|].
  cbn. destruct (task σ) as [r σ1]. by rewrite IH.
Qed.

Lemma settle_values {A} (l : list A) : settle (Ok <$> l) = Ok l.
Proof. induction l as [|a l IH]; cbn; [done|]. by rewrite IH. Qed.

Lemma settle_Ok {A} (rs : list (Res A)) l :
  settle rs = Ok l ↔ rs = Ok <$> l.
Proof.
  split; [|intros ->; apply settle_values].
  revert l. induction rs as [|[a|e] rs IH]; intros l; cbn; [by intros [= <-]| |done].
  destruct (settle rs) as [l'|e'] eqn:E; cbn; [|done].
  intros [= <-]. cbn. f_equal. by apply IH.
Qed.

(** The first error is the error of the stage. *)
Lemma settle_Err {A} (oks : list A) e (rs : list (Res A)) :
  settle ((Ok <$> oks) ++ Err e :: rs) = Err e.
Proof. induction oks as [|a oks IH]; cbn; [done|]. by rewrite IH. Qed.

Lemma settle_Err_inv {A} (rs : list (Res A)) e :
  settle rs = Err e → ∃ oks rest, rs = (Ok <$> oks) ++ Err e :: rest.
Proof.
  induction rs as [|[a|e'] rs IH]; cbn; [done| |].
  - destruct (settle rs) as [l|e''] eqn:E; cbn; [done|]. intros [= ->].
    destruct (IH eq_refl) as (oks & rest & ->). by exists (a :: oks), rest.
  - intros [= ->]. by exists [], rs.
Qed.

(** What every task keeps, whatever its outcome, the tasks together keep. *)
Lemma hoare_promise_all {A} (P : Σ → Prop) (tasks : list (M Σ A)) :
  Forall (λ task, hoare P task (λ _, P)) tasks →
  hoare P (promise_all tasks) (λ _, P).
Proof.
  induction 1 as [|task rest Htask _ IH]; intros σ Hσ; [done|].
  cbn. specialize (Htask σ Hσ). destruct (task σ) as [r σ1].
  specialize (IH σ1 Htask). by destruct (promise_all rest σ1).
Qed.

(** Tasks that return, each with a value of its own kind. *)
Lemma hoare_promise_all_returns {A} (P : Σ → Prop) (tasks : list (M Σ A))
    (Qs : list (A → Prop)) :
  Forall2 (λ task Q, hoare P task (returns (λ a σ, P σ ∧ Q a))) tasks Qs →
  hoare P (promise_all tasks)
        (returns (λ l σ, P σ ∧ Forall2 (λ a (Q : A → Prop), Q a) l Qs)).
Proof.
  induction 1 as [|task Q rest Qs' Htask _ IH]; intros σ Hσ; cbn; [by split|].
  specialize (Htask σ Hσ). destruct (task σ) as [[a|e] σ1]; cbn in Htask; [|done].
  destruct Htask as [Hσ1 Ha]. specialize (IH σ1 Hσ1).
  destruct (promise_all rest σ1) as [[l|e] σ2]; cbn in *; [|done].
  destruct IH as [Hσ2 Hl]. split; [done | by constructor].
Qed.

Lemma hoare_fan_out (P : Σ → Prop) (tasks : list (M Σ value)) :
  Forall (λ task, hoare P task (λ _, P)) tasks →
  hoare P (fan_out tasks) (λ _, P).
Proof.
  intros Htasks%hoare_promise_all σ Hσ. specialize (Htasks σ Hσ).
  unfold fan_out, bind. by destruct (promise_all tasks σ) as [[l|e] σ1].
Qed.

End fan_out_lemmas.

(** *** The merge *)

Lemma assoc_assign_fields k (target src : list (string * value)) :
  Js.assoc k (Js.assign_fields target src)
  = match Js.assoc k (reverse src) with
    | Some v => Some v
    | None => Js.assoc k target
    end.
Proof.
  unfold Js.assign_fields. revert target.
  induction src as [|[k' v] src IH] using rev_ind; intros target; [done|].
  rewrite foldl_app, reverse_app. cbn.
  destruct (String.eqb_spec k k') as [->|Hne].
  - by rewrite assoc_set_eq.
  - rewrite assoc_set_ne by done. apply IH.
Qed.

Lemma object_assign_snoc (sources : list value) (src : value) :
  Js.object_assign (sources ++ [src])
  = match src, Js.object_assign sources with
    | VObj fields, VObj acc => VObj (Js.assign_fields acc fields)
    | _, merged => merged
    end.
Proof. unfold Js.object_assign. rewrite foldl_app. cbn. by destruct src. Qed.

Lemma last_writer_snoc k (sources : list value) (src : value) :
  last_writer k (sources ++ [src])
  = match src with
    | VObj fields =>
        match Js.assoc k (reverse fields) with
        | Some v => Some v
        | None => last_writer k sources
        end
    | _ => last_writer k sources
    end.
Proof.
  induction sources as [|src' sources IH]; cbn.
  - destruct src as [| | | | | |fields]; try done. by destruct (Js.assoc k (reverse fields)).
  - rewrite IH. destruct src as [| | | | | |fields]; try done.
    by destruct (Js.assoc k (reverse fields)).
Qed.

Lemma object_assign_fields (sources : list value) :
  ∃ fields, Js.object_assign sources = VObj fields.
Proof. by eexists. Qed.

(** ** Properties *)


Section fan_out_properties.
Context {Σ : Type}.
Implicit Types (σ : Σ) (tasks : list (M Σ value)).


End fan_out_properties.

(** The scenario of the merge: of three sub-tasks in the order
    sentiment, complexity, tags, of which the first two write the key
    [flag], the merged update holds the value of the second. *)
Example later_subtask_wins :
  Js.prop "flag"
    (Js.object_assign
       [VObj [("sentiment", VStr "positive"); ("flag", VStr "first")];
        VObj [("complexity", VStr "low"); ("flag", VStr "second")];
        VObj [("tags", VArr [])]])
  = VStr "second".
Proof. reflexivity. Qed.
