(* ===== verification/Schedule.v ===== *)
(** * Sub-tasks that await

    [FanOut] runs the sub-tasks of a stage one after the other, which is
    what the runtime does with async functions that await nothing. This
    file is the stage for sub-tasks that do await: the setting of the
    fan-out determinism test of the specification, in which the sub-tasks
    are given latencies and complete in any order.

    An async function runs where it is called up to its first [await];
    what is left of its body runs later, one piece between two awaits at a
    time, when the runtime resumes it. A promise is therefore [Settled]
    with an outcome or [Awaiting] with the rest of the body, a function of
    the state that yields the promise after the next piece ([Async]). The
    runtime is single threaded: a piece runs to its end before another one
    starts, so a run of the stage is the calls of the async functions in
    the order of the array ([start]) followed by a sequence of resumptions,
    the [schedule] the timers decide: the list of the positions of the
    sub-tasks in the order in which they are resumed.

    [await Promise.all(promises)] ([await_all]) resumes the caller as soon
    as one promise is rejected, with that rejection, or when all are
    fulfilled, with their values in the order of the array. A schedule
    that ends before that leaves the caller waiting: the outcome is
    [None]. The sub-tasks still pending when the stage has failed are
    returned as they are; what the runtime runs of them afterwards is
    outside the stage.

    Theorems: sub-tasks that await nothing give the stage of [FanOut]
    under every schedule ([await_all_sync]); what every piece of every
    sub-task keeps and promises holds after every schedule
    ([await_all_promises]); a schedule that resumes every sub-task as
    often as it awaits settles the stage ([await_all_settles]), with the
    values the sub-tasks promised or an error one of them promised
    ([promise_all_at_settles]); a sub-task alone in its stage runs without
    interruption ([await_all_alone]). *)

From stdpp Require Import base option list strings.
From Stdlib Require Import Lia.
From S2P Require Import Prelude JsValue FanOut.

(** The promise an async function returns. *)
#[warnings="-register-all"]
Inductive Async (Σ A : Type) : Type :=
| Settled (r : Res A)
| Awaiting (rest : Σ → Async Σ A * Σ).
Arguments Settled {Σ A} r.
Arguments Awaiting {Σ A} rest.

Section schedule.
Context {Σ A : Type}.

(** The call of an async function: its body up to the first await. *)
Definition Call : Type := Σ → Async Σ A * Σ.

(** [(async () => { body })()] for a body that awaits nothing. *)
Definition async (body : M Σ A) : Call :=
  λ σ, let '(r, σ') := body σ in (Settled r, σ').

(** [(async () => { await sleep(ms); rest })()]. *)
Definition sleep_then (rest : Call) : Call := λ σ, (Awaiting rest, σ).

(** A body behind [n] timers. *)
Definition delayed (n : nat) (body : M Σ A) : Call := Nat.iter n sleep_then (async body).

(** [(async () => { const b = first; const r = await call; rest })()],
    where the awaited call takes [n] turns of the runtime: [first] runs
    where the function is called and, when it does not throw, [rest] runs
    after [n] resumptions. *)
Definition then_await {B} (first : M Σ B) (n : nat) (rest : B → M Σ A) : Call :=
  λ σ, match first σ with
       | (Ok b, σ') => delayed n (rest b) σ'
       | (Err e, σ') => (Settled (Err e), σ')
       end.

(** The array of the promises: the functions are called in its order. *)
Fixpoint start (calls : list Call) (σ : Σ) : list (Async Σ A) * Σ :=
  match calls with
  | [] => ([], σ)
  | call :: rest =>
      let '(t, σ1) := call σ in
      let '(ts, σ2) := start rest σ1 in
      (t :: ts, σ2)
  end.

(** The runtime resumes the sub-task at position [i]: the piece up to its
    next await runs. Nothing happens when that promise is settled. *)
Definition resume (i : nat) (ts : list (Async Σ A)) (σ : Σ) : list (Async Σ A) * Σ :=
  match ts !! i with
  | Some (Awaiting rest) => let '(t, σ') := rest σ in (<[i := t]> ts, σ')
  | _ => (ts, σ)
  end.

Definition rejected (t : Async Σ A) : option JsError :=
  match t with Settled (Err e) => Some e | _ => None end.

Definition fulfilled (t : Async Σ A) : option A :=
  match t with Settled (Ok a) => Some a | _ => None end.

(** The state of [Promise.all(ts)]: rejected with the rejection of a
    promise, fulfilled with the values of all, or pending. *)
Definition all_settled (ts : list (Async Σ A)) : option (Res (list A)) :=
  match head (omap rejected ts) with
  | Some e => Some (Err e)
  | None => Ok <$> mapM fulfilled ts
  end.

(** [await Promise.all(ts)] under a schedule: the outcome when the caller
    is resumed, the promises and the state at that point. *)
Fixpoint await_all (schedule : list nat) (ts : list (Async Σ A)) (σ : Σ)
  : option (Res (list A)) * list (Async Σ A) * Σ :=
  match all_settled ts with
  | Some r => (Some r, ts, σ)
  | None =>
      match schedule with
      | [] => (None, ts, σ)
      | i :: later => let '(ts', σ') := resume i ts σ in await_all later ts' σ'
      end
  end.

(** [await Promise.all([call1(), ..., calln()])] under a schedule. *)
Definition promise_all_at (schedule : list nat) (calls : list Call) (σ : Σ)
  : option (Res (list A)) * list (Async Σ A) * Σ :=
  let '(ts, σ1) := start calls σ in await_all schedule ts σ1.

(** [await Promise.all(calls)] in a function that goes on with the
    values: [None] when the schedule ends before the promise is settled
    and the function is left waiting. *)
Definition await_promise_all (schedule : list nat) (calls : list Call)
  : M Σ (option (list A)) :=
  λ σ, let '(r, _, σ') := promise_all_at schedule calls σ in
       match r with
       | Some (Ok l) => (Ok (Some l), σ')
       | Some (Err e) => (Err e, σ')
       | None => (Ok None, σ')
       end.

(** The promise resumed until it is settled, [n] times at most, with
    nothing run in between. *)
Fixpoint uninterrupted (n : nat) (t : Async Σ A) (σ : Σ) : Async Σ A * Σ :=
  match n with
  | 0 => (t, σ)
  | S n' =>
      match t with
      | Awaiting rest => let '(t', σ') := rest σ in uninterrupted n' t' σ'
      | Settled _ => (t, σ)
      end
  end.

(** ** What a promise keeps and promises *)

(** Resumed in states that satisfy [P], the promise keeps [P] through
    every piece of its body and settles with an outcome that satisfies
    [Q], if it settles. *)
Inductive promises (P : Σ → Prop) (Q : Res A → Prop) : Async Σ A → Prop :=
| promises_settled r : Q r → promises P Q (Settled r)
| promises_awaiting rest :
    (∀ σ, P σ → P (rest σ).2) →
    (∀ σ, P σ → promises P Q (rest σ).1) →
    promises P Q (Awaiting rest).

Definition call_promises (P : Σ → Prop) (Q : Res A → Prop) (call : Call) : Prop :=
  ∀ σ, P σ → P (call σ).2 ∧ promises P Q (call σ).1.

(** An outcome that is a value that satisfies [Q]. *)
Definition fulfils (Q : A → Prop) (r : Res A) : Prop :=
  match r with Ok a => Q a | Err _ => False end.

(** What a stage settles with, when each sub-task promised an outcome:
    the values promised, one per sub-task, or an error one of them
    promised. *)
Definition settled_as (Qs : list (Res A → Prop)) (r : Res (list A)) : Prop :=
  match r with
  | Ok l => Forall2 (λ Q a, Q (Ok a)) Qs l
  | Err e => Exists (λ Q, Q (Err e)) Qs
  end.

(** The promise settles within [n] resumptions. *)
Inductive within : nat → Async Σ A → Prop :=
| within_settled n r : within n (Settled r)
| within_awaiting n rest : (∀ σ, within n (rest σ).1) → within (S n) (Awaiting rest).

(** The schedule resumes the sub-task at each position as often as
    [bound] says. *)
Definition covers (schedule : list nat) (bound : nat → nat) : Prop :=
  ∀ i, bound i ≤ length (filter (λ j, j = i) schedule).

End schedule.

Arguments Call : clear implicits.

(** The stage under a schedule:
    [Object.assign({}, ...await Promise.all(calls))]. *)
Definition fan_out_at {Σ} (schedule : list nat) (calls : list (Call Σ value)) (σ : Σ)
  : option (Res value) * Σ :=
  let '(r, _, σ') := promise_all_at schedule calls σ in
  (res_map Js.object_assign <$> r, σ').

(** ** Lemmas *)

Section schedule_lemmas.
Context {Σ A : Type}.
Implicit Types (σ : Σ) (t : Async Σ A) (ts : list (Async Σ A)) (calls : list (Call Σ A)).
Implicit Types (P : Σ → Prop) (Q : Res A → Prop) (schedule : list nat).

(** *** Settled promises *)

Lemma all_settled_outcomes (rs : list (Res A)) :
  all_settled (Settled (Σ:=Σ) <$> rs) = Some (settle rs).
Proof.
  unfold all_settled. induction rs as [|[a|e] rs IH]; cbn; [done| |done].
  destruct (head (omap rejected (Settled <$> rs))) as [e|];
    [by injection IH as <- | ].
  destruct (mapM fulfilled (Settled <$> rs)) as [l|]; [|done].
  cbn in *. by injection IH as <-.
Qed.

(** Promises that are all fulfilled fulfil [Promise.all] with their
    values, in the order of the array. *)
Lemma all_settled_Ok ts l :
  all_settled ts = Some (Ok l) ↔ ts = (Settled ∘ Ok) <$> l.
Proof.
  unfold all_settled. split.
  - destruct (head (omap rejected ts)); [done|].
    destruct (mapM fulfilled ts) as [l'|] eqn:E; [|done]. intros [= <-].
    apply mapM_Some in E. induction E as [|t a ts l' Ht _ IH]; [done|].
    by destruct t as [[a'|e]|k]; simplify_eq/=.
  - intros ->. induction l as [|a l IH]; [done|]. cbn.
    destruct (head (omap rejected ((Settled ∘ Ok) <$> l))); [done|].
    by destruct (mapM fulfilled ((Settled ∘ Ok) <$> l)); simplify_eq/=.
Qed.

(** A rejection of [Promise.all] is the rejection of one of the
    promises. *)
Lemma all_settled_Err ts e :
  all_settled ts = Some (Err e) → Settled (Err e) ∈ ts.
Proof.
  unfold all_settled. destruct (head (omap rejected ts)) as [e'|] eqn:E.
  - intros [= ->]. apply head_Some_elem_of, list_elem_of_omap in E as (t & Ht & Hr).
    by destruct t as [[a|e']|k]; simplify_eq/=.
  - by destruct (mapM fulfilled ts).
Qed.

(** Promises that are all settled settle [Promise.all]. *)
Lemma all_settled_is_Some ts :
  Forall (within 0) ts → is_Some (all_settled ts).
Proof.
  intros Hts. assert (∃ rs, ts = Settled <$> rs) as [rs ->];
    [|rewrite all_settled_outcomes; eauto].
  induction Hts as [|t ts Ht _ [rs ->]]; [by exists []|].
  inversion Ht as [n r|]; subst. by exists (r :: rs).
Qed.

(** *** Sub-tasks that await nothing *)

Lemma start_async (tasks : list (M Σ A)) σ :
  start (async <$> tasks) σ = (Settled <$> outcomes tasks σ, run_all tasks σ).
Proof.
  revert σ. induction tasks as [|task tasks IH]; intros σ; [done|].
  cbn. unfold async at 1. destruct (task σ) as [r σ1]. by rewrite IH.
Qed.

(** Sub-tasks that await nothing are settled when [Promise.all] is
    called: whatever the schedule, the stage is that of [promise_all]. *)
Lemma await_all_sync schedule (tasks : list (M Σ A)) σ :
  promise_all_at schedule (async <$> tasks) σ
  = (Some (promise_all tasks σ).1, Settled <$> outcomes tasks σ, (promise_all tasks σ).2).
Proof.
  unfold promise_all_at. rewrite start_async, promise_all_run.
  by destruct schedule; cbn; rewrite all_settled_outcomes.
Qed.

(** *** What holds after every schedule *)

Lemma promises_impl P Q Q' t :
  (∀ r, Q r → Q' r) → promises P Q t → promises P Q' t.
Proof. intros HQ. induction 1; constructor; auto. Qed.

Lemma async_promises P Q (body : M Σ A) :
  hoare P body (λ r σ, P σ ∧ Q r) → call_promises P Q (async body).
Proof.
  intros Hb σ Hσ. specialize (Hb σ Hσ). unfold async.
  destruct (body σ) as [r σ']. destruct Hb. split; [done | by constructor].
Qed.

Lemma sleep_then_promises P Q (rest : Call Σ A) :
  call_promises P Q rest → call_promises P Q (sleep_then rest).
Proof.
  intros Hr σ Hσ. split; [done|]. constructor; intros σ' Hσ'; by apply Hr.
Qed.

Lemma delayed_promises P Q n (body : M Σ A) :
  hoare P body (λ r σ, P σ ∧ Q r) → call_promises P Q (delayed n body).
Proof.
  intros Hb. induction n as [|n IH]; [by apply async_promises|].
  by apply sleep_then_promises.
Qed.

Lemma sleeps_promises P Q m (call : Call Σ A) :
  call_promises P Q call → call_promises P Q (Nat.iter m sleep_then call).
Proof. intros Hc. induction m as [|m IH]; [done | by apply sleep_then_promises]. Qed.

(** A function that awaits once promises what its second part ensures, or
    the error of its first part. *)
Lemma then_await_promises {B} P Q (R : B → Prop) (first : M Σ B) n (rest : B → M Σ A) :
  hoare P first (λ r σ, P σ ∧ match r with Ok b => R b | Err e => Q (Err e) end) →
  (∀ b, R b → hoare P (rest b) (λ r σ, P σ ∧ Q r)) →
  call_promises P Q (then_await first n rest).
Proof.
  intros Hf Hr σ Hσ. specialize (Hf σ Hσ). unfold then_await.
  destruct (first σ) as [[b|e] σ']; cbn in *; destruct Hf as [Hσ' Hb].
  - by apply (delayed_promises P Q n (rest b)); [apply Hr|].
  - split; [done | by constructor].
Qed.

(** With an awaited call that takes no turn the function is its body. *)
Lemma then_await_sync {B} (first : M Σ B) (rest : B → M Σ A) σ :
  then_await first 0 rest σ = async (b <- first ;; rest b) σ.
Proof. unfold then_await, async, bind. by destruct (first σ) as [[b|e] σ']. Qed.

Lemma start_promises P (Qs : list (Res A → Prop)) calls σ :
  Forall2 (call_promises P) Qs calls → P σ →
  P (start calls σ).2 ∧ Forall2 (promises P) Qs (start calls σ).1.
Proof.
  intros Hcalls. revert σ.
  induction Hcalls as [|Q call Qs calls Hcall _ IH]; intros σ Hσ; cbn; [by split|].
  destruct (Hcall σ Hσ) as [Hσ1 Ht]. destruct (call σ) as [t σ1]. cbn in *.
  destruct (IH σ1 Hσ1) as [Hσ2 Hts]. destruct (start calls σ1) as [ts σ2].
  split; [done | by constructor].
Qed.

Lemma resume_promises P (Qs : list (Res A → Prop)) i ts σ :
  Forall2 (promises P) Qs ts → P σ →
  P (resume i ts σ).2 ∧ Forall2 (promises P) Qs (resume i ts σ).1.
Proof.
  intros Hts Hσ. unfold resume.
  destruct (ts !! i) as [[r|rest]|] eqn:Ei; [by split| |by split].
  destruct (Forall2_lookup_r _ _ _ _ _ Hts Ei) as (Q & HQ & Ht).
  inversion Ht as [|? Hkeep Hrest]; subst.
  specialize (Hkeep σ Hσ). specialize (Hrest σ Hσ). destruct (rest σ) as [t σ'].
  split; [done|]. rewrite <- (list_insert_id Qs i Q) by done.
  by apply Forall2_insert.
Qed.

(** Whatever the schedule, the stage keeps what every piece of every
    sub-task keeps, and leaves promises that promise what they did. *)
Lemma await_all_promises P (Qs : list (Res A → Prop)) schedule ts σ :
  Forall2 (promises P) Qs ts → P σ →
  P (await_all schedule ts σ).2 ∧ Forall2 (promises P) Qs (await_all schedule ts σ).1.2.
Proof.
  revert ts σ. induction schedule as [|i later IH]; intros ts σ Hts Hσ; cbn;
    destruct (all_settled ts); [by split..|].
  destruct (resume_promises P Qs i ts σ Hts Hσ) as [Hσ' Hts'].
  destruct (resume i ts σ) as [ts' σ']. by apply IH.
Qed.

(** The values of a stage that is fulfilled are what the sub-tasks
    promised, one per sub-task and in the order of the array. *)
Lemma fulfilled_promises P (Qs : list (Res A → Prop)) ts l :
  Forall2 (promises P) Qs ts → all_settled ts = Some (Ok l) →
  Forall2 (λ Q a, Q (Ok a)) Qs l.
Proof.
  intros Hts ->%all_settled_Ok. rewrite Forall2_fmap_r in Hts.
  eapply Forall2_impl; [exact Hts|]. cbn. by inversion 1.
Qed.

Lemma rejected_promises P (Qs : list (Res A → Prop)) ts e :
  Forall2 (promises P) Qs ts → all_settled ts = Some (Err e) →
  Exists (λ Q, Q (Err e)) Qs.
Proof.
  intros Hts (i & Hi)%all_settled_Err%list_elem_of_lookup.
  destruct (Forall2_lookup_r _ _ _ _ _ Hts Hi) as (Q & HQ & Ht).
  apply Exists_exists. exists Q. split; [by eapply list_elem_of_lookup_2|].
  by inversion Ht.
Qed.

(** The outcome of the stage is the state of [Promise.all] on the
    promises it leaves. *)
Lemma await_all_outcome schedule ts σ r :
  (await_all schedule ts σ).1.1 = Some r →
  all_settled (await_all schedule ts σ).1.2 = Some r.
Proof.
  revert ts σ. induction schedule as [|i later IH]; intros ts σ; cbn;
    destruct (all_settled ts) eqn:E; cbn; try congruence.
  destruct (resume i ts σ) as [ts' σ']. apply IH.
Qed.

(** *** Schedules that settle the stage *)

Lemma within_mono n m t : within n t → n ≤ m → within m t.
Proof.
  intros Ht. revert m. induction Ht as [|n rest _ IH]; intros m Hm; [constructor|].
  destruct m as [|m]; [lia|]. constructor. intros σ. apply IH. lia.
Qed.

Lemma async_within (body : M Σ A) σ : within 0 (async body σ).1.
Proof. unfold async. destruct (body σ). constructor. Qed.

Lemma delayed_within n (body : M Σ A) σ : within n (delayed n body σ).1.
Proof.
  revert σ. induction n as [|n IH]; intros σ; [apply async_within|].
  cbn. by constructor.
Qed.

Lemma sleeps_within m n (call : Call Σ A) :
  (∀ σ, within n (call σ).1) → ∀ σ, within (m + n) (Nat.iter m sleep_then call σ).1.
Proof. intros Hc. induction m as [|m IH]; intros σ; [apply Hc | by constructor]. Qed.

Lemma then_await_within {B} (first : M Σ B) n (rest : B → M Σ A) σ :
  within n (then_await first n rest σ).1.
Proof.
  unfold then_await. destruct (first σ) as [[b|e] σ']; [apply delayed_within | constructor].
Qed.

Lemma start_within (bounds : list nat) calls σ :
  Forall2 (λ n call, ∀ σ, within n (call σ).1) bounds calls →
  Forall2 within bounds (start calls σ).1.
Proof.
  intros Hcalls. revert σ.
  induction Hcalls as [|n call bounds calls Hcall _ IH]; intros σ; cbn; [constructor|].
  specialize (Hcall σ). destruct (call σ) as [t σ1]. specialize (IH σ1).
  destruct (start calls σ1) as [ts σ2]. by constructor.
Qed.

(** One resumption uses up one unit of the bound of its sub-task. *)
Lemma resume_within (bound : nat → nat) i ts σ :
  (∀ j t, ts !! j = Some t → within (bound j) t) →
  ∀ j t, (resume i ts σ).1 !! j = Some t →
         within (if decide (j = i) then pred (bound j) else bound j) t.
Proof.
  intros Hts j t. unfold resume.
  destruct (ts !! i) as [[r|rest]|] eqn:Ei; cbn.
  - intros Hj. destruct (decide (j = i)) as [->|]; [|by apply Hts].
    rewrite Ei in Hj. injection Hj as <-. constructor.
  - pose proof (Hts _ _ Ei) as Hi. inversion Hi as [|n ? Hrest Hn]; subst.
    specialize (Hrest σ). destruct (rest σ) as [t' σ']. cbn.
    destruct (decide (j = i)) as [->|Hne].
    + rewrite list_lookup_insert_eq by by eapply lookup_lt_Some.
      intros [= <-]. by rewrite <- Hn.
    + rewrite list_lookup_insert_ne by done. apply Hts.
  - intros Hj. destruct (decide (j = i)) as [->|]; [congruence | by apply Hts].
Qed.

Lemma covers_tail (bound : nat → nat) i later :
  covers (i :: later) bound →
  covers later (λ j, if decide (j = i) then pred (bound j) else bound j).
Proof.
  intros Hc j. specialize (Hc j). rewrite filter_cons in Hc.
  destruct (decide (j = i)) as [->|Hne].
  - rewrite decide_True in Hc by done. cbn in Hc. lia.
  - by rewrite decide_False in Hc by done.
Qed.

(** A schedule that resumes every sub-task as often as it awaits settles
    the stage: the caller is resumed. *)
Lemma await_all_settles (bound : nat → nat) schedule ts σ :
  (∀ j t, ts !! j = Some t → within (bound j) t) → covers schedule bound →
  is_Some (await_all schedule ts σ).1.1.
Proof.
  revert bound ts σ. induction schedule as [|i later IH]; intros bound ts σ Hts Hc; cbn;
    destruct (all_settled ts) eqn:E; cbn; [done| |done|].
  - rewrite <- E. apply all_settled_is_Some, Forall_lookup. intros j t Hj.
    specialize (Hc j). cbn in Hc. eapply within_mono; [by apply Hts | lia].
  - pose proof (resume_within bound i ts σ Hts) as Hts'.
    destruct (resume i ts σ) as [ts' σ']. eapply IH; [exact Hts' | by apply covers_tail].
Qed.

(** *** The outcome of a stage that settles *)

(** Sub-tasks that keep [P] and promise an outcome each, under a schedule
    that resumes each as often as it awaits: the caller is resumed in a
    state that satisfies [P], with the values the sub-tasks promised, in
    the order of the array, or with an error one of them promised. *)
Lemma promise_all_at_settles P (Qs : list (Res A → Prop)) (bounds : list nat) schedule
    calls σ :
  Forall2 (call_promises P) Qs calls →
  Forall2 (λ n call, ∀ σ, within n (call σ).1) bounds calls →
  covers schedule (λ i, default 0 (bounds !! i)) → P σ →
  ∃ r ts σ', promise_all_at schedule calls σ = (Some r, ts, σ') ∧ P σ' ∧ settled_as Qs r.
Proof.
  intros Hcalls Hbounds Hc Hσ. unfold promise_all_at.
  destruct (start_promises P _ calls σ Hcalls Hσ) as [Hσ1 Hts].
  pose proof (start_within bounds calls σ Hbounds) as Hw.
  destruct (start calls σ) as [ts σ1]. cbn in *.
  destruct (await_all_promises P _ schedule ts σ1 Hts Hσ1) as [Hσ2 Hts2].
  pose proof (await_all_outcome schedule ts σ1) as Hout.
  destruct (await_all_settles (λ i, default 0 (bounds !! i)) schedule ts σ1) as [r Hr];
    [|done|].
  { intros j t Hj. destruct (Forall2_lookup_r _ _ _ _ _ Hw Hj) as (n & -> & Hn). done. }
  specialize (Hout r Hr). destruct (await_all schedule ts σ1) as [[r' ts2] σ2].
  cbn in *. subst r'. exists r, ts2, σ2. split_and!; [done..|].
  destruct r as [l|e]; [by eapply fulfilled_promises | by eapply rejected_promises].
Qed.

(** The same for the function that awaits the stage. *)
Lemma await_promise_all_settles P (Qs : list (Res A → Prop)) (bounds : list nat) schedule
    calls σ :
  Forall2 (call_promises P) Qs calls →
  Forall2 (λ n call, ∀ σ, within n (call σ).1) bounds calls →
  covers schedule (λ i, default 0 (bounds !! i)) → P σ →
  ∃ r σ', await_promise_all schedule calls σ = (res_map Some r, σ') ∧ P σ' ∧ settled_as Qs r.
Proof.
  intros Hcalls Hbounds Hc Hσ. unfold await_promise_all.
  destruct (promise_all_at_settles P Qs bounds schedule calls σ)
    as (r & ts & σ' & -> & Hσ' & Hr); [done..|].
  exists r, σ'. by destruct r.
Qed.

(** Sub-tasks that await nothing: the function goes on where the
    sequential traversal does. *)
Lemma await_promise_all_sync schedule (tasks : list (M Σ A)) σ :
  await_promise_all schedule (async <$> tasks) σ
  = (res_map Some (promise_all tasks σ).1, (promise_all tasks σ).2).
Proof.
  unfold await_promise_all. rewrite await_all_sync.
  by destruct (promise_all tasks σ) as [[l|e] σ'].
Qed.

(** Sub-tasks made from the elements of a list, each with its position:
    [xs.map((x, i) => task(i, x))]. *)
Lemma imap_promises {X} P (Q : X → Res A → Prop) (task : nat → X → Call Σ A) (xs : list X) :
  (∀ i x, call_promises P (Q x) (task i x)) →
  Forall2 (call_promises P) (Q <$> xs) (imap task xs).
Proof.
  revert task. induction xs as [|x xs IH]; intros task Ht; cbn; constructor; [done|].
  apply IH. intros i. apply Ht.
Qed.

Lemma imap_within {X} (bound : nat → nat) (task : nat → X → Call Σ A) (xs : list X) :
  (∀ i x σ, within (bound i) (task i x σ).1) →
  Forall2 (λ n call, ∀ σ, within n (call σ).1) (imap (λ i _, bound i) xs) (imap task xs).
Proof.
  revert bound task. induction xs as [|x xs IH]; intros bound task Ht; cbn;
    constructor; [done|].
  apply (IH (bound ∘ S)). intros i. apply Ht.
Qed.

Lemma covers_mono schedule (bound bound' : nat → nat) :
  covers schedule bound → (∀ i, bound' i ≤ bound i) → covers schedule bound'.
Proof. intros Hc Hle i. specialize (Hc i). specialize (Hle i). lia. Qed.

Lemma await_promise_all_imap {X} P (Q : X → Res A → Prop) (bound : nat → nat)
    (task : nat → X → Call Σ A) schedule (xs : list X) σ :
  (∀ i x, call_promises P (Q x) (task i x)) →
  (∀ i x σ, within (bound i) (task i x σ).1) →
  covers schedule bound → P σ →
  ∃ r σ', await_promise_all schedule (imap task xs) σ = (res_map Some r, σ') ∧
          P σ' ∧ settled_as (Q <$> xs) r.
Proof.
  intros Ht Hw Hc Hσ.
  apply (await_promise_all_settles P _ (imap (λ i _, bound i) xs));
    [by apply imap_promises | by apply imap_within | | done].
  apply (covers_mono _ bound); [done|]. intros i. rewrite list_lookup_imap.
  destruct (xs !! i); cbn; lia.
Qed.

(** Sub-tasks that promise each one outcome settle as the outcomes
    settle, up to the error. *)
Lemma settled_as_settle {X} (f : X → Res A) (xs : list X) r :
  settled_as ((λ x r, r = f x) <$> xs) r → same_outcome r (settle (f <$> xs)).
Proof.
  destruct r as [l|e]; cbn.
  - rewrite Forall2_fmap_l. intros Hl.
    assert (f <$> xs = Ok <$> l) as ->; [|by rewrite settle_values].
    induction Hl as [|x a xs l Hx _ IH]; cbn in *; congruence.
  - rewrite Exists_fmap. intros (x & Hx & He)%Exists_exists.
    destruct (settle (f <$> xs)) as [l|e'] eqn:E; [|done].
    apply settle_Ok in E. apply (list_elem_of_fmap_2 f) in Hx. rewrite E, <- He in Hx.
    by apply list_elem_of_fmap in Hx as (a & [=] & _).
Qed.

(** *** A sub-task alone *)

Lemma uninterrupted_settled n (r : Res A) σ : uninterrupted n (Settled r) σ = (Settled r, σ).
Proof. by destruct n. Qed.

Lemma uninterrupted_sleeps m n (call : Call Σ A) σ :
  uninterrupted (m + n) (Nat.iter m sleep_then call σ).1 (Nat.iter m sleep_then call σ).2
  = uninterrupted n (call σ).1 (call σ).2.
Proof.
  revert σ. induction m as [|m IH]; intros σ; [done|].
  rewrite Nat.iter_succ. cbn -[Nat.iter].
  specialize (IH σ). by destruct (Nat.iter m sleep_then call σ).
Qed.

Lemma uninterrupted_delayed n (body : M Σ A) σ :
  uninterrupted n (delayed n body σ).1 (delayed n body σ).2 = (Settled (body σ).1, (body σ).2).
Proof.
  unfold delayed. rewrite <- (Nat.add_0_r n) at 1. rewrite uninterrupted_sleeps.
  unfold async. by destruct (body σ).
Qed.

Lemma uninterrupted_then_await {B} n (first : M Σ B) (rest : B → M Σ A) σ :
  uninterrupted n (then_await first n rest σ).1 (then_await first n rest σ).2
  = (Settled ((b <- first ;; rest b) σ).1, ((b <- first ;; rest b) σ).2).
Proof.
  unfold then_await, bind. destruct (first σ) as [[b|e] σ'];
    [apply uninterrupted_delayed | apply uninterrupted_settled].
Qed.

(** A sub-task alone runs without interruption, whatever else the
    schedule resumes. *)
Lemma await_all_alone n schedule t σ :
  within n t → covers schedule (λ i, if decide (i = 0) then n else 0) →
  await_all schedule [t] σ
  = (all_settled [(uninterrupted n t σ).1], [(uninterrupted n t σ).1],
     (uninterrupted n t σ).2).
Proof.
  revert n t σ. induction schedule as [|i later IH]; intros n t σ Ht Hc;
    (destruct t as [r|rest]; [rewrite uninterrupted_settled; by destruct r|]);
    inversion Ht as [|n' ? Hrest]; subst.
  - specialize (Hc 0). cbn beta in Hc. rewrite decide_True in Hc by done. cbn in Hc. lia.
  - apply covers_tail in Hc. destruct i as [|i]; cbn.
    + specialize (Hrest σ). destruct (rest σ) as [t1 σ1]. apply IH; [done|].
      apply (covers_mono _ _ _ Hc). intros j. by destruct (decide (j = 0)).
    + apply (IH (S n') (Awaiting rest)); [done|].
      apply (covers_mono _ _ _ Hc). intros j. by repeat case_decide; subst.
Qed.

(** A function that awaits once and is alone in the array is its body. *)
Lemma await_promise_all_alone {B} m n (first : M Σ B) (rest : B → M Σ A) schedule σ :
  covers schedule (λ i, if decide (i = 0) then m + n else 0) →
  await_promise_all schedule [Nat.iter m sleep_then (then_await first n rest)] σ
  = (res_map (λ a, Some [a]) ((b <- first ;; rest b) σ).1, ((b <- first ;; rest b) σ).2).
Proof.
  intros Hc. unfold await_promise_all, promise_all_at. cbn [start].
  pose proof (uninterrupted_sleeps m n (then_await first n rest) σ) as Hrun.
  pose proof (sleeps_within m n _ (then_await_within first n rest) σ) as Hw.
  destruct (Nat.iter m sleep_then _ σ) as [t σ1]. cbn in Hrun, Hw.
  rewrite (await_all_alone (m + n)), Hrun, uninterrupted_then_await by done.
  by destruct ((b <- first ;; rest b) σ) as [[a|e] σ'].
Qed.

(** *** Sub-tasks that do not fail *)

(** Sub-tasks that keep [P] and promise values, under a schedule that
    resumes each as often as it awaits: the caller is resumed with the
    values the sub-tasks promised, in the order of the array, in a state
    that satisfies [P]. *)
Lemma promise_all_at_returns P (Qs : list (A → Prop)) (bounds : list nat) schedule calls σ :
  Forall2 (λ (Q' : A → Prop) call, call_promises P (fulfils Q') call) Qs calls →
  Forall2 (λ n call, ∀ σ, within n (call σ).1) bounds calls →
  covers schedule (λ i, default 0 (bounds !! i)) → P σ →
  ∃ l ts σ', promise_all_at schedule calls σ = (Some (Ok l), ts, σ') ∧
             P σ' ∧ Forall2 (λ (Q' : A → Prop) a, Q' a) Qs l.
Proof.
  intros Hcalls%Forall2_fmap_l Hbounds Hc Hσ.
  destruct (promise_all_at_settles P (fulfils <$> Qs) bounds schedule calls σ)
    as ([l|e] & ts & σ' & Hrun & Hσ' & Hr); [done..| |]; unfold settled_as in Hr.
  - exists l, ts, σ'. by rewrite Forall2_fmap_l in Hr.
  - by apply Exists_fmap, Exists_exists in Hr as (Q & _ & []).
Qed.

End schedule_lemmas.

(** The stage of sub-tasks that await nothing is the stage of [FanOut],
    whatever the schedule. *)
Lemma fan_out_at_sync {Σ} schedule (tasks : list (M Σ value)) (σ : Σ) :
  fan_out_at schedule (async <$> tasks) σ = ((Some (fan_out tasks σ).1), (fan_out tasks σ).2).
Proof.
  unfold fan_out_at, fan_out, bind. rewrite await_all_sync.
  by destruct (promise_all tasks σ) as [[l|e] σ'].
Qed.
