(* ===== verification/AgentTasks.v ===== *)
(** * The tool calls of the functional agents as tasks

    The functional agents run the tool calls of an answer with
    [await Promise.all(tool_calls.map((toolCall) => callTool(toolCall)))].
    [callTool] is a task whose body looks the tool up, awaits
    [tool.invoke] and goes on with the result: the tasks of a round are
    started together, and the order in which their pieces run is the
    runtime's. [FunctionalAgent] runs the calls one after the other. This
    file runs them as the promises of [Schedule], under a [Timing]: for
    each position of the array the turns of the runtime before the body of
    the task starts and the turns its [tool.invoke] takes, and the order
    in which the runtime resumes the tasks. A round whose timing ends
    before the tasks are settled leaves the agent waiting ([None], as for
    a loop that is out of fuel).

    The three scripts are [PlainTasks] (the plain functional.ts),
    [Tasks] (src/functional.ts) and [TraceTasks] (functional-trace.ts).

    Theorems: under every timing that resumes each task as often as it
    awaits, the three agents return the transcript of the sequential agent
    and leave its process, up to the console, and fail when it fails
    ([tool_calls_any_timing], [plain_tasks_any_timing],
    [trace_tasks_any_timing]); when the model asks for one tool at a time
    the sequential agent is exact, console included
    ([one_call_rounds_exact]); with a deterministic model two runs under
    two timings end the same, up to which error is thrown
    ([tasks_idempotent]); with two calls in an answer the lines of
    the calls are printed before the lines of the results
    ([two_calls_interleave]), and of two calls that fail the error of the
    agent is that of the call that fails first in time
    ([first_failure_in_time]). *)

From stdpp Require Import base option list strings pretty.
From Stdlib Require Import Lia Floats.
From S2P Require Import Prelude JsValue Engine Messages Host Tools Stubs GraphAgent.
From S2P Require Import FunctionalAgent FanOut Schedule.

(** The timing of one round of tool calls. *)
Record Timing : Type := mkTiming {
  latency : list (nat * nat);
  order : list nat;
}.

(** The turns before the body of the task at position [i] starts, and the
    turns its [tool.invoke] takes: none where the timing says nothing. *)
Definition latency_at (t : Timing) (i : nat) : nat * nat := default (0, 0) (latency t !! i).

Definition waiting (t : Timing) (i : nat) : nat := (latency_at t i).1 + (latency_at t i).2.

(** The runtime resumes every task as often as it awaits. *)
Definition keeps_up (t : Timing) : Prop := covers (order t) (waiting t).

(** A task with the timing of its position: [first] is its body up to
    [await tool.invoke(toolCall)], [rest] what follows. *)
Definition task_at {Σ A B} (t : Timing) (i : nat) (first : M Σ B) (rest : B → M Σ A)
  : Call Σ A :=
  Nat.iter (latency_at t i).1 sleep_then (then_await first (latency_at t i).2 rest).

(** ** The plain agent *)

Module PlainTasks.

Section agent.
Context `{Host} `{Runtime}.
#[local] Abbreviation Proc := (Process unit).

Definition callTool (t : Timing) (i : nat) (toolCall : ToolCall) : Call Proc Message :=
  task_at t i
    (lift_res (lookup_tool FunctionalPlain.toolsByName (tc_name toolCall)))
    (λ tool, lift_res (tool_invoke tool toolCall VUndefined)).

(** [await Promise.all(tool_calls.map((toolCall) => callTool(toolCall)))]. *)
Definition callTools (t : Timing) (tool_calls : list ToolCall)
  : M Proc (option (list Message)) :=
  await_promise_all (order t) (imap (callTool t) tool_calls).

(** The loop, with the timing of each of its rounds. *)
Fixpoint agent_loop (timings : nat → Timing) (fuel : nat) (messages : list Message)
    (modelResponse : Message) : M Proc (option (list Message)) :=
  if negb (Nat.ltb 0 (length (tool_calls modelResponse))) then ret (Some messages)
  else
    match fuel with
    | 0 => ret None
    | S fuel' =>
        toolResults <- callTools (timings 0) (tool_calls modelResponse) ;;
        match toolResults with
        | None => ret None
        | Some toolResults =>
            let messages := addMessages messages (modelResponse :: toolResults) in
            modelResponse <- FunctionalPlain.callLlm messages ;;
            agent_loop (timings ∘ S) fuel' messages modelResponse
        end
    end.

Definition agent (timings : nat → Timing) (fuel : nat) (messages : list Message)
  : M Proc (option (list Message)) :=
  modelResponse <- FunctionalPlain.callLlm messages ;;
  agent_loop timings fuel messages modelResponse.

End agent.

End PlainTasks.

(** ** The agent of src/functional.ts *)

Module Tasks.

Section agent.
Context `{Host} `{Runtime}.
#[local] Abbreviation Proc := (Process unit).

Definition callTool (t : Timing) (i : nat) (toolCall : ToolCall) : Call Proc Message :=
  task_at t i
    (console_log ("🔧 ツール呼び出し: " +:+ Functional.show_call toolCall) ;;
     lift_res (lookup_tool Functional.toolsByName (tc_name toolCall)))
    (λ tool,
       result <- lift_res (tool_invoke tool toolCall VUndefined) ;;
       console_log ("✓ ツール結果: " +:+ to_string (content result) +:+ newline) ;;
       ret result).

Definition callTools (t : Timing) (tool_calls : list ToolCall)
  : M Proc (option (list Message)) :=
  await_promise_all (order t) (imap (callTool t) tool_calls).

Fixpoint agent_loop (timings : nat → Timing) (fuel iteration : nat)
    (messages : list Message) (modelResponse : Message)
  : M Proc (option (list Message)) :=
  if negb (Nat.ltb 0 (length (tool_calls modelResponse))) then
    console_log ("✅ ツール呼び出しなし - エージェント終了" +:+ newline) ;;
    ret (Some messages)
  else
    match fuel with
    | 0 => ret None
    | S fuel' =>
        console_log (newline +:+ "📍 反復 " +:+ pretty iteration +:+ ": "
                     +:+ pretty (length (tool_calls modelResponse))
                     +:+ "個のツールを実行中..." +:+ newline) ;;
        toolResults <- callTools (timings 0) (tool_calls modelResponse) ;;
        match toolResults with
        | None => ret None
        | Some toolResults =>
            let messages := addMessages messages (modelResponse :: toolResults) in
            modelResponse <- Functional.callLlm messages ;;
            agent_loop (timings ∘ S) fuel' (S iteration) messages modelResponse
        end
    end.

Definition agent (timings : nat → Timing) (fuel : nat) (messages : list Message)
  : M Proc (option (list Message)) :=
  console_log (newline +:+ "🤖 エージェント開始" +:+ newline) ;;
  modelResponse <- Functional.callLlm messages ;;
  agent_loop timings fuel 1 messages modelResponse.

End agent.

End Tasks.

(** ** The agent of functional-trace.ts *)

Module TraceTasks.

Section agent.
Context `{Host} `{Runtime}.
#[local] Abbreviation Proc := (Process unit).

Definition callTool (t : Timing) (i : nat) (toolCall : ToolCall) : Call Proc Message :=
  task_at t i
    (console_log ("🔧 ツール呼び出し: " +:+ Functional.show_call toolCall) ;;
     lift_res (lookup_tool FunctionalTrace.toolsByName (tc_name toolCall)))
    (λ tool,
       result <- lift_res (tool_invoke tool toolCall VUndefined) ;;
       console_log ("✓ ツール結果: " +:+ to_string (content result) +:+ newline) ;;
       ret result).

Definition callTools (t : Timing) (tool_calls : list ToolCall)
  : M Proc (option (list Message)) :=
  await_promise_all (order t) (imap (callTool t) tool_calls).

Fixpoint agent_loop (timings : nat → Timing) (fuel iteration : nat)
    (messages : list Message) (modelResponse : Message)
  : M Proc (option (list Message)) :=
  if negb (Nat.ltb 0 (length (tool_calls modelResponse))) then
    console_log ("✅ ツール呼び出しなし - エージェント終了" +:+ newline) ;;
    ret (Some messages)
  else
    match fuel with
    | 0 => ret None
    | S fuel' =>
        console_log (newline +:+ "📍 反復 " +:+ pretty iteration +:+ ": "
                     +:+ pretty (length (tool_calls modelResponse))
                     +:+ "個のツールを実行中..." +:+ newline) ;;
        toolResults <- callTools (timings 0) (tool_calls modelResponse) ;;
        match toolResults with
        | None => ret None
        | Some toolResults =>
            let messages := addMessages messages (modelResponse :: toolResults) in
            modelResponse <- FunctionalTrace.callLlm messages ;;
            agent_loop (timings ∘ S) fuel' (S iteration) messages modelResponse
        end
    end.

Definition agent (timings : nat → Timing) (fuel : nat) (messages : list Message)
  : M Proc (option (list Message)) :=
  console_log (newline +:+ "🤖 エージェント開始 (Langfuseでトレース中)" +:+ newline) ;;
  modelResponse <- FunctionalTrace.callLlm messages ;;
  agent_loop timings fuel 1 messages modelResponse.

End agent.

End TraceTasks.

(** The model asks for one tool at a time: no answer carries two tool
    calls. *)
Definition one_at_a_time `{Host} : Prop :=
  ∀ tools msgs w c tcs w', complete tools msgs w = (Ok (c, tcs), w') → length tcs ≤ 1.

(** ** Lemmas *)

Section rounds.
Context `{Host} `{Runtime}.
#[local] Abbreviation Proc := (Process unit).
Implicit Types (p q : Proc) (t : Timing) (tc : ToolCall) (tcs : list ToolCall).
Implicit Types (msgs : list Message) (response : Message) (timings : nat → Timing).

(** What a tool call gives: the three scripts have the same tools. *)
Definition result_of tc : Res Message :=
  tool ← lookup_tool Calculator.toolsByName (tc_name tc); tool_invoke tool tc VUndefined.

(** *** The sequential rounds *)

Lemma plain_callTool_result tc p : FunctionalPlain.callTool tc p = (result_of tc, p).
Proof.
  unfold FunctionalPlain.callTool, result_of, bind, lift_res.
  by destruct (lookup_tool _ _).
Qed.

Lemma plain_callTools_settle tcs p :
  mmap FunctionalPlain.callTool tcs p = (settle (result_of <$> tcs), p).
Proof.
  induction tcs as [|tc tcs IH]; [done|]. cbn [mmap fmap list_fmap settle]. unfold bind.
  rewrite plain_callTool_result. destruct (result_of tc); [|done].
  rewrite IH. by destruct (settle _).
Qed.

(** *** The tasks *)

Lemma task_at_within {Σ A B} t i (first : M Σ B) (rest : B → M Σ A) σ :
  within (waiting t i) (task_at t i first rest σ).1.
Proof. apply sleeps_within. intros σ'. apply then_await_within. Qed.

(** A task that looks the tool up, awaits its result and prints in
    between keeps the process up to the console and promises the result
    of the tool call. *)
Lemma task_at_promises t i tc p (before : M Proc unit) (after : Message → M Proc unit) :
  prints before → (∀ result, prints (after result)) →
  call_promises (λ q, quiet q p) (λ r, r = result_of tc)
    (task_at t i
       (before ;; lift_res (lookup_tool Calculator.toolsByName (tc_name tc)))
       (λ tool, result <- lift_res (tool_invoke tool tc VUndefined) ;;
                after result ;; ret result)).
Proof.
  intros Hb Ha. apply sleeps_promises.
  apply (then_await_promises _ _
           (λ tool, lookup_tool Calculator.toolsByName (tc_name tc) = Ok tool)).
  - intros q Hq. unfold bind, lift_res, result_of. destruct (Hb q) as (u & Hu & Hq').
    destruct (before q) as [[u'|e] q1]; cbn in *; [|done].
    split; [by etrans|]. by destruct (lookup_tool _ _).
  - intros tool Htool q Hq. unfold bind, lift_res, result_of. rewrite Htool. cbn.
    destruct (tool_invoke tool tc VUndefined) as [result|e]; cbn; [|done].
    destruct (Ha result q) as (u & Hu & Hq'). destruct (after result q) as [[u'|e] q1];
      cbn in *; [|done]. split; [by etrans | done].
Qed.

(** A round of tasks that keep up, each of which keeps the process in
    relation with [p] and promises the result of its tool call: the agent
    goes on with the results of the sequential round, or fails as it does,
    in a process in relation with [p]. *)
Lemma tasks_settle (R : Proc → Proc → Prop) (task : nat → ToolCall → Call Proc Message)
    t tcs q p :
  (∀ i tc, call_promises (λ q, R q p) (λ r, r = result_of tc) (task i tc)) →
  (∀ i tc σ, within (waiting t i) (task i tc σ).1) →
  keeps_up t → R q p →
  ∃ r q', await_promise_all (order t) (imap task tcs) q = (res_map Some r, q') ∧
          R q' p ∧ same_outcome r (settle (result_of <$> tcs)).
Proof.
  intros Ht Hw Hk Hq.
  destruct (await_promise_all_imap (λ q, R q p) (λ tc r, r = result_of tc)
              (waiting t) task (order t) tcs q) as (r & q' & Hrun & Hq' & Hr); [done..|].
  exists r, q'. split_and!; [done..|]. by apply settled_as_settle.
Qed.

(** What only prints can be dropped in front of a computation. *)
Lemma mlike_prints_l {A B} (m0 : M Proc B) (m1 m2 : M Proc A) :
  prints m0 → mlike quiet m1 m2 → mlike quiet (m0 ;; m1) m2.
Proof.
  intros Hp Hm q p Hq. unfold bind. destruct (Hp q) as (b & Hb & Hq').
  destruct (m0 q) as [[b'|e] q1]; cbn in *; [|done]. apply Hm. by etrans.
Qed.

(** A round of tasks in front of what follows, against the sequential
    round. *)
Lemma round_like {A} (R : Proc → Proc → Prop) (round : M Proc (option (list Message))) tcs
    (k1 k2 : list Message → M Proc (option A)) :
  (∀ q p, R q p →
     ∃ r q', round q = (res_map Some r, q') ∧ R q' p ∧
             same_outcome r (settle (result_of <$> tcs))) →
  (∀ l, mlike R (k1 l) (k2 l)) →
  mlike R (x <- round ;; match x with None => ret None | Some l => k1 l end)
          (l <- mmap FunctionalPlain.callTool tcs ;; k2 l).
Proof.
  intros Hround Hk q p Hq. unfold bind. rewrite plain_callTools_settle.
  destruct (Hround q p Hq) as (r & q' & -> & Hq' & Hr).
  destruct r as [l|e], (settle _) as [l'|e']; cbn in *; try contradiction; subst;
    [by apply Hk | done].
Qed.

Lemma msim_same {A} (m : M Proc A) : msim eq m m.
Proof. by intros q p ->. Qed.

(** *** The three agents *)

Lemma plain_callTool_promises t i tc p :
  call_promises (λ q, q = p) (λ r, r = result_of tc) (PlainTasks.callTool t i tc).
Proof.
  apply sleeps_promises,
    (then_await_promises _ _
       (λ tool, lookup_tool Calculator.toolsByName (tc_name tc) = Ok tool)).
  - intros q ->. unfold lift_res, result_of. cbn. split; [done|].
    by destruct (lookup_tool _ _).
  - intros tool Htool q ->. unfold lift_res, result_of. by rewrite Htool.
Qed.

Lemma plain_agent_loop_like timings fuel msgs response :
  (∀ k, keeps_up (timings k)) →
  mlike eq (PlainTasks.agent_loop timings fuel msgs response)
           (FunctionalPlain.agent_loop fuel msgs response).
Proof.
  revert timings msgs response.
  induction fuel as [|fuel IH]; intros timings msgs response Hk;
    cbn [PlainTasks.agent_loop FunctionalPlain.agent_loop];
    destruct (tool_calls response) as [|tc tcs]; cbn -[mmap PlainTasks.callTools];
    try apply msim_mlike, msim_ret.
  apply round_like.
  - intros q p Hq. apply tasks_settle; auto using plain_callTool_promises.
    intros; apply task_at_within.
  - intros l. apply mlike_bind; [apply msim_mlike, msim_same|]. intros r. apply IH.
    intros k. apply Hk.
Qed.

Lemma callTool_promises t i tc p :
  call_promises (λ q, quiet q p) (λ r, r = result_of tc) (Tasks.callTool t i tc).
Proof.
  apply (task_at_promises t i tc p _
           (λ result, console_log ("✓ ツール結果: " +:+ to_string (content result)
                                   +:+ newline)));
    intros; apply prints_console_log.
Qed.

Lemma agent_loop_like timings fuel iteration msgs response :
  (∀ k, keeps_up (timings k)) →
  mlike quiet (Tasks.agent_loop timings fuel iteration msgs response)
              (FunctionalPlain.agent_loop fuel msgs response).
Proof.
  revert timings iteration msgs response.
  induction fuel as [|fuel IH]; intros timings iteration msgs response Hk;
    cbn [Tasks.agent_loop FunctionalPlain.agent_loop];
    destruct (tool_calls response) as [|tc tcs]; cbn -[mmap Tasks.callTools];
    try (apply msim_mlike; quiet_sim; fail).
  apply mlike_prints_l; [quiet_prints|]. apply round_like.
  - intros q p Hq. apply tasks_settle; auto using callTool_promises.
    intros; apply task_at_within.
  - intros l. apply mlike_bind; [apply msim_mlike, callLlm_quiet|]. intros r. apply IH.
    intros k. apply Hk.
Qed.

Lemma trace_callTool_promises t i tc p :
  call_promises (λ q, quiet q p) (λ r, r = result_of tc) (TraceTasks.callTool t i tc).
Proof.
  apply (task_at_promises t i tc p _
           (λ result, console_log ("✓ ツール結果: " +:+ to_string (content result)
                                   +:+ newline)));
    intros; apply prints_console_log.
Qed.

Lemma trace_agent_loop_like timings fuel iteration msgs response :
  (∀ k, keeps_up (timings k)) →
  mlike quiet (TraceTasks.agent_loop timings fuel iteration msgs response)
              (FunctionalPlain.agent_loop fuel msgs response).
Proof.
  revert timings iteration msgs response.
  induction fuel as [|fuel IH]; intros timings iteration msgs response Hk;
    cbn [TraceTasks.agent_loop FunctionalPlain.agent_loop];
    destruct (tool_calls response) as [|tc tcs]; cbn -[mmap TraceTasks.callTools];
    try (apply msim_mlike; quiet_sim; fail).
  apply mlike_prints_l; [quiet_prints|]. apply round_like.
  - intros q p Hq. apply tasks_settle; auto using trace_callTool_promises.
    intros; apply task_at_within.
  - intros l. apply mlike_bind; [apply msim_mlike, trace_callLlm_quiet|]. intros r.
    apply IH. intros k. apply Hk.
Qed.

End rounds.

(** ** Properties *)

Section properties.
Context `{Host} `{Runtime}.
#[local] Abbreviation Proc := (Process unit).
Implicit Types (p q : Proc) (msgs : list Message) (timings : nat → Timing).

(** The agent with tasks and the sequential agent, from their loops. *)
Lemma agent_like timings fuel msgs :
  (∀ k, keeps_up (timings k)) →
  mlike quiet (Tasks.agent timings fuel msgs) (FunctionalPlain.agent fuel msgs).
Proof.
  intros Hk. unfold Tasks.agent, FunctionalPlain.agent.
  apply mlike_prints_l; [quiet_prints|].
  apply mlike_bind; [apply msim_mlike, callLlm_quiet|]. intros r.
  by apply agent_loop_like.
Qed.

(** C14. The order in which the runtime runs the tool calls of an answer
    does not change what the agent of src/functional.ts computes: under
    every timing of the tasks that resumes each as often as it awaits,
    whatever the latency of each call and the order of the resumptions,
    the agent returns the transcript the sequential agent returns, or is
    out of fuel or fails when it is or does, and leaves the process the
    sequential agent leaves, up to the lines printed. *)
Theorem tool_calls_any_timing timings fuel msgs :
  (∀ k, keeps_up (timings k)) →
  mlike quiet (Tasks.agent timings fuel msgs) (FunctionalPlain.agent fuel msgs).
Proof. apply agent_like. Qed.

(** The plain agent prints nothing: under every such timing it leaves the
    very process the sequential agent leaves. *)
Theorem plain_tasks_any_timing timings fuel msgs :
  (∀ k, keeps_up (timings k)) →
  mlike eq (PlainTasks.agent timings fuel msgs) (FunctionalPlain.agent fuel msgs).
Proof.
  intros Hk. unfold PlainTasks.agent, FunctionalPlain.agent.
  apply mlike_bind; [apply msim_mlike, msim_same|]. intros r.
  by apply plain_agent_loop_like.
Qed.

(** The same for the agent of functional-trace.ts. *)
Theorem trace_tasks_any_timing timings fuel msgs :
  (∀ k, keeps_up (timings k)) →
  mlike quiet (TraceTasks.agent timings fuel msgs) (FunctionalPlain.agent fuel msgs).
Proof.
  intros Hk. unfold TraceTasks.agent, FunctionalPlain.agent.
  apply mlike_prints_l; [quiet_prints|].
  apply mlike_bind; [apply msim_mlike, trace_callLlm_quiet|]. intros r.
  by apply trace_agent_loop_like.
Qed.

(** Idempotence under any timing: with a deterministic model, two
    runs of the agent of src/functional.ts on the same transcript return
    the same transcript, or are both out of fuel, or both fail, whatever
    the state of the model provider and whatever the timings of the two
    runs, provided both resume each task as often as it awaits. *)
Theorem tasks_idempotent timings timings' fuel msgs p q :
  stateless_model → (∀ k, keeps_up (timings k)) → (∀ k, keeps_up (timings' k)) →
  same_outcome (Tasks.agent timings fuel msgs p).1 (Tasks.agent timings' fuel msgs q).1.
Proof.
  intros Hm Hk Hk'.
  destruct (agent_like timings fuel msgs Hk p p) as [Hp _]; [done|].
  destruct (agent_like timings' fuel msgs Hk' q q) as [Hq _]; [done|].
  eapply same_outcome_trans; [exact Hp|]. apply same_outcome_sym.
  by rewrite (functional_idempotent fuel msgs p q Hm).
Qed.

End properties.

(** ** One tool at a time *)

Section exact.
Context `{Host} `{Runtime}.
#[local] Abbreviation Proc := (Process unit).
Implicit Types (p q : Proc) (t : Timing) (tc : ToolCall) (msgs : list Message).
Implicit Types (response : Message) (timings : nat → Timing).

(** A timing that keeps up gives the task at the head of the array its
    turns. *)
Lemma keeps_up_alone t :
  keeps_up t → covers (order t) (λ i, if decide (i = 0) then waiting t 0 else 0).
Proof.
  intros Hk. apply (covers_mono _ _ _ Hk). intros i.
  destruct (decide (i = 0)) as [->|]; lia.
Qed.

(** A task alone in its round runs as the sequential [callTool]. *)
Lemma callTool_alone t tc schedule p :
  covers schedule (λ i, if decide (i = 0) then waiting t 0 else 0) →
  await_promise_all schedule [Tasks.callTool t 0 tc] p
  = (res_map (λ a, Some [a]) (Functional.callTool tc p).1, (Functional.callTool tc p).2).
Proof.
  intros Hc. unfold Tasks.callTool, task_at. rewrite await_promise_all_alone by done.
  by rewrite (bind_assoc _ _ _ p).
Qed.

(** A round of one task is the sequential round, console included. *)
Lemma callTools_alone {A} t tc (k : option (list Message) → M Proc A) p :
  keeps_up t →
  (x <- Tasks.callTools t [tc] ;; k x) p
  = (l <- mmap Functional.callTool [tc] ;; k (Some l)) p.
Proof.
  intros Hk%keeps_up_alone. unfold bind at 1, Tasks.callTools. cbn [imap].
  rewrite callTool_alone by done. cbn [mmap]. unfold bind, ret.
  by destruct (Functional.callTool tc p) as [[result|e] p'].
Qed.

(** The answers of a model that asks for one tool at a time. *)
Lemma callLlm_one msgs p response p' :
  one_at_a_time → Functional.callLlm msgs p = (Ok response, p') →
  length (tool_calls response) ≤ 1.
Proof.
  intros Hone. unfold Functional.callLlm, Functional.modelWithTools.
  intros (_ & p1 & _ & (_ & p2 & _ & (_ & p3 & _ & Hm)%bind_ok_inv)%bind_ok_inv)%bind_ok_inv.
  unfold invoke_model in Hm. destruct (complete _ _ _) as [[[c tcs]|e] w] eqn:E; [|done].
  injection Hm as <- <-. by eapply Hone.
Qed.

Lemma agent_loop_exact timings fuel iteration msgs response p :
  one_at_a_time → (∀ k, keeps_up (timings k)) → length (tool_calls response) ≤ 1 →
  Tasks.agent_loop timings fuel iteration msgs response p
  = Functional.agent_loop fuel iteration msgs response p.
Proof.
  intros Hone. revert timings iteration msgs response p.
  induction fuel as [|fuel IH]; intros timings iteration msgs response p Hk Hlen;
    cbn [Tasks.agent_loop Functional.agent_loop];
    destruct (tool_calls response) as [|tc [|tc' tcs]]; cbn in Hlen; try lia; try done.
  cbn -[mmap Tasks.callTools].
  etrans; [by apply callTools_alone|]. apply bind_run_ext. intros l p2 _. cbn beta iota.
  apply bind_run_ext. intros r p3 Hr. apply IH; [intros k; apply Hk|].
  by eapply callLlm_one.
Qed.

End exact.

Section exact_property.
Context `{Host} `{Runtime}.
#[local] Abbreviation Proc := (Process unit).

(** C25. When the model asks for one tool at a time, as in the scenario of
    the README, the sequential agent of src/functional.ts is exact: under
    every timing that resumes the task as often as it awaits, the agent
    with tasks returns the same transcript or error and leaves the same
    process, with the same lines on the console in the same order. *)
Theorem one_call_rounds_exact (timings : nat → Timing) fuel (msgs : list Message)
    (p : Proc) :
  one_at_a_time → (∀ k, keeps_up (timings k)) →
  Tasks.agent timings fuel msgs p = Functional.agent fuel msgs p.
Proof.
  intros Hone Hk. unfold Tasks.agent, Functional.agent.
  apply bind_run_ext. intros _ p1 _. apply bind_run_ext. intros r p2 Hr.
  apply agent_loop_exact; [done..|]. by eapply callLlm_one.
Qed.

End exact_property.

(** ** Scenarios *)

Module TaskStub.

Definition multiply_5_6 : ToolCall :=
  mkToolCall "multiply" (VObj [("a", VNum 5); ("b", VNum 6)]) "call_2".

(** A model that asks for two tools in its first answer. *)
Definition two_calls : list (Res (value * list ToolCall)) :=
  [Ok (VStr "", [Stub.add_3_4; multiply_5_6]); Ok (VStr "7 and 30", [])].

(** A model that asks for two calls that fail: the arguments of the first
    do not match the schema, the tool of the second does not exist. *)
Definition two_failures : list (Res (value * list ToolCall)) :=
  [Ok (VStr "", [Stub.add_bad_args; Stub.subtract_3_4])].

(** Both tasks start where they are called, each [tool.invoke] takes one
    turn, and the runtime resumes the tasks in the order of the array. *)
Definition in_turn : Timing := mkTiming [(0, 1); (0, 1)] [0; 1].

(** The body of the second task starts two turns late, after the first
    task has been resumed. *)
Definition late_start : Timing := mkTiming [(0, 1); (2, 0)] [0; 1; 1].

Definition call_line (tc : ToolCall) : string :=
  "🔧 ツール呼び出し: " +:+ @Functional.show_call Stub.runtime tc.

Definition result_line (result : string) : string :=
  "✓ ツール結果: " +:+ result +:+ newline.

(** The model of the scenario [Stub.reactive] asks for one tool at a
    time. *)
Lemma reactive_one_at_a_time tc : @one_at_a_time (Stub.reactive tc).
Proof.
  intros tools msgs w c tcs w'. cbn. unfold Stub.reactive_answer.
  destruct (last msgs) as [[]|]; intros [= <- <- <-]; cbn; lia.
Qed.

Lemma in_turn_keeps_up : keeps_up in_turn.
Proof. intros [|[|i]]; vm_compute; lia. Qed.

Lemma late_start_keeps_up : keeps_up late_start.
Proof. intros [|[|i]]; vm_compute; lia. Qed.

End TaskStub.

(** With two tool calls in an answer the agent with tasks prints the lines
    of the two calls, then the lines of the two results; the sequential
    agent prints call and result of the first, then call and result of the
    second. Both return the same transcript. *)
Example two_calls_interleave :
  let tasks :=
    @Tasks.agent Stub.scripted Stub.runtime (λ _, TaskStub.in_turn) 5 Stub.question
      (Stub.boot TaskStub.two_calls) in
  let sequential :=
    @Functional.agent Stub.scripted Stub.runtime 5 Stub.question
      (Stub.boot TaskStub.two_calls) in
  tasks.1 = sequential.1 ∧ is_ok tasks.1 = true ∧
  take 4 (drop 6 (console tasks.2))
  = [TaskStub.call_line Stub.add_3_4; TaskStub.call_line TaskStub.multiply_5_6;
     TaskStub.result_line "7"; TaskStub.result_line "30"] ∧
  take 4 (drop 6 (console sequential.2))
  = [TaskStub.call_line Stub.add_3_4; TaskStub.result_line "7";
     TaskStub.call_line TaskStub.multiply_5_6; TaskStub.result_line "30"].
Proof. vm_compute. done. Qed.

(** Of two tool calls that fail, the agent with tasks throws the error
    raised first in time: the missing tool, found out where the second
    task starts, unless that task starts late; the sequential agent throws
    the error of the first call of the array. *)
Example first_failure_in_time :
  let tasks timing :=
    @PlainTasks.agent Stub.scripted Stub.runtime (λ _, timing) 5 Stub.question
      (Stub.boot TaskStub.two_failures) in
  (tasks TaskStub.in_turn).1 = Err undefined_tool_error ∧
  (tasks TaskStub.late_start).1 = Err schema_error ∧
  (@FunctionalPlain.agent Stub.scripted Stub.runtime 5 Stub.question
     (Stub.boot TaskStub.two_failures)).1 = Err schema_error.
Proof. vm_compute. done. Qed.

(** ** Witnesses *)

Lemma tool_calls_any_timing_witness :
  mlike quiet
    (@Tasks.agent Stub.scripted Stub.runtime (λ _, TaskStub.in_turn) 5 Stub.question)
    (@FunctionalPlain.agent Stub.scripted Stub.runtime 5 Stub.question).
Proof. apply tool_calls_any_timing. intros k. apply TaskStub.in_turn_keeps_up. Defined.

Lemma one_call_rounds_exact_witness :
  @Tasks.agent (Stub.reactive Stub.add_3_4) Stub.runtime (λ _, TaskStub.late_start) 5
    Stub.question (Stub.boot_reactive Stub.add_3_4 0)
  = @Functional.agent (Stub.reactive Stub.add_3_4) Stub.runtime 5 Stub.question
      (Stub.boot_reactive Stub.add_3_4 0).
Proof.
  apply one_call_rounds_exact;
    [apply TaskStub.reactive_one_at_a_time | intros k; apply TaskStub.late_start_keeps_up].
Defined.
