(* ===== verification/ComplexTools.v ===== *)
(** * The tools of the complex graph

    The three tools of complex-graph-auto-trace.ts (second document of
    src/unnamed/part_000): [analyzeData], the statistics of an array of
    numbers, [processText], four operations on a text, and [calculate],
    which evaluates an expression of the language, with the registry
    [toolsByName].

    The evaluation of an expression is a function of the runtime, the class
    [Evaluator]. The operations that look inside a text ([toUpperCase],
    [toLowerCase], [split("")], [length]) are those of [Js], on code
    units. *)

From stdpp Require Import base option list strings.
From Stdlib Require Import Floats.
From S2P Require Import Prelude JsValue Messages Host Tools Stubs.

(** [Function('"use strict"; return (' + expression + ')')()]: the value of
    the expression, or what its compilation or evaluation throws. *)
Class Evaluator : Type := {
  js_eval : string → Res value;
}.

Module ComplexTools.

(** [String(e)] for an error [e]: its name and its message. *)
Definition error_name (kind : ErrorKind) : string :=
  match kind with
  | TypeError => "TypeError"
  | RangeError => "RangeError"
  | SyntaxError => "SyntaxError"
  | _ => "Error"
  end.

Definition error_text (e : JsError) : string :=
  if String.eqb (err_message e) "" then error_name (err_kind e)
  else error_name (err_kind e) +:+ ": " +:+ err_message e.

Section tools.
Context `{Runtime} `{Evaluator}.

(** The statistics of [analyzeData], before they are serialised. *)
Definition statistics (data : list float) : value :=
  let sum := Js.sum data in
  let avg := PrimFloat.div sum (Js.number_of (Js.of_nat (length data))) in
  let max := Js.math_max data in
  let min := Js.math_min data in
  VObj [("sum", VNum sum); ("avg", VNum avg); ("max", VNum max); ("min", VNum min);
        ("count", Js.of_nat (length data))].

Definition analyzeData : Tool :=
  mkTool "analyzeData" "Analyze an array of numbers and return statistics"
    (z_object [("data", z_array z_number)])
    (λ input _,
       let data := Js.number_of <$> Js.items_of (Js.get_opt "data" input) in
       Ok (VStr (json_stringify (statistics data)))).

(** The [switch] of [processText]. *)
Definition text_operation (operation text : string) : string :=
  if String.eqb operation "uppercase" then Js.to_upper text
  else if String.eqb operation "lowercase" then Js.to_lower text
  else if String.eqb operation "reverse" then Js.join "" (reverse (Js.chars text))
  else if String.eqb operation "length"
       then "Length: " +:+ to_string (Js.of_nat (String.length text))
  else text.

Definition operations : list string := ["uppercase"; "lowercase"; "reverse"; "length"].

Definition processText : Tool :=
  mkTool "processText" "Process text with various operations"
    (z_object [("text", z_string); ("operation", z_enum operations)])
    (λ input _,
       match Js.get_opt "text" input, Js.get_opt "operation" input with
       | VStr text, VStr operation => Ok (VStr (text_operation operation text))
       | _, _ => Err (Js.type_error "text.toUpperCase is not a function")
       end).

Definition calculate : Tool :=
  mkTool "calculate" "Calculate a mathematical expression"
    (z_object [("expression", z_string)])
    (λ input _,
       Ok (VStr (match js_eval (content_string (Js.get_opt "expression" input)) with
                 | Ok result => "Result: " +:+ to_string result
                 | Err e => "Error: " +:+ error_text e
                 end))).

Definition toolsByName : list (string * Tool) :=
  [(tool_name analyzeData, analyzeData);
   (tool_name processText, processText);
   (tool_name calculate, calculate)].

(** [Object.values(toolsByName)]. *)
Definition tools : list Tool := toolsByName.*2.

End tools.

(** The reversal of a text, code unit by code unit. *)
Fixpoint rev_string (acc s : string) : string :=
  match s with
  | EmptyString => acc
  | String c s' => rev_string (String c acc) s'
  end.

End ComplexTools.

(** ** Lemmas *)

(** What the schema of numbers lets through. *)
Definition numbers (l : list value) : Prop :=
  Forall (λ v, ∃ n, v = VNum n ∧ Js.is_nan n = false) l.

Lemma parse_number v v' :
  parse z_number v = Some v' → v' = v ∧ ∃ n, v = VNum n ∧ Js.is_nan n = false.
Proof.
  destruct v as [| | |n| | |]; try done. cbn.
  destruct (Js.is_nan n) eqn:E; [done|]. intros [= <-]. eauto.
Qed.

Lemma parse_numbers l l' :
  mapM (parse z_number) l = Some l' → l' = l ∧ numbers l.
Proof.
  intros Hl%mapM_Some_1. induction Hl as [|v v' l l' Hv%parse_number _ [-> IH]];
    [by split; [|constructor]|].
  destruct Hv as [-> Hv]. by split; [|constructor].
Qed.

Lemma numbers_not_nan l :
  numbers l → Forall (λ x, Js.is_nan x = false) (Js.number_of <$> l).
Proof. induction 1 as [|v l (n & -> & Hn) _ IH]; constructor; done. Qed.

(** A choice between operands that are not [NaN] is one of them. *)
Lemma foldl_pick (f : float → float → float) seed l :
  (∀ a b, Js.is_nan a = false → Js.is_nan b = false → f a b = a ∨ f a b = b) →
  Js.is_nan seed = false → Forall (λ x, Js.is_nan x = false) l →
  foldl f seed l ∈ seed :: l.
Proof.
  intros Hf Hseed Hl. revert seed Hseed.
  induction Hl as [|x l Hx _ IH]; intros seed Hseed; cbn; [by left|].
  rewrite !elem_of_cons. destruct (Hf seed x Hseed Hx) as [E|E]; rewrite E.
  - specialize (IH seed Hseed). apply elem_of_cons in IH as [Hin|Hin]; eauto.
  - specialize (IH x Hx). apply elem_of_cons in IH as [Hin|Hin]; eauto.
Qed.

Lemma max2_pick a b :
  Js.is_nan a = false → Js.is_nan b = false → Js.max2 a b = a ∨ Js.max2 a b = b.
Proof.
  intros Ha Hb. unfold Js.max2. rewrite Ha, Hb. cbn.
  destruct (PrimFloat.ltb a b); [by right|].
  destruct (PrimFloat.ltb b a); [by left|]. destruct (Js.is_neg_zero a); eauto.
Qed.

Lemma min2_pick a b :
  Js.is_nan a = false → Js.is_nan b = false → Js.min2 a b = a ∨ Js.min2 a b = b.
Proof.
  intros Ha Hb. unfold Js.min2. rewrite Ha, Hb. cbn.
  destruct (PrimFloat.ltb a b); [by left|].
  destruct (PrimFloat.ltb b a); [by right|]. destruct (Js.is_neg_zero b); eauto.
Qed.

(** The reversal of the code units, against its reference. *)
Lemma rev_string_app acc s :
  ComplexTools.rev_string acc s = ComplexTools.rev_string "" s +:+ acc.
Proof.
  revert acc. induction s as [|c s IH]; intros acc; [done|]. cbn.
  rewrite (IH (String c acc)), (IH (String c "")). by rewrite app_assoc_s.
Qed.

Lemma join_reverse_chars s :
  Js.join "" (reverse (Js.chars s)) = ComplexTools.rev_string "" s.
Proof.
  induction s as [|c s IH]; [done|]. cbn [Js.chars ComplexTools.rev_string].
  by rewrite reverse_cons, join_app_empty, IH, (rev_string_app (String c "")).
Qed.

Lemma join_units_length l :
  Forall (λ u, ∃ c, u = String c "") l → String.length (Js.join "" l) = length l.
Proof.
  induction 1 as [|u l [c ->] _ IH]; [done|]. rewrite join_cons_empty.
  change (String.length (String c "" +:+ Js.join "" l))
    with (S (String.length (Js.join "" l))). by rewrite IH.
Qed.

Lemma reverse_units s : Forall (λ u, ∃ c, u = String c "") (reverse (Js.chars s)).
Proof. apply Forall_reverse, chars_units. Qed.

(** ** What the schemas let through *)

Lemma parse_text_input v input :
  parse (z_object [("text", z_string); ("operation", z_enum ComplexTools.operations)]) v
  = Some input →
  ∃ text operation,
    Js.get_opt "text" v = VStr text ∧ Js.get_opt "operation" v = VStr operation ∧
    operation ∈ ComplexTools.operations ∧
    input = VObj [("text", VStr text); ("operation", VStr operation)].
Proof.
  destruct v as [| | | | | |fs]; try done. cbn.
  destruct (Js.assoc "text" fs) as [[| | | |text| |]|]; try done. cbn.
  destruct (Js.assoc "operation" fs) as [[| | | |operation| |]|]; try done. cbn.
  case_bool_decide as Hin; [|done]. intros [= <-]. by exists text, operation.
Qed.

Lemma parse_data_input v input :
  parse (z_object [("data", z_array z_number)]) v = Some input →
  ∃ data, Js.get_opt "data" v = VArr (VNum <$> data) ∧
          Forall (λ x, Js.is_nan x = false) data ∧
          input = VObj [("data", VArr (VNum <$> data))].
Proof.
  destruct v as [| | | | | |fs]; try done. cbn.
  destruct (Js.assoc "data" fs) as [[| | | | |l|]|]; try done. cbn.
  destruct (mapM _ l) as [l'|] eqn:El; cbn; [|done]. intros [= <-].
  apply parse_numbers in El as [-> Hl]. exists (Js.number_of <$> l).
  split_and!; [| by apply numbers_not_nan |]; do 2 f_equal;
    induction Hl as [|v l (n & -> & _) _ IH]; cbn; congruence.
Qed.

Lemma parse_expression_input v input :
  parse (z_object [("expression", z_string)]) v = Some input →
  ∃ expression, Js.get_opt "expression" v = VStr expression ∧
                input = VObj [("expression", VStr expression)].
Proof.
  destruct v as [| | | | | |fs]; try done. cbn.
  destruct (Js.assoc "expression" fs) as [[| | | |expression| |]|]; try done. cbn.
  intros [= <-]. by exists expression.
Qed.

(** ** Properties *)

Section tool_properties.
Context `{Runtime} `{Evaluator}.

(** [processText] applies one of its four operations or rejects the
    call: an invocation whose arguments do not match the schema fails with
    the schema error before the function runs, so the [default] branch of
    the switch is never taken, and the tool fails in no other way. *)
Theorem processText_invoke tc config :
  match tool_invoke ComplexTools.processText tc config with
  | Ok m =>
      ∃ text operation,
        Js.get_opt "text" (tc_args tc) = VStr text ∧
        Js.get_opt "operation" (tc_args tc) = VStr operation ∧
        operation ∈ ComplexTools.operations ∧
        m = ToolMessage (VStr (ComplexTools.text_operation operation text))
              (tc_id tc) "processText"
  | Err e => e = schema_error
  end.
Proof.
  unfold tool_invoke. cbn [tool_schema ComplexTools.processText].
  destruct (parse _ (tc_args tc)) as [input|] eqn:E; [|done].
  apply parse_text_input in E as (text & operation & Ht & Ho & Hin & ->).
  cbn. by exists text, operation.
Qed.

(** The reversal of [processText] is the reversal of the code units
    of the text: splitting, reversing the array and joining computes the
    accumulating reversal [rev_string]. *)
Theorem reverse_reference text :
  ComplexTools.text_operation "reverse" text = ComplexTools.rev_string "" text.
Proof. apply join_reverse_chars. Qed.

(** Reversing a text twice gives the text back. *)
Theorem reverse_involutive text :
  ComplexTools.text_operation "reverse" (ComplexTools.text_operation "reverse" text)
  = text.
Proof.
  change (Js.join "" (reverse (Js.chars (Js.join "" (reverse (Js.chars text))))) = text).
  by rewrite chars_join_units, reverse_involutive, join_chars by apply reverse_units.
Qed.

(** The operations [uppercase], [lowercase] and [reverse] keep the
    length of the text, and the two case mappings are idempotent. *)
Theorem text_operation_length operation text :
  operation ∈ ["uppercase"; "lowercase"; "reverse"] →
  String.length (ComplexTools.text_operation operation text) = String.length text ∧
  (operation ≠ "reverse" →
   ComplexTools.text_operation operation (ComplexTools.text_operation operation text)
   = ComplexTools.text_operation operation text).
Proof.
  rewrite !elem_of_cons, elem_of_nil. intros [->|[->|[->|[]]]]; (split; [|intros Hne]).
  - apply map_chars_length.
  - apply map_chars_idemp, upper_char_idemp.
  - apply map_chars_length.
  - apply map_chars_idemp, lower_char_idemp.
  - change (String.length (Js.join "" (reverse (Js.chars text))) = String.length text).
    by rewrite join_units_length, length_reverse, length_chars by apply reverse_units.
  - done.
Qed.


(** [calculate] never throws: whatever the evaluation of the
    expression does, the tool answers with a text that starts with
    [Result: ] or with [Error: ]; the call fails on a schema mismatch
    only. *)
Theorem calculate_never_throws tc config :
  match tool_invoke ComplexTools.calculate tc config with
  | Ok m =>
      ∃ expression rest,
        Js.get_opt "expression" (tc_args tc) = VStr expression ∧
        m = ToolMessage (VStr rest) (tc_id tc) "calculate" ∧
        match js_eval expression with
        | Ok result => rest = "Result: " +:+ to_string result
        | Err e => rest = "Error: " +:+ ComplexTools.error_text e
        end
  | Err e => e = schema_error
  end.
Proof.
  unfold tool_invoke. cbn [tool_schema ComplexTools.calculate].
  destruct (parse _ (tc_args tc)) as [input|] eqn:E; [|done].
  apply parse_expression_input in E as (expression & He & ->).
  cbn. exists expression. destruct (js_eval expression); by eexists.
Qed.

(** The registry is keyed by the names of its tools. *)
Lemma complex_tools_keys k t :
  (k, t) ∈ ComplexTools.toolsByName → tool_name t = k.
Proof.
  unfold ComplexTools.toolsByName. rewrite !elem_of_cons, elem_of_nil.
  intros [[= -> ->]|[[= -> ->]|[[= -> ->]|[]]]]; done.
Qed.

End tool_properties.

(** The statistics of no number: the sum is zero and the count is
    zero, the average is [NaN], the maximum minus infinity and the minimum
    infinity. *)
Example statistics_empty :
  ComplexTools.statistics []
  = VObj [("sum", VNum 0); ("avg", VNum nan); ("max", VNum neg_infinity);
          ("min", VNum infinity); ("count", VNum 0)].
Proof. vm_compute. reflexivity. Qed.

(** ** Witnesses *)

Lemma text_operation_length_witness :
  String.length (ComplexTools.text_operation (H := Stub.runtime) "uppercase" "hello world")
  = String.length "hello world" ∧
  ("uppercase" ≠ "reverse" →
   ComplexTools.text_operation (H := Stub.runtime) "uppercase"
     (ComplexTools.text_operation (H := Stub.runtime) "uppercase" "hello world")
   = ComplexTools.text_operation (H := Stub.runtime) "uppercase" "hello world").
Proof. apply text_operation_length. vm_compute. by left. Defined.
