(* ===== verification/ComplexGraph.v ===== *)
(** * The complex graph of complex-graph-auto-trace.ts

    The second document of src/unnamed/part_000: a graph that classifies
    its input with the model, routes it by category to one of three nodes
    that call the model with the tools bound and run the tool calls it
    asks for, enriches the state with three sub-tasks started together, and
    asks the model for a summary.

    The state is a list of replacing channels, declared with their types
    in [GraphState]. The module-level state is the counter of the trace
    utilities. No node catches what it calls: a node that throws leaves the
    counter where its [traceEnter] put it.

    The nodes give every channel a value of its type, but for [category]
    and [confidence], which are read off the answer of the model
    ([complex_state_typed], [category_of_any_text]). *)

From stdpp Require Import base option list strings pretty sets.
From Stdlib Require Import ZArith Ascii Floats.
From S2P Require Import Prelude JsValue Engine Walks Messages Host Tools Stubs Trace.
From S2P Require Import FanOut ComplexTools.

Module Complex.

(** The module-level variables: [traceDepth]. *)
Record Globals : Type := mkGlobals {
  depth : Z;
}.

#[global] Instance Globals_depth : Depth Globals := {|
  traceDepth := depth;
  set_traceDepth d _ := mkGlobals d;
  traceDepth_set _ _ := eq_refl;
  set_traceDepth_same '(mkGlobals _) := eq_refl;
  set_traceDepth_twice _ _ _ := eq_refl;
|}.

(** The channels of the state, with the types they are declared with. *)
Definition GraphState : StateSchema :=
  [("input", TString); ("category", TLiterals ["math"; "text"; "data"; "unknown"]);
   ("confidence", TNumber); ("processed", TBoolean); ("path", TString);
   ("response", TString); ("enrichments", TObject); ("summary", TString);
   ("timestamp", TString)].

Section graph.
Context `{Host} `{!Clock} `{!Langfuse} `{Runtime} `{Evaluator}.
#[local] Abbreviation Proc := (Process Globals).

(** ** Trace utilities *)

Definition trace (message : string) (data : value) : M Proc unit :=
  trace_with json_pretty message data.

Definition traceEnter (name : string) (input : value) : M Proc unit :=
  traceEnter_with json_pretty name input.

Definition traceExit (name : string) (output : value) : M Proc unit :=
  traceExit_with json_pretty name output.

(** ** The model *)

Definition model (messages : list Message) : M Proc Message :=
  invoke_model [] messages.

Definition modelWithTools (messages : list Message) : M Proc Message :=
  invoke_model (tool_name <$> ComplexTools.tools) messages.

(** ** Nodes *)

Definition classify_prompt : string :=
  "ユーザーの入力を次のカテゴリのいずれかに分類してください: " +:+ Js.quote +:+ "math"
  +:+ Js.quote +:+ "（数学）, " +:+ Js.quote +:+ "text" +:+ Js.quote
  +:+ "（テキスト処理）, " +:+ Js.quote +:+ "data" +:+ Js.quote +:+ "（データ分析）, "
  +:+ Js.quote +:+ "unknown" +:+ Js.quote +:+ "（不明）。"
  +:+ "JSONオブジェクトのみで回答してください: {" +:+ Js.quote +:+ "category" +:+ Js.quote
  +:+ ": " +:+ Js.quote +:+ "..." +:+ Js.quote +:+ ", " +:+ Js.quote +:+ "confidence"
  +:+ Js.quote +:+ ": 0.0-1.0}".

(** The [try] of [classifyInputNode]: the category and the confidence read
    off the answer of the model, or the defaults. *)
Definition classification (content : string) : value * value :=
  match json_parse content with
  | Ok parsed =>
      match Js.get "category" parsed with
      | Ok category =>
          (Js.or category (VStr "unknown"),
           Js.or (Js.prop "confidence" parsed) (VNum 0.5))
      | Err _ => (VStr "unknown", VNum 0.5)
      end
  | Err _ => (VStr "unknown", VNum 0.5)
  end.

Definition classifyInputNode (state : ObjState) : M Proc ObjState :=
  traceEnter "classifyInput" (VObj [("input", field "input" state)]) ;;
  let messages :=
    [SystemMessage (VStr classify_prompt); HumanMessage (field "input" state)] in
  response <- model messages ;;
  let content := match content response with VStr s => s | _ => "" end in
  let '(category, confidence) := classification content in
  traceExit "classifyInput" (VObj [("category", category); ("confidence", confidence)]) ;;
  ret [("category", category); ("confidence", confidence)].

(** The body of the loop over the tool calls of a processing node. *)
Definition run_tool_call (toolCall : ToolCall) : M Proc string :=
  trace ("  → " +:+ tc_name toolCall) (tc_args toolCall) ;;
  tool <- lift_res (lookup_tool ComplexTools.toolsByName (tc_name toolCall)) ;;
  result <- lift_res (tool_invoke tool toolCall VUndefined) ;;
  trace "  ← Result" (content result) ;;
  ret (to_string (content result)).

(** The tool calls of a response, run one after the other: the text of the
    last result, or the empty text when there is no call. *)
Definition run_tool_calls (response : Message) : M Proc string :=
  if Nat.ltb 0 (length (tool_calls response)) then
    trace ("🔧 " +:+ to_string (Js.of_nat (length (tool_calls response)))
           +:+ " 個のツール呼び出し") VUndefined ;;
    mfold (λ _ toolCall, run_tool_call toolCall) "" (tool_calls response)
  else ret "".

(** The three processing nodes, which differ in the name they trace, the
    system prompt and the path they record. *)
Definition process_node (name prompt path : string) (state : ObjState) : M Proc ObjState :=
  traceEnter name (VObj [("input", field "input" state)]) ;;
  let messages := [SystemMessage (VStr prompt); HumanMessage (field "input" state)] in
  response <- modelWithTools messages ;;
  responseText <- run_tool_calls response ;;
  traceExit name (VObj [("processed", VBool true)]) ;;
  ret [("processed", VBool true); ("path", VStr path); ("response", VStr responseText)].

Definition processMathNode : ObjState → M Proc ObjState :=
  process_node "processMath"
    "あなたは数学の専門家です。calculateツールを使って問題を解いてください。" "math".

Definition processTextNode : ObjState → M Proc ObjState :=
  process_node "processTextPath"
    "あなたはテキスト処理の専門家です。processTextツールを使ってテキストを操作してください。"
    "text".

Definition processDataNode : ObjState → M Proc ObjState :=
  process_node "processDataPath"
    "あなたはデータアナリストです。入力から数値を抽出してanalyzeDataツールを使って分析してください。"
    "data".

(** [state.input.length > 20]. *)
Definition longer_than_20 (input : value) : Res bool :=
  match input with
  | VStr s => Ok (Nat.ltb 20 (String.length s))
  | _ => length ← Js.get "length" input; Ok (PrimFloat.ltb 20 (to_number length))
  end.

(** The three sub-tasks of [enrichDataNode]. *)
Definition sentiment_task : M Proc value :=
  trace "並列タスク1: センチメント分析" VUndefined ;;
  r <- ask random ;;
  ret (VObj [("sentiment", VStr (if PrimFloat.ltb 0.5 r then "positive" else "neutral"))]).

Definition complexity_task (state : ObjState) : M Proc value :=
  trace "並列タスク2: 複雑度評価" VUndefined ;;
  long <- lift_res (longer_than_20 (field "input" state)) ;;
  ret (VObj [("complexity", VStr (if (long : bool) then "high" else "low"))]).

Definition tags_task (state : ObjState) : M Proc value :=
  trace "並列タスク3: タグ生成" VUndefined ;;
  ret (VObj [("tags", VArr [VStr "processed"; field "category" state; VStr "v1"])]).

Definition enrichDataNode (state : ObjState) : M Proc ObjState :=
  traceEnter "enrichData" (VObj [("category", field "category" state)]) ;;
  enrichmentData <- fan_out [sentiment_task; complexity_task state; tags_task state] ;;
  traceExit "enrichData" enrichmentData ;;
  ret [("enrichments", enrichmentData)].

Definition summarizeResultsNode (state : ObjState) : M Proc ObjState :=
  traceEnter "summarizeResults" (VObj [("path", field "path" state)]) ;;
  let stateForSummary :=
    VObj [("input", field "input" state);
          ("category", field "category" state);
          ("confidence", field "confidence" state);
          ("processed", field "processed" state);
          ("path", field "path" state);
          ("response", field "response" state);
          ("enrichments", field "enrichments" state)] in
  let messages :=
    [SystemMessage (VStr "以下の処理結果を簡潔に要約してください。日本語で回答してください。");
     HumanMessage (VStr (json_pretty stateForSummary))] in
  response <- model messages ;;
  traceExit "summarizeResults" (VObj [("hasSummary", VBool true)]) ;;
  now <- ask iso_now ;;
  ret [("summary", VStr (to_string (content response))); ("timestamp", VStr now)].

(** ** Routing *)

(** The [switch] of [routeByCategory]. *)
Definition route_of (category : value) : string :=
  match category with
  | VStr c =>
      if String.eqb c "math" then "processMath"
      else if String.eqb c "text" then "processText"
      else if String.eqb c "data" then "processData"
      else "enrichData"
  | _ => "enrichData"
  end.

Definition routeByCategory (state : ObjState) : M Proc string :=
  trace ("🔀 ルーティング → " +:+ to_string (field "category" state) +:+ " パス")
        VUndefined ;;
  ret (route_of (field "category" state)).

(** ** The graph *)

Definition graph_builder : StateGraph Proc ObjState ObjState :=
  new_StateGraph
  |> addNode "classifyInput" classifyInputNode
  |> addNode "processMath" processMathNode
  |> addNode "processText" processTextNode
  |> addNode "processData" processDataNode
  |> addNode "enrichData" enrichDataNode
  |> addNode "summarizeResults" summarizeResultsNode
  |> addEdge START "classifyInput"
  |> addConditionalEdges "classifyInput" routeByCategory
       (path_array ["processMath"; "processText"; "processData"; "enrichData"])
  |> addEdge "processMath" "enrichData"
  |> addEdge "processText" "enrichData"
  |> addEdge "processData" "enrichData"
  |> addEdge "enrichData" "summarizeResults"
  |> addEdge "summarizeResults" END.

Definition graph : Res (CompiledGraph Proc ObjState ObjState) := compile graph_builder.

(** [graph.invoke({input})] with the nodes that completed. *)
Definition run_trace (input : ObjState) (limit : nat) (p : Proc)
  : Res ObjState * list string * Proc :=
  match graph with
  | Ok compiled => invoke_trace compiled input limit p
  | Err e => (Err e, [], p)
  end.

(** The four runs of the graph, by category. *)
Definition runs_of_graph : list (list string) :=
  [["classifyInput"; "processMath"; "enrichData"; "summarizeResults"];
   ["classifyInput"; "processText"; "enrichData"; "summarizeResults"];
   ["classifyInput"; "processData"; "enrichData"; "summarizeResults"];
   ["classifyInput"; "enrichData"; "summarizeResults"]].

(** ** runComplexGraph *)

Definition banner : list string :=
  [newline +:+ "╔════════════════════════════════════════════════════════════╗";
   "║      複雑なグラフ実行 - Langfuse自動トレース              ║";
   "╚════════════════════════════════════════════════════════════╝" +:+ newline].

(** The line of the trace id: [traceId.substring(0, 32)]. *)
Definition trace_id_line (traceId : value) : M Proc unit :=
  if Js.truthy traceId then
    match traceId with
    | VStr id => console_log ("║        トレースID: " +:+ Js.take 32 id +:+ "...║")
    | _ => throw (Js.type_error "traceId.substring is not a function")
    end
  else ret tt.

(** The handler of the tracing service is made with [sessionId]; what it
    sends is outside the model. *)
Definition runComplexGraph (input : string) (sessionId : value) : M Proc ObjState :=
  mfor console_log banner ;;
  traceEnter "complexAgent" (VObj [("input", VStr input)]) ;;
  compiled <- lift_res graph ;;
  result <- invoke compiled [("input", VStr input)] default_recursion_limit ;;
  traceId <- ask langfuse_traceId ;;
  traceExit "complexAgent" (VObj [("path", field "path" result); ("traceId", traceId)]) ;;
  console_log (newline +:+ "╔════════════════════════════════════════════════════════════╗") ;;
  console_log "║        グラフ実行完了                                      ║" ;;
  trace_id_line traceId ;;
  console_log ("╚════════════════════════════════════════════════════════════╝" +:+ newline) ;;
  request langfuse_shutdown ;;
  ret result.

(** ** The script *)

(** ["=".repeat(60)]. *)
Definition rule : string := String.concat "" (replicate 60 "=").

Definition heading (title : string) : M Proc unit :=
  console_log (newline +:+ rule) ;;
  console_log title ;;
  console_log rule.

(** The report of an example: four channels of the final state. *)
Definition report (result : ObjState) : M Proc unit :=
  console_log (newline +:+ "【最終結果】") ;;
  console_log (json_pretty (VObj [("category", field "category" result);
                                  ("path", field "path" result);
                                  ("response", field "response" result);
                                  ("summary", field "summary" result)])).

Definition example (title input : string) (sessionId : string) : M Proc unit :=
  heading title ;;
  result <- runComplexGraph input (VStr sessionId) ;;
  report result.

Definition closing (sessionId : string) : list string :=
  [newline +:+ "✅ 全ての例の実行が完了しました！" +:+ newline;
   "🔍 Langfuseで確認: http://localhost:3000" +:+ newline;
   "   📊 各実行が1つの通貫したトレースとして自動記録";
   "   🔗 3つの実行がセッションでグループ化: " +:+ sessionId;
   "   📈 ノード、エッジ、ツール呼び出しが階層構造で表示" +:+ newline].

Definition script : M Proc unit :=
  console_log (newline +:+ "🚀 複雑なグラフのデモ実行開始 (Langfuse自動トレース版)" +:+ newline) ;;
  console_log ("💡 各ノード、エッジ、ツール呼び出しが自動的にトレースされます" +:+ newline) ;;
  now <- ask epoch_now ;;
  let sessionId := "demo-session-" +:+ pretty now in
  example "例1: 数学処理" "123 × 456 + 789 を計算してください" sessionId ;;
  example "例2: テキスト処理" "「hello world」を大文字に変換してください" sessionId ;;
  example "例3: データ分析" "次の数値を分析してください: 10, 20, 30, 40, 50" sessionId ;;
  mfor console_log (closing sessionId).

End graph.

End Complex.

(** ** The counter through the nodes *)

Section safety.
Context `{Host} `{!Clock} `{!Langfuse} `{Runtime} `{Evaluator}.
#[local] Abbreviation Proc := (Process Complex.Globals).
Implicit Types (p : Proc) (state : ObjState) (d : Z).

Lemma complex_trace_runs d message data :
  (0 ≤ d)%Z → runs d (Complex.trace message data).
Proof. intros Hd. unfold Complex.trace. runs_auto. Qed.

Lemma complex_trace_keeps d message data : keeps d (Complex.trace message data).
Proof. apply preserves_trace. Qed.

#[local] Hint Resolve complex_trace_keeps : inv.

Lemma run_tool_call_keeps d toolCall : keeps d (Complex.run_tool_call toolCall).
Proof. unfold Complex.run_tool_call. keeps_auto. Qed.

#[local] Hint Resolve run_tool_call_keeps : inv.

Lemma run_tool_calls_keeps d response : keeps d (Complex.run_tool_calls response).
Proof. unfold Complex.run_tool_calls. keeps_auto. Qed.

Lemma fan_out_keeps d (tasks : list (M Proc value)) :
  Forall (keeps d) tasks → keeps d (fan_out tasks).
Proof. apply hoare_fan_out. Qed.

Lemma enrichment_tasks_keep d state :
  Forall (keeps d)
    [Complex.sentiment_task; Complex.complexity_task state; Complex.tags_task state].
Proof.
  repeat constructor;
    unfold Complex.sentiment_task, Complex.complexity_task, Complex.tags_task; keeps_auto.
Qed.

(** The [traceExit] of a node and the update it returns. *)
Lemma complex_exit_ret schema d name output (update : ObjState) :
  (0 ≤ d)%Z → produces schema update →
  hoare (at_depth (d + 1)) (Complex.traceExit name output ;; ret update)
        (returns (λ u p, at_depth d p ∧ produces schema u)).
Proof. intros Hd Hw. by apply exit_ret. Qed.

(** The stage returns the object [Object.assign] makes. *)
Lemma fan_out_object d (tasks : list (M Proc value)) :
  Forall (keeps d) tasks →
  hoare (at_depth d) (fan_out tasks)
        (post (λ data p, has_type TObject data = true ∧ at_depth d p) (λ _, at_depth d)).
Proof.
  intros Htasks. unfold fan_out.
  eapply hoare_bind with (R := λ _, at_depth d); [by apply hoare_any, hoare_promise_all|].
  intros results. by apply hoare_ret.
Qed.

(** What each node returns: the channels it writes and the types of the
    values it gives them. The category and the confidence are what the
    model wrote in its answer, of any type. *)
Lemma classifyInputNode_leaks state :
  leaks (produces [("category", TAny); ("confidence", TAny)])
        (Complex.classifyInputNode state).
Proof.
  apply bracket_leaks; [intros d Hd; unfold Complex.model; keeps_auto|].
  intros d response Hd. destruct (Complex.classification _) as [category confidence].
  by apply complex_exit_ret.
Qed.

Lemma process_node_leaks name prompt path state :
  leaks (produces [("processed", TBoolean); ("path", TString); ("response", TString)])
        (Complex.process_node name prompt path state).
Proof.
  intros d Hd. unfold Complex.process_node. cbv zeta.
  eapply hoare_bind with (R := λ _, at_depth (d + 1)); [by apply hoare_post, enter_hoare|].
  intros _. eapply hoare_bind with (R := λ _, at_depth (d + 1));
    [apply keeps_hoare; unfold Complex.modelWithTools; keeps_auto|].
  intros response. eapply hoare_bind with (R := λ _, at_depth (d + 1));
    [apply keeps_hoare, run_tool_calls_keeps|].
  intros text. by apply hoare_post, complex_exit_ret.
Qed.

Lemma enrichDataNode_leaks state :
  leaks (produces [("enrichments", TObject)]) (Complex.enrichDataNode state).
Proof.
  intros d Hd. unfold Complex.enrichDataNode.
  eapply hoare_bind with (R := λ _, at_depth (d + 1)); [by apply hoare_post, enter_hoare|].
  intros _. eapply hoare_bind; [apply fan_out_object, enrichment_tasks_keep|].
  intros data. apply hoare_pure. intros Hdata. destruct data; try done.
  by apply hoare_post, complex_exit_ret.
Qed.

Lemma summarizeResultsNode_leaks state :
  leaks (produces [("summary", TString); ("timestamp", TString)])
        (Complex.summarizeResultsNode state).
Proof.
  apply bracket_leaks; [intros d Hd; unfold Complex.model; keeps_auto|].
  intros d response Hd.
  eapply hoare_bind with (R := λ _, at_depth d); [by apply hoare_post, exit_back|].
  intros _. eapply hoare_bind with (R := λ _, at_depth d); [apply hoare_post, runs_ask|].
  intros now. by apply hoare_ret.
Qed.

(** The routing function returns, with the label of the category. *)
Lemma routeByCategory_runs state d :
  (0 ≤ d)%Z →
  hoare (at_depth d) (Complex.routeByCategory state)
        (returns (λ label p, at_depth d p ∧
                             label = Complex.route_of (field "category" state))).
Proof.
  intros Hd. unfold Complex.routeByCategory.
  eapply hoare_bind with (R := λ _, at_depth d);
    [by apply hoare_post, complex_trace_runs|].
  intros _. by apply hoare_ret.
Qed.

Lemma route_of_declared category :
  Complex.route_of category ∈ ["processMath"; "processText"; "processData"; "enrichData"].
Proof.
  unfold Complex.route_of. destruct category; try set_solver.
  repeat case_match; set_solver.
Qed.

(** The sub-tasks of the enrichment return, each with its key. *)
Definition is_sentiment (v : value) : Prop :=
  ∃ s, s ∈ ["positive"; "neutral"] ∧ v = VObj [("sentiment", VStr s)].

Definition is_complexity (input : string) (v : value) : Prop :=
  v = VObj [("complexity",
             VStr (if Nat.ltb 20 (String.length input) then "high" else "low"))].

Definition is_tags (state : ObjState) (v : value) : Prop :=
  v = VObj [("tags", VArr [VStr "processed"; field "category" state; VStr "v1"])].

(** The enrichments of a state whose input is [input]. *)
Definition is_enrichment (state : ObjState) (input : string) (update : ObjState) : Prop :=
  ∃ s, s ∈ ["positive"; "neutral"] ∧
    update = [("enrichments",
               VObj [("sentiment", VStr s);
                     ("complexity",
                      VStr (if Nat.ltb 20 (String.length input) then "high" else "low"));
                     ("tags", VArr [VStr "processed"; field "category" state;
                                    VStr "v1"])])].

Lemma sentiment_task_yields : yields is_sentiment Complex.sentiment_task.
Proof.
  intros d Hd. unfold Complex.sentiment_task.
  eapply hoare_bind with (R := λ _, at_depth d);
    [by apply hoare_post, complex_trace_runs|].
  intros _. eapply hoare_bind with (R := λ _, at_depth d); [apply hoare_post, runs_ask|].
  intros r. apply hoare_ret. split; [done|]. eexists. split; [|done].
  destruct (PrimFloat.ltb 0.5 r); set_solver.
Qed.

Lemma complexity_task_yields state input :
  field "input" state = VStr input →
  yields (is_complexity input) (Complex.complexity_task state).
Proof.
  intros Hinput d Hd. unfold Complex.complexity_task. rewrite Hinput.
  eapply hoare_bind with (R := λ _, at_depth d);
    [by apply hoare_post, complex_trace_runs|].
  intros _. eapply hoare_bind with
    (R := λ long p, long = Nat.ltb 20 (String.length input) ∧ at_depth d p);
    [by apply hoare_lift_res|].
  intros long. apply hoare_pure. intros ->. by apply hoare_ret.
Qed.

Lemma tags_task_yields state : yields (is_tags state) (Complex.tags_task state).
Proof.
  intros d Hd. unfold Complex.tags_task.
  eapply hoare_bind with (R := λ _, at_depth d);
    [by apply hoare_post, complex_trace_runs|].
  intros _. by apply hoare_ret.
Qed.

Lemma enrichment_yields state input :
  field "input" state = VStr input →
  yields (λ v, is_enrichment state input [("enrichments", v)])
         (fan_out [Complex.sentiment_task; Complex.complexity_task state;
                   Complex.tags_task state]).
Proof.
  intros Hinput d Hd. unfold fan_out.
  eapply hoare_bind with
    (R := λ l p, at_depth d p ∧
                 Forall2 (λ a (Q : value → Prop), Q a) l
                   [is_sentiment; is_complexity input; is_tags state]).
  { apply hoare_post, hoare_promise_all_returns. repeat constructor;
      [by apply sentiment_task_yields | by apply complexity_task_yields
      |by apply tags_task_yields]. }
  intros l p [Hp Hl]. cbn.
  apply Forall2_cons_inv_r in Hl as (a & l1 & (s & Hs & ->) & Hl & ->).
  apply Forall2_cons_inv_r in Hl as (b & l2 & -> & Hl & ->).
  apply Forall2_cons_inv_r in Hl as (c & l3 & -> & ->%Forall2_nil_inv_r & ->).
  split; [done|]. by exists s.
Qed.

Lemma enrichDataNode_yields state input :
  field "input" state = VStr input →
  yields (is_enrichment state input) (Complex.enrichDataNode state).
Proof.
  intros Hinput d Hd. unfold Complex.enrichDataNode.
  eapply hoare_bind with (R := λ _, at_depth (d + 1)); [by apply hoare_post, enter_hoare|].
  intros _. eapply hoare_bind with
    (R := λ v p, is_enrichment state input [("enrichments", v)] ∧ at_depth (d + 1) p).
  { eapply hoare_conseq; [apply (enrichment_yields state input Hinput (d + 1)%Z); lia | done|].
    intros [v|e] p; [|done]. by intros [? ?]. }
  intros v. apply hoare_pure. intros Hv. by apply exit_ret.
Qed.

End safety.

(** ** The graph *)

Section wiring.
Context `{Host} `{!Clock} `{!Langfuse} `{Runtime} `{Evaluator}.
#[local] Abbreviation Proc := (Process Complex.Globals).
Implicit Types (p : Proc) (state : ObjState) (d : Z).

Lemma complex_graph_compiles :
  Complex.graph = Ok (mkCompiled Complex.graph_builder "classifyInput").
Proof. apply compile_ok; by vm_compute. Qed.

(** The nodes numbered from the end of the longest run. *)
Definition complex_rank (node : string) : nat :=
  if String.eqb node "classifyInput" then 3
  else if String.eqb node "enrichData" then 1
  else if String.eqb node "summarizeResults" then 0
  else 2.

Lemma complex_graph_ranked : ranked Complex.graph_builder complex_rank.
Proof. apply check_ranked_ranked. vm_compute. reflexivity. Qed.

(** The types the nodes give the channels: those of [GraphState], but
    for the category and the confidence. *)
Definition complex_types : StateSchema := relax ["category"; "confidence"] Complex.GraphState.

Lemma complex_nodes_typed name fn state :
  (name, fn) ∈ sg_nodes Complex.graph_builder → leaks (produces complex_types) (fn state).
Proof.
  intros Hin. cbn in Hin.
  repeat (apply elem_of_cons in Hin as [[= -> ->]|Hin]);
    [eapply leaks_impl; [apply classifyInputNode_leaks|]
    |eapply leaks_impl; [apply process_node_leaks|]..
    |eapply leaks_impl; [apply enrichDataNode_leaks|]
    |eapply leaks_impl; [apply summarizeResultsNode_leaks|]
    |by apply elem_of_nil in Hin]; intros update; by apply conforms_part_of.
Qed.

(** A node that leaks, as a node of a guarded graph. *)
Lemma leaking_node (Q : ObjState → Prop) (fn : ObjState → M Proc ObjState) state d :
  leaks Q (fn state) → (0 ≤ d)%Z →
  hoare (at_depth d) (fn state)
        (post (λ u p, at_depth d p ∧ True) (λ _, at_depth (d + 1))).
Proof.
  intros Hfn Hd. eapply hoare_conseq; [by apply Hfn | done|].
  intros [u|e] p; [|done]. by intros [Hp _].
Qed.

Lemma complex_graph_guarded d :
  (0 ≤ d)%Z →
  guarded_graph Complex.graph_builder (at_depth d) (λ _, True) (λ _, at_depth (d + 1)).
Proof.
  intros Hd. split.
  - intros name fn state Hin _. eapply leaking_node; [by eapply complex_nodes_typed | done].
  - intros src router ends state Hin _. cbn in Hin.
    repeat (apply elem_of_cons in Hin as [[=]|Hin]); simplify_eq;
      [|by apply elem_of_nil in Hin].
    eapply hoare_conseq; [by apply routeByCategory_runs | done|].
    intros [label|e] p; [|done]. intros [Hp ->]. split; [done|].
    pose proof (route_of_declared (field "category" state)) as Hl.
    repeat (apply elem_of_cons in Hl as [->|Hl]); [by eexists..|by apply elem_of_nil in Hl].
Qed.

(** The graph keeps the states in the schema. *)
Lemma complex_graph_typed d :
  (0 ≤ d)%Z →
  guarded_graph Complex.graph_builder (at_depth d)
    (λ state, True ∧ conforms complex_types state = true) (λ _, at_depth (d + 1)).
Proof.
  intros Hd. apply guarded_graph_and; [by apply complex_graph_guarded|].
  intros name fn state Hin _ Hs.
  eapply hoare_conseq; [by apply (complex_nodes_typed _ _ state Hin d) | done|].
  intros [update|e] p; [|done]. intros [_ Hu]. by apply conforms_assign.
Qed.

Lemma complex_walk input limit p :
  Complex.run_trace input limit p
  = walk Complex.graph_builder limit "classifyInput" (Js.assign_fields [] input) [] p.
Proof. unfold Complex.run_trace. by rewrite complex_graph_compiles. Qed.

Lemma complex_graph_paths more :
  is_path Complex.graph_builder ("classifyInput" :: more) →
  "classifyInput" :: more ∈ Complex.runs_of_graph.
Proof.
  unfold Complex.runs_of_graph. intros Hpath.
  enumerate_paths Hpath more ltac:(set_solver).
Qed.

End wiring.

(** ** Properties *)

Section properties.
Context `{Host} `{!Clock} `{!Langfuse} `{Runtime} `{Evaluator}.
#[local] Abbreviation Proc := (Process Complex.Globals).
Implicit Types (p : Proc) (state : ObjState).

(** The walk of the graph is guarded and ranked: its runs that return
    are the four paths. *)
Lemma complex_walk_outcome input limit p :
  (0 ≤ traceDepth (globals p))%Z → 4 ≤ limit →
  ∃ r done p',
    walk Complex.graph_builder limit "classifyInput" (Js.assign_fields [] input) [] p
    = (r, done, p') ∧
    match r with
    | Ok _ =>
        done ∈ Complex.runs_of_graph ∧
        traceDepth (globals p') = traceDepth (globals p)
    | Err _ => traceDepth (globals p') = (traceDepth (globals p) + 1)%Z
    end.
Proof.
  intros Hd Hlimit.
  destruct (walk_guarded Complex.graph_builder (at_depth (traceDepth (globals p)))
              (λ _, True) (λ _, at_depth (traceDepth (globals p) + 1)) complex_rank
              limit "classifyInput" (Js.assign_fields [] input) [] p)
    as (r & more & p' & Hwalk & Hpost);
    [eapply compile_wf, complex_graph_compiles | by apply complex_graph_guarded
    |apply complex_graph_ranked | cbn; set_solver | cbn; lia | done..|].
  exists r, more, p'. split; [done|]. destruct r as [state'|e]; [|done].
  destruct Hpost as (Hp' & _ & rest & -> & _ & Hpath). eauto using complex_graph_paths.
Qed.

(** C17. A run of the complex graph ends within four node executions: it
    returns after one of the four paths of the graph, with the counter of
    the trace utilities where it was, or it throws what a node threw, and
    the counter is then one above where it was, because no node catches the
    error that skips its [traceExit]. It never reaches the step limit for a
    limit of four or more. *)
Theorem complex_run_outcome input limit p :
  (0 ≤ traceDepth (globals p))%Z → 4 ≤ limit →
  ∃ r done p',
    Complex.run_trace input limit p = (r, done, p') ∧
    match r with
    | Ok _ =>
        done ∈ Complex.runs_of_graph ∧
        traceDepth (globals p') = traceDepth (globals p)
    | Err _ => traceDepth (globals p') = (traceDepth (globals p) + 1)%Z
    end.
Proof. rewrite complex_walk. apply complex_walk_outcome. Qed.

(** C32. The state of a run keeps its schema: a run that returns, started
    on an input of the schema, returns a state whose channels are channels
    of [GraphState] and hold values of the types they are declared with,
    but for [category] and [confidence], which hold what the model wrote in
    its answer: nothing checks that the category is one of the four
    literals of its type or that the confidence is a number. *)
Theorem complex_state_typed input limit p state :
  (0 ≤ traceDepth (globals p))%Z →
  conforms Complex.GraphState input = true →
  (Complex.run_trace input limit p).1.1 = Ok state →
  conforms (relax ["category"; "confidence"] Complex.GraphState) state = true.
Proof.
  intros Hd Hinput. rewrite complex_walk.
  pose proof (walk_guarded_limit Complex.graph_builder _ _ _ limit "classifyInput"
                (Js.assign_fields [] input) [] p
                (compile_wf _ _ complex_graph_compiles) (complex_graph_typed _ Hd)) as Hw.
  destruct (walk _ _ _ _ _ _) as [[r visited] p']. cbn. intros ->.
  apply Hw; [cbn; set_solver | done|]. split; [done|].
  apply conforms_assign; [done|]. by eapply conforms_part_of, Hinput.
Qed.

(** The routing function is total and answers with a declared
    destination: it returns the label of the category of the state, and
    every category that is not one of the three known strings, a value that
    is not a string included, leads to [enrichData]. *)
Theorem route_total state p :
  (0 ≤ traceDepth (globals p))%Z →
  ∃ p', Complex.routeByCategory state p
        = (Ok (Complex.route_of (field "category" state)), p') ∧
        traceDepth (globals p') = traceDepth (globals p) ∧
        Complex.route_of (field "category" state)
        ∈ ["processMath"; "processText"; "processData"; "enrichData"] ∧
        (field "category" state ∉ [VStr "math"; VStr "text"; VStr "data"] →
         Complex.route_of (field "category" state) = "enrichData").
Proof.
  intros Hd.
  destruct (hoare_returns_run _ _ _ p (routeByCategory_runs state _ Hd) eq_refl)
    as (label & p' & Hrun & Hp' & ->).
  exists p'. split_and!; [done | done | apply route_of_declared|].
  intros Hnot. unfold Complex.route_of. destruct (field "category" state) as [| | | |c| |];
    try done.
  destruct (String.eqb_spec c "math") as [->|?]; [set_solver|].
  destruct (String.eqb_spec c "text") as [->|?]; [set_solver|].
  by destruct (String.eqb_spec c "data") as [->|?]; [set_solver|].
Qed.

(** The classification never fails and never yields a falsy value:
    whatever the model answered, the category and the confidence are
    truthy, so an answer with the confidence 0 is recorded with the default
    0.5, and a text that is not JSON, or the JSON [null], gives the
    defaults. The category is whatever the answer holds: nothing checks
    that it is one of the four categories. *)
Theorem classification_truthy content :
  Js.truthy (Complex.classification content).1 = true ∧
  Js.truthy (Complex.classification content).2 = true.
Proof.
  unfold Complex.classification. destruct (json_parse content) as [parsed|e]; [|done].
  destruct (Js.get "category" parsed) as [category|e]; [|done]. cbn [fst snd].
  unfold Js.or. split; by case_match.
Qed.

(** Of the tool calls of a response only the last one counts: when
    the calls of a processing node all succeed, the text the node records
    in [response] is the content of the result of the last call, and the
    results of the calls before it are dropped. *)
Theorem last_call_is_response response calls toolCall p text p' :
  tool_calls response = calls ++ [toolCall] →
  Complex.run_tool_calls response p = (Ok text, p') →
  ∃ tool m,
    lookup_tool ComplexTools.toolsByName (tc_name toolCall) = Ok tool ∧
    tool_invoke tool toolCall VUndefined = Ok m ∧
    text = to_string (content m).
Proof.
  intros Hcalls. unfold Complex.run_tool_calls. rewrite Hcalls.
  replace (Nat.ltb 0 _) with true
    by (symmetry; apply Nat.ltb_lt; rewrite length_app; cbn; lia).
  intros (_ & p1 & _ & Hfold)%bind_ok_inv. rewrite (mfold_app _ _ _ _ p1) in Hfold.
  apply bind_ok_inv in Hfold as (acc & p2 & _ & Hlast). cbn [mfold] in Hlast.
  apply bind_ok_inv in Hlast as (text' & p3 & Hcall & [= <- <-]).
  unfold Complex.run_tool_call in Hcall.
  apply bind_ok_inv in Hcall as (_ & p4 & _ & Hcall).
  apply bind_ok_inv in Hcall as (tool & p5 & [= Htool <-] & Hcall).
  apply bind_ok_inv in Hcall as (m & p6 & [= Hm <-] & Hcall).
  apply bind_ok_inv in Hcall as (_ & p7 & _ & [= <- <-]). by exists tool, m.
Qed.

(** The enrichment stage on a state whose input is a text: the node
    returns, whatever the clock and the random generator answer, the one
    channel [enrichments] with the keys [sentiment], [complexity] and
    [tags] in the order of the sub-tasks; the sentiment is one of two
    words, the complexity is [high] exactly for an input of more than
    twenty code units, and the tags hold the category of the state. The
    counter is left where it was. *)
Theorem enrichData_update state input p :
  field "input" state = VStr input → (0 ≤ traceDepth (globals p))%Z →
  ∃ update p',
    Complex.enrichDataNode state p = (Ok update, p') ∧
    traceDepth (globals p') = traceDepth (globals p) ∧
    is_enrichment state input update.
Proof. intros Hinput Hd. by eapply yields_run, Hd; apply enrichDataNode_yields. Qed.

End properties.

(** ** Test doubles *)

Module ComplexStub.

(** The model answers from a script ([Stub.scripted]); the clock stands
    still and the random generator answers 0.75. *)
Definition iso : string := "2024-05-01T10:20:30.000Z".

#[global] Program Instance clock : @Clock Stub.scripted := {|
  iso_now w := (iso, w);
  epoch_now w := (1714558830000%Z, w);
  random w := (0.75%float, w);
|}.
Next Obligation. intros w. vm_compute. lia. Qed.

#[global] Instance langfuse : @Langfuse Stub.scripted := {|
  langfuse_traceId w := (VStr "trace-1", w);
  langfuse_shutdown w := (Ok tt, w);
  langfuse_host := VUndefined;
|}.

(** The answers of the classification the parser knows. *)
Definition answer (category : value) (confidence : float) : value :=
  VObj [("category", category); ("confidence", VNum confidence)].

Definition answers : list value :=
  [answer (VStr "math") 1; answer (VStr "text") 1; answer (VStr "data") 1;
   answer (VStr "poetry") 1; answer (VStr "math") 0; VNull].

Definition runtime : Runtime := {|
  json_stringify := Stub.show;
  json_pretty := Stub.show;
  json_parse text :=
    match find (λ v, String.eqb (Stub.show v) text) answers with
    | Some v => Ok v
    | None => Err (mkError SyntaxError "Unexpected token")
    end;
  to_string := λ v, match v with VStr s => s | _ => Stub.show v end;
  to_number := λ v, match v with VNum n => n | _ => nan end;
|}.

(** An evaluator that knows one sum. *)
Definition evaluator : Evaluator := {|
  js_eval expression :=
    if String.eqb expression "1 + 2" then Ok (VNum 3)
    else Err (mkError SyntaxError "Unexpected end of input");
|}.

(** The call of [calculate] on the sum. *)
Definition sum_call : ToolCall :=
  mkToolCall "calculate" (VObj [("expression", VStr "1 + 2")]) "call_1".

(** A model that classifies the input as mathematics, asks for the sum
    and summarises; and a model that fails at once. *)
Definition math_script : list (Res (value * list ToolCall)) :=
  [Ok (VStr (Stub.show (answer (VStr "math") 1)), []);
   Ok (VStr "", [sum_call]);
   Ok (VStr "The sum is 3.", [])].

Definition boot (script : list (Res (value * list ToolCall))) : Process Complex.Globals :=
  mkProcess (script : @World Stub.scripted) [] (Complex.mkGlobals 0).

End ComplexStub.

(** The run of the scenario: the path of mathematics, the result of the
    tool in [response], and the counter back at zero. *)
Example complex_run_math :
  let '(r, done, p') :=
    @Complex.run_trace Stub.scripted ComplexStub.clock ComplexStub.runtime
      ComplexStub.evaluator [("input", VStr "1 + 2")] 25
      (ComplexStub.boot ComplexStub.math_script) in
  (field "response" <$> r) = Ok (VStr "Result: 3") ∧
  (field "category" <$> r) = Ok (VStr "math") ∧
  done = ["classifyInput"; "processMath"; "enrichData"; "summarizeResults"] ∧
  traceDepth (globals p') = 0%Z.
Proof. vm_compute. done. Qed.

(** A classification the annotation does not know: the run returns with
    the category the model wrote, which is none of the four literals the
    channel is declared with. *)
Example category_of_any_text :
  let r :=
    (@Complex.run_trace Stub.scripted ComplexStub.clock ComplexStub.runtime
       ComplexStub.evaluator [("input", VStr "A sonnet.")] 25
       (ComplexStub.boot
          [Ok (VStr (Stub.show (ComplexStub.answer (VStr "poetry") 1)), []);
           Ok (VStr "A poem.", [])])).1.1 in
  (field "category" <$> r) = Ok (VStr "poetry") ∧
  (conforms Complex.GraphState <$> r) = Ok false.
Proof. vm_compute. done. Qed.

(** ** Witnesses *)

Lemma complex_state_typed_witness :
  ∃ state,
    (@Complex.run_trace Stub.scripted ComplexStub.clock ComplexStub.runtime
       ComplexStub.evaluator [("input", VStr "1 + 2")] 25
       (ComplexStub.boot ComplexStub.math_script)).1.1 = Ok state ∧
    conforms (relax ["category"; "confidence"] Complex.GraphState) state = true.
Proof.
  eexists. split; [vm_compute; reflexivity|].
  apply (@complex_state_typed Stub.scripted ComplexStub.clock ComplexStub.runtime
           ComplexStub.evaluator [("input", VStr "1 + 2")] 25
           (ComplexStub.boot ComplexStub.math_script));
    [cbn; lia | reflexivity | vm_compute; reflexivity].
Defined.

Lemma complex_run_outcome_witness :
  ∃ r done p',
    @Complex.run_trace Stub.scripted ComplexStub.clock ComplexStub.runtime
      ComplexStub.evaluator [("input", VStr "1 + 2")] 25 (ComplexStub.boot [])
    = (r, done, p') ∧
    match r with
    | Ok _ =>
        done ∈ Complex.runs_of_graph ∧
        traceDepth (globals p') = traceDepth (globals (ComplexStub.boot []))
    | Err _ =>
        traceDepth (globals p') = (traceDepth (globals (ComplexStub.boot [])) + 1)%Z
    end.
Proof.
  apply (@complex_run_outcome Stub.scripted ComplexStub.clock ComplexStub.runtime
           ComplexStub.evaluator); [cbn; lia | lia].
Defined.

Lemma route_total_witness :
  ∃ p', @Complex.routeByCategory Stub.scripted ComplexStub.clock ComplexStub.runtime
          [("category", VStr "poetry")] (ComplexStub.boot [])
        = (Ok (Complex.route_of (field "category" [("category", VStr "poetry")])), p') ∧
        traceDepth (globals p') = traceDepth (globals (ComplexStub.boot [])) ∧
        Complex.route_of (field "category" [("category", VStr "poetry")])
        ∈ ["processMath"; "processText"; "processData"; "enrichData"] ∧
        (field "category" [("category", VStr "poetry")]
         ∉ [VStr "math"; VStr "text"; VStr "data"] →
         Complex.route_of (field "category" [("category", VStr "poetry")]) = "enrichData").
Proof.
  apply (@route_total Stub.scripted ComplexStub.clock ComplexStub.runtime). cbn. lia.
Defined.

Lemma last_call_is_response_witness :
  ∃ tool m,
    lookup_tool
      (@ComplexTools.toolsByName ComplexStub.runtime ComplexStub.evaluator)
      (tc_name ComplexStub.sum_call) = Ok tool ∧
    @tool_invoke ComplexStub.runtime tool ComplexStub.sum_call VUndefined = Ok m ∧
    "Result: 3" = @to_string ComplexStub.runtime (content m).
Proof.
  apply (@last_call_is_response Stub.scripted ComplexStub.clock ComplexStub.runtime
           ComplexStub.evaluator (AIMessage (VStr "") [ComplexStub.sum_call]) []
           ComplexStub.sum_call (ComplexStub.boot []) "Result: 3"
           (@Complex.run_tool_calls Stub.scripted ComplexStub.clock ComplexStub.runtime
              ComplexStub.evaluator (AIMessage (VStr "") [ComplexStub.sum_call])
              (ComplexStub.boot [])).2);
    [reflexivity | vm_compute; reflexivity].
Defined.

Lemma enrichData_update_witness :
  ∃ update p',
    @Complex.enrichDataNode Stub.scripted ComplexStub.clock ComplexStub.runtime
      [("input", VStr "1 + 2"); ("category", VStr "math")] (ComplexStub.boot [])
    = (Ok update, p') ∧
    traceDepth (globals p') = traceDepth (globals (ComplexStub.boot [])) ∧
    is_enrichment [("input", VStr "1 + 2"); ("category", VStr "math")] "1 + 2" update.
Proof.
  apply (@enrichData_update Stub.scripted ComplexStub.clock ComplexStub.runtime);
    [reflexivity | cbn; lia].
Defined.
