(* ===== verification/ComplexScript.v ===== *)
(** * The script of the complex graph

    complex-graph-auto-trace.ts ends with [runComplexGraph] and three
    calls of it, one per category, at the top level of the module.
    [runComplexGraph] brackets the run of the graph with
    [traceEnter("complexAgent")] and [traceExit("complexAgent")], prints
    the identifier of the trace and shuts the handler down; nothing in it
    and nothing at the top level catches an error.

    [ComplexGraph] holds the definitions ([Complex.runComplexGraph],
    [Complex.example], [Complex.script]). This file is what a call and the
    script leave behind.

    Theorems: a call of [runComplexGraph] returns with the counter of the
    trace utilities where it was, or throws with the counter two above,
    when a node threw and both exits were skipped, or where it was, when
    the identifier of the trace is not a text or the shutdown failed
    ([runComplexGraph_outcome]); the script, started with the counter at
    zero, ends with it at zero or at two, and at two only by an error
    ([complex_script_outcome]); on a model that answers the nine calls of
    the three examples the script prints its closing lines with the
    session of the three runs, and on a model that stops answering it
    stops at the example that failed ([complex_script_scenario]). *)

From stdpp Require Import base option list strings pretty.
From Stdlib Require Import ZArith Lia Floats.
From S2P Require Import Prelude JsValue Engine Walks Messages Host Tools Stubs Trace.
From S2P Require Import FanOut ComplexTools ComplexGraph.

Section script_lemmas.
Context `{Host} `{!Clock} `{!Langfuse} `{Runtime} `{Evaluator}.
#[local] Abbreviation Proc := (Process Complex.Globals).
Implicit Types (p : Proc) (d : Z).

(** A call of the compiled graph returns at the depth it was called at, or
    throws one above. *)
Lemma complex_invoke_leaks input d :
  (0 ≤ d)%Z →
  hoare (at_depth d)
        (invoke (mkCompiled Complex.graph_builder "classifyInput") input
           default_recursion_limit)
        (post (λ _, at_depth d) (λ _, at_depth (d + 1))).
Proof.
  intros Hd p Hp. unfold invoke, invoke_trace. cbn [cg_graph cg_entry].
  change (ann_reduce ann_empty input) with (Js.assign_fields [] input).
  destruct (complex_walk_outcome input default_recursion_limit p)
    as (r & visited & p' & -> & Hr); [by rewrite Hp | unfold default_recursion_limit; lia|].
  unfold post, at_depth, holds, depth_is in *.
  destruct r as [state|e]; cbn -[traceDepth]; [destruct Hr as [_ Hr]|]; lia.
Qed.

(** The line of the trace id prints, or throws a [TypeError] when the
    identifier is not a text. *)
Lemma trace_id_line_hoare d traceId :
  hoare (at_depth d) (Complex.trace_id_line traceId)
        (post (λ _, at_depth d)
              (λ e p, at_depth d p ∧ e = Js.type_error "traceId.substring is not a function")).
Proof.
  unfold Complex.trace_id_line. destruct (Js.truthy traceId); [|by intros p Hp].
  destruct traceId; by intros [w c g] Hp.
Qed.

End script_lemmas.

(** ** Properties *)

Section properties.
Context `{Host} `{!Clock} `{!Langfuse} `{Runtime} `{Evaluator}.
#[local] Abbreviation Proc := (Process Complex.Globals).
Implicit Types (p : Proc) (d : Z).

(** What a call of [runComplexGraph] leaves behind. Called with the
    counter of the trace utilities at zero or more, it returns with the
    counter where it was, or it throws: with the counter two above where
    it was, when the graph threw and the exits of the node and of the
    call were skipped, or with the counter where it was, when the
    identifier of the trace is not a text or the shutdown of the handler
    failed. *)
Lemma runComplexGraph_outcome input sessionId d :
  (0 ≤ d)%Z →
  hoare (at_depth d) (Complex.runComplexGraph input sessionId)
        (post (λ _, at_depth d)
              (λ e p, at_depth (d + 2) p ∨
                      at_depth d p ∧
                      (e = Js.type_error "traceId.substring is not a function" ∨
                       ∃ w, (langfuse_shutdown w).1 = Err e))).
Proof.
  intros Hd. unfold Complex.runComplexGraph.
  eapply hoare_bind with (R := λ _, at_depth d);
    [apply hoare_post, runs_mfor, runs_console_log|].
  intros _. eapply hoare_bind with (R := λ _, at_depth (d + 1));
    [by apply hoare_post, enter_hoare|].
  intros _.
  eapply hoare_bind with
    (R := λ c p, c = mkCompiled Complex.graph_builder "classifyInput" ∧ at_depth (d + 1) p);
    [by eapply hoare_lift_eq; [apply complex_graph_compiles|]|].
  intros compiled. apply hoare_pure. intros ->.
  eapply hoare_bind with (R := λ _, at_depth (d + 1)).
  { eapply hoare_conseq; [apply (complex_invoke_leaks _ (d + 1)); lia | done|].
    intros [result|e] p; [done|]. left. by replace (d + 2)%Z with (d + 1 + 1)%Z by lia. }
  intros result. eapply hoare_bind with (R := λ _, at_depth (d + 1));
    [apply hoare_post, runs_ask|].
  intros traceId. eapply hoare_bind with (R := λ _, at_depth d);
    [by apply hoare_post, exit_back|].
  intros _. do 2 (eapply hoare_bind with (R := λ _, at_depth d);
    [apply hoare_post, runs_console_log | intros _]).
  eapply hoare_bind with (R := λ _, at_depth d).
  { eapply hoare_conseq; [apply trace_id_line_hoare | done|].
    intros [[]|e] p; [done|]. intros [Hp ->]. right. auto. }
  intros _. eapply hoare_bind with (R := λ _, at_depth d);
    [apply hoare_post, runs_console_log | intros _].
  eapply hoare_bind with (R := λ _, at_depth d); [|by intros _; apply hoare_ret].
  eapply hoare_conseq; [apply request_hoare | done|].
  intros [[]|e] p; [done|]. intros [Hp Hw]. right. auto.
Qed.

(** One example of the script: the heading, the call and the report. *)
Lemma example_outcome title input sessionId d :
  (0 ≤ d)%Z →
  hoare (at_depth d) (Complex.example title input sessionId)
        (post (λ _, at_depth d) (λ _ p, at_depth (d + 2) p ∨ at_depth d p)).
Proof.
  intros Hd. unfold Complex.example, Complex.heading, Complex.report.
  eapply hoare_bind with (R := λ _, at_depth d); [|intros _].
  { apply hoare_post. repeat (apply runs_bind; [|intros _]); apply runs_console_log. }
  eapply hoare_bind with (R := λ _, at_depth d).
  { eapply hoare_conseq; [by apply runComplexGraph_outcome | done|].
    intros [result|e] p; [done|]. intros [?|[? _]]; [by left | by right]. }
  intros result. apply hoare_post, runs_bind; [|intros _]; apply runs_console_log.
Qed.

(** The session of the three runs: [`demo-session-${Date.now()}`], read
    once where the script starts. *)
Definition session_of p : string := "demo-session-" +:+ pretty (epoch_now (host p)).1.

(** C24. What the script leaves behind. Started with the counter of the
    trace utilities at zero, the script returns with the counter at zero
    after printing its closing lines, which name the session of the three
    runs, or it throws: the error of the first example that failed, the
    examples after it not run, with the counter at two when a node of the
    graph threw, and at zero otherwise. *)
Theorem complex_script_outcome p :
  traceDepth (globals p) = 0%Z →
  match (Complex.script p).1 with
  | Ok _ =>
      traceDepth (globals (Complex.script p).2) = 0%Z ∧
      Complex.closing (session_of p) `suffix_of` console (Complex.script p).2
  | Err _ =>
      traceDepth (globals (Complex.script p).2) = 2%Z ∨
      traceDepth (globals (Complex.script p).2) = 0%Z
  end.
Proof.
  intros Hp.
  enough (hoare (λ q, at_depth 0 q ∧ host q = host p) Complex.script
            (post (λ _ q, at_depth 0 q ∧
                          Complex.closing (session_of p) `suffix_of` console q)
                  (λ _ q, at_depth 2 q ∨ at_depth 0 q))) as Hs.
  { specialize (Hs p (conj Hp eq_refl)). by destruct (Complex.script p) as [[[]|e] q]. }
  unfold Complex.script.
  do 2 (eapply hoare_bind with (R := λ _ q, at_depth 0 q ∧ host q = host p);
    [by intros [w c g] [Hd Hw] | intros _]).
  eapply hoare_bind with (R := λ now q, now = (epoch_now (host p)).1 ∧ at_depth 0 q).
  { intros [w c g] [Hd <-]. unfold ask. cbn. by destruct (epoch_now w). }
  intros now. apply hoare_pure. intros ->. fold (session_of p).
  do 3 (eapply hoare_bind with (R := λ _, at_depth 0);
    [by apply (example_outcome _ _ _ 0) | intros _]).
  intros q Hq. rewrite mfor_console_log. cbn. split; [done | by apply suffix_app_r].
Qed.

End properties.

(** ** Scenarios *)

Module ScriptStub.

(** A model that answers the nine calls of the three examples: each is
    classified, sent to its tool and summed up. *)
Definition answers : list (Res (value * list ToolCall)) :=
  [Ok (VStr (Stub.show (ComplexStub.answer (VStr "math") 1)), []);
   Ok (VStr "", [ComplexStub.sum_call]);
   Ok (VStr "The sum is 3.", []);
   Ok (VStr (Stub.show (ComplexStub.answer (VStr "text") 1)), []);
   Ok (VStr "", [mkToolCall "processText"
                   (VObj [("text", VStr "hello world"); ("operation", VStr "uppercase")])
                   "call_2"]);
   Ok (VStr "HELLO WORLD", []);
   Ok (VStr (Stub.show (ComplexStub.answer (VStr "data") 1)), []);
   Ok (VStr "", [mkToolCall "analyzeData"
                   (VObj [("data", VArr [VNum 10; VNum 20; VNum 30; VNum 40; VNum 50])])
                   "call_3"]);
   Ok (VStr "The average is 30.", [])].

Definition run (script : list (Res (value * list ToolCall)))
  : Res unit * Process Complex.Globals :=
  @Complex.script Stub.scripted ComplexStub.clock ComplexStub.langfuse ComplexStub.runtime
    ComplexStub.evaluator (ComplexStub.boot script).

End ScriptStub.

(** On a model that answers the nine calls the script returns, the counter
    back at zero, and ends with its closing lines; each example prints its
    heading. On a model that stops after the first example the script
    throws in the classification of the second: the counter is left at two
    and the third example is not started. *)
Example complex_script_scenario :
  let full := ScriptStub.run ScriptStub.answers in
  let short := ScriptStub.run (take 3 ScriptStub.answers) in
  full.1 = Ok tt ∧
  traceDepth (globals full.2) = 0%Z ∧
  filter (λ line, String.prefix "例" line = true) (console full.2)
  = ["例1: 数学処理"; "例2: テキスト処理"; "例3: データ分析"] ∧
  last (console full.2) = last (Complex.closing "demo-session-1714558830000") ∧
  short.1 = Err (mkError ExecutionError "the script is used up") ∧
  traceDepth (globals short.2) = 2%Z ∧
  filter (λ line, String.prefix "例" line = true) (console short.2)
  = ["例1: 数学処理"; "例2: テキスト処理"].
Proof. vm_compute. done. Qed.

(** ** Witnesses *)

Lemma complex_script_outcome_witness :
  match (ScriptStub.run ScriptStub.answers).1 with
  | Ok _ =>
      traceDepth (globals (ScriptStub.run ScriptStub.answers).2) = 0%Z ∧
      Complex.closing
        (@session_of Stub.scripted ComplexStub.clock (ComplexStub.boot ScriptStub.answers))
        `suffix_of` console (ScriptStub.run ScriptStub.answers).2
  | Err _ =>
      traceDepth (globals (ScriptStub.run ScriptStub.answers).2) = 2%Z ∨
      traceDepth (globals (ScriptStub.run ScriptStub.answers).2) = 0%Z
  end.
Proof.
  apply (@complex_script_outcome Stub.scripted ComplexStub.clock ComplexStub.langfuse
           ComplexStub.runtime ComplexStub.evaluator). reflexivity.
Defined.
