(* ===== verification/Enrichment.v ===== *)
(** * The enrichment stage under latencies

    The three sub-tasks of [enrichDataNode] (complex-graph-auto-trace.ts)
    await nothing, so the stage of the script is the sequential stage of
    [FanOut]. The fan-out determinism test of the specification gives the
    sub-tasks latencies and lets them complete in any order. This file
    puts each sub-task of the script behind a number of timers
    ([enrichment_calls]) and runs the stage under a schedule
    ([Schedule.fan_out_at]).

    The sub-tasks share the process: each prints through [trace], which
    reads the counter [traceDepth] and the clock, and the first draws a
    random number. None writes the counter, so the depth is an invariant
    of every piece of every sub-task, whatever the interleaving; the
    values are merged in the order of the array.

    Theorems: without latencies the stage is that of the script under
    every schedule ([enrichment_unscheduled]); with any latencies and
    under every schedule that resumes each sub-task as often as it awaits,
    the stage returns the enrichment the script computes
    ([enrichment_any_schedule]); two schedules print the lines of the
    sub-tasks in different orders and return the same update
    ([enrichment_interleavings]); when several sub-tasks fail, the error
    of the stage is the one raised first in time
    ([first_rejection_in_time]). *)

From stdpp Require Import base option list strings.
From Stdlib Require Import ZArith Lia Floats.
From S2P Require Import Prelude JsValue Engine Messages Host Tools Stubs Trace.
From S2P Require Import FanOut Schedule ComplexTools ComplexGraph.

Section latencies.
Context `{Host} `{!Clock} `{Runtime}.
#[local] Abbreviation Proc := (Process Complex.Globals).
Implicit Types (p : Proc) (state : ObjState) (d : Z) (schedule latencies : list nat).

(** The sub-tasks of [enrichDataNode], each behind its latency. *)
Definition enrichment_calls latencies state : list (Call Proc value) :=
  zip_with delayed latencies
    [Complex.sentiment_task; Complex.complexity_task state; Complex.tags_task state].

(** A sub-task that is balanced and yields values that satisfy [Q]
    keeps the depth and promises such a value, behind any latency. *)
Lemma yields_delayed (Q : value → Prop) (task : M Proc value) n d :
  yields Q task → (0 ≤ d)%Z → call_promises (at_depth d) (fulfils Q) (delayed n task).
Proof.
  intros Htask Hd. apply delayed_promises. intros p Hp. specialize (Htask d Hd p Hp).
  by destruct (task p) as [[a|e] p'].
Qed.

(** The sub-tasks of enrichDataNode await nothing: the runtime has
    nothing to resume, and under every schedule the stage is the
    sequential stage of the script, with the same update or error and the
    same process. *)
Theorem enrichment_unscheduled schedule state p :
  fan_out_at schedule (enrichment_calls [0; 0; 0] state) p
  = (Some (fan_out [Complex.sentiment_task; Complex.complexity_task state;
                    Complex.tags_task state] p).1,
     (fan_out [Complex.sentiment_task; Complex.complexity_task state;
               Complex.tags_task state] p).2).
Proof. apply (fan_out_at_sync schedule [_; _; _]). Qed.

(** C20. Fan-out determinism: whatever the latencies of the three
    sub-tasks of enrichDataNode and whatever the order in which the
    runtime resumes them, provided each is resumed as often as it awaits,
    the stage returns, with the enrichment the script computes: the keys
    sentiment, complexity and tags in the order of the array, the
    complexity and the tags determined by the state, the sentiment one of
    two words. The counter is left where it was. *)
Theorem enrichment_any_schedule latencies schedule state input p :
  field "input" state = VStr input → length latencies = 3 →
  covers schedule (λ i, default 0 (latencies !! i)) →
  (0 ≤ traceDepth (globals p))%Z →
  ∃ update p',
    fan_out_at schedule (enrichment_calls latencies state) p = (Some (Ok update), p') ∧
    traceDepth (globals p') = traceDepth (globals p) ∧
    is_enrichment state input [("enrichments", update)].
Proof.
  intros Hinput Hlen Hc Hd. destruct latencies as [|n1 [|n2 [|n3 [|]]]]; try done.
  destruct (promise_all_at_returns (at_depth (traceDepth (globals p)))
              [is_sentiment; is_complexity input; is_tags state] [n1; n2; n3] schedule
              (enrichment_calls [n1; n2; n3] state) p)
    as (l & ts & p' & Hrun & Hp' & Hl); [| |done..|].
  - repeat first [apply List.Forall2_nil | apply List.Forall2_cons]; apply yields_delayed;
      auto using sentiment_task_yields, complexity_task_yields, tags_task_yields.
  - repeat first [apply List.Forall2_nil | apply List.Forall2_cons]; intros; apply delayed_within.
  - unfold fan_out_at. rewrite Hrun. cbn.
    apply Forall2_cons_inv_l in Hl as (a & l1 & (s & Hs & ->) & Hl & ->).
    apply Forall2_cons_inv_l in Hl as (b & l2 & -> & Hl & ->).
    apply Forall2_cons_inv_l in Hl as (c & l3 & -> & ->%Forall2_nil_inv_l & ->).
    exists (Js.object_assign
              [VObj [("sentiment", VStr s)];
               VObj [("complexity",
                      VStr (if Nat.ltb 20 (String.length input) then "high" else "low"))];
               VObj [("tags", VArr [VStr "processed"; field "category" state; VStr "v1"])]]),
      p'.
    split_and!; [done..|]. by exists s.
Qed.

End latencies.

(** ** Scenarios *)

(** The lines of the console that name a sub-task, by the number of the
    sub-task. *)
Definition task_of_line (line : string) : option nat :=
  if bool_decide (is_Some (String.index 0 "並列タスク1" line)) then Some 0
  else if bool_decide (is_Some (String.index 0 "並列タスク2" line)) then Some 1
  else if bool_decide (is_Some (String.index 0 "並列タスク3" line)) then Some 2
  else None.

(** The first sub-task behind two timers and the third behind one: a
    runtime that resumes the first twice and then the third prints the
    lines of the sub-tasks in the order second, first, third; one that
    resumes the third first prints them in the order second, third, first.
    Both return the update of the script. *)
Example enrichment_interleavings :
  let state := [("input", VStr "1 + 2"); ("category", VStr "math")] in
  let stage schedule :=
    @fan_out_at (Process Complex.Globals) schedule
      (@enrichment_calls Stub.scripted ComplexStub.clock ComplexStub.runtime [2; 0; 1] state)
      (ComplexStub.boot []) in
  omap task_of_line (console (stage [0; 0; 2]).2) = [1; 0; 2] ∧
  omap task_of_line (console (stage [2; 0; 0]).2) = [1; 2; 0] ∧
  (stage [0; 0; 2]).1 = (stage [2; 0; 0]).1 ∧
  (stage [0; 0; 2]).1
  = Some (@fan_out (Process Complex.Globals)
            [@Complex.sentiment_task Stub.scripted ComplexStub.clock ComplexStub.runtime;
             @Complex.complexity_task Stub.scripted ComplexStub.clock ComplexStub.runtime
               state;
             @Complex.tags_task Stub.scripted ComplexStub.clock ComplexStub.runtime state]
            (ComplexStub.boot [])).1 ∧
  (stage [0; 2]).1 = None.
Proof. vm_compute. done. Qed.

(** When two sub-tasks fail, the stage throws the error raised first in
    time, not the error of the sub-task declared first. *)
Example first_rejection_in_time :
  let first := mkError GenericError "first" in
  let second := mkError GenericError "second" in
  let calls : list (Call unit value) := [delayed 2 (throw first); delayed 1 (throw second)] in
  (fan_out_at [0; 1; 0] calls tt).1 = Some (Err second) ∧
  (fan_out_at [0; 0; 1] calls tt).1 = Some (Err first) ∧
  (fan_out (Σ:=unit) [throw first; throw second] tt).1 = Err first.
Proof. vm_compute. done. Qed.

(** ** Witnesses *)

Lemma enrichment_any_schedule_witness :
  ∃ update p',
    @fan_out_at (Process Complex.Globals) [2; 0; 0]
      (@enrichment_calls Stub.scripted ComplexStub.clock ComplexStub.runtime [2; 0; 1]
         [("input", VStr "1 + 2"); ("category", VStr "math")])
      (ComplexStub.boot [])
    = (Some (Ok update), p') ∧
    traceDepth (globals p') = traceDepth (globals (ComplexStub.boot [])) ∧
    is_enrichment [("input", VStr "1 + 2"); ("category", VStr "math")] "1 + 2"
      [("enrichments", update)].
Proof.
  apply (@enrichment_any_schedule Stub.scripted ComplexStub.clock ComplexStub.runtime);
    [reflexivity | reflexivity | | cbn; lia].
  intros [|[|[|i]]]; vm_compute; lia.
Defined.
