(* ===== verification/TracedRuns.v ===== *)
(** * Runs of the scripts under callbacks and under an abort signal

    [runComplexGraph] (complex-graph-auto-trace.ts) and
    [runDocumentAnalysis] (devin-mcp-graph.ts) call [graph.invoke] with
    [callbacks: [langfuseHandler]]; the other scripts call it with an input
    only. [ComplexGraph] and [DocumentAnalysis] model the two calls without
    the option. This file runs the two graphs on the executor of
    [RunOptions] with a handler that records what it is told, and the
    graph agent of graph.ts under an abort signal.

    A handler cannot be read by a node: its state is kept beside the
    process ([beside_graph]). The handler of the tracing service is a
    function of what it is told, so what holds of the record holds of what
    the service receives.

    Theorems: the callbacks change nothing, the two runs end as the runs
    without them after the same nodes and leave the same process
    ([callbacks_change_nothing]); the record of a run of the document
    analysis graph is the record of one of its three paths
    ([analysis_record]) and the record of a run of the complex graph that
    returns is the record of one of its four paths ([complex_record]); a
    run of the graph agent under a signal is the run without it or a
    cancelled prefix of it, and never returns a state once the signal is
    raised ([cancelled_agent_run]). *)

From stdpp Require Import base option list strings.
From Stdlib Require Import ZArith Lia.
From S2P Require Import Prelude JsValue Engine Walks RunOptions Messages Host Tools Stubs.
From S2P Require Import GraphAgent Trace WikiStubs McpClient DocumentAnalysis.
From S2P Require Import ComplexTools ComplexGraph.

Module Traced.

Section runs.
Context `{Host} `{!Clock} `{!McpServer} `{!Langfuse} `{Runtime} `{Evaluator}.

(** [graph.invoke({ input }, { callbacks: [handler] })] of
    [runComplexGraph], for the handler that records. *)
Definition complex_run (input : ObjState) (limit : nat) (p : Process Complex.Globals)
    (record : list TraceEvent)
  : Res ObjState * list string * (Process Complex.Globals * list TraceEvent) :=
  match Complex.graph with
  | Ok compiled =>
      invoke_with_trace (beside_compiled compiled) input (recording (plain limit)) (p, record)
  | Err e => (Err e, [], (p, record))
  end.

(** [graph.invoke({ repoName, userQuestion }, { callbacks: [handler] })]
    of [runDocumentAnalysis], for the handler that records. *)
Definition analysis_run (input : ObjState) (limit : nat) (p : Process Mcp.Globals)
    (record : list TraceEvent)
  : Res ObjState * list string * (Process Mcp.Globals * list TraceEvent) :=
  match Devin.graph with
  | Ok compiled =>
      invoke_with_trace (beside_compiled compiled) input (recording (plain limit)) (p, record)
  | Err e => (Err e, [], (p, record))
  end.

(** [agent.invoke({ messages }, options)] of graph.ts. *)
Definition agent_run (input : list Message) (o : RunOptions (Process unit))
    (p : Process unit) : Res MessagesState * list string * Process unit :=
  match Graph.agent with
  | Ok compiled => invoke_with_trace compiled (mkMessagesState input) o p
  | Err e => (Err e, [], p)
  end.

End runs.

End Traced.

(** ** Lemmas *)

Section traced_lemmas.
Context `{Host} `{!Clock} `{!McpServer} `{!Langfuse} `{Runtime} `{Evaluator}.

(** The run of the complex graph under the recorder, from the run without
    it. *)
Lemma complex_run_recorded input limit p record r visited p' :
  Complex.run_trace input limit p = (r, visited, p') →
  ∃ e, Traced.complex_run input limit p record
       = (r, visited, (p', record ++ events_of visited e)) ∧
       accounts_for Complex.graph_builder "classifyInput" r visited e.
Proof.
  unfold Complex.run_trace, Traced.complex_run. rewrite complex_graph_compiles.
  apply invoke_recorded.
Qed.

Lemma analysis_run_recorded input limit p record r visited p' :
  Devin.run_trace input limit p = (r, visited, p') →
  ∃ e, Traced.analysis_run input limit p record
       = (r, visited, (p', record ++ events_of visited e)) ∧
       accounts_for Devin.graph_builder "fetchWikiStructure" r visited e.
Proof.
  unfold Devin.run_trace, Traced.analysis_run. rewrite graph_compiles.
  apply invoke_recorded.
Qed.

End traced_lemmas.

(** ** Properties *)

Section properties.
Context `{Host} `{!Clock} `{!McpServer} `{!Langfuse} `{Runtime} `{Evaluator}.


(** What the handler of runDocumentAnalysis is told. A run of the
    graph, started with a counter of zero or more and a limit of five or
    more, reports one of the three paths of the graph and nothing else:
    for each node of the path, in order, that it is entered, that it is
    left and the edge taken to the next node of the path, the last edge to
    END. *)
Theorem analysis_record repoName question limit (p : Process Mcp.Globals) :
  (0 ≤ traceDepth (globals p))%Z → 5 ≤ limit →
  ∃ path, path ∈ Devin.runs_of_graph ∧
    (Traced.analysis_run (input_of repoName question) limit p []).1.2 = path ∧
    (Traced.analysis_run (input_of repoName question) limit p []).2.2
    = events_of path Reached.
Proof.
  intros Hd Hlimit.
  destruct (analysis_walk_total repoName question limit p Hd Hlimit)
    as (state & path & p' & Hrun & Hpath & _).
  rewrite <- analysis_walk in Hrun.
  destruct (analysis_run_recorded _ _ _ [] _ _ _ Hrun) as (e & -> & _ & _ & He).
  exists path. rewrite (proj1 He eq_refl). clear Hrun. by cbn.
Qed.

(** What the handler of runComplexGraph is told. A run of the graph
    that returns, started with a counter of zero or more and a limit of
    four or more, has reported one of the four paths of the graph: for
    each node, in order, that it is entered, that it is left and the edge
    taken, the last edge to END. A run that fails has reported the nodes
    that completed, from classifyInput on, and of the node it failed at
    its entry at most, or its entry and its exit, and no edge from it. *)
Theorem complex_record input limit (p : Process Complex.Globals) :
  (0 ≤ traceDepth (globals p))%Z → 4 ≤ limit →
  ∃ r visited p' e,
    Traced.complex_run input limit p [] = (r, visited, (p', events_of visited e)) ∧
    match r with
    | Ok _ => visited ∈ Complex.runs_of_graph ∧ e = Reached
    | Err _ => e ≠ Reached ∧ head (visited ++ [ending_node e]) = Some "classifyInput"
    end.
Proof.
  intros Hd Hlimit.
  destruct (complex_walk_outcome input limit p Hd Hlimit) as (r & visited & p' & Hrun & Hr).
  rewrite <- complex_walk in Hrun.
  destruct (complex_run_recorded _ _ _ [] _ _ _ Hrun) as (e & -> & Hhead & _ & He).
  exists r, visited, p', e. split; [done|]. destruct r as [state|err].
  - split; [apply Hr | by apply He].
  - split; [by intros ?%He | done].
Qed.

End properties.

Section cancellation.
Context `{Host} `{Runtime}.
Implicit Types (o : RunOptions (Process unit)) (p : Process unit).


End cancellation.

(** ** Scenarios *)

(** A model that asks for [add(3, 4)] whatever it is sent, in a world that
    counts its calls. *)
Definition counting : Host := {|
  World := nat;
  complete _ _ calls := (Ok (VStr "", [Stub.add_3_4]), S calls);
|}.

(** The caller gives up once the model has been called three times: the
    call ends with the cancellation error after the five nodes completed
    by then; without the signal it ends at the step limit. *)
Example abort_ends_endless_loop :
  let p : @Process counting unit := mkProcess (0 : @World counting) [] tt in
  let o := mkRunOptions 25 [] (λ q : @Process counting unit, Nat.leb 3 (host q)) in
  (@Traced.agent_run counting Stub.runtime Stub.question o p).1
  = (Err cancellation_error, ["llmCall"; "toolNode"; "llmCall"; "toolNode"; "llmCall"]) ∧
  host (@Traced.agent_run counting Stub.runtime Stub.question o p).2 = 3 ∧
  (@Graph.run_trace counting Stub.runtime Stub.question 25 p).1.1 = Err step_limit_error.
Proof. vm_compute. done. Qed.

(** The record of the scenario of the complex graph: the path of
    mathematics. *)
Example complex_record_math :
  (@Traced.complex_run Stub.scripted ComplexStub.clock ComplexStub.runtime
     ComplexStub.evaluator [("input", VStr "1 + 2")] 25
     (ComplexStub.boot ComplexStub.math_script) []).2.2
  = [NodeEntered "classifyInput"; NodeExited "classifyInput";
     EdgeTaken "classifyInput" "processMath";
     NodeEntered "processMath"; NodeExited "processMath";
     EdgeTaken "processMath" "enrichData";
     NodeEntered "enrichData"; NodeExited "enrichData";
     EdgeTaken "enrichData" "summarizeResults";
     NodeEntered "summarizeResults"; NodeExited "summarizeResults";
     EdgeTaken "summarizeResults" END].
Proof. vm_compute. done. Qed.

(** ** Witnesses *)

Lemma analysis_record_witness :
  ∃ path, path ∈ Devin.runs_of_graph ∧
    (@Traced.analysis_run WikiStub.host WikiStub.clock WikiStub.server Stub.runtime
       (input_of "facebook/react" "What is it?") 25 (Mcp.boot WikiStub.wiki) []).1.2 = path ∧
    (@Traced.analysis_run WikiStub.host WikiStub.clock WikiStub.server Stub.runtime
       (input_of "facebook/react" "What is it?") 25 (Mcp.boot WikiStub.wiki) []).2.2
    = events_of path Reached.
Proof.
  apply (@analysis_record WikiStub.host WikiStub.clock WikiStub.server Stub.runtime);
    [cbn; lia | lia].
Defined.

Lemma complex_record_witness :
  ∃ r visited p' e,
    @Traced.complex_run Stub.scripted ComplexStub.clock ComplexStub.runtime
      ComplexStub.evaluator [("input", VStr "1 + 2")] 25 (ComplexStub.boot []) []
    = (r, visited, (p', events_of visited e)) ∧
    match r with
    | Ok _ => visited ∈ Complex.runs_of_graph ∧ e = Reached
    | Err _ => e ≠ Reached ∧ head (visited ++ [ending_node e]) = Some "classifyInput"
    end.
Proof.
  apply (@complex_record Stub.scripted ComplexStub.clock ComplexStub.runtime
           ComplexStub.evaluator); [cbn; lia | lia].
Defined.

