(* ===== verification/ToolEvents.v ===== *)
(** * The events of the tools

    [runComplexGraph] (complex-graph-auto-trace.ts) gives its handler to
    [graph.invoke] and says of it that the nodes, the edges and the tool
    calls are traced without more. The tools are invoked inside the three
    processing nodes with [tool.invoke(toolCall)]: the handlers of the run
    reach the call through its context, and are told that the tool is
    invoked and that it has returned ([invoke_observed] of [RunOptions]).

    [TracedRuns] runs the graph beside the record of the events of the
    nodes and of the edges. This file is the graph with the events of the
    tools ([Observed]): the processing nodes as the script has them, their
    [tool.invoke] under the handlers of the run, and the other nodes and
    the routing function beside the record.

    Theorems: every node of the graph logs what [complex_log] accepts, the
    processing nodes the events of the calls of registered tools, each
    invocation followed by its result, and the other nodes nothing
    ([observed_graph_logs]); a run with the events of the tools is the run
    without handlers, its record is the events of the nodes that completed
    with the events of their tool calls between entry and exit, and
    without the events of the tools it is the record of the nodes and
    edges ([tool_calls_are_traced]). The tools of the script fail on a
    schema mismatch only ([complex_tools_total]), which is found before
    the handlers are told of the call: no invocation is left without its
    result, also in a run that fails. *)

From stdpp Require Import base option list strings.
From Stdlib Require Import ZArith Lia Floats.
From S2P Require Import Prelude JsValue Engine Walks RunOptions Messages Host Tools Stubs.
From S2P Require Import Trace ComplexTools ComplexGraph.

(** [tool.invoke(toolCall, config)] in a node of a run with the options
    [o]. The arguments are checked against the schema first: a call whose
    arguments do not match throws before the handlers are told of it. *)
Definition tool_invoke_observed {Σ} `{Runtime} (o : RunOptions Σ) (t : Tool) (tc : ToolCall)
    (config : value) : M Σ Message :=
  match parse (tool_schema t) (tc_args tc) with
  | None => throw schema_error
  | Some input =>
      invoke_observed o (tool_name t) (tc_id tc)
        (out <- lift_res (tool_func t input config) ;;
         ret (ToolMessage (format_tool_output out) (tc_id tc) (tool_name t)))
  end.

(** A tool whose function returns on every input that its schema lets
    through. *)
Definition total (t : Tool) : Prop :=
  ∀ args input config,
    parse (tool_schema t) args = Some input → is_ok (tool_func t input config) = true.

Module Observed.

Section nodes.
Context `{Host} `{!Clock} `{!Langfuse} `{Runtime} `{Evaluator}.
#[local] Abbreviation Proc := (Process Complex.Globals).
#[local] Abbreviation Traced := (Proc * list TraceEvent)%type.
Context (o : RunOptions Traced).

(** The body of the loop over the tool calls of a processing node. *)
Definition run_tool_call (toolCall : ToolCall) : M Traced string :=
  beside (Complex.trace ("  → " +:+ tc_name toolCall) (tc_args toolCall)) ;;
  tool <- lift_res (lookup_tool ComplexTools.toolsByName (tc_name toolCall)) ;;
  result <- tool_invoke_observed o tool toolCall VUndefined ;;
  beside (Complex.trace "  ← Result" (content result)) ;;
  ret (to_string (content result)).

Definition run_tool_calls (response : Message) : M Traced string :=
  if Nat.ltb 0 (length (tool_calls response)) then
    beside (Complex.trace ("🔧 " +:+ to_string (Js.of_nat (length (tool_calls response)))
                           +:+ " 個のツール呼び出し") VUndefined) ;;
    mfold (λ _ toolCall, run_tool_call toolCall) "" (tool_calls response)
  else ret "".

Definition process_node (name prompt path : string) (state : ObjState)
  : M Traced ObjState :=
  beside (Complex.traceEnter name (VObj [("input", field "input" state)])) ;;
  let messages := [SystemMessage (VStr prompt); HumanMessage (field "input" state)] in
  response <- beside (Complex.modelWithTools messages) ;;
  responseText <- run_tool_calls response ;;
  beside (Complex.traceExit name (VObj [("processed", VBool true)])) ;;
  ret [("processed", VBool true); ("path", VStr path); ("response", VStr responseText)].

Definition processMathNode : ObjState → M Traced ObjState :=
  process_node "processMath"
    "あなたは数学の専門家です。calculateツールを使って問題を解いてください。" "math".

Definition processTextNode : ObjState → M Traced ObjState :=
  process_node "processTextPath"
    "あなたはテキスト処理の専門家です。processTextツールを使ってテキストを操作してください。"
    "text".

Definition processDataNode : ObjState → M Traced ObjState :=
  process_node "processDataPath"
    "あなたはデータアナリストです。入力から数値を抽出してanalyzeDataツールを使って分析してください。"
    "data".

(** The graph: the nodes without tools and the routing function are
    those of the script, beside the record. *)
Definition graph_builder : StateGraph Traced ObjState ObjState :=
  new_StateGraph
  |> addNode "classifyInput" (λ state, beside (Complex.classifyInputNode state))
  |> addNode "processMath" processMathNode
  |> addNode "processText" processTextNode
  |> addNode "processData" processDataNode
  |> addNode "enrichData" (λ state, beside (Complex.enrichDataNode state))
  |> addNode "summarizeResults" (λ state, beside (Complex.summarizeResultsNode state))
  |> addEdge START "classifyInput"
  |> addConditionalEdges "classifyInput" (λ state, beside (Complex.routeByCategory state))
       (path_array ["processMath"; "processText"; "processData"; "enrichData"])
  |> addEdge "processMath" "enrichData"
  |> addEdge "processText" "enrichData"
  |> addEdge "processData" "enrichData"
  |> addEdge "enrichData" "summarizeResults"
  |> addEdge "summarizeResults" END.

Definition graph : Res (CompiledGraph Traced ObjState ObjState) := compile graph_builder.

End nodes.

Section run.
Context `{Host} `{!Clock} `{!Langfuse} `{Runtime} `{Evaluator}.

(** [graph.invoke({ input }, { callbacks: [handler] })] of
    [runComplexGraph], for the handler that records, with the events of
    the tools. *)
Definition complex_run (input : ObjState) (limit : nat) (p : Process Complex.Globals)
    (record : list TraceEvent)
  : Res ObjState * list string * (Process Complex.Globals * list TraceEvent) :=
  match graph (recording (plain limit)) with
  | Ok compiled => invoke_with_trace compiled input (recording (plain limit)) (p, record)
  | Err e => (Err e, [], (p, record))
  end.

End run.

End Observed.

(** The nodes that invoke tools. *)
Definition processing_nodes : list string := ["processMath"; "processText"; "processData"].

(** What a node of the complex graph logs: the processing nodes the
    events of calls of registered tools, the others nothing. *)
Definition complex_log `{Runtime} `{Evaluator} (node : string)
  : bool → list TraceEvent → Prop :=
  if bool_decide (node ∈ processing_nodes) then tool_log (tool_name <$> ComplexTools.tools)
  else no_events.

(** ** Lemmas *)

Section observed_lemmas.
Context `{Host} `{!Clock} `{!Langfuse} `{Runtime} `{Evaluator}.
#[local] Abbreviation Proc := (Process Complex.Globals).
Implicit Types (o : RunOptions Proc) (p : Proc) (state : ObjState).
Implicit Types (record : list TraceEvent).

#[local] Abbreviation names := (tool_name <$> ComplexTools.tools).

(** A total tool that is invoked under the recorder is the tool, and logs
    its invocation and its result, or nothing when its arguments do not
    match its schema. *)
Lemma tool_invoke_observed_logs {Σ} (T : bool → list TraceEvent → Prop) `{!Log T}
    (o' : RunOptions Σ) t tc config :
  total t → T true [ToolInvoked (tool_name t) (tc_id tc); ToolResult (tc_id tc)] →
  logs T (tool_invoke_observed (recording o') t tc config)
       (lift_res (tool_invoke t tc config)).
Proof.
  intros Ht HT. unfold tool_invoke_observed, tool_invoke.
  destruct (parse (tool_schema t) (tc_args tc)) as [input|] eqn:Hparse;
    [|apply (logs_lift_res T (Err schema_error))].
  specialize (Ht _ _ config Hparse).
  destruct (tool_func t input config) as [out|e]; [|done].
  by apply logs_invoke_observed.
Qed.

(** The tools of the complex graph fail on a schema mismatch only. *)
Lemma complex_tools_total t : t ∈ ComplexTools.tools → total t.
Proof.
  unfold ComplexTools.tools. cbn. rewrite !elem_of_cons, elem_of_nil.
  intros [->|[->|[->|[]]]] args input config; cbn.
  - done.
  - by intros (text & operation & _ & _ & _ & ->)%parse_text_input.
  - done.
Qed.

(** The tools of the registry are the registered tools. *)
Lemma lookup_registered name tool :
  lookup_tool ComplexTools.toolsByName name = Ok tool → tool ∈ ComplexTools.tools.
Proof.
  unfold lookup_tool. cbn.
  repeat (destruct (String.eqb name _); [intros [= <-]; cbn; rewrite !elem_of_cons; auto|]).
  done.
Qed.

Lemma run_tool_call_logs o toolCall :
  logs (tool_log names) (Observed.run_tool_call (recording o) toolCall)
       (Complex.run_tool_call toolCall).
Proof.
  unfold Observed.run_tool_call, Complex.run_tool_call.
  apply logs_bind; [logs_auto..|intros _].
  apply logs_bind_res; [logs_auto|]. intros tool Htool%lookup_registered.
  apply logs_bind; [logs_auto| |logs_auto].
  apply tool_invoke_observed_logs; [apply _ | by apply complex_tools_total|].
  by apply tool_log_call, list_elem_of_fmap_2.
Qed.

Lemma run_tool_calls_logs o response :
  logs (tool_log names) (Observed.run_tool_calls (recording o) response)
       (Complex.run_tool_calls response).
Proof.
  unfold Observed.run_tool_calls, Complex.run_tool_calls.
  case_match; [|logs_auto].
  apply logs_bind; [logs_auto..|intros _].
  apply logs_mfold; [logs_auto|]. intros _ toolCall. apply run_tool_call_logs.
Qed.

Lemma process_node_logs o name prompt path state :
  logs (tool_log names) (Observed.process_node (recording o) name prompt path state)
       (Complex.process_node name prompt path state).
Proof.
  unfold Observed.process_node, Complex.process_node.
  repeat (apply logs_bind; [logs_auto| |intros ?]); try apply run_tool_calls_logs; logs_auto.
Qed.

(** Every node of the complex graph logs what [complex_log] accepts. *)
Lemma observed_graph_logs o :
  graph_logs complex_log (Observed.graph_builder (recording o)) Complex.graph_builder.
Proof.
  split; [|done]. cbn.
  repeat first [ apply List.Forall2_nil
               | apply List.Forall2_cons; [split; [done|]; intros state|] ];
    first [ apply process_node_logs | apply (logs_beside no_events) ].
Qed.

Lemma observed_graph_compiles (o : RunOptions (Proc * list TraceEvent)) :
  Observed.graph o = Ok (mkCompiled (Observed.graph_builder o) "classifyInput").
Proof. apply compile_ok; by vm_compute. Qed.

Lemma complex_log_node_events node ok log : complex_log node ok log → node_events log = [].
Proof.
  unfold complex_log. case_bool_decide; [apply tool_log_node_events | by intros ->].
Qed.

Lemma complex_log_answered node ok log :
  complex_log node ok log → answered names None log = true.
Proof.
  unfold complex_log. case_bool_decide; [apply tool_log_answered | by intros ->].
Qed.

End observed_lemmas.

(** ** Properties *)

Section properties.
Context `{Host} `{!Clock} `{!Langfuse} `{Runtime} `{Evaluator}.
Implicit Types (p : Process Complex.Globals) (record : list TraceEvent).

(** C22. The tool calls of a run of the complex graph are traced, and
    tracing them changes nothing. A call of the graph with a handler is
    the call without options: it ends the same after the same nodes and
    leaves the same process. What the handler is told is, for each node
    that completed, its entry, the events of its tool calls, its exit and
    the edge taken: the processing nodes report calls of registered tools,
    each invocation followed by its result, the other nodes none. Without
    the events of the tools the record is that of the nodes and edges, and
    no invocation is left without its result, also in a run that fails. *)
Theorem tool_calls_are_traced input limit p record :
  ∃ e events,
    Observed.complex_run input limit p record
    = ((Complex.run_trace input limit p).1, ((Complex.run_trace input limit p).2,
                                             record ++ events)) ∧
    accounts_for Complex.graph_builder "classifyInput" (Complex.run_trace input limit p).1.1
      (Complex.run_trace input limit p).1.2 e ∧
    recorded complex_log (Complex.run_trace input limit p).1.2 e events ∧
    node_events events = events_of (Complex.run_trace input limit p).1.2 e ∧
    answered (tool_name <$> ComplexTools.tools) None events = true.
Proof.
  unfold Complex.run_trace, Observed.complex_run.
  rewrite complex_graph_compiles, observed_graph_compiles.
  unfold invoke_trace, invoke_with_trace. cbn [cg_graph cg_entry].
  change (recursionLimit (recording (plain limit))) with limit.
  rewrite <- (walk_with_plain limit).
  destruct (walk_with _ Complex.graph_builder _ _ _ _ p) as [[r visited] p'] eqn:Hrun.
  apply (logged_walk complex_log (plain limit) _ _ _ _ _ _ _ record _ _ _
           (observed_graph_logs (plain limit))) in Hrun
    as (more & e & events & -> & -> & Hacc & Hrec).
  exists e, events. split_and!; [done..| |].
  - eapply recorded_node_events; [apply complex_log_node_events | done].
  - eapply recorded_answered; [apply complex_log_answered | done].
Qed.

End properties.

(** ** Scenarios *)

(** The record of the scenario of the complex graph: the call of
    [calculate] is reported inside [processMath]. *)
Example math_tools_traced :
  (@Observed.complex_run Stub.scripted ComplexStub.clock ComplexStub.runtime
     ComplexStub.evaluator [("input", VStr "1 + 2")] 25
     (ComplexStub.boot ComplexStub.math_script) []).2.2
  = [NodeEntered "classifyInput"; NodeExited "classifyInput";
     EdgeTaken "classifyInput" "processMath";
     NodeEntered "processMath";
     ToolInvoked "calculate" "call_1"; ToolResult "call_1";
     NodeExited "processMath";
     EdgeTaken "processMath" "enrichData";
     NodeEntered "enrichData"; NodeExited "enrichData";
     EdgeTaken "enrichData" "summarizeResults";
     NodeEntered "summarizeResults"; NodeExited "summarizeResults";
     EdgeTaken "summarizeResults" END].
Proof. vm_compute. done. Qed.

(** A model that asks for [calculate] without an expression, and one that
    asks for a tool that is not registered: the run fails in
    [processMath], and the handler is told of no tool. *)
Example rejected_calls_untraced :
  let run toolCall :=
    @Observed.complex_run Stub.scripted ComplexStub.clock ComplexStub.runtime
      ComplexStub.evaluator [("input", VStr "1 + 2")] 25
      (ComplexStub.boot [Ok (VStr (Stub.show (ComplexStub.answer (VStr "math") 1%float)), []);
                         Ok (VStr "", [toolCall])]) [] in
  let entered :=
    [NodeEntered "classifyInput"; NodeExited "classifyInput";
     EdgeTaken "classifyInput" "processMath"; NodeEntered "processMath"] in
  run (mkToolCall "calculate" (VObj []) "call_1")
  = (Err schema_error, ["classifyInput"],
     ((run (mkToolCall "calculate" (VObj []) "call_1")).2.1, entered)) ∧
  run (mkToolCall "add" (VObj []) "call_1")
  = (Err undefined_tool_error, ["classifyInput"],
     ((run (mkToolCall "add" (VObj []) "call_1")).2.1, entered)).
Proof. vm_compute. done. Qed.
