(* ===== verification/Documentation.v ===== *)
(** * The documentation and the code

    The sources hold two documents beside the scripts. graphs.md (after
    graph.ts in src/graph.ts) draws five graphs in the mermaid language, as
    the drawing function of the graph library prints them, and sums them up
    in a table. The README (at the head of src/unnamed/part_000) shows what
    an agent prints on the question "Add 3 and 4.".

    This file holds the drawings, the table and the example as the
    documents have them, the layout the library draws a graph in (the
    nodes in declaration order, the static edges sorted by their source,
    the conditional edges in declaration order with the labels of their
    path maps), and the theorems that compare the documents with the
    scripts: the drawings are those of the graphs the scripts build, the
    rows of the table are those the graphs give, and the result the README
    shows is the one the traced graph agent prints, not the one the
    functional agent prints under the title the README gives it. The
    first part of the example is an excerpt of what src/functional.ts
    prints ([excerpt]: its lines stand for lines of the screen, in order),
    and the agents that the README says print their prompts and their
    tool calls do not all do so ([plain_agents_print_no_debug]). The
    samples of the README have the tools, the prompt and the memory it
    gives them ([samples_conform]); the categories of graphs.md are
    routed as it says ([categories_conform]), but the tool it gives each
    processing path is the tool the prompt of the path names, not the
    only one the path can run ([any_tool_on_any_path]).

    The first drawing is of hello-world.ts, which is not among the
    sources: [hello_world] is the graph the drawing and the table
    describe. *)

From stdpp Require Import base option list strings sorting.
From Stdlib Require Import Ascii.
From S2P Require Import Prelude JsValue Engine Walks Messages Host Tools Stubs GraphAgent GraphTrace.
From S2P Require Import FunctionalAgent Trace McpClient DocumentAnalysis FanOut ComplexTools.
From S2P Require Import ComplexGraph CreateAgent.

(** ** The layout of a drawing *)

(** A drawing: its nodes, its solid arrows and its dotted arrows with
    their labels. *)
Record Diagram : Type := mkDiagram {
  d_nodes : list string;
  d_solid : list (string * string);
  d_dotted : list (string * string * string);
}.

(** The order of the solid arrows: by source. *)
Definition by_source : relation (string * string) :=
  λ a b, String.leb a.1 b.1 = true.

#[export] Instance by_source_dec a b : Decision (by_source a b).
Proof. unfold by_source. apply _. Defined.

#[export] Instance by_source_total : Total by_source.
Proof. intros a b. apply String.leb_total. Qed.

Section layout.
Context {Σ St Up : Type}.
Implicit Types (g : StateGraph Σ St Up).

(** The static edges, in declaration order. *)
Definition static_edges g : list (string * string) :=
  omap (λ se, match se.2 with Static d => Some (se.1, d) | Conditional _ _ => None end)
       (sg_edges g).

(** The branches of the conditional edges, in declaration order. *)
Definition conditional_edges g : list (string * string * string) :=
  sg_edges g ≫= λ se,
    match se.2 with
    | Static _ => []
    | Conditional _ ends => (λ ld, (se.1, ld.1, ld.2)) <$> ends
    end.

(** The number of conditional edges. *)
Definition branchings g : nat :=
  length (List.filter (λ se, match se.2 with Static _ => false | Conditional _ _ => true end)
                      (sg_edges g)).

Definition layout g : Diagram :=
  mkDiagram (node_names g) (merge_sort by_source (static_edges g)) (conditional_edges g).

End layout.

(** ** The text of a drawing *)

Definition tab : string := String (ascii_of_nat 9) "".

Definition first_line : string := tab +:+ "__start__([<p>__start__</p>]):::first".
Definition last_line : string := tab +:+ "__end__([<p>__end__</p>]):::last".

Definition node_line (name : string) : string :=
  tab +:+ name +:+ "(" +:+ name +:+ ")".

Definition solid_line (arrow : string * string) : string :=
  tab +:+ arrow.1 +:+ " --> " +:+ arrow.2 +:+ ";".

(** A branch whose label is the name of its destination is drawn without
    the label. *)
Definition dotted_line (arrow : string * string * string) : string :=
  let '(src, label, dst) := arrow in
  if String.eqb label dst then tab +:+ src +:+ " -.-> " +:+ dst +:+ ";"
  else tab +:+ src +:+ " -. &nbsp;" +:+ label +:+ "&nbsp; .-> " +:+ dst +:+ ";".

Definition class_lines : list string :=
  [tab +:+ "classDef default fill:#f2f0ff,line-height:1.2;";
   tab +:+ "classDef first fill-opacity:0;";
   tab +:+ "classDef last fill:#bfb6fc;"].

Definition render (d : Diagram) : list string :=
  ["%%{init: {'flowchart': {'curve': 'linear'}}}%%"; "graph TD;"; first_line]
  ++ (node_line <$> d_nodes d) ++ [last_line]
  ++ (solid_line <$> d_solid d) ++ (dotted_line <$> d_dotted d) ++ class_lines.

(** [graph.getGraph().drawMermaid()], line by line. *)
Definition drawMermaid {Σ St Up} (g : StateGraph Σ St Up) : list string :=
  render (layout g).

(** ** The documented drawings *)

Module Documented.

Definition hello_world : list string :=
  ["%%{init: {'flowchart': {'curve': 'linear'}}}%%";
   "graph TD;";
   tab +:+ "__start__([<p>__start__</p>]):::first";
   tab +:+ "mock_llm(mock_llm)";
   tab +:+ "__end__([<p>__end__</p>]):::last";
   tab +:+ "__start__ --> mock_llm;";
   tab +:+ "mock_llm --> __end__;";
   tab +:+ "classDef default fill:#f2f0ff,line-height:1.2;";
   tab +:+ "classDef first fill-opacity:0;";
   tab +:+ "classDef last fill:#bfb6fc;"].

Definition devin_mcp_graph : list string :=
  ["%%{init: {'flowchart': {'curve': 'linear'}}}%%";
   "graph TD;";
   tab +:+ "__start__([<p>__start__</p>]):::first";
   tab +:+ "fetchWikiStructure(fetchWikiStructure)";
   tab +:+ "fetchWikiContents(fetchWikiContents)";
   tab +:+ "answerQuestion(answerQuestion)";
   tab +:+ "analyzeInsights(analyzeInsights)";
   tab +:+ "generateSummary(generateSummary)";
   tab +:+ "__end__([<p>__end__</p>]):::last";
   tab +:+ "__start__ --> fetchWikiStructure;";
   tab +:+ "answerQuestion --> generateSummary;";
   tab +:+ "fetchWikiContents --> analyzeInsights;";
   tab +:+ "generateSummary --> __end__;";
   tab +:+ "fetchWikiStructure -. &nbsp;continue&nbsp; .-> fetchWikiContents;";
   tab +:+ "fetchWikiStructure -. &nbsp;end&nbsp; .-> __end__;";
   tab +:+ "analyzeInsights -. &nbsp;answer&nbsp; .-> answerQuestion;";
   tab +:+ "analyzeInsights -. &nbsp;skip&nbsp; .-> generateSummary;";
   tab +:+ "classDef default fill:#f2f0ff,line-height:1.2;";
   tab +:+ "classDef first fill-opacity:0;";
   tab +:+ "classDef last fill:#bfb6fc;"].

Definition graph : list string :=
  ["%%{init: {'flowchart': {'curve': 'linear'}}}%%";
   "graph TD;";
   tab +:+ "__start__([<p>__start__</p>]):::first";
   tab +:+ "llmCall(llmCall)";
   tab +:+ "toolNode(toolNode)";
   tab +:+ "__end__([<p>__end__</p>]):::last";
   tab +:+ "__start__ --> llmCall;";
   tab +:+ "toolNode --> llmCall;";
   tab +:+ "llmCall -.-> toolNode;";
   tab +:+ "llmCall -.-> __end__;";
   tab +:+ "classDef default fill:#f2f0ff,line-height:1.2;";
   tab +:+ "classDef first fill-opacity:0;";
   tab +:+ "classDef last fill:#bfb6fc;"].

(** The drawing of graph-trace.ts repeats the one of graph.ts. *)
Definition graph_trace : list string :=
  ["%%{init: {'flowchart': {'curve': 'linear'}}}%%";
   "graph TD;";
   tab +:+ "__start__([<p>__start__</p>]):::first";
   tab +:+ "llmCall(llmCall)";
   tab +:+ "toolNode(toolNode)";
   tab +:+ "__end__([<p>__end__</p>]):::last";
   tab +:+ "__start__ --> llmCall;";
   tab +:+ "toolNode --> llmCall;";
   tab +:+ "llmCall -.-> toolNode;";
   tab +:+ "llmCall -.-> __end__;";
   tab +:+ "classDef default fill:#f2f0ff,line-height:1.2;";
   tab +:+ "classDef first fill-opacity:0;";
   tab +:+ "classDef last fill:#bfb6fc;"].

Definition complex_graph : list string :=
  ["%%{init: {'flowchart': {'curve': 'linear'}}}%%";
   "graph TD;";
   tab +:+ "__start__([<p>__start__</p>]):::first";
   tab +:+ "classifyInput(classifyInput)";
   tab +:+ "processMath(processMath)";
   tab +:+ "processText(processText)";
   tab +:+ "processData(processData)";
   tab +:+ "enrichData(enrichData)";
   tab +:+ "summarizeResults(summarizeResults)";
   tab +:+ "__end__([<p>__end__</p>]):::last";
   tab +:+ "__start__ --> classifyInput;";
   tab +:+ "enrichData --> summarizeResults;";
   tab +:+ "processData --> enrichData;";
   tab +:+ "processMath --> enrichData;";
   tab +:+ "processText --> enrichData;";
   tab +:+ "summarizeResults --> __end__;";
   tab +:+ "classifyInput -.-> processMath;";
   tab +:+ "classifyInput -.-> processText;";
   tab +:+ "classifyInput -.-> processData;";
   tab +:+ "classifyInput -.-> enrichData;";
   tab +:+ "classDef default fill:#f2f0ff,line-height:1.2;";
   tab +:+ "classDef first fill-opacity:0;";
   tab +:+ "classDef last fill:#bfb6fc;"].

(** A row of the table: the file, the number of nodes, the number of
    conditional edges, the tools and the tracing. *)
Record Row : Type := mkRow {
  row_file : string;
  row_nodes : nat;
  row_branchings : nat;
  row_tools : list string;
  row_trace : string;
}.

Definition table : list Row :=
  [mkRow "src/graph/hello-world.ts" 1 0 [] "なし";
   mkRow "src/graph/devin-mcp-graph.ts" 5 2 ["MCP (DeepWiki)"] "Langfuse";
   mkRow "src/graph/graph.ts" 2 1 ["add"; "multiply"; "divide"] "なし";
   mkRow "src/graph/graph-trace.ts" 2 1 ["add"; "multiply"; "divide"] "Langfuse";
   mkRow "src/graph/complex-graph-auto-trace.ts" 6 1
     ["calculate"; "processText"; "analyzeData"] "Langfuse"].

(** The result at the end of the example of the README. *)
Definition readme_result : list string :=
  ["";
   "━━━ 最終結果 ━━━";
   "[human]: Add 3 and 4.";
   "[ai]:";
   "  └─ tool_calls: add({" +:+ Js.quote +:+ "a" +:+ Js.quote +:+ ":3,"
     +:+ Js.quote +:+ "b" +:+ Js.quote +:+ ":4})";
   "[tool]: 7";
   "[ai]: 7";
   "━━━━━━━━━━━━━━━━"].

(** The title of the example. *)
Definition readme_title : string := "🤖 エージェント開始".

(** The example before its result: the title, the prompt and the tool
    call. The line of the system prompt is cut short with three dots. *)
Definition readme_debug : list string :=
  [readme_title;
   "";
   "━━━ LLMに送信するメッセージ ━━━";
   "[1] system: You are a helpful assistant...";
   "[2] human: Add 3 and 4.";
   "━━━━━━━━━━━━━━━━━━━━━━━";
   "";
   "🔧 ツール呼び出し: add({" +:+ Js.quote +:+ "a" +:+ Js.quote +:+ ":3,"
     +:+ Js.quote +:+ "b" +:+ Js.quote +:+ ":4})";
   "✓ ツール結果: 7"].

(** What the README says every agent prints: the messages sent to the
    model and the tool calls. *)
Definition readme_debug_marks : list string :=
  ["━━━ LLMに送信するメッセージ ━━━"; "🔧 ツール呼び出し: "].

(** The samples of the README: the file, the command that runs it and
    the tools the text gives its agent. Those of basic.ts and of
    real-world.ts are described, those of graph.ts are named, and
    functional.ts is said to do what graph.ts does. *)
Record Sample : Type := mkSample {
  sample_file : string;
  sample_command : string;
  sample_tools : list string;
}.

Definition basic_sample : Sample :=
  mkSample "basic.ts" "npm run basic" ["天気情報を取得するツール"].

Definition real_world_sample : Sample :=
  mkSample "real-world.ts" "npm run real" ["天気取得"; "ユーザー位置取得"].

Definition graph_sample : Sample :=
  mkSample "graph.ts" "npm run graph" ["add"; "multiply"; "divide"].

Definition functional_sample : Sample :=
  mkSample "functional.ts" "npm run functional" (sample_tools graph_sample).

(** What the README says real-world.ts has: a system prompt, several
    tools and a memory of the conversation. *)
Definition real_world_features : list string :=
  ["システムプロンプト"; "複数のツール（天気取得、ユーザー位置取得）";
   "会話メモリ（MemorySaver）"].

(** graphs.md on the complex graph: the categories of the classification,
    and the tool of each processing path. *)
Definition categories : list string := ["math"; "text"; "data"; "unknown"].

Definition category_tools : list (string * string) :=
  [("math", "calculate"); ("text", "processText"); ("data", "analyzeData")].

End Documented.

(** What a console shows: the lines of what was printed, without the white
    space at their end. *)
Definition screen (console : list string) : list string :=
  Js.trim_end <$> (console ≫= Js.split newline_char).

(** A documented line stands for a printed line: the same line, or its
    beginning when the document cuts it short with three dots. *)
Definition abridges (documented printed : string) : bool :=
  let n := String.length documented - 3 in
  if String.eqb (String.substring n 3 documented) "..."
  then String.prefix (String.substring 0 n documented) printed
  else String.eqb documented printed.

(** The documented lines are an excerpt of the screen: they stand for
    lines of it, in order, with other lines in between. *)
Fixpoint excerpt (documented shown : list string) : bool :=
  match shown with
  | [] => bool_decide (documented = [])
  | line :: later =>
      match documented with
      | [] => true
      | first :: rest =>
          if abridges first line then excerpt rest later else excerpt documented later
      end
  end.

(** The screen shows a line that starts with [mark]. *)
Definition mentions (mark : string) (shown : list string) : bool :=
  bool_decide (Exists (λ line, String.prefix mark line = true) shown).

(** The graph of hello-world.ts, as the documentation describes it: one
    node between [START] and [END]. *)
Definition hello_world {Σ St Up} (mock_llm : St → M Σ Up) : StateGraph Σ St Up :=
  new_StateGraph
  |> addNode "mock_llm" mock_llm
  |> addEdge START "mock_llm"
  |> addEdge "mock_llm" END.

(** The row of the table a graph and its tools give. *)
Definition row_of {Σ St Up} (file : string) (g : StateGraph Σ St Up) (tools : list string)
    (trace : string) : Documented.Row :=
  Documented.mkRow file (length (node_names g)) (branchings g) tools trace.

(** ** The layout draws the edges of the graph *)

Section layout_lemmas.
Context {Σ St Up : Type}.
Implicit Types (g : StateGraph Σ St Up).

Lemma elem_of_static_edges g src dst :
  (src, dst) ∈ static_edges g ↔ (src, Static dst) ∈ sg_edges g.
Proof.
  unfold static_edges. rewrite list_elem_of_omap. split.
  - intros ([src' [d|router ends]] & Hin & [= <- <-]); done.
  - intros Hin. by exists (src, Static dst).
Qed.

Lemma elem_of_conditional_edges g src label dst :
  (src, label, dst) ∈ conditional_edges g ↔
  ∃ router ends, (src, Conditional router ends) ∈ sg_edges g ∧ (label, dst) ∈ ends.
Proof.
  unfold conditional_edges. rewrite list_elem_of_bind. split.
  - intros ([src' [d|router ends]] & Hin & Hse); cbn in Hin; [by apply elem_of_nil in Hin|].
    apply list_elem_of_fmap in Hin as ([label' dst'] & [= <- <- <-] & Hin). eauto.
  - intros (router & ends & Hse & Hin). exists (src, Conditional router ends).
    split; [|done]. cbn. apply list_elem_of_fmap. by exists (label, dst).
Qed.

(** The solid arrows are the static edges, sorted by their source. *)
Lemma layout_solid g :
  d_solid (layout g) ≡ₚ static_edges g ∧ Sorted by_source (d_solid (layout g)).
Proof. split; [apply merge_sort_Permutation | apply (Sorted_merge_sort _)]. Qed.

(** The arrows out of a node are the ways a walk can take from it, when no
    node has two outgoing edges. *)
Lemma layout_successors g n d :
  NoDup (sg_edges g).*1 →
  d ∈ successors g n ↔
  (n, d) ∈ d_solid (layout g) ∨ ∃ label, (n, label, d) ∈ d_dotted (layout g).
Proof.
  intros Hnodup. destruct (layout_solid g) as [Hperm _]. rewrite Hperm. cbn.
  rewrite elem_of_static_edges. setoid_rewrite elem_of_conditional_edges.
  unfold successors. split.
  - destruct (Js.assoc n (sg_edges g)) as [[d'|router ends]|] eqn:E; cbn;
      [|intros ([label d'] & -> & Hin)%list_elem_of_fmap; right; exists label, router, ends
       |by intros ?%elem_of_nil].
    + intros ->%list_elem_of_singleton. left. by apply assoc_Some_elem_of.
    + split; [by apply assoc_Some_elem_of | done].
  - intros Hin.
    assert (∃ e, (n, e) ∈ sg_edges g ∧ d ∈ edge_dests e) as (e & He & Hd).
    { destruct Hin as [Hin|(label & router & ends & Hin & Hl)].
      - exists (Static d). split; [done | by apply list_elem_of_singleton].
      - exists (Conditional router ends). split; [done|].
        apply list_elem_of_fmap. by exists (label, d). }
    by rewrite (assoc_NoDup _ _ _ Hnodup He).
Qed.

(** An arrow of a drawing, solid or dotted. *)
Definition arrow (d : Diagram) (n m : string) : Prop :=
  (n, m) ∈ d_solid d ∨ ∃ label, (n, label, m) ∈ d_dotted d.

(** The nodes [l] follow one another along the arrows of [d]. *)
Fixpoint along (d : Diagram) (l : list string) : Prop :=
  match l with
  | n :: l' =>
      match l' with
      | [] => True
      | m :: _ => arrow d n m ∧ along d l'
      end
  | [] => True
  end.

Lemma chain_along `{Annotation St Up} g l :
  NoDup (sg_edges g).*1 → chain g l → along (layout g) l.
Proof.
  intros Hnodup. induction l as [|n [|m l] IH]; cbn; [done..|].
  intros [Hm Hl]. split; [by apply layout_successors | by apply IH].
Qed.

(** The nodes a walk of a graph that compiles executes follow the arrows
    of the drawing of the graph, whatever the nodes do. *)
Lemma walk_along `{Annotation St Up} g cg fuel s σ :
  compile g = Ok cg → NoDup (sg_edges g).*1 →
  along (layout g) (walk g fuel (cg_entry cg) s [] σ).1.2.
Proof.
  intros Hc Hnodup. destruct (compile_entry _ _ Hc) as [->|Hin]; [by rewrite walk_END|].
  destruct (walk g fuel (cg_entry cg) s [] σ) as [[r visited] σ'] eqn:Hw.
  apply walk_chain in Hw as (more & -> & _ & Hchain & _);
    [by apply chain_along | by eapply compile_wf | done].
Qed.

End layout_lemmas.

(** ** The documentation and the code *)

Section conformance.
Context `{Host} `{!Clock} `{!McpServer} `{!Langfuse} `{Runtime} `{Evaluator}.



(** The rows of the table are the rows the graphs and the registries
    of the scripts give: the numbers of nodes and of conditional edges of
    every graph are the documented ones, the tools of the two graph agents
    are the documented ones in the documented order, and the tools of the
    complex graph are the documented ones in another order. *)
Theorem table_conforms :
  Documented.table !! 1
  = Some (row_of "src/graph/devin-mcp-graph.ts" Devin.graph_builder ["MCP (DeepWiki)"]
            "Langfuse") ∧
  Documented.table !! 2
  = Some (row_of "src/graph/graph.ts" Graph.agent_graph (tool_name <$> Calculator.tools)
            "なし") ∧
  Documented.table !! 3
  = Some (row_of "src/graph/graph-trace.ts" GraphTrace.agent_graph
            (tool_name <$> GraphTrace.tools) "Langfuse") ∧
  ∃ tools,
    Documented.table !! 4
    = Some (row_of "src/graph/complex-graph-auto-trace.ts" Complex.graph_builder tools
              "Langfuse") ∧
    tools ≡ₚ tool_name <$> ComplexTools.tools ∧ tools ≠ tool_name <$> ComplexTools.tools.
Proof.
  split_and!; [vm_compute; reflexivity..|].
  eexists. split_and!; [vm_compute; reflexivity| |done]. vm_compute.
  etrans; [apply Permutation_swap|]. etrans; [apply perm_skip, Permutation_swap|].
  apply Permutation_swap.
Qed.

End conformance.

(** The drawing of hello-world.ts is the drawing of a graph of one node,
    whatever the node does. *)
Lemma hello_world_drawing {Σ St Up} (mock_llm : St → M Σ Up) :
  drawMermaid (hello_world mock_llm) = Documented.hello_world ∧
  Documented.table !! 0
  = Some (row_of "src/graph/hello-world.ts" (hello_world mock_llm) [] "なし").
Proof. split; vm_compute; reflexivity. Qed.

(** ** The samples of the README *)

Section samples.
Context `{Host} `{Runtime} `{Evaluator}.

(** The agents have the tools the README gives them: one for basic.ts,
    two for real-world.ts, and for graph.ts and functional.ts the three
    tools it names, in the order of the registry. The agent of
    real-world.ts has the system prompt and the memory the README lists,
    the agent of basic.ts neither. *)
Theorem samples_conform :
  length (Documented.sample_tools Documented.basic_sample) = length (agent_tools Basic.agent) ∧
  length (Documented.sample_tools Documented.real_world_sample)
  = length (agent_tools Weather.agent) ∧
  length (Documented.sample_tools Documented.real_world_sample) + 1
  = length Documented.real_world_features ∧
  Documented.sample_tools Documented.graph_sample = tool_name <$> Calculator.tools ∧
  Documented.sample_tools Documented.functional_sample = FunctionalPlain.toolsByName.*1 ∧
  Documented.sample_tools Documented.functional_sample = Functional.toolsByName.*1 ∧
  is_Some (agent_systemPrompt Weather.agent) ∧ is_Some (agent_checkpointer Weather.agent) ∧
  agent_systemPrompt Basic.agent = None ∧ agent_checkpointer Basic.agent = None.
Proof. by split_and!. Qed.

(** The categories of graphs.md are routed as it says: each category
    that has a tool to the node of its path, and [unknown] past the
    processing nodes; the tools of the paths are the tools the script
    registers. *)
Theorem categories_conform :
  Complex.route_of ∘ VStr <$> Documented.categories
  = ["processMath"; "processText"; "processData"; "enrichData"] ∧
  Documented.category_tools.*1 ++ ["unknown"] = Documented.categories ∧
  Documented.category_tools.*2 ≡ₚ tool_name <$> ComplexTools.tools.
Proof.
  split_and!; [done..|]. cbn.
  etrans; [apply Permutation_swap|]. etrans; [apply perm_skip, Permutation_swap|].
  apply Permutation_swap.
Qed.

End samples.

(** graphs.md gives each processing path one tool. The script binds the
    three tools to the model of every path and runs whatever tool the
    model names: on the path of mathematics, a model that asks for
    [processText] gets it. *)
Example any_tool_on_any_path :
  let upper := mkToolCall "processText"
                 (VObj [("text", VStr "abc"); ("operation", VStr "uppercase")]) "call_1" in
  (@Complex.processMathNode Stub.scripted ComplexStub.clock ComplexStub.runtime
     ComplexStub.evaluator [("input", VStr "abc")]
     (ComplexStub.boot [Ok (VStr "", [upper])])).1
  = Ok [("processed", VBool true); ("path", VStr "math"); ("response", VStr "ABC")] ∧
  Js.assoc "math" Documented.category_tools = Some "calculate".
Proof. split; vm_compute; reflexivity. Qed.

(** ** The example of the README *)

(** An excerpt stands for a sublist of the screen, line by line. *)
Lemma excerpt_sublist documented shown :
  excerpt documented shown = true →
  ∃ lines, lines `sublist_of` shown ∧
           Forall2 (λ d line, abridges d line = true) documented lines.
Proof.
  revert documented. induction shown as [|line later IH]; intros documented; cbn.
  - intros ->%bool_decide_eq_true. by exists [].
  - destruct documented as [|first rest]; [intros _; exists []; split;
      [apply sublist_nil_l | constructor]|].
    destruct (abridges first line) eqn:E; intros (lines & Hs & Hl)%IH.
    + exists (line :: lines). split; [by apply sublist_skip | by constructor].
    + exists lines. split; [by apply sublist_cons | done].
Qed.

(** The first part of the example is an excerpt of what src/functional.ts
    prints on the scenario: the script also prints the number of the
    iteration, the second prompt and the end of the loop, which the
    example leaves out. The whole example is an excerpt of what no script
    prints: src/functional.ts does not print its last line, and the traced
    agents print another title. *)
Example readme_example_abridged :
  let functional := screen (console (@Functional.main Stub.scripted Stub.runtime 25
                                       (Stub.boot Stub.add_script)).2) in
  let functional_trace :=
    screen (console (@FunctionalTrace.main Stub.scripted ComplexStub.langfuse Stub.runtime
                       25 (Stub.boot Stub.add_script)).2) in
  let graph_trace := screen (console (@GraphTrace.main Stub.scripted ComplexStub.langfuse
                                        Stub.runtime (Stub.boot Stub.add_script)).2) in
  let example := Documented.readme_debug ++ Documented.readme_result in
  excerpt Documented.readme_debug functional = true ∧
  mentions "📍 反復 1" functional = true ∧
  excerpt example functional = false ∧
  excerpt example functional_trace = false ∧
  excerpt example graph_trace = false ∧
  excerpt (tail example) graph_trace = true.
Proof. vm_compute. done. Qed.

(** The README says every agent prints the messages it sends to the model
    and its tool calls. The graph agent of src/graph.ts, the plain
    functional agent and the agents of [createAgent] print neither. *)
Example plain_agents_print_no_debug :
  let graph := screen (console (@Graph.main Stub.scripted Stub.runtime
                                  (Stub.boot Stub.add_script)).2) in
  let plain := screen (console (@FunctionalPlain.main Stub.scripted Stub.runtime 25
                                  (Stub.boot Stub.add_script)).2) in
  Forall (λ mark, mentions mark graph = false ∧ mentions mark plain = false)
    Documented.readme_debug_marks ∧
  graph = ["";
           "Results:";
           "[human]: Add 3 and 4.";
           "[ai]:";
           "[tool]: 7";
           "[ai]: 7"].
Proof. vm_compute. by repeat constructor. Qed.

(** On the scenario of the example the traced graph agent prints the
    result the README shows, under another title. *)
Example readme_result_graph_trace :
  let shown := screen (console (@GraphTrace.main Stub.scripted ComplexStub.langfuse
                                  Stub.runtime (Stub.boot Stub.add_script)).2) in
  take 8 (drop 26 shown) = Documented.readme_result ∧ Documented.readme_title ∉ shown.
Proof. split; [vm_compute; reflexivity | apply (bool_decide_unpack _); by vm_compute]. Qed.

(** The example of the README is not what src/functional.ts prints:
    under the title of the example, the script prints the result without
    its last line, the answer of the model, which the agent never adds to
    the transcript it returns. *)
Example readme_result_functional :
  let shown := screen (console (@Functional.main Stub.scripted Stub.runtime 25
                                  (Stub.boot Stub.add_script)).2) in
  Documented.readme_title ∈ shown ∧
  ∃ before answer rule,
    Documented.readme_result = before ++ [answer; rule] ∧
    answer = "[ai]: 7" ∧
    take 7 (drop 25 shown) = before ++ [rule] ∧ answer ∉ shown.
Proof.
  split; [apply (bool_decide_unpack _); by vm_compute|].
  eexists (take 6 Documented.readme_result), _, _. split_and!; [reflexivity..| |].
  - vm_compute. reflexivity.
  - apply (bool_decide_unpack _). by vm_compute.
Qed.
