(* ===== verification/Config.v ===== *)
(** * The configuration of the clients

    Every script builds its chat model with
    [new AzureChatOpenAI({ azureOpenAIApiKey: process.env.AZURE_OPENAI_API_KEY, .. })]
    and the scripts that trace build a handler with
    [new CallbackHandler({ publicKey: process.env.LANGFUSE_PUBLIC_KEY, .. })].
    This file models the objects the two constructors are given, as
    functions of the environment [process.env] after [dotenv/config] has
    loaded the file [.env], and the [.env] file the README tells the user
    to write.

    What the constructors do with the fields (the connection to the
    provider, its authentication, the failure on a missing key) is the
    library's and is not modelled: the model answers through the class
    [Host] whatever its configuration.

    Theorems: the models of all the scripts are built from the same four
    variables and from nothing else ([models_agree],
    [models_read_documented_variables]); the [.env] file of the README sets
    all four ([readme_configures_models]) and none of the three variables
    the handlers read ([readme_omits_langfuse]); graph-trace.ts and
    functional-trace.ts attach their handler to the model twice, in the
    constructor and in the options of each call ([handler_attached_twice]). *)

From stdpp Require Import base option list strings gmap.
From S2P Require Import Prelude JsValue.

(** [process.env]: a variable that is not set reads [undefined]. *)
Definition Env : Type := gmap string string.

Definition env_get (env : Env) (name : string) : value :=
  from_option VStr VUndefined (env !! name).

(** The object given to [new CallbackHandler(..)]. *)
Record HandlerFields : Type := mkHandlerFields {
  publicKey : value;
  secretKey : value;
  baseUrl : value;
  sessionId : value;
  metadata : list (string * value);
}.

(** The object given to [new AzureChatOpenAI(..)]. *)
Record ModelFields : Type := mkModelFields {
  azureOpenAIApiKey : value;
  azureOpenAIEndpoint : value;
  azureOpenAIApiDeploymentName : value;
  azureOpenAIApiVersion : value;
  model_callbacks : list HandlerFields;
}.

(** The model without its handlers. *)
Definition untraced (m : ModelFields) : ModelFields :=
  mkModelFields (azureOpenAIApiKey m) (azureOpenAIEndpoint m)
    (azureOpenAIApiDeploymentName m) (azureOpenAIApiVersion m) [].

Module Config.

Section config.
Context (env : Env).

(** src/graph.ts *)
Definition graph_model : ModelFields :=
  mkModelFields (env_get env "AZURE_OPENAI_API_KEY") (env_get env "AZURE_OPENAI_ENDPOINT")
    (env_get env "AZURE_OPENAI_DEPLOYMENT_NAME") (env_get env "AZURE_OPENAI_API_VERSION") [].

(** src/functional.ts *)
Definition functional_model : ModelFields :=
  mkModelFields (env_get env "AZURE_OPENAI_API_KEY") (env_get env "AZURE_OPENAI_ENDPOINT")
    (env_get env "AZURE_OPENAI_DEPLOYMENT_NAME") (env_get env "AZURE_OPENAI_API_VERSION") [].

(** functional.ts, the plain version *)
Definition functional_plain_model : ModelFields :=
  mkModelFields (env_get env "AZURE_OPENAI_API_KEY") (env_get env "AZURE_OPENAI_ENDPOINT")
    (env_get env "AZURE_OPENAI_DEPLOYMENT_NAME") (env_get env "AZURE_OPENAI_API_VERSION") [].

(** src/real-world.ts *)
Definition weather_model : ModelFields :=
  mkModelFields (env_get env "AZURE_OPENAI_API_KEY") (env_get env "AZURE_OPENAI_ENDPOINT")
    (env_get env "AZURE_OPENAI_DEPLOYMENT_NAME") (env_get env "AZURE_OPENAI_API_VERSION") [].

(** basic.ts *)
Definition basic_model : ModelFields :=
  mkModelFields (env_get env "AZURE_OPENAI_API_KEY") (env_get env "AZURE_OPENAI_ENDPOINT")
    (env_get env "AZURE_OPENAI_DEPLOYMENT_NAME") (env_get env "AZURE_OPENAI_API_VERSION") [].

(** src/devin-mcp-graph.ts *)
Definition analysis_model : ModelFields :=
  mkModelFields (env_get env "AZURE_OPENAI_API_KEY") (env_get env "AZURE_OPENAI_ENDPOINT")
    (env_get env "AZURE_OPENAI_DEPLOYMENT_NAME") (env_get env "AZURE_OPENAI_API_VERSION") [].

(** The handler of [runDocumentAnalysis]. *)
Definition analysis_handler (repoName : string) (session : value) : HandlerFields :=
  mkHandlerFields (env_get env "LANGFUSE_PUBLIC_KEY") (env_get env "LANGFUSE_SECRET_KEY")
    (env_get env "LANGFUSE_HOST") session
    [("environment", VStr "demo"); ("version", VStr "deepwiki-mcp-v1");
     ("repoName", VStr repoName)].

(** The handler of [runComplexGraph]. *)
Definition complex_handler (session : value) : HandlerFields :=
  mkHandlerFields (env_get env "LANGFUSE_PUBLIC_KEY") (env_get env "LANGFUSE_SECRET_KEY")
    (env_get env "LANGFUSE_HOST") session
    [("environment", VStr "demo"); ("version", VStr "auto-trace-v1")].

(** graph-trace.ts *)
Definition graph_trace_handler : HandlerFields :=
  mkHandlerFields (env_get env "LANGFUSE_PUBLIC_KEY") (env_get env "LANGFUSE_SECRET_KEY")
    (env_get env "LANGFUSE_HOST") VUndefined [].

Definition graph_trace_model : ModelFields :=
  mkModelFields (env_get env "AZURE_OPENAI_API_KEY") (env_get env "AZURE_OPENAI_ENDPOINT")
    (env_get env "AZURE_OPENAI_DEPLOYMENT_NAME") (env_get env "AZURE_OPENAI_API_VERSION")
    [graph_trace_handler].

(** The handlers of a call [modelWithTools.invoke(messages, { callbacks:
    [langfuseHandler] })] of [llmCall]: those of the model, then those of
    the call. *)
Definition graph_trace_call_handlers : list HandlerFields :=
  model_callbacks graph_trace_model ++ [graph_trace_handler].

(** src/src/functional/functional-trace.ts *)
Definition functional_trace_handler : HandlerFields :=
  mkHandlerFields (env_get env "LANGFUSE_PUBLIC_KEY") (env_get env "LANGFUSE_SECRET_KEY")
    (env_get env "LANGFUSE_HOST") VUndefined [].

Definition functional_trace_model : ModelFields :=
  mkModelFields (env_get env "AZURE_OPENAI_API_KEY") (env_get env "AZURE_OPENAI_ENDPOINT")
    (env_get env "AZURE_OPENAI_DEPLOYMENT_NAME") (env_get env "AZURE_OPENAI_API_VERSION")
    [functional_trace_handler].

(** The handlers of a call of the model in [callLlm]. *)
Definition functional_trace_call_handlers : list HandlerFields :=
  model_callbacks functional_trace_model ++ [functional_trace_handler].

(** The models of the eight scripts that build one here. *)
Definition models : list ModelFields :=
  [graph_model; functional_model; functional_plain_model; weather_model; basic_model;
   analysis_model; graph_trace_model; functional_trace_model].

End config.

End Config.

(** ** The README *)

Module Readme.

(** The [.env] file of the setup section. *)
Definition env_example : list (string * string) :=
  [("AZURE_OPENAI_API_KEY", "your-api-key-here");
   ("AZURE_OPENAI_ENDPOINT", "https://your-resource-name.openai.azure.com");
   ("AZURE_OPENAI_DEPLOYMENT_NAME", "gpt-4");
   ("AZURE_OPENAI_API_VERSION", "2024-02-15-preview")].

(** The environment of a process started with that file and nothing
    else. *)
Definition env : Env := list_to_map env_example.

End Readme.

(** ** Lemmas *)

(** Two environments that agree on the variables [names]. *)
Definition agree (names : list string) (env1 env2 : Env) : Prop :=
  Forall (λ name, env1 !! name = env2 !! name) names.

Lemma env_get_agree names env1 env2 name :
  agree names env1 env2 → name ∈ names → env_get env1 name = env_get env2 name.
Proof.
  intros Ha Hn. unfold env_get. by rewrite (proj1 (Forall_forall _ _) Ha name Hn).
Qed.

(** ** Properties *)

(** The models are one model: every script gives the constructor the same
    four fields, and the two traced scripts add their handler. *)
Lemma models_agree env :
  Forall (λ m, untraced m = Config.graph_model env) (Config.models env).
Proof. by repeat constructor. Qed.

(** The model of every script is determined by the four variables the
    README tells the user to set: in two environments that agree on
    AZURE_OPENAI_API_KEY, AZURE_OPENAI_ENDPOINT,
    AZURE_OPENAI_DEPLOYMENT_NAME and AZURE_OPENAI_API_VERSION, whatever
    else they hold, the eight scripts give the constructor of the model
    the same fields, handlers apart. *)
Theorem models_read_documented_variables env1 env2 :
  agree (Readme.env_example.*1) env1 env2 →
  untraced <$> Config.models env1 = untraced <$> Config.models env2.
Proof.
  intros Ha. unfold Config.models, untraced. cbn.
  by rewrite !(env_get_agree _ _ _ _ Ha) by (cbn; set_solver).
Qed.

(** The file of the README sets the four fields of the model. *)
Lemma readme_configures_models :
  Forall (λ m, untraced m
               = mkModelFields (VStr "your-api-key-here")
                   (VStr "https://your-resource-name.openai.azure.com")
                   (VStr "gpt-4") (VStr "2024-02-15-preview") [])
         (Config.models Readme.env).
Proof. vm_compute. by repeat constructor. Qed.

(** The setup of the README does not configure the tracing: in a
    process started with the file of the README alone, every handler the
    scripts build is given an undefined public key, an undefined secret
    key and an undefined address. *)
Theorem readme_omits_langfuse repoName session :
  Forall (λ h, publicKey h = VUndefined ∧ secretKey h = VUndefined ∧ baseUrl h = VUndefined)
    [Config.graph_trace_handler Readme.env; Config.functional_trace_handler Readme.env;
     Config.analysis_handler Readme.env repoName session;
     Config.complex_handler Readme.env session].
Proof. by repeat constructor. Qed.

(** The traced scripts give their handler to the constructor of the model
    and again to every call of the model: the list of the handlers of a
    call holds it twice. *)
Lemma handler_attached_twice env :
  Config.graph_trace_call_handlers env
  = [Config.graph_trace_handler env; Config.graph_trace_handler env] ∧
  Config.functional_trace_call_handlers env
  = [Config.functional_trace_handler env; Config.functional_trace_handler env].
Proof. done. Qed.

(** ** Witnesses *)

Lemma models_read_documented_variables_witness :
  untraced <$> Config.models Readme.env
  = untraced <$> Config.models (<["LANGFUSE_HOST" := "http://localhost:3000"]> Readme.env).
Proof.
  apply models_read_documented_variables. unfold agree. cbn.
  repeat constructor; by vm_compute.
Defined.
